(* ===== verification/_CoqProject ===== *)
-Q . S2P
Prelude.v
Nom.v
VarInt.v
RustString.v
DnsName.v
DnsHeader.v
Question.v
Sigin.v
Certificate.v
Endpoint.v
RustFmt.v
Records.v
Packet.v
Signature.v
Wire.v
Candidates.v
Publish.v
Cache.v
MdnsRouter.v
Lookup.v
H3Client.v
H3Tasks.v
HttpClient.v
MdnsService.v
MdnsSocket.v
MdnsNet.v
ErrorReport.v
Display.v
Aggregates.v
MdnsLookup.v
MdnsSet.v
Resolvers.v
Streams.v
Resolve.v
ResolverConfig.v
Bootstrap.v
TestsWire.v
TestsResolve.v
