(* ===== verification/Prelude.v ===== *)
(** * ddns: a verification development of the DHTTP DNS library

    ** The program

    The crate (src/src) publishes and resolves the endpoint addresses of hosts under
    domain names.  Its parts, from the wire up:

    - the wire formats of src/core: DNS messages with name compression, the endpoint
      record (type E) with its modern and legacy layouts, QUIC variable-length
      integers, the signature fields of a publication and the response that carries
      several signed records;
    - the publisher (publishers/packet.rs), which turns the endpoints of an authority
      into a signed packet, and the grouping and selection of endpoint records by
      certificate chain (resolvers/endpoint_candidates.rs and endpoint_group.rs);
    - three clients that look names up and publish: HTTP/3 (h3.rs and h3/), HTTP
      (http.rs), sharing the code of api.rs, and multicast DNS (mdns.rs and mdns/),
      with one resolver per network interface and a set that follows the interfaces;
    - the aggregates of resolvers (resolvers.rs) and of publishers
      (publishers/aggregate.rs), and the registration of resolvers
      (resolver_config.rs);
    - the build script (build.rs), which fixes the name service, the bootstrap URL and
      the mDNS service domain.

    ** The files

    - [Prelude]: bytes, machine integers, results and panics; [RustString]: the string
      operations of the standard library, and [RustFmt] its text of strings, numbers and
      addresses; [Nom]: the parser and buffer crates.
    - [VarInt] (core/parser/varint.rs), [DnsName] (name.rs), [DnsHeader] (header.rs),
      [Question] (question.rs), [Sigin] (sigin.rs), [Certificate]
      (core/certificate.rs), [Endpoint] (record/endpoint.rs), [Records] (record.rs,
      srv.rs, txt.rs and ptr.rs), [Packet] (packet.rs), [Signature]
      (core/signature.rs), [Wire] (core/wire.rs).
    - [Candidates] (resolvers/endpoint_candidates.rs and endpoint_group.rs), [Publish]
      (publishers/packet.rs), [Cache] (h3/cache.rs), [Lookup] (api.rs), [H3Client]
      (h3.rs, h3/lookup.rs and h3/publish.rs), [H3Tasks] (the same resolver used by
      concurrent tasks), [HttpClient] (http.rs).
    - [MdnsRouter] (the router of mdns/protocol.rs), [MdnsSocket] (its socket and
      receiving task, and if_nametoindex.rs), [MdnsService] (mdns/service.rs),
      [MdnsNet] (many resolvers on a network), [MdnsLookup] (the lookups of mdns.rs)
      and [MdnsSet] (the set of resolvers of mdns.rs).
    - [ErrorReport] and [Aggregates] (resolvers.rs and publishers/aggregate.rs),
      [Resolvers] (candidate lookups: the interface of all resolvers and their
      aggregate), [Streams] (merged and deduplicated streams under a schedule),
      [Resolve] (record lookups: the [Resolve] interface, the resolvers that implement
      it and their aggregate) and [ResolverConfig] (resolver_config.rs).
    - [Display] (the text of integers, records and messages) and [Bootstrap] (build.rs
      and bootstrap.rs).
    - [TestsWire] and [TestsResolve]: the unit tests of the source files, as booleans
      that are evaluated on the definitions.

    Definitions have the names of the source; a method whose name is taken is
    prefixed by its type.

    ** How code is modelled

    Integers are [Z] with their width written out ([as_u], [u_ok]); bytes and strings
    are lists of integers below 256.  [Result] is the result type of Rust and
    [may_panic], an option, the result of code that can panic.  A [f32] is its bit
    pattern.  Methods that change an object return the new object.

    Code of other crates is a parameter, a class with the operations the crate calls;
    a second class states the documented laws a theorem relies on, and a model of both
    ([NomModel], [BitfieldModel], [CertModel], ...) lets every definition be
    evaluated: [Nom] and [NomSpec], [BufMut] and [BufMutSpec], [Bitfield] and
    [BitfieldSpec], [Certificates] and [CertificatesSpec] (types of [dhttp_home]),
    [Crypto] and [CryptoSpec] ([rustls], [ring] and [x509_parser]),
    [CertificateParsers], [Sha256] and [TextSpec] (Base64, X.509 and the digest),
    [UrlApi], [HeaderApi] and [DhttpEndpoint].

    What is outside the process is an argument: the outcome of every request, the
    datagrams that arrive, the current time, the calls of the operating system, and
    the order in which concurrent futures complete (a list in the order of
    completion, or a [reorder] function of which only [reorder l ≡ₚ l] is known; for
    streams a schedule, any function from the time to a choice among what is ready).
    Concurrency that shares state is a step relation with steps at the locks and
    [await] points: [MdnsRouter.step], [MdnsNet.net_step], [MdnsSet.set_step],
    [H3Tasks.shared_step], [Aggregates.next_step] and [Cache.reach].

    ** Fuel

    Recursion that is not structural takes fuel, and the fuel is shown to be enough.
    [be_name] follows pointers backwards and forwards; it never follows one twice, so
    [name_fuel] is the number of offsets times the length of the message.  The
    sections of a message recurse on the announced counts, at most 65535 each.
    [decimal] has one unit per bit of its number; UTF-8 decoding, trimming and
    [MdnsSocket.route_loop] one per byte or datagram.  Merged streams ([merge],
    [unique_stream]) have one unit per event their sources can still cause, the weight of
    the sources, and [merge_exact] and [unique_stream_exact] show that this drains them
    under every schedule.  No theorem excludes an input
    because fuel would run out.

    ** What is shown

    - Codecs: what the encoders write, the parsers read back, in every message the
      crate can build ([put_name_roundtrip], [endpoint_roundtrip],
      [packet_roundtrip], [multi_response_codec], [varint_codec]); the streaming
      encoder equals the plain one ([encode_records_correct]).
    - Robustness: the parsers are total on arbitrary bytes, pointer loops and forged
      counts included ([be_name_total], [be_packet_total], [endpoint_parse_sound]),
      and so are the decoder of responses ([lookup_response_sound]) and the mDNS
      receiving task ([route_exact]).
    - Authenticity: signatures made are accepted, bind all fields and bind the packet
      to the certificate ([signed_endpoint_verifies], [signed_data_binds],
      [sign_with_key_verifies], [signature_fields_verify]); publishers emit only their
      own name ([publish_guards], [publish_effects]); lookups return only what a
      server or a peer answered ([h3_lookup_sound], [mdns_network_sound]), also when
      lookups, publications and clearing share the cache ([concurrent_hits]).
    - Refinement: grouping and selection ([grouping_refinement],
      [selection_correct]), the cache as a map of deadlines ([cache_refinement]), both
      HTTP clients as one lookup ([http_h3_agree]), publication followed by lookup
      ([publish_lookup]) and the contracts of both resolver interfaces, kept by every
      resolver and by aggregates of them ([resolvers_contract],
      [resolvers_lookup_exact]).
    - Bounds: the limit on packets keeps the 16-bit counters from wrapping around
      ([sent_packet_whole]; without it answers are lost,
      [wrapped_counter_loses_answers]).
    - Text: reports of failures and printed messages have exactly their lines
      ([report_complete], [packet_display_lines]), and the generated module of constants
      reads back as the configured values ([generated_constants]).
    - State machines: bounded queues of the router ([router_invariant]), no leaked
      resolvers ([set_no_leak]), reconciliation and its convergence
      ([reconcile_exact], [maintain_converges]), the exactness of streams
      ([unique_records], [set_stream_exact], [mdns_candidates_sound]), delivery of an
      exchange ([mdns_exchange], and in any reachable state of a network
      [mdns_network_live]), reports of publication ([publish_all_report]),
      registration ([install_once]), requests that would loop
      back ([no_self_recursion]).
    - Conformance: the unit tests pass on the definitions ([name_tests_pass],
      [packet_tests_pass], [endpoint_tests_pass], [candidate_tests_pass], ...), so the
      model agrees with the code on the inputs and outputs its authors wrote down.
    - Deviations of the code from its intent: [unknown_class_skips_twice],
      [failed_signature_unreadable], [duplicate_id_unregisters],
      [stale_after_publish] and [txt_display_unbalanced].

    ** Not modelled

    The remaining [Debug] and [Display] implementations (derived ones, resolvers, most
    errors), [Hash], log messages, module declarations and re-exports, the integration
    tests, test support and examples.  [Publish], the other trait of the crate
    [qresolve], appears as the functions that implement it.  The theorems on resolvers
    hold for all values of the constants the build script fixes, which are arguments.
    Futures run to their end: a caller that drops a lookup or a shutdown half way is not
    modelled.  An operation of a concurrent map is one step, also [retain], which works
    shard by shard.  Names and endpoints that cannot be written to a message are excluded
    where a theorem is about a network ([MdnsNet.node_step]).  Sockets are the calls made on them, as compiled for
    Linux; timers are the outcomes they cause. *)

From stdpp Require Import base list list_numbers numbers option.
From Stdlib Require Import ZArith Lia.

(** ** Machine data

    A byte is a [Z] in [0, 256); a slice, a [Vec<u8>] and a [String] are lists
    of bytes.  The 16-, 32-, 64- and 128-bit unsigned integers are [Z] with
    their range stated where it matters, and [usize] is 64 bits wide. *)
Declare Scope ddns_scope.
Delimit Scope ddns_scope with ddns.
Global Open Scope Z_scope.

Abbreviation bytes := (list Z).

(** [x as u8], [x as u16], ...: truncation to a width of [w] bits. *)
Definition as_u (w x : Z) : Z := x mod 2 ^ w.

(** [!x] on [u8]. *)
Definition u8_not (x : Z) : Z := Z.lxor x 255.

(** [slice.len()]. *)
Definition blen {A} (l : list A) : Z := Z.of_nat (length l).

Definition byte_ok (b : Z) : Prop := 0 <= b < 256.
Definition bytes_ok (l : bytes) : Prop := Forall byte_ok l.
Definition u_ok (w x : Z) : Prop := 0 <= x < 2 ^ w.

Global Instance byte_ok_dec b : Decision (byte_ok b).
Proof. unfold byte_ok. apply _. Defined.
Global Instance bytes_ok_dec l : Decision (bytes_ok l).
Proof. unfold bytes_ok. apply _. Defined.
Global Instance u_ok_dec w x : Decision (u_ok w x).
Proof. unfold u_ok. apply _. Defined.

(** ** [Result<T, E>] of the Rust standard library and the [?] operator *)
Inductive Result (T E : Type) : Type :=
| Ok (v : T)
| Err (e : E).
Arguments Ok {T E} v.
Arguments Err {T E} e.

Notation "'let?' p := c1 'in' c2" :=
  (match c1 with Ok p => c2 | Err e => Err e end)
  (at level 10, p pattern, c1 at level 200, c2 at level 200,
   format "'[v' 'let?'  p  :=  c1  'in' '/' c2 ']'") : ddns_scope.

Global Open Scope ddns_scope.

Definition result_map_err {T E F} (f : E -> F) (r : Result T E) : Result T F :=
  match r with Ok v => Ok v | Err e => Err (f e) end.
Definition result_ok {T E} (r : Result T E) : option T :=
  match r with Ok v => Some v | Err _ => None end.
Definition is_ok {T E} (r : Result T E) : bool :=
  match r with Ok _ => true | Err _ => false end.
Definition unwrap_or {T E} (r : Result T E) (d : T) : T :=
  match r with Ok v => v | Err _ => d end.
Definition ok_or {T E} (o : option T) (e : E) : Result T E :=
  match o with Some v => Ok v | None => Err e end.

Lemma is_ok_unwrap {T E} (r : Result T E) d : is_ok r = true -> r = Ok (unwrap_or r d).
Proof. by destruct r. Qed.

Lemma ok_some_unwrap {T E} (r : Result (option T) E) d :
  match r with Ok (Some _) => true | _ => false end = true ->
  r = Ok (Some (default d (unwrap_or r None))).
Proof. by destruct r as [[]|]. Qed.

Global Instance Result_eq_dec {T E} `{EqDecision T} `{EqDecision E} :
  EqDecision (Result T E).
Proof. solve_decision. Defined.

(** A partial operation of the code ([unreachable!], an index out of range, an
    [expect]) is a function to [option]: [None] is a panic. *)
Abbreviation may_panic := option (only parsing).

(** ** Big-endian integers: [uN::to_be_bytes] and [uN::from_be_bytes] *)
Fixpoint to_be (n : nat) (v : Z) : bytes :=
  match n with
  | O => []
  | S k => (v / 256 ^ Z.of_nat k) mod 256 :: to_be k v
  end.

Fixpoint of_be (l : bytes) : Z :=
  match l with
  | [] => 0
  | b :: l => b * 256 ^ blen l + of_be l
  end.

(** ** Lemmas on lengths *)
Lemma blen_nonneg {A} (l : list A) : 0 <= blen l.
Proof. unfold blen. lia. Qed.

Lemma blen_nil {A} : blen (@nil A) = 0.
Proof. reflexivity. Qed.

Lemma blen_cons {A} (x : A) l : blen (x :: l) = 1 + blen l.
Proof. unfold blen. cbn [length]. lia. Qed.

Lemma blen_app {A} (l k : list A) : blen (l ++ k) = blen l + blen k.
Proof. unfold blen. rewrite length_app. lia. Qed.

Lemma blen_to_be n v : blen (to_be n v) = Z.of_nat n.
Proof. induction n as [|n IH]; cbn [to_be]; [done|]. rewrite blen_cons, IH. lia. Qed.

Lemma length_to_be n v : length (to_be n v) = n.
Proof. induction n; cbn [to_be length]; congruence. Qed.

Lemma blen_drop {A} n (l : list A) :
  (n <= length l)%nat -> blen (drop n l) = blen l - Z.of_nat n.
Proof. unfold blen. rewrite length_drop. lia. Qed.

Create Rewrite HintDb blen.
#[export] Hint Rewrite @blen_nil @blen_cons @blen_app blen_to_be : blen.

Ltac blen_lia := autorewrite with blen in *; try lia; unfold blen in *; lia.

(** ** Lemmas on big-endian integers *)
Lemma pow256_pos k : 0 < 256 ^ Z.of_nat k.
Proof. apply Z.pow_pos_nonneg; lia. Qed.

Lemma of_be_to_be n v : of_be (to_be n v) = v mod 256 ^ Z.of_nat n.
Proof.
  induction n as [|n IH]; cbn [to_be of_be]; [by rewrite Z.mod_1_r|].
  rewrite blen_to_be, IH. pose proof (pow256_pos n).
  replace (Z.of_nat (S n)) with (Z.of_nat n + 1) by lia.
  rewrite Z.pow_add_r by lia. change (256 ^ 1) with 256.
  rewrite Z.rem_mul_r by lia. lia.
Qed.

Lemma of_be_to_be_id n v : 0 <= v < 256 ^ Z.of_nat n -> of_be (to_be n v) = v.
Proof. intros. rewrite of_be_to_be. by apply Z.mod_small. Qed.

Lemma of_be_range l : bytes_ok l -> 0 <= of_be l < 256 ^ blen l.
Proof.
  induction 1 as [|b l Hb Hl IH]; cbn [of_be]; [by cbn|].
  unfold byte_ok in Hb. rewrite blen_cons, Z.pow_add_r by (pose proof (blen_nonneg l); lia).
  change (256 ^ 1) with 256. nia.
Qed.

Lemma to_be_ok n v : bytes_ok (to_be n v).
Proof.
  induction n as [|n IH]; cbn [to_be]; constructor; [|done].
  unfold byte_ok. apply Z.mod_pos_bound. lia.
Qed.

Lemma to_be_mod n v k :
  (n <= k)%nat -> to_be n (v mod 256 ^ Z.of_nat k) = to_be n v.
Proof.
  induction n as [|n IH]; cbn [to_be]; intros; [done|]. f_equal; [|apply IH; lia].
  replace (Z.of_nat k) with (Z.of_nat n + (1 + Z.of_nat (k - S n))) by lia.
  pose proof (pow256_pos n). pose proof (pow256_pos (k - S n)).
  rewrite !Z.pow_add_r by lia. change (256 ^ 1) with 256.
  rewrite Z.rem_mul_r by nia.
  rewrite (Z.mul_comm (256 ^ Z.of_nat n)), Z.div_add, Z.div_small
    by (try apply Z.mod_pos_bound; lia).
  rewrite Z.add_0_l, Z.rem_mul_r by lia.
  rewrite (Z.mul_comm 256), Z.mod_add, Z.mod_mod by lia. done.
Qed.

Lemma to_be_of_be l : bytes_ok l -> to_be (length l) (of_be l) = l.
Proof.
  induction 1 as [|b l Hb Hl IH]; cbn [to_be of_be length]; [done|].
  pose proof (of_be_range l Hl) as Hr. unfold byte_ok in Hb. unfold blen in *.
  pose proof (pow256_pos (length l)). f_equal.
  - rewrite Z.add_comm, Z.div_add, Z.div_small, Z.add_0_l by lia. by apply Z.mod_small.
  - rewrite <- (to_be_mod _ _ (length l)) by lia.
    rewrite Z.add_comm, Z.mod_add, Z.mod_small by lia. done.
Qed.

Lemma of_be_app l k : of_be (l ++ k) = of_be l * 256 ^ blen k + of_be k.
Proof.
  induction l as [|b l IH]; cbn [of_be app]; [lia|].
  rewrite IH, blen_app, Z.pow_add_r by apply blen_nonneg. lia.
Qed.

Lemma of_be_cons b l : of_be (b :: l) = b * 256 ^ blen l + of_be l.
Proof. done. Qed.

Lemma of_be_one b : of_be [b] = b.
Proof. cbn [of_be]. rewrite blen_nil. lia. Qed.

Lemma to_be_one b : byte_ok b -> to_be 1 b = [b].
Proof. unfold byte_ok. intros. cbn [to_be]. rewrite Z.div_1_r, Z.mod_small by lia. done. Qed.

Lemma of_be_zeros n : of_be (replicate n 0) = 0.
Proof. induction n; cbn [of_be replicate]; lia. Qed.

(** ** Lemmas on bit fields *)
Lemma land_high c k x : 0 <= k -> 0 <= x < 2 ^ k -> Z.land (Z.shiftl c k) x = 0.
Proof.
  intros Hk Hx. apply Z.bits_inj'. intros i Hi. rewrite Z.land_spec, Z.bits_0.
  destruct (Z.ltb_spec i k); [by rewrite Z.shiftl_spec_low by done|].
  rewrite <- (Z.mod_small x (2 ^ k)), Z.mod_pow2_bits_high by lia.
  apply andb_false_r.
Qed.

Lemma lor_high c k x :
  0 <= k -> 0 <= x < 2 ^ k -> Z.lor (Z.shiftl c k) x = c * 2 ^ k + x.
Proof.
  intros Hk Hx. pose proof (land_high c k x Hk Hx) as H0.
  rewrite <- Z.shiftl_mul_pow2 by done.
  by rewrite Z.add_nocarry_lxor, Z.lxor_lor.
Qed.

(** ** Lemmas on byte lists *)
Lemma bytes_ok_app l k : bytes_ok (l ++ k) <-> bytes_ok l /\ bytes_ok k.
Proof. apply Forall_app. Qed.

Lemma bytes_ok_drop n l : bytes_ok l -> bytes_ok (drop n l).
Proof. apply Forall_drop. Qed.

Lemma bytes_ok_take n l : bytes_ok l -> bytes_ok (take n l).
Proof. apply Forall_take. Qed.

(** A property of all the bytes is checked by evaluation. *)
Lemma byte_enum (P : Z -> bool) :
  forallb P (seqZ 0 256) = true -> forall b, byte_ok b -> P b = true.
Proof.
  intros H b Hb. unfold byte_ok in Hb.
  rewrite forallb_forall in H. apply H, list_elem_of_In, elem_of_seqZ. lia.
Qed.

Ltac byte_enum_tac P b :=
  let H := fresh in
  assert (H : P b = true) by (apply (byte_enum P); [vm_compute; reflexivity | assumption]);
  revert H.

(** Decide a closed proposition by evaluation. *)
Ltac decide_now := refine (bool_decide_unpack _ _); vm_compute; exact I.

Create HintDb ddns discriminated.
#[export] Hint Resolve to_be_ok bytes_ok_drop bytes_ok_take blen_nonneg : ddns.

Arguments to_be : simpl never.
Arguments of_be : simpl never.
Arguments blen : simpl never.

(** ** [List.filter] *)
Lemma filter_none {A} (f : A -> bool) l : (forall x, x ∈ l -> f x = true) -> List.filter f l = l.
Proof.
  induction l as [|x l IH]; intros Hf; cbn; [done|]. rewrite Hf by apply list_elem_of_here.
  f_equal. apply IH. intros y Hy. apply Hf. by right.
Qed.

Lemma filter_filter {A} (f g : A -> bool) l :
  List.filter f (List.filter g l) = List.filter (fun x => g x && f x) l.
Proof.
  induction l as [|x l IH]; [done|]. cbn [List.filter]. destruct (g x); cbn [List.filter andb];
    [by rewrite IH|done].
Qed.

Lemma filter_map_swap {A B} (f : B -> bool) (g : A -> B) l :
  List.filter f (map g l) = map g (List.filter (fun x => f (g x)) l).
Proof.
  induction l as [|x l IH]; [done|]. cbn [map List.filter]. rewrite IH. by destruct (f (g x)).
Qed.
