(* ===== verification/Nom.v ===== *)
(** * The parser and buffer crates the wire code is written against

    [nom] and [bytes] are dependencies of the crate, not part of it: the wire
    code is modelled over the class [Nom] of the streaming parsers it calls and
    the class [BufMut] of the writers it calls.  [NomSpec] and [BufMutSpec] are
    the documented behaviour the theorems rely on.  [NomModel] instantiates
    both, so that every definition can be evaluated. *)

From stdpp Require Import base list numbers.
From S2P Require Import Prelude.

(** ** Errors of [nom]

    [OutOfFuel] is not an error of [nom]: it is what a bounded loop of the
    model returns when its bound is used up.  [Packet.be_packet_total] shows
    that the packet parser never returns it. *)
Inductive ErrorKind := Verify | Alt | Eof | TooLarge | LengthValue.
Inductive Needed := Unknown | Size (n : Z).
Inductive nom_err :=
| Incomplete (n : Needed)
| Error (input : bytes) (code : ErrorKind)
| Failure (input : bytes) (code : ErrorKind)
| OutOfFuel.

Definition IResult (A : Type) : Type := Result (bytes * A) nom_err.

Global Instance ErrorKind_eq_dec : EqDecision ErrorKind.
Proof. solve_decision. Defined.
Global Instance Needed_eq_dec : EqDecision Needed.
Proof. solve_decision. Defined.
Global Instance nom_err_eq_dec : EqDecision nom_err.
Proof. solve_decision. Defined.

(** ** [nom]: the streaming parsers in use *)
Class Nom := {
  needed_new : Z -> Needed;
  be_u8 : bytes -> IResult Z;
  be_u16 : bytes -> IResult Z;
  be_u32 : bytes -> IResult Z;
  be_u128 : bytes -> IResult Z;
  nom_take : Z -> bytes -> IResult bytes;
  nom_map : forall {A B}, (bytes -> IResult A) -> (A -> B) -> bytes -> IResult B;
  nom_flat_map :
    forall {A B}, (bytes -> IResult A) -> (A -> bytes -> IResult B) -> bytes -> IResult B;
}.

(** A fixed-width big-endian integer is read from the front of the input; a
    short input is [Incomplete] with the number of bytes that are missing. *)
Definition streaming_uint `{Nom} (n : nat) (input : bytes) : IResult Z :=
  if (length input <? n)%nat
  then Err (Incomplete (needed_new (Z.of_nat n - blen input)))
  else Ok (drop n input, of_be (take n input)).

Definition streaming_take `{Nom} (n : Z) (input : bytes) : IResult bytes :=
  if blen input <? n
  then Err (Incomplete (needed_new (n - blen input)))
  else Ok (drop (Z.to_nat n) input, take (Z.to_nat n) input).

Class NomSpec (N : Nom) : Prop := {
  be_u8_spec input : be_u8 input = streaming_uint 1 input;
  be_u16_spec input : be_u16 input = streaming_uint 2 input;
  be_u32_spec input : be_u32 input = streaming_uint 4 input;
  be_u128_spec input : be_u128 input = streaming_uint 16 input;
  nom_take_spec n input : 0 <= n -> nom_take n input = streaming_take n input;
  nom_map_spec A B (p : bytes -> IResult A) (f : A -> B) input :
    nom_map p f input = let? (r, v) := p input in Ok (r, f v);
  nom_flat_map_spec A B (p : bytes -> IResult A) (q : A -> bytes -> IResult B) input :
    nom_flat_map p q input = let? (r, v) := p input in q v r;
}.

(** ** [bytes::BufMut] for the growable buffers [Vec<u8>] and [BytesMut] *)
Class BufMut := {
  put_u8 : bytes -> Z -> bytes;
  put_u16 : bytes -> Z -> bytes;
  put_u32 : bytes -> Z -> bytes;
  put_u64 : bytes -> Z -> bytes;
  put_u128 : bytes -> Z -> bytes;
  put_slice : bytes -> bytes -> bytes;
}.

Class BufMutSpec (B : BufMut) : Prop := {
  put_u8_spec buf v : put_u8 buf v = buf ++ to_be 1 v;
  put_u16_spec buf v : put_u16 buf v = buf ++ to_be 2 v;
  put_u32_spec buf v : put_u32 buf v = buf ++ to_be 4 v;
  put_u64_spec buf v : put_u64 buf v = buf ++ to_be 8 v;
  put_u128_spec buf v : put_u128 buf v = buf ++ to_be 16 v;
  put_slice_spec buf s : put_slice buf s = buf ++ s;
}.

Create Rewrite HintDb put.
#[export] Hint Rewrite @put_u8_spec @put_u16_spec @put_u32_spec @put_u64_spec @put_u128_spec
  @put_slice_spec using solve [typeclasses eauto] : put.

(** ** Consequences shared by all the parsers *)
Section NomFacts.
Context `{NS : NomSpec}.

Lemma streaming_uint_app n v rest :
  0 <= v < 256 ^ Z.of_nat n ->
  streaming_uint n (to_be n v ++ rest) = Ok (rest, v).
Proof.
  intros Hv. unfold streaming_uint.
  rewrite length_app, length_to_be, (proj2 (Nat.ltb_ge _ _)) by lia.
  rewrite drop_app_length', take_app_length' by (by rewrite length_to_be).
  by rewrite of_be_to_be_id.
Qed.

Lemma streaming_uint_inv n input r v :
  streaming_uint n input = Ok (r, v) ->
  exists l, input = l ++ r /\ length l = n /\ v = of_be l.
Proof.
  unfold streaming_uint. destruct (Nat.ltb_spec (length input) n); [done|].
  intros [= <- <-]. exists (take n input).
  rewrite take_drop, length_take. repeat split; lia.
Qed.

Lemma be_u8_app v rest : u_ok 8 v -> be_u8 (to_be 1 v ++ rest) = Ok (rest, v).
Proof. intros. rewrite be_u8_spec. by apply streaming_uint_app. Qed.
Lemma be_u16_app v rest : u_ok 16 v -> be_u16 (to_be 2 v ++ rest) = Ok (rest, v).
Proof. intros. rewrite be_u16_spec. by apply streaming_uint_app. Qed.
Lemma be_u32_app v rest : u_ok 32 v -> be_u32 (to_be 4 v ++ rest) = Ok (rest, v).
Proof. intros. rewrite be_u32_spec. by apply streaming_uint_app. Qed.
Lemma be_u128_app v rest : u_ok 128 v -> be_u128 (to_be 16 v ++ rest) = Ok (rest, v).
Proof. intros. rewrite be_u128_spec. by apply streaming_uint_app. Qed.

Lemma nom_take_app l rest : nom_take (blen l) (l ++ rest) = Ok (rest, l).
Proof.
  rewrite nom_take_spec by apply blen_nonneg. unfold streaming_take.
  rewrite blen_app, (proj2 (Z.ltb_ge _ _)) by (pose proof (blen_nonneg rest); lia).
  unfold blen. rewrite Nat2Z.id.
  by rewrite drop_app_length, take_app_length.
Qed.

Lemma be_u8_cons b rest : be_u8 (b :: rest) = Ok (rest, b).
Proof. rewrite be_u8_spec. unfold streaming_uint. cbn. by rewrite of_be_one, drop_0. Qed.

(** A two-byte read fails only on a short input. *)
Lemma be_u16_cases i :
  match be_u16 i with
  | Ok (r, _) => blen i = 2 + blen r
  | Err e => (exists n, e = Incomplete n) /\ blen i < 2
  end.
Proof.
  rewrite be_u16_spec. unfold streaming_uint, blen.
  destruct (Nat.ltb_spec (length i) 2); [split; [eauto|lia]|]. rewrite length_drop. lia.
Qed.

Lemma be_u8_nil : be_u8 [] = Err (Incomplete (needed_new 1)).
Proof. by rewrite be_u8_spec. Qed.
End NomFacts.

(** ** Totality and consumption of parsers

    [yields r input Q] reads: the parser result [r] on [input] is either a value
    [v] with a consumed prefix [l] of [input] such that [Q l v], or an error of
    [nom] whose position is again made of bytes.  In particular the model did
    not run out of fuel.  Parsers are composed with [yields_bind]. *)
Definition err_ok (e : nom_err) : Prop :=
  match e with
  | Incomplete _ => True
  | Error i _ | Failure i _ => bytes_ok i
  | OutOfFuel => False
  end.

Definition yields {A} (r : IResult A) (input : bytes) (Q : bytes -> A -> Prop) : Prop :=
  match r with
  | Ok (remain, v) => exists l, input = l ++ remain /\ Q l v
  | Err e => err_ok e
  end.

Lemma yields_bind {A B} (p : IResult A) (k : bytes -> A -> IResult B) input Q R :
  yields p input Q ->
  (forall l remain v, input = l ++ remain -> Q l v ->
     yields (k remain v) remain (fun l' w => R (l ++ l') w)) ->
  yields (let? (remain, v) := p in k remain v) input R.
Proof.
  destruct p as [[remain v]|e]; cbn; [|done].
  intros (l & -> & HQ) Hk. specialize (Hk l remain v eq_refl HQ).
  destruct (k remain v) as [[remain' w]|e]; cbn in *; [|done].
  destruct Hk as (l' & -> & HR). exists (l ++ l'). by rewrite app_assoc.
Qed.

Lemma yields_weaken {A} (p : IResult A) input (Q R : bytes -> A -> Prop) :
  yields p input Q -> (forall l v, Q l v -> R l v) -> yields p input R.
Proof. destruct p as [[remain v]|e]; cbn; [|done].
  intros (l & -> & HQ) HR. eauto. Qed.

Lemma yields_ok {A} (remain : bytes) (v : A) (Q : bytes -> A -> Prop) :
  Q [] v -> yields (Ok (remain, v)) remain Q.
Proof. exists []. done. Qed.

Section YieldFacts.
Context `{NS : NomSpec}.

Lemma streaming_uint_yields n input :
  bytes_ok input ->
  yields (streaming_uint n input) input (fun l v => length l = n /\ v = of_be l /\
    0 <= v < 256 ^ Z.of_nat n).
Proof.
  intros Hok. unfold streaming_uint.
  destruct (Nat.ltb_spec (length input) n) as [|Hlen]; cbn; [done|].
  exists (take n input). rewrite take_drop.
  assert (length (take n input) = n) as Hn by (rewrite length_take; lia).
  pose proof (of_be_range (take n input) (bytes_ok_take _ _ Hok)) as Hr.
  unfold blen in Hr. rewrite Hn in Hr. done.
Qed.

Definition reads (n : nat) (w : Z) (l : bytes) (v : Z) : Prop :=
  length l = n /\ v = of_be l /\ u_ok w v.

Lemma reads_to_be n w l v : reads n w l v -> bytes_ok l -> to_be n v = l.
Proof. intros (<- & -> & _). apply to_be_of_be. Qed.

Lemma be_u8_yields input : bytes_ok input -> yields (be_u8 input) input (reads 1 8).
Proof.
  intros. rewrite be_u8_spec. eapply yields_weaken; [by apply streaming_uint_yields|].
  intros l v (? & ? & ?). split; [done|by split].
Qed.
Lemma be_u16_yields input : bytes_ok input -> yields (be_u16 input) input (reads 2 16).
Proof.
  intros. rewrite be_u16_spec. eapply yields_weaken; [by apply streaming_uint_yields|].
  intros l v (? & ? & ?). split; [done|by split].
Qed.
Lemma be_u32_yields input : bytes_ok input -> yields (be_u32 input) input (reads 4 32).
Proof.
  intros. rewrite be_u32_spec. eapply yields_weaken; [by apply streaming_uint_yields|].
  intros l v (? & ? & ?). split; [done|by split].
Qed.
Lemma be_u128_yields input : bytes_ok input -> yields (be_u128 input) input (reads 16 128).
Proof.
  intros. rewrite be_u128_spec. eapply yields_weaken; [by apply streaming_uint_yields|].
  intros l v (? & ? & ?). split; [done|by split].
Qed.

Lemma nom_take_yields n input :
  0 <= n -> bytes_ok input ->
  yields (nom_take n input) input (fun l v => l = v /\ blen v = n /\ bytes_ok v).
Proof.
  intros Hn Hok. rewrite nom_take_spec by done. unfold streaming_take.
  destruct (Z.ltb_spec (blen input) n) as [|Hlen]; cbn; [done|].
  exists (take (Z.to_nat n) input). rewrite take_drop.
  unfold blen in *. rewrite length_take.
  repeat split; eauto using bytes_ok_take. lia.
Qed.
End YieldFacts.

#[export] Hint Resolve be_u8_yields be_u16_yields be_u32_yields be_u128_yields : ddns.

(** One step of a sequence of parsers in a [yields] goal: [Hy] is the result for
    the parser at the head; the hypothesis on the input is split. *)
Ltac yields_step Hy :=
  eapply yields_bind; [eapply Hy; assumption|];
  let l := fresh "l" in let r := fresh "remain" in let v := fresh "v" in let H := fresh "Hv" in
  intros l r v -> H;
  match goal with
  | Hok : bytes_ok (l ++ r) |- _ =>
      let Hl := fresh "Hl" in apply bytes_ok_app in Hok as [Hl Hok]
  end.

(** ** The model of the two crates used to evaluate the definitions *)
Module NomModel.
Definition needed_new_model (n : Z) : Needed := if n =? 0 then Unknown else Size n.

Definition uint_model (n : nat) (input : bytes) : IResult Z :=
  if (length input <? n)%nat
  then Err (Incomplete (needed_new_model (Z.of_nat n - blen input)))
  else Ok (drop n input, of_be (take n input)).

#[export] Instance nom : Nom := {|
  needed_new := needed_new_model;
  be_u8 := uint_model 1;
  be_u16 := uint_model 2;
  be_u32 := uint_model 4;
  be_u128 := uint_model 16;
  nom_take n input :=
    if blen input <? n then Err (Incomplete (needed_new_model (n - blen input)))
    else Ok (drop (Z.to_nat n) input, take (Z.to_nat n) input);
  nom_map A B p f input := let? (r, v) := p input in Ok (r, f v);
  nom_flat_map A B p q input := let? (r, v) := p input in q v r;
|}.

#[export] Instance nom_spec : NomSpec nom.
Proof. by constructor. Qed.

#[export] Instance buf_mut : BufMut := {|
  put_u8 buf v := buf ++ to_be 1 v;
  put_u16 buf v := buf ++ to_be 2 v;
  put_u32 buf v := buf ++ to_be 4 v;
  put_u64 buf v := buf ++ to_be 8 v;
  put_u128 buf v := buf ++ to_be 16 v;
  put_slice buf s := buf ++ s;
|}.

#[export] Instance buf_mut_spec : BufMutSpec buf_mut.
Proof. by constructor. Qed.
End NomModel.
