(* ===== verification/VarInt.v ===== *)
(** * QUIC variable-length integers: src/core/parser/varint.rs *)

From stdpp Require Import base list numbers.
From S2P Require Import Prelude Nom.

(** ** The type and its constructors *)
Record VarInt := mkVarInt { varint_value : Z }.

Global Instance VarInt_eq_dec : EqDecision VarInt.
Proof. solve_decision. Defined.

Definition VARINT_MAX : Z := 0x3fffffffffffffff.

(** [err::Overflow]. *)
Record Overflow := mkOverflow { overflow_value : Z }.

Definition from_u32 (x : Z) : VarInt := mkVarInt x.

Definition from_u64 (value : Z) : Result VarInt Overflow :=
  if value <=? VARINT_MAX then Ok (mkVarInt value) else Err (mkOverflow value).

Definition from_u128 (value : Z) : Result VarInt Overflow :=
  if value <=? VARINT_MAX then Ok (mkVarInt (as_u 64 value)) else Err (mkOverflow value).

Definition into_inner (v : VarInt) : Z := varint_value v.

(** [TryFrom<u128>], [TryFrom<u64>] and [TryFrom<usize>]. *)
Definition varint_try_from_u128 (x : Z) : Result VarInt Overflow := from_u128 x.
Definition varint_try_from_u64 (x : Z) : Result VarInt Overflow := from_u64 x.
Definition varint_try_from_usize (x : Z) : Result VarInt Overflow :=
  varint_try_from_u64 (as_u 64 x).

(** [From<u8>], [From<u16>] and [From<u32>]. *)
Definition varint_from_u8 (x : Z) : VarInt := mkVarInt x.
Definition varint_from_u16 (x : Z) : VarInt := mkVarInt x.
Definition varint_from_u32 (x : Z) : VarInt := mkVarInt x.

(** [PartialEq<u64>] and [PartialOrd<u64>]. *)
Definition varint_eq_u64 (v : VarInt) (other : Z) : bool := varint_value v =? other.
Definition varint_partial_cmp_u64 (v : VarInt) (other : Z) : option comparison :=
  Some (varint_value v ?= other).

(** [encoding_size]; the last branch of the code is [unreachable!]. *)
Definition encoding_size (v : VarInt) : may_panic Z :=
  let x := varint_value v in
  if x <? Z.shiftl 1 6 then Some 1
  else if x <? Z.shiftl 1 14 then Some 2
  else if x <? Z.shiftl 1 30 then Some 4
  else if x <? Z.shiftl 1 62 then Some 8
  else None.

(** ** The wire format *)
Section Wire.
Context `{N : Nom} `{B : BufMut}.

Definition be_varint (input : bytes) : IResult VarInt :=
  let? (remain, first_byte) := be_u8 input in
  let len := 2 ^ Z.shiftr first_byte 6 in
  if blen remain + 1 <? len then
    Err (Incomplete (needed_new (len - (blen remain + 1))))
  else
    let buf := Z.land first_byte 0x3f :: take (Z.to_nat (len - 1)) remain
                 ++ replicate (Z.to_nat (8 - len)) 0 in
    let value := Z.shiftr (of_be buf) (8 * (8 - len)) in
    Ok (drop (Z.to_nat (len - 1)) remain, mkVarInt value).

Definition put_varint (buf : bytes) (v : VarInt) : may_panic bytes :=
  let x := varint_value v in
  if x <? Z.shiftl 1 6 then Some (put_u8 buf (as_u 8 x))
  else if x <? Z.shiftl 1 14 then
    Some (put_u16 buf (Z.lor (Z.shiftl 1 14) (as_u 16 x)))
  else if x <? Z.shiftl 1 30 then
    Some (put_u32 buf (Z.lor (Z.shiftl 2 30) (as_u 32 x)))
  else if x <? Z.shiftl 1 62 then
    Some (put_u64 buf (Z.lor (Z.shiftl 3 62) x))
  else None.

Definition varint_from_u64 (value : Z) : IResult VarInt :=
  match from_u64 value with
  | Ok v => Ok ([], v)
  | Err _ => Err (Error [] TooLarge)
  end.
End Wire.

(** ** Well-formedness: what the checked constructors establish *)
Definition varint_ok (v : VarInt) : Prop := 0 <= varint_value v < 2 ^ 62.

Global Instance varint_ok_dec v : Decision (varint_ok v).
Proof. unfold varint_ok. apply _. Defined.

(** The encoding as a function of the value alone: the two top bits of the
    first byte are the logarithm [c] of the length. *)
Definition varint_class (x : Z) : Z :=
  if x <? 2 ^ 6 then 0 else if x <? 2 ^ 14 then 1 else if x <? 2 ^ 30 then 2 else 3.

Definition varint_bytes (v : VarInt) : bytes :=
  let x := varint_value v in
  let n := Z.to_nat (2 ^ varint_class x) in
  to_be n (varint_class x * 2 ^ (8 * Z.of_nat n - 2) + x).

(** [u64::from_be_bytes(buf) >> (8 * k)] for a buffer padded with [k] zeros. *)
Lemma of_be_pad l k :
  Z.shiftr (of_be (l ++ replicate (Z.to_nat k) 0)) (8 * k) = of_be l \/ k < 0.
Proof.
  destruct (Z.lt_ge_cases k 0); [by right|left].
  rewrite of_be_app, of_be_zeros, Z.add_0_r, Z.shiftr_div_pow2 by lia.
  unfold blen. rewrite length_replicate, Z2Nat.id by lia.
  rewrite Z.pow_mul_r by lia. change (2 ^ 8) with 256.
  by rewrite Z.div_mul by (apply Z.pow_nonzero; lia).
Qed.

Lemma from_u64_ok x v : 0 <= x -> from_u64 x = Ok v -> varint_ok v.
Proof.
  unfold from_u64, VARINT_MAX, varint_ok. intros Hx.
  destruct (Z.leb_spec x 0x3fffffffffffffff); [|done]. intros [= <-]. cbn. lia.
Qed.

Lemma from_u32_ok x : u_ok 32 x -> varint_ok (from_u32 x).
Proof. unfold u_ok, varint_ok. cbn. lia. Qed.

(** Case analysis on the length class of a well-formed integer. *)
Ltac varint_cases x :=
  unfold varint_class;
  change (Z.shiftl 1 6) with (2 ^ 6) in *; change (Z.shiftl 1 14) with (2 ^ 14) in *;
  change (Z.shiftl 1 30) with (2 ^ 30) in *; change (Z.shiftl 1 62) with (2 ^ 62) in *;
  destruct (Z.ltb_spec x (2 ^ 6)); [|destruct (Z.ltb_spec x (2 ^ 14));
    [|destruct (Z.ltb_spec x (2 ^ 30)); [|destruct (Z.ltb_spec x (2 ^ 62)); [|lia]]]].

Lemma encoding_size_bytes v :
  varint_ok v -> encoding_size v = Some (blen (varint_bytes v)).
Proof.
  destruct v as [x]. unfold varint_ok, encoding_size, varint_bytes. cbn [varint_value].
  intros Hx. rewrite blen_to_be. by varint_cases x.
Qed.

Section WireFacts.
Context `{NS : NomSpec}.

Lemma be_varint_class c k x rest :
  0 <= c < 4 -> Z.of_nat (S k) = 2 ^ c -> 0 <= x < 64 * 256 ^ Z.of_nat k ->
  be_varint (to_be (S k) (c * (64 * 256 ^ Z.of_nat k) + x) ++ rest)
    = Ok (rest, mkVarInt x).
Proof.
  intros Hc Hk Hx. set (v := c * (64 * 256 ^ Z.of_nat k) + x).
  pose proof (pow256_pos k) as Hp. set (p := 256 ^ Z.of_nat k) in *.
  pose proof (Z.div_mod x p ltac:(lia)) as Hdm.
  pose proof (Z.mod_pos_bound x p Hp) as Hmod.
  assert (0 <= x / p < 64) as Hd by
    (split; [apply Z.div_pos; lia|apply Z.div_lt_upper_bound; lia]).
  assert (v / p = c * 64 + x / p) as Hvd by
    (unfold v; replace (c * (64 * p)) with (c * 64 * p) by lia;
     rewrite Z.add_comm, Z.div_add by lia; lia).
  assert (v mod p = x mod p) as Hvm by
    (unfold v; replace (c * (64 * p)) with (c * 64 * p) by lia;
     rewrite Z.add_comm, Z.mod_add by lia; done).
  change (to_be (S k) v) with ((v / p) mod 256 :: to_be k v).
  rewrite Hvd, Z.mod_small by lia. unfold be_varint. cbn [app].
  rewrite be_u8_cons.
  assert (Z.shiftr (c * 64 + x / p) 6 = c) as -> by
    (rewrite Z.shiftr_div_pow2 by lia; change (2 ^ 6) with 64;
     rewrite Z.add_comm, Z.div_add, Z.div_small by lia; lia).
  assert (Z.land (c * 64 + x / p) 63 = x / p) as -> by
    (change 63 with (Z.ones 6); rewrite Z.land_ones by lia; change (2 ^ 6) with 64;
     rewrite Z.add_comm, Z.mod_add, Z.mod_small by lia; done).
  rewrite <- Hk. rewrite blen_app, blen_to_be, (proj2 (Z.ltb_ge _ _)) by
    (pose proof (blen_nonneg rest); lia).
  replace (Z.to_nat (Z.of_nat (S k) - 1)) with k by lia.
  rewrite drop_app_length', take_app_length' by (by rewrite length_to_be).
  do 2 f_equal. f_equal.
  change (x / p :: to_be k v ++ ?z) with ((x / p :: to_be k v) ++ z).
  assert (2 ^ c <= 8) by
    (change 8 with (2 ^ 3); apply Z.pow_le_mono_r; lia).
  destruct (of_be_pad (x / p :: to_be k v) (8 - Z.of_nat (S k))) as [->|]; [|lia].
  rewrite of_be_cons, blen_to_be, of_be_to_be. fold p. lia.
Qed.

Lemma be_varint_bytes v rest :
  varint_ok v -> be_varint (varint_bytes v ++ rest) = Ok (rest, v).
Proof.
  destruct v as [x]. unfold varint_ok, varint_bytes. cbn [varint_value]. intros Hx.
  varint_cases x.
  - apply (be_varint_class 0 0); cbn; lia.
  - apply (be_varint_class 1 1); cbn; lia.
  - apply (be_varint_class 2 3); cbn; lia.
  - apply (be_varint_class 3 7); cbn; lia.
Qed.

Lemma be_varint_yields input :
  bytes_ok input ->
  yields (be_varint input) input (fun l v => varint_ok v /\
    exists b, head l = Some b /\ blen l = 2 ^ Z.shiftr b 6
      /\ varint_value v < 64 * 256 ^ (blen l - 1)).
Proof.
  intros Hok. eapply yields_bind; [by apply be_u8_yields|].
  intros l remain b -> (Hl & Hbl & Hb). apply bytes_ok_app in Hok as [_ Hok].
  destruct l as [|b' [|]]; try done. rewrite of_be_one in Hbl. subst b'.
  assert (0 <= Z.shiftr b 6 <= 3) as Hc by
    (rewrite Z.shiftr_div_pow2 by lia; unfold u_ok in Hb; change (2 ^ 6) with 64;
     split; [apply Z.div_pos|apply Z.lt_succ_r, Z.div_lt_upper_bound]; lia).
  set (n := 2 ^ Z.shiftr b 6).
  assert (1 <= n <= 8) as Hn by
    (unfold n; change 1 with (2 ^ 0); change 8 with (2 ^ 3);
     split; apply Z.pow_le_mono_r; lia).
  destruct (Z.ltb_spec (blen remain + 1) n); [done|]. cbn [yields].
  set (body := take (Z.to_nat (n - 1)) remain).
  assert (blen body = n - 1) as Hbody by
    (unfold body, blen in *; rewrite length_take; lia).
  exists body. split; [symmetry; apply take_drop|].
  assert (blen ([b] ++ body) = n) as Hlen by (rewrite blen_app, Hbody, blen_cons, blen_nil; lia).
  pose proof (of_be_range body (bytes_ok_take _ _ Hok)) as Hr. rewrite Hbody in Hr.
  assert (0 <= Z.land b 63 < 64) by
    (change 63 with (Z.ones 6); rewrite Z.land_ones by lia; apply Z.mod_pos_bound; lia).
  assert (256 ^ (n - 1) <= 256 ^ 7) by (apply Z.pow_le_mono_r; lia).
  unfold varint_ok. cbn [varint_value].
  destruct (of_be_pad (Z.land b 63 :: body) (8 - n)) as [Hv|]; [|lia].
  cbn [app] in Hv. rewrite Hv, of_be_cons, Hbody. change (2 ^ 62) with (64 * 256 ^ 7).
  split; [nia|]. exists b. split; [done|]. rewrite Hlen. split; [done|nia].
Qed.
End WireFacts.

Lemma put_varint_bytes `{BS : BufMutSpec} buf v :
  varint_ok v -> put_varint buf v = Some (buf ++ varint_bytes v).
Proof.
  destruct v as [x]. unfold varint_ok, put_varint, varint_bytes, as_u. cbn [varint_value].
  intros Hx. varint_cases x; autorewrite with put; do 2 f_equal.
  - rewrite Z.mod_small by lia. done.
  - rewrite Z.mod_small by lia. f_equal. apply (lor_high 1 14); lia.
  - rewrite Z.mod_small by lia. f_equal. apply (lor_high 2 30); lia.
  - f_equal. apply (lor_high 3 62); lia.
Qed.


(** ** Properties *)

(** What is read from [2^c] bytes needs no more than [2^c] bytes. *)
Lemma varint_class_least x c :
  0 <= c <= 3 -> 0 <= x < 64 * 256 ^ (2 ^ c - 1) -> varint_class x <= c.
Proof.
  intros Hc Hx. assert (c = 0 \/ c = 1 \/ c = 2 \/ c = 3) as [-> | [-> | [-> | ->]]] by lia;
    cbn in Hx; unfold varint_class; repeat case_match; lia.
Qed.

(** C33: the codec of [VarInt] within its bounds.  Every well-formed integer is
    written without panicking, in [encoding_size] bytes, and [be_varint] reads it
    back from the front of any longer input, leaving exactly what followed.
    Conversely [be_varint] is total on bytes: it returns an error of [nom], or reads
    as many bytes as the two top bits of the first one announce and returns a value
    below [2^62], whose own encoding is not longer than what was read. *)
Theorem varint_codec `{NomSpec} `{BufMutSpec} (buf : bytes) (v : VarInt) (input : bytes) :
  varint_ok v -> bytes_ok input ->
  (exists enc, put_varint buf v = Some (buf ++ enc)
    /\ encoding_size v = Some (blen enc)
    /\ forall rest, be_varint (enc ++ rest) = Ok (rest, v))
  /\ match be_varint input with
     | Ok (remain, w) => exists b l n, input = b :: l ++ remain
         /\ 1 + blen l = 2 ^ Z.shiftr b 6
         /\ 0 <= varint_value w < 2 ^ 62
         /\ encoding_size w = Some n /\ n <= 1 + blen l
     | Err e => err_ok e
     end.
Proof.
  intros Hv Hok. split.
  - exists (varint_bytes v). split; [by apply put_varint_bytes|].
    split; [by apply encoding_size_bytes|]. intros rest. by apply be_varint_bytes.
  - pose proof (be_varint_yields input Hok) as Hy.
    destruct (be_varint input) as [[remain w]|e]; [|done].
    destruct Hy as (l & -> & Hw & b & Hb & Hlen & Hle).
    destruct l as [|b' l]; [done|]. injection Hb as ->. rewrite blen_cons in Hlen, Hle.
    exists b, l, (blen (varint_bytes w)). split; [done|]. split; [done|]. split; [done|].
    split; [by apply encoding_size_bytes|]. rewrite Hlen in Hle |- *.
    assert (byte_ok b) as Hb by (by inversion Hok).
    assert (0 <= Z.shiftr b 6 <= 3) as Hc.
    { rewrite Z.shiftr_div_pow2 by lia. unfold byte_ok in Hb. change (2 ^ 6) with 64.
      split; [apply Z.div_pos|apply Z.lt_succ_r, Z.div_lt_upper_bound]; lia. }
    pose proof (varint_class_least (varint_value w) (Z.shiftr b 6) Hc) as Hm.
    unfold varint_ok in Hw. specialize (Hm ltac:(lia)).
    unfold varint_bytes. rewrite blen_to_be.
    assert (0 <= varint_class (varint_value w)) by (unfold varint_class; repeat case_match; lia).
    rewrite Z2Nat.id by (apply Z.pow_nonneg; lia). apply Z.pow_le_mono_r; lia.
Qed.

Example varint_codec_witness :
  exists enc, put_varint (B := NomModel.buf_mut) [7] (mkVarInt 16384) = Some ([7] ++ enc)
    /\ encoding_size (mkVarInt 16384) = Some (blen enc)
    /\ forall rest, be_varint (N := NomModel.nom) (enc ++ rest) = Ok (rest, mkVarInt 16384).
Proof.
  apply (varint_codec (H := NomModel.nom_spec) (H0 := NomModel.buf_mut_spec) [7] (mkVarInt 16384)
    [0x40; 0x40; 9]); [unfold varint_ok; cbn; lia|decide_now].
Defined.
