(* ===== verification/RustString.v ===== *)
(** * Strings of the Rust standard library

    A [String] or [&str] is its UTF-8 bytes.  This file models the operations of
    [core::str] the crate uses: [split], [join], [strip_prefix], [strip_suffix],
    [trim_end_matches], [rsplit_once], the ASCII case mappings,
    [str::from_utf8] and [String::from_utf8_lossy]. *)

From stdpp Require Import base list numbers sets.
From Stdlib Require Ascii String.
Export String.StringSyntax.
From S2P Require Import Prelude.

(** ** String literals *)
Definition str (s : String.string) : bytes :=
  map (fun c => Z.of_N (Ascii.N_of_ascii c)) (String.list_ascii_of_string s).
Arguments str s%_string_scope.

Definition dot : Z := 46.
Definition colon : Z := 58.

(** ** [split], [join] and friends *)
Fixpoint split_on (sep : Z) (l : bytes) : list bytes :=
  match l with
  | [] => [[]]
  | b :: l =>
      if b =? sep then [] :: split_on sep l
      else match split_on sep l with
           | p :: ps => (b :: p) :: ps
           | [] => [[b]]
           end
  end.

Fixpoint join (sep : bytes) (parts : list bytes) : bytes :=
  match parts with
  | [] => []
  | [p] => p
  | p :: ps => p ++ sep ++ join sep ps
  end.

Fixpoint strip_prefix (p l : bytes) : option bytes :=
  match p, l with
  | [], _ => Some l
  | a :: p, b :: l => if a =? b then strip_prefix p l else None
  | _ :: _, [] => None
  end.

Definition strip_suffix (s l : bytes) : option bytes :=
  match strip_prefix (reverse s) (reverse l) with
  | Some r => Some (reverse r)
  | None => None
  end.

Definition starts_with (p l : bytes) : bool :=
  match strip_prefix p l with Some _ => true | None => false end.
Definition ends_with (s l : bytes) : bool :=
  match strip_suffix s l with Some _ => true | None => false end.

Fixpoint trim_start_matches (c : Z) (l : bytes) : bytes :=
  match l with
  | [] => []
  | b :: r => if b =? c then trim_start_matches c r else l
  end.
Definition trim_end_matches (c : Z) (l : bytes) : bytes :=
  reverse (trim_start_matches c (reverse l)).

(** [split_once] and [rsplit_once] on an ASCII separator. *)
Fixpoint split_once (sep : Z) (l : bytes) : option (bytes * bytes) :=
  match l with
  | [] => None
  | b :: r =>
      if b =? sep then Some ([], r)
      else match split_once sep r with
           | Some (x, y) => Some (b :: x, y)
           | None => None
           end
  end.
Definition rsplit_once (sep : Z) (l : bytes) : option (bytes * bytes) :=
  match split_once sep (reverse l) with
  | Some (x, y) => Some (reverse y, reverse x)
  | None => None
  end.

(** [str::trim]: the characters with the Unicode property White_Space. *)
Definition white_space : list bytes :=
  [[9]; [10]; [11]; [12]; [13]; [32]; [0xC2; 0x85]; [0xC2; 0xA0]; [0xE1; 0x9A; 0x80]]
  ++ map (fun b => [0xE2; 0x80; b]) [0x80; 0x81; 0x82; 0x83; 0x84; 0x85; 0x86; 0x87; 0x88;
                                     0x89; 0x8A; 0xA8; 0xA9; 0xAF]
  ++ [[0xE2; 0x81; 0x9F]; [0xE3; 0x80; 0x80]].

Fixpoint strip_any (chars : list bytes) (l : bytes) : option bytes :=
  match chars with
  | [] => None
  | c :: chars => match strip_prefix c l with Some r => Some r | None => strip_any chars l end
  end.

Fixpoint trim_start_fuel (fuel : nat) (chars : list bytes) (l : bytes) : bytes :=
  match fuel with
  | O => l
  | S fuel => match strip_any chars l with Some r => trim_start_fuel fuel chars r | None => l end
  end.

Definition trim (l : bytes) : bytes :=
  let l := trim_start_fuel (length l) white_space l in
  reverse (trim_start_fuel (length l) (map reverse white_space) (reverse l)).

Definition is_ascii_digit (b : Z) : bool := (48 <=? b) && (b <=? 57).
Definition ascii_lower (b : Z) : Z := if (65 <=? b) && (b <=? 90) then b + 32 else b.
Definition to_ascii_lowercase (l : bytes) : bytes := map ascii_lower l.
Definition eq_ignore_ascii_case (l k : bytes) : bool :=
  bool_decide (to_ascii_lowercase l = to_ascii_lowercase k).

(** ** Numbers in strings: [u64::to_string], [str::parse::<u64>], [{:02x}] *)
Fixpoint decimal_fuel (fuel : nat) (n : Z) : bytes :=
  match fuel with
  | O => []
  | S fuel => if n <? 10 then [48 + n] else decimal_fuel fuel (n / 10) ++ [48 + n mod 10]
  end.
Definition decimal (n : Z) : bytes := decimal_fuel (Z.to_nat (Z.log2 n + 1)) n.

(** Every digit is a [checked_mul] and a [checked_add]. *)
Fixpoint parse_digits (max acc : Z) (l : bytes) : option Z :=
  match l with
  | [] => Some acc
  | b :: l =>
      if is_ascii_digit b then
        let acc := acc * 10 + (b - 48) in
        if acc <=? max then parse_digits max acc l else None
      else None
  end.

Definition parse_uint (max : Z) (l : bytes) : option Z :=
  match l with
  | [] => None
  | [b] => if is_ascii_digit b then parse_digits max 0 l else None
  | b :: r => if b =? 43 then parse_digits max 0 r else parse_digits max 0 l
  end.
Definition parse_u64 (l : bytes) : option Z := parse_uint (2 ^ 64 - 1) l.
Definition parse_u16 (l : bytes) : option Z := parse_uint (2 ^ 16 - 1) l.

Definition hex_digit (d : Z) : Z := if d <? 10 then 48 + d else 87 + d.
Definition hex02 (b : Z) : bytes := [hex_digit (b / 16); hex_digit (b mod 16)].

(** ** UTF-8

    [utf8_second b] is the range of the second byte of a multi-byte character
    that starts with [b], and the number of continuation bytes after it. *)
Definition in_range (lo hi b : Z) : bool := (lo <=? b) && (b <=? hi).

Definition utf8_second (b : Z) : option (Z * Z * nat) :=
  if in_range 0xC2 0xDF b then Some (0x80, 0xBF, 0%nat)
  else if b =? 0xE0 then Some (0xA0, 0xBF, 1%nat)
  else if in_range 0xE1 0xEC b then Some (0x80, 0xBF, 1%nat)
  else if b =? 0xED then Some (0x80, 0x9F, 1%nat)
  else if in_range 0xEE 0xEF b then Some (0x80, 0xBF, 1%nat)
  else if b =? 0xF0 then Some (0x90, 0xBF, 2%nat)
  else if in_range 0xF1 0xF3 b then Some (0x80, 0xBF, 2%nat)
  else if b =? 0xF4 then Some (0x80, 0x8F, 2%nat)
  else None.

Fixpoint leading_conts (n : nat) (l : bytes) : nat :=
  match n, l with
  | S n, c :: l => if in_range 0x80 0xBF c then S (leading_conts n l) else 0%nat
  | _, _ => 0%nat
  end.

(** The next character: whether it is valid, and how many bytes it takes.  An
    invalid sequence takes its maximal well-formed prefix, at least one byte. *)
Definition utf8_step (l : bytes) : bool * nat :=
  match l with
  | [] => (false, 0%nat)
  | b :: r =>
      if b <? 0x80 then (true, 1%nat)
      else match utf8_second b, r with
           | Some (lo, hi, n), c :: r =>
               if in_range lo hi c
               then ((leading_conts n r =? n)%nat, (2 + leading_conts n r)%nat)
               else (false, 1%nat)
           | _, _ => (false, 1%nat)
           end
  end.

(** U+FFFD. *)
Definition replacement_character : bytes := [0xEF; 0xBF; 0xBD].

Fixpoint lossy (fuel : nat) (l : bytes) : bytes :=
  match fuel, l with
  | S fuel, _ :: _ =>
      let '(valid, n) := utf8_step l in
      (if valid then take n l else replacement_character) ++ lossy fuel (drop n l)
  | _, _ => []
  end.
Definition from_utf8_lossy (l : bytes) : bytes := lossy (length l) l.

Fixpoint utf8_valid_fuel (fuel : nat) (l : bytes) : bool :=
  match fuel, l with
  | S fuel, _ :: _ =>
      let '(valid, n) := utf8_step l in valid && utf8_valid_fuel fuel (drop n l)
  | _, _ => true
  end.
(** [str::from_utf8(l).is_ok()]. *)
Definition utf8_valid (l : bytes) : bool := utf8_valid_fuel (length l) l.

(** The invariant of [String]: a sequence of encoded characters. *)
Definition utf8_char (c : bytes) : Prop := utf8_step c = (true, length c).

Inductive utf8 : bytes -> Prop :=
| utf8_nil : utf8 []
| utf8_app c l : utf8_char c -> utf8 l -> utf8 (c ++ l).

(** ** Facts on UTF-8 *)
Lemma leading_conts_le n l : (leading_conts n l <= n)%nat.
Proof. revert l. induction n; intros [|c l]; cbn; try case_match; try lia. specialize (IHn l); lia. Qed.

Lemma leading_conts_len n l : (leading_conts n l <= length l)%nat.
Proof. revert l. induction n; intros [|c l]; cbn; try case_match; try lia. specialize (IHn l); lia. Qed.

Lemma leading_conts_app n l k : leading_conts n l = n -> leading_conts n (l ++ k) = n.
Proof.
  revert l. induction n; intros [|c l]; cbn; try done. case_match; [|done].
  intros [= H1]. by rewrite IHn.
Qed.

Lemma leading_conts_take n l :
  leading_conts n l = n -> leading_conts n (take n l) = n.
Proof.
  revert l. induction n; intros [|c l]; cbn; try done. case_match; [|done].
  intros [= H1]. by rewrite IHn.
Qed.

Lemma leading_conts_high n l :
  leading_conts n l = n -> Forall (fun b => 0x80 <= b) (take n l).
Proof.
  revert l. induction n; intros [|c l]; cbn; try done; [by constructor..|].
  destruct (in_range 128 191 c) eqn:E; [|done]. intros [= H1].
  unfold in_range in E. apply andb_prop in E as [? _]. constructor; [lia|by apply IHn].
Qed.

(** A step always takes at least one byte of a non-empty input. *)
Lemma utf8_step_pos b l : (0 < (utf8_step (b :: l)).2 <= length (b :: l))%nat.
Proof.
  unfold utf8_step. destruct (b <? 128); [cbn; lia|].
  destruct (utf8_second b) as [[[lo hi] n]|]; [|cbn; lia].
  destruct l as [|c l]; [cbn; lia|]. destruct (in_range lo hi c); [|cbn; lia].
  pose proof (leading_conts_len n l). cbn. lia.
Qed.

Lemma utf8_step_char l n : utf8_step l = (true, n) -> utf8_char (take n l).
Proof.
  unfold utf8_char. destruct l as [|b l]; [done|]. cbn [utf8_step].
  destruct (b <? 128) eqn:Hb.
  { intros [= <-]. cbn. by rewrite Hb. }
  destruct (utf8_second b) as [[[lo hi] k]|] eqn:Hs; [|done].
  destruct l as [|c l]; [done|]. destruct (in_range lo hi c) eqn:Hc; [|done].
  intros [= Hk <-]. apply Nat.eqb_eq in Hk. rewrite Hk. cbn [take Nat.add utf8_step].
  rewrite Hb, Hs, Hc, leading_conts_take, Nat.eqb_refl by done.
  cbn [length]. rewrite length_take.
  pose proof (leading_conts_len k l). repeat f_equal. lia.
Qed.

Lemma utf8_step_app c l : utf8_char c -> utf8_step (c ++ l) = (true, length c).
Proof.
  unfold utf8_char. destruct c as [|b c]; [done|]. cbn [utf8_step app].
  destruct (b <? 128); [done|].
  destruct (utf8_second b) as [[[lo hi] k]|]; [|done].
  destruct c as [|b' c]; [done|]. cbn [app]. destruct (in_range lo hi b'); [|done].
  intros [= Hk Hn]. apply Nat.eqb_eq in Hk. rewrite Hk in *.
  rewrite leading_conts_app, Nat.eqb_refl by done. cbn [length]. repeat f_equal. lia.
Qed.

Lemma utf8_char_nonempty c : utf8_char c -> c <> [].
Proof. by intros H ->. Qed.

(** A character is a single ASCII byte or made of bytes above 127. *)
Lemma utf8_char_shape c :
  utf8_char c -> (exists b, c = [b] /\ b < 0x80) \/ Forall (fun b => 0x80 <= b) c.
Proof.
  unfold utf8_char. destruct c as [|b c]; [done|]. cbn [utf8_step].
  destruct (Z.ltb_spec b 128) as [Hb|Hb].
  { intros [= Hl]. left. exists b. destruct c; [done|done]. }
  destruct (utf8_second b) as [[[lo hi] k]|] eqn:Hs; [|done].
  destruct c as [|b' c]; [done|]. destruct (in_range lo hi b') eqn:Hc; [|done].
  intros [= Hk Hn]. apply Nat.eqb_eq in Hk. rewrite Hk in Hn. right.
  assert (0x80 <= lo) as Hlo.
  { revert Hs. unfold utf8_second. repeat case_match; intros [=]; subst; lia. }
  unfold in_range in Hc. apply andb_prop in Hc as [Hc _].
  constructor; [done|]. constructor; [lia|].
  pose proof (leading_conts_high k c Hk) as Hh.
  rewrite take_ge in Hh by lia. done.
Qed.

Lemma lossy_utf8_id l : utf8 l -> forall fuel, (length l <= fuel)%nat -> lossy fuel l = l.
Proof.
  induction 1 as [|c l Hc Hl IH]; intros fuel Hf; [by destruct fuel|].
  pose proof (utf8_char_nonempty c Hc). pose proof (utf8_step_app c l Hc) as Hs.
  rewrite length_app in Hf. destruct c as [|b c]; [done|]. destruct fuel; [cbn in *; lia|].
  cbn [lossy app] in *. rewrite Hs.
  change (b :: c ++ l) with ((b :: c) ++ l).
  rewrite take_app_length, drop_app_length, IH by (cbn in *; lia). done.
Qed.

Lemma from_utf8_lossy_id l : utf8 l -> from_utf8_lossy l = l.
Proof. intros. by apply lossy_utf8_id. Qed.

Lemma from_utf8_lossy_utf8 l : utf8 (from_utf8_lossy l).
Proof.
  unfold from_utf8_lossy. generalize (length l) as fuel. intros fuel. revert l.
  induction fuel as [|fuel IH]; intros [|b l]; cbn [lossy]; try constructor.
  destruct (utf8_step (b :: l)) as [valid n] eqn:Hs.
  apply utf8_app; [|apply IH]. destruct valid; [by apply utf8_step_char|done].
Qed.

Lemma utf8_valid_iff l : utf8_valid l = true <-> utf8 l.
Proof.
  unfold utf8_valid. split.
  - assert (forall fuel l, (length l <= fuel)%nat ->
      utf8_valid_fuel fuel l = true -> utf8 l) as Hgen; [|by apply Hgen].
    clear l. induction fuel as [|fuel IH]; intros [|b l] Hf; cbn [utf8_valid_fuel];
      try (intros; constructor); [cbn in Hf; lia|].
    pose proof (utf8_step_pos b l) as Hp.
    destruct (utf8_step (b :: l)) as [valid n] eqn:Hs. intros [-> Hv]%andb_prop.
    rewrite <- (take_drop n (b :: l)). cbn [snd] in Hp. apply utf8_app;
      [by apply utf8_step_char|]. apply IH; [|done]. rewrite length_drop. lia.
  - intros Hl. assert (forall fuel, (length l <= fuel)%nat ->
      utf8_valid_fuel fuel l = true) as Hgen; [|by apply Hgen].
    induction Hl as [|c l Hc Hl IH]; intros fuel Hf; [by destruct fuel|].
    pose proof (utf8_step_app c l Hc) as Hs. pose proof (utf8_char_nonempty c Hc).
    rewrite length_app in Hf. destruct c as [|b c]; [done|].
    destruct fuel; [cbn in *; lia|]. cbn [utf8_valid_fuel app] in *. rewrite Hs.
    change (b :: c ++ l) with ((b :: c) ++ l).
    rewrite drop_app_length, IH by (cbn in *; lia). done.
Qed.

Global Instance utf8_dec l : Decision (utf8 l).
Proof.
  refine (cast_if (decide (utf8_valid l = true))); by rewrite <- utf8_valid_iff.
Defined.

Lemma utf8_concat l k : utf8 l -> utf8 k -> utf8 (l ++ k).
Proof. intros Hl Hk. induction Hl; cbn; [done|]. rewrite <- app_assoc. by constructor. Qed.

Lemma utf8_ascii b : 0 <= b < 0x80 -> utf8 [b].
Proof.
  intros. change [b] with ([b] ++ []). constructor; [|constructor].
  unfold utf8_char. cbn. by rewrite (proj2 (Z.ltb_lt _ _)) by lia.
Qed.

(** ** Facts on [split] and [join] *)
Lemma split_on_nonempty sep l : split_on sep l <> [].
Proof. destruct l; cbn; [done|]. repeat case_match; done. Qed.

Lemma split_on_high sep c l :
  0 <= sep < 0x80 -> Forall (fun b => 0x80 <= b) c ->
  exists p ps, split_on sep l = p :: ps /\ split_on sep (c ++ l) = (c ++ p) :: ps.
Proof.
  intros Hsep Hc. destruct (split_on sep l) as [|p ps] eqn:E;
    [by apply split_on_nonempty in E|].
  exists p, ps. split; [done|]. induction Hc as [|b c Hb Hc IH]; cbn; [done|].
  rewrite (proj2 (Z.eqb_neq _ _)) by lia. by rewrite IH.
Qed.

(** Splitting a string at an ASCII character gives strings. *)
Lemma split_on_utf8 sep l : 0 <= sep < 0x80 -> utf8 l -> Forall utf8 (split_on sep l).
Proof.
  intros Hsep. induction 1 as [|c l Hc Hl IH].
  { repeat constructor. }
  destruct (utf8_char_shape c Hc) as [(b & -> & Hb)|Hh].
  - cbn. destruct (Z.eqb_spec b sep); [by repeat constructor|].
    destruct (split_on sep l) as [|p ps] eqn:E; [by apply split_on_nonempty in E|].
    inversion IH; subst. constructor; [|done]. by apply (utf8_app [b] p).
  - destruct (split_on_high sep c l Hsep Hh) as (p & ps & E1 & E2).
    rewrite E1 in IH. rewrite E2. inversion IH; subst. constructor; [|done].
    by constructor.
Qed.

Lemma split_on_no_sep sep l : Forall (fun p => sep ∉ p) (split_on sep l).
Proof.
  induction l as [|b l IH]; cbn; [repeat constructor; apply not_elem_of_nil|].
  destruct (Z.eqb_spec b sep); [constructor; [apply not_elem_of_nil|done]|].
  destruct (split_on sep l) as [|p ps] eqn:E; [by apply split_on_nonempty in E|].
  apply Forall_cons in IH as [Hp Hps]. constructor; [|done]. by intros [->|?]%elem_of_cons.
Qed.

Lemma split_on_none sep l : sep ∉ l -> split_on sep l = [l].
Proof.
  induction l as [|b l IH]; intros Hn; cbn; [done|].
  rewrite (proj2 (Z.eqb_neq _ _)) by set_solver. by rewrite IH by set_solver.
Qed.

Lemma split_on_app sep p l : sep ∉ p -> split_on sep (p ++ sep :: l) = p :: split_on sep l.
Proof.
  induction p as [|b p IH]; intros Hn; cbn; [by rewrite Z.eqb_refl|].
  rewrite (proj2 (Z.eqb_neq _ _)) by set_solver. by rewrite IH by set_solver.
Qed.

Lemma split_on_snoc sep l : split_on sep (l ++ [sep]) = split_on sep l ++ [[]].
Proof.
  induction l as [|b l IH]; cbn [split_on app]; [by rewrite Z.eqb_refl|].
  rewrite IH. destruct (b =? sep); [done|].
  by destruct (split_on sep l) as [|p ps] eqn:E; [apply split_on_nonempty in E|].
Qed.

Lemma strip_suffix_char c l :
  match strip_suffix [c] l with
  | Some r => l = r ++ [c]
  | None => forall r, l <> r ++ [c]
  end.
Proof.
  unfold strip_suffix. change (reverse [c]) with [c].
  destruct (reverse l) as [|b r] eqn:E; apply (f_equal reverse) in E;
    rewrite reverse_involutive in E; subst l.
  { cbn. intros [|]; done. }
  rewrite reverse_cons. cbn. destruct (Z.eqb_spec c b) as [->|Hne]; [done|].
  intros r' Hr'. apply app_inj_tail in Hr' as [_ ->]. done.
Qed.

Lemma split_join sep ps :
  ps <> [] -> Forall (fun p => sep ∉ p) ps -> split_on sep (join [sep] ps) = ps.
Proof.
  intros Hne. induction 1 as [|p ps Hp Hps IH]; [done|].
  destruct ps as [|p' ps]; [by apply split_on_none|].
  change (join [sep] (p :: p' :: ps)) with (p ++ sep :: join [sep] (p' :: ps)).
  rewrite split_on_app by done. by rewrite IH.
Qed.

Lemma join_split sep l : join [sep] (split_on sep l) = l.
Proof.
  induction l as [|b l IH]; cbn [split_on]; [done|].
  destruct (split_on sep l) as [|p ps] eqn:E; [by apply split_on_nonempty in E|].
  destruct (Z.eqb_spec b sep) as [->|]; cbn [join]; [by rewrite <- IH|].
  destruct ps; cbn [join] in *; by rewrite <- IH.
Qed.

Lemma join_utf8 ps : Forall utf8 ps -> utf8 (join [dot] ps).
Proof.
  induction 1 as [|p ps Hp Hps IH]; cbn [join]; [constructor|].
  destruct ps; [done|]. apply utf8_concat; [done|].
  apply utf8_concat; [by apply utf8_ascii|done].
Qed.

Lemma join_length_cons sep p ps :
  ps <> [] -> length (join sep (p :: ps)) = (length p + length sep + length (join sep ps))%nat.
Proof. destruct ps; [done|]. intros _. cbn [join]. rewrite !length_app. lia. Qed.

(** ** Numbers *)
Lemma parse_digits_app max l k acc :
  parse_digits max acc (l ++ k) = parse_digits max acc l ≫= fun a => parse_digits max a k.
Proof.
  revert acc. induction l as [|b l IH]; intros acc; cbn [app parse_digits]; [done|].
  destruct (is_ascii_digit b); [|done]. cbv zeta. destruct (_ <=? max); [apply IH|done].
Qed.

Lemma parse_decimal_fuel max fuel : forall n,
  0 <= n <= max -> n < 2 ^ Z.of_nat fuel -> parse_digits max 0 (decimal_fuel fuel n) = Some n.
Proof.
  induction fuel as [|fuel IH]; intros n Hn Hf; cbn [decimal_fuel].
  { change (2 ^ Z.of_nat 0) with 1 in Hf. cbn. f_equal. lia. }
  assert (forall d, 0 <= d < 10 -> is_ascii_digit (48 + d) = true) as Hd.
  { intros d Hd. unfold is_ascii_digit. rewrite !(proj2 (Z.leb_le _ _)) by lia. done. }
  destruct (Z.ltb_spec n 10).
  - cbn [parse_digits]. rewrite Hd by lia. cbv zeta.
    replace (0 * 10 + (48 + n - 48)) with n by lia. by rewrite (proj2 (Z.leb_le _ _)) by lia.
  - pose proof (Z.div_mod n 10 ltac:(lia)). pose proof (Z.mod_pos_bound n 10 ltac:(lia)).
    assert (n / 10 < 2 ^ Z.of_nat fuel) by
      (replace (Z.of_nat (S fuel)) with (1 + Z.of_nat fuel) in Hf by lia;
       rewrite Z.pow_add_r in Hf by lia; change (2 ^ 1) with 2 in Hf; lia).
    rewrite parse_digits_app, IH by lia. cbn [mbind option_bind parse_digits].
    rewrite Hd by lia. cbv zeta.
    replace (n / 10 * 10 + (48 + n mod 10 - 48)) with n by lia.
    by rewrite (proj2 (Z.leb_le _ _)) by lia.
Qed.

Lemma decimal_fuel_digits fuel : forall n,
  0 <= n -> Forall (fun b => is_ascii_digit b = true) (decimal_fuel fuel n).
Proof.
  assert (forall d, 0 <= d < 10 -> is_ascii_digit (48 + d) = true) as Hd.
  { intros d Hd. unfold is_ascii_digit. rewrite !(proj2 (Z.leb_le _ _)) by lia. done. }
  induction fuel as [|fuel IH]; intros n Hn; cbn [decimal_fuel]; [constructor|].
  destruct (Z.ltb_spec n 10); [constructor; [apply Hd; lia|constructor]|].
  apply Forall_app. split; [apply IH, Z.div_pos; lia|].
  constructor; [apply Hd, Z.mod_pos_bound; lia|constructor].
Qed.

Lemma decimal_digits n : 0 <= n -> Forall (fun b => is_ascii_digit b = true) (decimal n).
Proof. apply decimal_fuel_digits. Qed.

Lemma parse_uint_decimal max n : 0 <= n <= max -> parse_uint max (decimal n) = Some n.
Proof.
  intros Hn. assert (parse_digits max 0 (decimal n) = Some n) as Hp.
  { apply parse_decimal_fuel; [done|]. pose proof (Z.log2_nonneg n).
    rewrite Z2Nat.id by lia. destruct (Z.eq_dec n 0) as [->|]; [by cbn|].
    apply Z.log2_spec. lia. }
  pose proof (decimal_digits n ltac:(lia)) as Hd. unfold parse_uint.
  destruct (decimal n) as [|b [|c l]] eqn:E.
  - unfold decimal in E. pose proof (Z.log2_nonneg n).
    destruct (Z.to_nat (Z.log2 n + 1)) as [|k] eqn:Ek; [lia|]. cbn in E.
    destruct (n <? 10); [done|]. by apply app_eq_nil in E as [_ ?].
  - by rewrite (Forall_inv Hd).
  - destruct (Z.eqb_spec b 43) as [->|]; [|done]. by apply Forall_inv in Hd.
Qed.

(** ASCII strings are UTF-8. *)
Lemma ascii_utf8 l : Forall (fun b => 0 <= b < 0x80) l -> utf8 l.
Proof.
  induction 1 as [|b l Hb Hl IH]; [constructor|].
  change (b :: l) with ([b] ++ l). apply utf8_concat; [by apply utf8_ascii|done].
Qed.

Lemma strip_prefix_app p l : strip_prefix p (p ++ l) = Some l.
Proof. induction p as [|b p IH]; cbn; [done|]. by rewrite Z.eqb_refl. Qed.

Lemma starts_with_app p l : starts_with p (p ++ l) = true.
Proof. unfold starts_with. by rewrite strip_prefix_app. Qed.

Lemma strip_suffix_app s l : strip_suffix s (l ++ s) = Some l.
Proof.
  unfold strip_suffix. rewrite reverse_app, strip_prefix_app. by rewrite reverse_involutive.
Qed.
