(* ===== verification/DnsName.v ===== *)
(** * Domain names and message compression: src/core/parser/name.rs

    A [Name] is a [String].  [put_name] writes it label by label and replaces a
    suffix that was already written to the message by a pointer to it;
    [be_name] follows such pointers.  The main results are that [be_name]
    terminates on every input, pointer loops included, and that it inverts
    [put_name] in every message the crate can build. *)

From stdpp Require Import base list gmap numbers sets.
From S2P Require Import Prelude Nom RustString.

Abbreviation Name := bytes (only parsing).

(** ** The compression context *)
Record NameCompression := mkNameCompression { suffix_offsets : gmap bytes Z }.

Definition NameCompression_new : NameCompression := mkNameCompression ∅.

Definition get_suffix_offset (ctx : NameCompression) (suffix : bytes) : option Z :=
  suffix_offsets ctx !! suffix.

(** [entry(suffix).or_insert(offset)]. *)
Definition remember_suffix (ctx : NameCompression) (suffix : bytes) (offset : Z)
  : NameCompression :=
  match suffix_offsets ctx !! suffix with
  | Some _ => ctx
  | None => mkNameCompression (<[suffix := offset]> (suffix_offsets ctx))
  end.

(** ** [put_name] *)
Definition nonempty (l : bytes) : bool := match l with [] => false | _ => true end.

(** The loop over [labels.iter().rev()] that builds all the suffixes. *)
Definition push_suffix (st : list bytes * bytes) (label : bytes) : list bytes * bytes :=
  let '(suffixes, current) := st in
  let current := match current with [] => label | _ => label ++ [dot] ++ current end in
  (suffixes ++ [current], current).

Definition build_suffixes (labels : list bytes) : list bytes :=
  reverse (fold_left push_suffix (reverse labels) ([], [])).1.

Section Wire.
Context `{N : Nom} `{B : BufMut}.

(** The loop over the labels of the name. *)
Fixpoint put_labels (buf : bytes) (labels suffixes : list bytes) (ctx : NameCompression)
  : bytes * NameCompression :=
  match labels, suffixes with
  | label :: labels, suffix :: suffixes =>
      match get_suffix_offset ctx suffix with
      | Some offset => (put_u16 buf (Z.lor 0xC000 (Z.land offset 0x3FFF)), ctx)
      | None =>
          let ctx := if blen buf <=? 0x3FFF
                     then remember_suffix ctx suffix (as_u 16 (blen buf)) else ctx in
          let buf := put_u8 buf (as_u 8 (blen label)) in
          let buf := put_slice buf label in
          put_labels buf labels suffixes ctx
      end
  | _, _ => (put_u8 buf 0, ctx)
  end.

Definition put_name (buf : bytes) (name : Name) (ctx : NameCompression)
  : bytes * NameCompression * Z :=
  let start_len := blen buf in
  let root := let buf := put_u8 buf 0 in (buf, ctx, blen buf - start_len) in
  if bool_decide (name = [dot]) then root
  else
    let trimmed := default name (strip_suffix [dot] name) in
    if negb (nonempty trimmed) then root
    else
      let labels := List.filter nonempty (split_on dot trimmed) in
      match labels with
      | [] => root
      | _ =>
          let '(buf, ctx) := put_labels buf labels (build_suffixes labels) ctx in
          (buf, ctx, blen buf - start_len)
      end.

(** ** [be_name]

    [labels] is the accumulator of the loop.  The code shares one [visited]
    vector between the recursive calls and pops what a call pushed before it
    returns, so each call sees exactly the offsets on the path that led to it. *)
Fixpoint be_name_labels (fuel : nat) (input origin : bytes) (visited : list Z)
    (labels : list bytes) : IResult (list bytes) :=
  match fuel with
  | O => Err OutOfFuel
  | S fuel =>
      let? (remain, len) := be_u8 input in
      if len =? 0 then Ok (remain, labels)
      else if Z.land len 0xC0 =? 0xC0 then
        let? (remain, offset_byte) := be_u8 remain in
        let offset := Z.lor (Z.shiftl (Z.land len 0x3F) 8) offset_byte in
        if (blen origin <=? offset) || bool_decide (offset ∈ visited)
        then Err (Error input Verify)
        else
          let? (_, suffix) :=
            be_name_labels fuel (drop (Z.to_nat offset) origin) origin (visited ++ [offset]) [] in
          Ok (remain, labels ++ suffix)
      else if 63 <? len then Err (Error input Verify)
      else
        let? (remain, label_bytes) := nom_take len remain in
        be_name_labels fuel remain origin visited (labels ++ [from_utf8_lossy label_bytes])
  end.

(** Every step consumes a byte of the current input or visits a new offset of
    the message. *)
Definition name_fuel (input origin : bytes) : nat :=
  S (length input + length origin * S (length origin)).

Definition be_name_inner (input origin : bytes) (visited : list Z) : IResult Name :=
  let? (remain, labels) := be_name_labels (name_fuel input origin) input origin visited [] in
  match labels with
  | [] => Ok (remain, [dot])
  | _ => Ok (remain, join [dot] labels)
  end.

Definition be_name (input origin : bytes) : IResult Name := be_name_inner input origin [].
End Wire.

(** ** Termination of [be_name_labels] *)
Lemma visited_bound (visited : list Z) (n : nat) :
  NoDup visited -> (forall o, o ∈ visited -> 0 <= o < Z.of_nat n) ->
  (length visited <= n)%nat.
Proof.
  intros Hnd Hin. replace n with (length (seqZ 0 (Z.of_nat n))) by
    (rewrite length_seqZ; lia).
  apply submseteq_length, NoDup_submseteq; [done|].
  intros o Ho. apply elem_of_seqZ. specialize (Hin o Ho). lia.
Qed.

Lemma visited_push (visited : list Z) (offset n : Z) :
  NoDup visited -> (forall o, o ∈ visited -> 0 <= o < n) ->
  offset ∉ visited -> 0 <= offset < n ->
  NoDup (visited ++ [offset]) /\ (forall o, o ∈ visited ++ [offset] -> 0 <= o < n).
Proof.
  intros Hnd Hin Hout Hoff. split.
  - apply NoDup_app. split; [done|]. split; [|apply NoDup_singleton].
    intros o Ho Ho'. apply list_elem_of_singleton in Ho' as ->. done.
  - intros o [Ho|Ho]%elem_of_app; [by apply Hin|].
    apply list_elem_of_singleton in Ho as ->. done.
Qed.

Lemma offset_nonneg len b : 0 <= len -> 0 <= b -> 0 <= Z.lor (Z.shiftl (Z.land len 0x3F) 8) b.
Proof.
  intros. apply Z.lor_nonneg. split; [|done].
  apply Z.shiftl_nonneg, Z.land_nonneg. by left.
Qed.

Section Facts.
Context `{NS : NomSpec}.

(** What a successful run has read and returned. *)
Definition name_read (labels : list bytes) (l : bytes) (ls : list bytes) : Prop :=
  l <> [] /\ exists ls', ls = labels ++ ls' /\ Forall utf8 ls'.

Lemma be_name_labels_yields fuel : forall input origin visited labels,
  bytes_ok input -> bytes_ok origin -> NoDup visited ->
  (forall o, o ∈ visited -> 0 <= o < blen origin) ->
  (length input + (length origin - length visited) * S (length origin) < fuel)%nat ->
  yields (be_name_labels fuel input origin visited labels) input (name_read labels).
Proof.
  induction fuel as [|fuel IH]; intros input origin visited labels Hin Hor Hnd Hv Hf;
    [by apply Nat.nlt_0_r in Hf|].
  cbn [be_name_labels]. eapply yields_bind; [by apply be_u8_yields|].
  intros l remain len -> (Hl & _ & Hlen).
  apply bytes_ok_app in Hin as [Hok Hin]. rewrite length_app in Hf.
  destruct (len =? 0); [apply yields_ok; rewrite app_nil_r; split; [by destruct l|]; exists []|].
  { by rewrite app_nil_r. }
  destruct (Z.land len 192 =? 192).
  - eapply yields_bind; [by apply be_u8_yields|].
    intros l2 remain2 ob -> (Hl2 & _ & Hob). rewrite length_app in Hf.
    set (offset := Z.lor _ _).
    assert (0 <= offset) as Hoff by (apply offset_nonneg; unfold u_ok in *; lia).
    destruct (Z.leb_spec (blen origin) offset); cbn [orb].
    { cbn. by apply bytes_ok_app. }
    case_bool_decide as Hvis; [cbn; by apply bytes_ok_app|].
    destruct (visited_push visited offset (blen origin)) as [Hnd' Hv']; [done..|].
    pose proof (visited_bound _ _ Hnd' Hv') as Hcard.
    rewrite length_app in Hcard. cbn [length] in Hcard.
    assert (yields (be_name_labels fuel (drop (Z.to_nat offset) origin) origin
              (visited ++ [offset]) []) (drop (Z.to_nat offset) origin) (name_read [])) as Hrec.
    { apply IH; [by apply bytes_ok_drop|done..|].
      rewrite length_drop, length_app. cbn [length]. nia. }
    destruct (be_name_labels _ _ _ _ []) as [[r' sfx]|e]; [|done].
    destruct Hrec as (l' & _ & _ & ls' & -> & Hls).
    apply yields_ok. split; [by destruct l|]. exists ls'. done.
  - destruct (63 <? len); [by apply bytes_ok_app|].
    eapply yields_bind; [apply nom_take_yields; unfold u_ok in Hlen; [lia|done]|].
    intros l2 remain2 lb -> (-> & Hlb & _). apply bytes_ok_app in Hin as [_ Hin].
    eapply yields_weaken; [apply IH; try done|].
    + rewrite length_app in Hf. lia.
    + intros l3 ls (Hne & ls' & -> & Hls). split; [by destruct l|].
      exists (from_utf8_lossy lb :: ls'). rewrite <- app_assoc. split; [done|].
      constructor; [apply from_utf8_lossy_utf8|done].
Qed.

Lemma be_name_labels_mono f f' input origin visited labels :
  (f <= f')%nat ->
  be_name_labels f input origin visited labels <> Err OutOfFuel ->
  be_name_labels f' input origin visited labels = be_name_labels f input origin visited labels.
Proof.
  revert f' input visited labels. induction f as [|f IH]; intros f' input visited labels Hf; [done|].
  destruct f' as [|f']; [lia|]. cbn [be_name_labels].
  destruct (be_u8 input) as [[remain len]|]; [|done].
  destruct (len =? 0); [done|]. destruct (Z.land len 192 =? 192).
  - destruct (be_u8 remain) as [[remain2 ob]|]; [|done].
    destruct (_ || _); [done|]. intros Hne.
    rewrite (IH f'); [done|lia|]. intros E. by rewrite E in Hne.
  - destruct (63 <? len); [done|].
    destruct (nom_take len remain) as [[remain2 lb]|]; [|done]. apply IH. lia.
Qed.

(** ** Names on the wire

    [name_at origin bound input ls r]: in the message [origin], [input] starts
    with an encoding of the labels [ls], followed by [r]; pointers lead to
    offsets below [bound], and the bound decreases along a chain of pointers. *)
Definition label_ok (l : bytes) : Prop := 0 < blen l <= 63 /\ utf8 l /\ dot ∉ l.

Definition ptr_bytes (off : Z) : bytes := to_be 2 (Z.lor 0xC000 (Z.land off 0x3FFF)).

Inductive name_at (origin : bytes) : Z -> bytes -> list bytes -> bytes -> Prop :=
| name_root bound r : name_at origin bound (0 :: r) [] r
| name_label bound l input ls r :
    label_ok l -> name_at origin bound input ls r ->
    name_at origin bound (blen l :: l ++ input) (l :: ls) r
| name_pointer bound off ls r r' :
    0 <= off < bound -> off < blen origin -> off < 2 ^ 14 ->
    name_at origin off (drop (Z.to_nat off) origin) ls r' ->
    name_at origin bound (ptr_bytes off ++ r) ls r.

Lemma ptr_bytes_shape off :
  0 <= off < 2 ^ 14 -> ptr_bytes off = [192 + off / 256; off mod 256].
Proof.
  intros Hoff. unfold ptr_bytes.
  replace (Z.land off 0x3FFF) with off by
    (change 0x3FFF with (Z.ones 14); rewrite Z.land_ones by lia; symmetry; apply Z.mod_small; lia).
  change 0xC000 with (Z.shiftl 3 14). rewrite lor_high by lia.
  replace (3 * 2 ^ 14 + off) with (off + 192 * 256) by lia.
  assert (0 <= off / 256 < 64) by
    (split; [apply Z.div_pos; lia|apply Z.div_lt_upper_bound; lia]).
  unfold to_be. change (256 ^ Z.of_nat 1) with 256. change (256 ^ Z.of_nat 0) with 1.
  rewrite Z.div_1_r, Z.div_add, Z.mod_add by lia.
  rewrite Z.mod_small by lia. by rewrite Z.add_comm.
Qed.

Lemma pointer_decode hi lo :
  0 <= hi < 64 -> 0 <= lo < 256 ->
  Z.land (192 + hi) 0xC0 = 0xC0 /\ Z.lor (Z.shiftl (Z.land (192 + hi) 0x3F) 8) lo = hi * 256 + lo.
Proof.
  intros Hhi Hlo.
  set (P := fun h => (Z.land (192 + h) 0xC0 =? 0xC0) && (Z.land (192 + h) 0x3F =? h)
                     || negb (h <? 64)).
  assert (P hi = true) as HP by
    (apply (byte_enum P); [vm_compute; reflexivity|unfold byte_ok; lia]).
  unfold P in HP. rewrite (proj2 (Z.ltb_lt _ _)), orb_false_r in HP by lia.
  apply andb_prop in HP as [H1%Z.eqb_eq H2%Z.eqb_eq]. split; [done|]. rewrite H2.
  by apply (lor_high hi 8).
Qed.

(** What [name_at] describes is what the parser reads. *)
Lemma name_at_decodes origin bound input ls r :
  name_at origin bound input ls r ->
  exists f0, forall f visited labels, (f0 <= f)%nat ->
    (forall o, o ∈ visited -> bound <= o) ->
    be_name_labels f input origin visited labels = Ok (r, labels ++ ls).
Proof.
  induction 1 as [bound r|bound l input ls r [Hl [Hu Hdot]] Hna IH
                 |bound off ls r r' Hoff Hor Hlt Hna IH].
  - exists 1%nat. intros [|f] visited labels Hf Hv; [lia|]. cbn [be_name_labels].
    by rewrite be_u8_cons, app_nil_r.
  - destruct IH as [f0 IH]. exists (S f0). intros [|f] visited labels Hf Hv; [lia|].
    cbn [be_name_labels]. rewrite be_u8_cons.
    rewrite (proj2 (Z.eqb_neq _ _)) by lia.
    set (P := fun n => negb (Z.land n 192 =? 192) || (63 <? n)).
    assert (P (blen l) = true) as HP by
      (apply (byte_enum P); [vm_compute; reflexivity|unfold byte_ok; lia]).
    unfold P in HP. rewrite (proj2 (Z.ltb_ge 63 (blen l))), orb_false_r in * by lia.
    apply negb_true_iff in HP. rewrite HP, nom_take_app, from_utf8_lossy_id by done.
    rewrite IH by (done || lia). by rewrite <- app_assoc.
  - destruct IH as [f0 IH]. exists (S f0). intros [|f] visited labels Hf Hv; [lia|].
    rewrite ptr_bytes_shape by lia. cbn [be_name_labels app].
    assert (0 <= off / 256 < 64) as Hhi by
      (split; [apply Z.div_pos; lia|apply Z.div_lt_upper_bound; lia]).
    pose proof (Z.mod_pos_bound off 256 ltac:(lia)) as Hlo.
    destruct (pointer_decode (off / 256) (off mod 256) Hhi Hlo) as [E1 E2].
    rewrite be_u8_cons, (proj2 (Z.eqb_neq _ _)), E1, Z.eqb_refl, be_u8_cons, E2 by lia.
    replace (off / 256 * 256 + off mod 256) with off by
      (rewrite (Z.div_mod off 256) at 1; lia).
    rewrite (proj2 (Z.leb_gt _ _)) by lia. rewrite bool_decide_false by
      (intros Hin%Hv; lia). cbn [orb].
    rewrite IH; [done|lia|].
    intros o [Ho%Hv|Ho%list_elem_of_singleton]%elem_of_app; lia.
Qed.

Lemma name_at_bound origin bound bound' input ls r :
  bound <= bound' -> name_at origin bound input ls r -> name_at origin bound' input ls r.
Proof.
  intros Hb Hna. revert bound' Hb. induction Hna; intros bound' Hb.
  - constructor.
  - constructor; auto.
  - econstructor; try done. lia.
Qed.

(** Appending to the input or to the message does not disturb a name. *)
Lemma name_at_input origin bound input ls r t :
  name_at origin bound input ls r -> name_at origin bound (input ++ t) ls (r ++ t).
Proof.
  induction 1 as [|bound l input ls r Hl Hna IH|bound off ls r r' Hoff Hor Hlt Hna IH].
  - constructor.
  - cbn [app]. rewrite <- app_assoc. by constructor.
  - rewrite <- app_assoc. by apply (name_pointer _ _ _ _ _ r').
Qed.

Lemma name_at_origin origin bound input ls r t :
  name_at origin bound input ls r -> name_at (origin ++ t) bound input ls r.
Proof.
  induction 1 as [|bound l input ls r Hl Hna IH|bound off ls r r' Hoff Hor Hlt Hna IH].
  - constructor.
  - by constructor.
  - apply (name_pointer _ _ _ _ _ (r' ++ t)); try done.
    + rewrite blen_app. pose proof (blen_nonneg t). lia.
    + rewrite drop_app_le by (unfold blen in *; lia). by apply name_at_input.
Qed.

Lemma name_at_app origin bound input ls r t :
  name_at origin bound input ls r -> name_at (origin ++ t) bound (input ++ t) ls (r ++ t).
Proof. intros. by apply name_at_origin, name_at_input. Qed.

(** ** [put_name] as a function of the position and the context

    What [put_name] appends depends on the buffer only through its length. *)
Definition labels_of (name : Name) : list bytes := List.filter nonempty (split_on dot name).

Definition canonical_name (name : Name) : Name :=
  match labels_of name with [] => [dot] | ls => join [dot] ls end.

Fixpoint enc_labels (pos : Z) (labels : list bytes) (ctx : NameCompression)
  : bytes * NameCompression :=
  match labels with
  | [] => ([0], ctx)
  | l :: ls =>
      match get_suffix_offset ctx (join [dot] labels) with
      | Some off => (ptr_bytes off, ctx)
      | None =>
          let ctx := if pos <=? 0x3FFF
                     then remember_suffix ctx (join [dot] labels) (as_u 16 pos) else ctx in
          let '(e, ctx) := enc_labels (pos + 1 + blen l) ls ctx in
          (to_be 1 (as_u 8 (blen l)) ++ l ++ e, ctx)
      end
  end.

Definition enc_name (pos : Z) (name : Name) (ctx : NameCompression) : bytes * NameCompression :=
  enc_labels pos (labels_of name) ctx.

Fixpoint suffix_joins (labels : list bytes) : list bytes :=
  match labels with
  | [] => []
  | _ :: ls => join [dot] labels :: suffix_joins ls
  end.

Lemma build_suffixes_spec labels :
  Forall (fun l => l <> []) labels -> build_suffixes labels = suffix_joins labels.
Proof.
  intros Hne. unfold build_suffixes.
  assert (fold_left push_suffix (reverse labels) ([], [])
          = (reverse (suffix_joins labels), join [dot] labels)) as ->;
    [|cbn; apply reverse_involutive].
  induction Hne as [|l ls Hl Hls IH]; [done|].
  rewrite reverse_cons, fold_left_app, IH. cbn [fold_left push_suffix suffix_joins].
  rewrite reverse_cons. destruct ls as [|l' ls]; [done|].
  destruct (join [dot] (l' :: ls)) as [|b j] eqn:E; [|by rewrite <- E].
  exfalso. inversion Hls; subst. destruct l'; [done|]. by destruct ls.
Qed.

Lemma strip_dot_labels name :
  List.filter nonempty (split_on dot (default name (strip_suffix [dot] name))) = labels_of name.
Proof.
  unfold labels_of. pose proof (strip_suffix_char dot name) as H.
  destruct (strip_suffix [dot] name) as [r|]; cbn [default]; [|done].
  subst name. rewrite split_on_snoc, List.filter_app. cbn. by rewrite app_nil_r.
Qed.

Lemma labels_of_nonempty name : Forall (fun l => l <> []) (labels_of name).
Proof.
  apply List.Forall_forall. intros l [_ Hl]%List.filter_In. by destruct l.
Qed.

(** ** The compression context is correct *)
Definition entry_ok (buf : bytes) (s : bytes) (off : Z) : Prop :=
  0 <= off < 2 ^ 14 /\ off < blen buf /\
  exists ls r, s = join [dot] ls /\ ls <> [] /\ Forall label_ok ls
    /\ name_at buf off (drop (Z.to_nat off) buf) ls r.

Definition ctx_ok (buf : bytes) (ctx : NameCompression) : Prop :=
  forall s off, get_suffix_offset ctx s = Some off -> entry_ok buf s off.

Lemma entry_ok_app buf s off t : entry_ok buf s off -> entry_ok (buf ++ t) s off.
Proof.
  intros (Hoff & Hlt & ls & r & -> & Hne & Hls & Hna). pose proof (blen_nonneg t).
  split; [done|]. split; [rewrite blen_app; lia|]. exists ls, (r ++ t). repeat split; try done.
  rewrite drop_app_le by (unfold blen in *; lia). by apply name_at_app.
Qed.

Lemma ctx_ok_new : ctx_ok [] NameCompression_new.
Proof. intros s off H. unfold get_suffix_offset in H. cbn in H. by rewrite lookup_empty in H. Qed.

Lemma ctx_ok_app buf ctx t : ctx_ok buf ctx -> ctx_ok (buf ++ t) ctx.
Proof. intros H s off Hs. by apply entry_ok_app, H. Qed.

Lemma label_ok_nodot ls : Forall label_ok ls -> Forall (fun p => dot ∉ p) ls.
Proof. intros H. eapply Forall_impl; [exact H|]. by intros l (_ & _ & ?). Qed.

Lemma join_inj ls ls' :
  ls <> [] -> ls' <> [] -> Forall label_ok ls -> Forall label_ok ls' ->
  join [dot] ls = join [dot] ls' -> ls = ls'.
Proof.
  intros ? ? ?%label_ok_nodot ?%label_ok_nodot E.
  rewrite <- (split_join dot ls), <- (split_join dot ls') by done. by rewrite E.
Qed.

Lemma get_remember ctx s s' off :
  get_suffix_offset ctx s = None ->
  get_suffix_offset (remember_suffix ctx s off) s'
  = if decide (s = s') then Some off else get_suffix_offset ctx s'.
Proof.
  unfold get_suffix_offset, remember_suffix. intros ->. cbn. apply lookup_insert.
Qed.

Lemma label_byte l : label_ok l -> to_be 1 (as_u 8 (blen l)) = [blen l].
Proof.
  intros ([? ?] & _). unfold as_u. rewrite Z.mod_small by lia.
  apply to_be_one. unfold byte_ok. lia.
Qed.

Lemma join_cons_lt l ls : label_ok l -> (length (join [dot] ls) < length (join [dot] (l :: ls)))%nat.
Proof.
  intros ([Hl _] & _). unfold blen in Hl. destruct ls as [|l' ls]; [cbn; lia|].
  rewrite (join_length_cons _ l) by done. lia.
Qed.

Lemma enc_labels_sound bound labels : forall buf ctx e ctx',
  Forall label_ok labels -> bound <= blen buf ->
  (forall s off, (length s <= length (join [dot] labels))%nat ->
     get_suffix_offset ctx s = Some off -> entry_ok buf s off /\ off < bound) ->
  enc_labels (blen buf) labels ctx = (e, ctx') ->
  name_at (buf ++ e) bound e labels []
  /\ (forall s off, get_suffix_offset ctx' s = Some off ->
        get_suffix_offset ctx s = Some off \/ entry_ok (buf ++ e) s off).
Proof.
  induction labels as [|l ls IH]; intros buf ctx e ctx' Hls Hb Hctx He; cbn [enc_labels] in He.
  { injection He as <- <-. split; [constructor|by left]. }
  pose proof (Forall_inv Hls) as Hl. pose proof (Forall_inv_tail Hls) as Hls'.
  destruct (get_suffix_offset ctx (join [dot] (l :: ls))) as [off|] eqn:Hget.
  - injection He as <- <-. split; [|by left].
    destruct (Hctx _ _ (le_n _) Hget) as [Hent Hoff].
    pose proof (entry_ok_app _ _ _ (ptr_bytes off) Hent) as
      (Hr & Hlt & ls' & r & Hj & Hne & Hok & Hna).
    apply join_inj in Hj as <-; try done. rewrite <- (app_nil_r (ptr_bytes off)) at 2.
    apply (name_pointer _ _ off _ [] r); [lia..|done].
  - set (ctx1 := if blen buf <=? 16383 then _ else _) in He.
    destruct (enc_labels (blen buf + 1 + blen l) ls ctx1) as [e' ctx2] eqn:Hrec.
    rewrite (label_byte l Hl) in He. injection He as <- <-. cbn [app].
    replace (blen buf + 1 + blen l) with (blen (buf ++ blen l :: l)) in Hrec by blen_lia.
    replace (buf ++ blen l :: l ++ e') with ((buf ++ blen l :: l) ++ e') by
      (by rewrite <- app_assoc).
    assert (forall s off, get_suffix_offset ctx1 s = Some off ->
      get_suffix_offset ctx s = Some off
      \/ s = join [dot] (l :: ls) /\ off = blen buf /\ blen buf <= 0x3FFF) as Hctx1.
    { intros s off. unfold ctx1. destruct (Z.leb_spec (blen buf) 16383); [|by left].
      rewrite get_remember by done. case_decide as Hs; [|by left]. intros [= <-]. right.
      unfold as_u. rewrite Z.mod_small by (pose proof (blen_nonneg buf); lia). done. }
    apply IH in Hrec as [Hna Hctx2]; [|done|blen_lia|].
    + assert (name_at ((buf ++ blen l :: l) ++ e') bound (blen l :: l ++ e') (l :: ls) [])
        as Hna' by (by constructor).
      split; [done|]. intros s off [Hs|Hs]%Hctx2; [|by right].
      apply Hctx1 in Hs as [Hs|(-> & -> & Hpos)]; [by left|right].
      split; [pose proof (blen_nonneg buf); lia|].
      split; [pose proof (blen_nonneg e'); pose proof (blen_nonneg l); blen_lia|].
      exists (l :: ls), []. repeat split; try done. rewrite <- app_assoc.
      replace (Z.to_nat (blen buf)) with (length buf) by (unfold blen; lia).
      rewrite drop_app_length.
      eapply name_at_bound; [|rewrite app_assoc; exact Hna']. done.
    + intros s off Hlen Hs. pose proof (join_cons_lt l ls Hl).
      apply Hctx1 in Hs as [Hs|(-> & _)]; [|lia].
      apply Hctx in Hs as [Hs ?]; [|lia]. split; [by apply entry_ok_app|done].
Qed.

(** The invariant of the names of a message: a [String] whose labels fit. *)
Definition name_ok (name : Name) : Prop :=
  utf8 name /\ bytes_ok name /\ Forall (fun l => blen l <= 63) (labels_of name).

Global Instance name_ok_dec name : Decision (name_ok name).
Proof. unfold name_ok. apply _. Defined.

Lemma labels_of_ok name : name_ok name -> Forall label_ok (labels_of name).
Proof.
  intros (Hu & _ & Hlen). pose proof (labels_of_nonempty name) as Hne.
  pose proof (split_on_utf8 dot name ltac:(done) Hu) as Hu'.
  pose proof (split_on_no_sep dot name) as Hd.
  rewrite Forall_forall in *. intros l Hl.
  assert (l ∈ split_on dot name) as Hin by
    (apply list_elem_of_In; apply list_elem_of_In, List.filter_In in Hl; tauto).
  specialize (Hne l Hl). split; [|by split; [apply Hu'|apply Hd]].
  split; [|by apply Hlen]. destruct l; [done|]. blen_lia.
Qed.

Lemma enc_name_sound buf name ctx e ctx' :
  ctx_ok buf ctx -> name_ok name -> enc_name (blen buf) name ctx = (e, ctx') ->
  ctx_ok (buf ++ e) ctx' /\ name_at (buf ++ e) (blen buf) e (labels_of name) [].
Proof.
  intros Hctx Hn He. apply (enc_labels_sound (blen buf)) in He as [Hna Hctx'].
  - split; [|done]. intros s off [Hs|Hs]%Hctx'; [by apply entry_ok_app, Hctx|done].
  - by apply labels_of_ok.
  - done.
  - intros s off _ Hs. apply Hctx in Hs. split; [done|]. by destruct Hs as (_ & ? & _).
Qed.

Lemma enc_labels_bytes_ok labels : forall pos ctx,
  Forall bytes_ok labels -> bytes_ok (enc_labels pos labels ctx).1.
Proof.
  induction labels as [|l ls IH]; intros pos ctx Hls; cbn [enc_labels].
  { repeat constructor; unfold byte_ok; lia. }
  apply Forall_cons in Hls as [Hl Hls].
  destruct (get_suffix_offset _ _); [apply to_be_ok|].
  set (ctx1 := if pos <=? 16383 then _ else _). specialize (IH (pos + 1 + blen l) ctx1 Hls).
  destruct (enc_labels (pos + 1 + blen l) ls ctx1) as [e ctx2]. cbn [fst] in *.
  apply bytes_ok_app. split; [apply to_be_ok|]. by apply bytes_ok_app.
Qed.

Lemma split_on_bytes_ok sep l : bytes_ok l -> Forall bytes_ok (split_on sep l).
Proof.
  induction 1 as [|b l Hb Hl IH]; cbn [split_on]; [repeat constructor|].
  destruct (b =? sep); [by constructor; [constructor|]|].
  destruct (split_on sep l) as [|p ps] eqn:E; [by apply split_on_nonempty in E|].
  apply Forall_cons in IH as [??]. constructor; [by constructor|done].
Qed.

Lemma enc_name_bytes_ok pos name ctx : bytes_ok name -> bytes_ok (enc_name pos name ctx).1.
Proof.
  intros Hn. apply enc_labels_bytes_ok. apply split_on_bytes_ok with (sep := dot) in Hn.
  rewrite List.Forall_forall in *. intros l [Hl _]%List.filter_In. by apply Hn.
Qed.

Lemma be_name_at origin bound input ls r :
  name_at origin bound input ls r -> bytes_ok input -> bytes_ok origin ->
  be_name input origin = Ok (r, match ls with [] => [dot] | _ => join [dot] ls end).
Proof.
  intros Hna Hin Hor. apply name_at_decodes in Hna as [f0 Hdec].
  assert (be_name_labels (name_fuel input origin) input origin [] [] = Ok (r, ls)) as E.
  { assert (be_name_labels (name_fuel input origin) input origin [] [] <> Err OutOfFuel) as Hne.
    { pose proof (be_name_labels_yields (name_fuel input origin) input origin [] [] Hin Hor)
        as Hy. intros E. rewrite E in Hy. apply Hy; [constructor|set_solver|].
      unfold name_fuel. cbn [length]. lia. }
    rewrite <- (be_name_labels_mono _ (max f0 (name_fuel input origin))) by (done || lia).
    apply Hdec; [lia|set_solver]. }
  unfold be_name, be_name_inner. rewrite E. by destruct ls.
Qed.

(** The input may end anywhere after the name: [t] is what is left of it. *)
Lemma be_name_enc buf name ctx e ctx' t rest :
  ctx_ok buf ctx -> name_ok name -> enc_name (blen buf) name ctx = (e, ctx') ->
  bytes_ok (buf ++ e ++ rest) -> bytes_ok t ->
  be_name (e ++ t) (buf ++ e ++ rest) = Ok (t, canonical_name name).
Proof.
  intros Hctx Hn He Hok Ht. destruct (enc_name_sound _ _ _ _ _ Hctx Hn He) as [_ Hna].
  apply (name_at_input _ _ _ _ _ t), (name_at_origin _ _ _ _ _ rest) in Hna.
  rewrite <- app_assoc in Hna.
  apply be_name_at in Hna; [| |done]; [|].
  - cbn [app] in Hna. rewrite Hna. unfold canonical_name. by destruct (labels_of name).
  - rewrite !bytes_ok_app in Hok. apply bytes_ok_app. tauto.
Qed.

Lemma be_name_yields input origin :
  bytes_ok input -> bytes_ok origin ->
  yields (be_name input origin) input (fun l name => l <> [] /\ utf8 name).
Proof.
  intros Hin Hor. unfold be_name, be_name_inner. eapply yields_bind.
  { apply be_name_labels_yields; [done..|constructor|set_solver|].
    unfold name_fuel. cbn [length]. lia. }
  intros l remain labels -> (Hl & ls' & -> & Hls). cbn [app].
  destruct ls' as [|x ls']; apply yields_ok; rewrite app_nil_r;
    (split; [done|]); [by apply utf8_ascii|by apply join_utf8].
Qed.
(** An encoded name is not empty and at most two bytes longer than the name. *)
Lemma enc_labels_length labels : forall pos ctx,
  Forall (fun l => l <> []) labels ->
  1 <= blen (enc_labels pos labels ctx).1
    <= foldr (fun l n => 1 + blen l + n) 1 labels.
Proof.
  induction labels as [|l ls IH]; intros pos ctx Hls; cbn [enc_labels foldr]; [by cbn|].
  apply Forall_cons in Hls as [Hl Hls].
  assert (1 <= foldr (fun l n => 1 + blen l + n) 1 ls) as Hpos by
    (clear; induction ls as [|x ls IH]; cbn [foldr]; [lia|pose proof (blen_nonneg x); lia]).
  assert (1 <= blen l) by (destruct l; [done|blen_lia]).
  destruct (get_suffix_offset ctx (join [dot] (l :: ls))); cbn [fst].
  { unfold ptr_bytes. rewrite blen_to_be. lia. }
  set (ctx1 := if pos <=? 16383 then _ else _). specialize (IH (pos + 1 + blen l) ctx1 Hls).
  destruct (enc_labels (pos + 1 + blen l) ls ctx1) as [e ctx2]. cbn [fst] in *.
  rewrite !blen_app, blen_to_be. lia.
Qed.

Lemma split_on_length sep l : foldr (fun p n => 1 + blen p + n) 0 (split_on sep l) = 1 + blen l.
Proof.
  induction l as [|b l IH]; cbn [split_on]; [by cbn|].
  destruct (b =? sep); cbn [foldr]; [rewrite IH; blen_lia|].
  destruct (split_on sep l) as [|p ps] eqn:E; [by apply split_on_nonempty in E|].
  cbn [foldr] in *. rewrite !blen_cons. lia.
Qed.

Lemma enc_name_length pos name ctx : 1 <= blen (enc_name pos name ctx).1 <= blen name + 2.
Proof.
  pose proof (enc_labels_length (labels_of name) pos ctx (labels_of_nonempty name)) as H.
  fold (enc_name pos name ctx) in H. pose proof (split_on_length dot name) as Hs.
  assert (forall ps, foldr (fun l n => 1 + blen l + n) 1 (List.filter nonempty ps)
    <= 1 + foldr (fun l n => 1 + blen l + n) 0 ps) as Hf.
  { induction ps as [|p ps IH]; cbn [List.filter foldr]; [lia|].
    pose proof (blen_nonneg p). destruct (nonempty p); cbn [foldr]; lia. }
  specialize (Hf (split_on dot name)). fold (labels_of name) in Hf. lia.
Qed.
End Facts.

Section PutFacts.
Context `{BS : BufMutSpec}.

Lemma put_labels_enc labels buf ctx :
  put_labels buf labels (suffix_joins labels) ctx
  = let '(e, ctx') := enc_labels (blen buf) labels ctx in (buf ++ e, ctx').
Proof.
  revert buf ctx. induction labels as [|l ls IH]; intros buf ctx.
  { cbn. by rewrite put_u8_spec. }
  cbn [put_labels suffix_joins enc_labels].
  destruct (get_suffix_offset ctx (join [dot] (l :: ls))) as [off|].
  { by rewrite put_u16_spec. }
  rewrite IH, put_slice_spec, put_u8_spec, !blen_app, blen_to_be.
  change (Z.of_nat 1) with 1. destruct (enc_labels _ ls _) as [e ctx'].
  by rewrite !app_assoc.
Qed.

Lemma put_name_enc buf name ctx :
  put_name buf name ctx
  = let '(e, ctx') := enc_name (blen buf) name ctx in (buf ++ e, ctx', blen e).
Proof.
  unfold put_name, enc_name. rewrite put_u8_spec, blen_app.
  replace (blen buf + blen (to_be 1 0) - blen buf) with 1 by (rewrite blen_to_be; lia).
  case_bool_decide as Hdot; [by subst name|].
  destruct (nonempty (default name (strip_suffix [dot] name))) eqn:Hne; cbn [negb].
  - rewrite strip_dot_labels. destruct (labels_of name) as [|l ls] eqn:E; [done|].
    rewrite <- E, build_suffixes_spec, put_labels_enc by apply labels_of_nonempty.
    destruct (enc_labels _ _ _) as [e ctx']. rewrite blen_app. f_equal. lia.
  - rewrite <- strip_dot_labels.
    destruct (default name (strip_suffix [dot] name)); done.
Qed.
End PutFacts.

(** ** Properties *)

(** C4: the name decoder terminates on every message, whatever its compression
    pointers: started at any slice of bytes it returns a [String] (valid UTF-8)
    and a non-empty consumed prefix, or an error of [nom]. *)
Theorem be_name_total `{NomSpec} (input origin : bytes) :
  bytes_ok input -> bytes_ok origin ->
  match be_name input origin with
  | Ok (remain, name) => exists l, input = l ++ remain /\ l <> [] /\ utf8 name
  | Err e => err_ok e
  end.
Proof. apply be_name_yields. Qed.

Example be_name_total_witness :
  bytes_ok [0xC0; 2; 0xC0; 0]
  /\ match be_name (N := NomModel.nom) [0xC0; 2; 0xC0; 0] [0xC0; 2; 0xC0; 0] with
     | Ok (remain, name) => exists l, [0xC0; 2; 0xC0; 0] = l ++ remain /\ l <> [] /\ utf8 name
     | Err e => err_ok e
     end.
Proof.
  assert (bytes_ok [0xC0; 2; 0xC0; 0]) as Hok by decide_now.
  split; [exact Hok|]. exact (be_name_total (H := NomModel.nom_spec) _ _ Hok Hok).
Defined.

(** C3: compression is transparent.  Writing a name into a message whose
    compression context is correct appends an encoding from which [be_name]
    reads the same labels back, also after the message has been extended, and
    leaves a correct context: every remembered offset is the position of the
    suffix it is remembered for. *)
Theorem put_name_roundtrip `{NomSpec} `{BufMutSpec} (buf : bytes) (name : Name)
    (ctx : NameCompression) :
  bytes_ok buf -> ctx_ok buf ctx -> name_ok name ->
  exists enc ctx',
    put_name buf name ctx = (buf ++ enc, ctx', blen enc)
    /\ ctx_ok (buf ++ enc) ctx'
    /\ forall rest, bytes_ok rest ->
         be_name (enc ++ rest) (buf ++ enc ++ rest) = Ok (rest, canonical_name name).
Proof.
  intros Hb Hctx Hn. rewrite put_name_enc.
  destruct (enc_name (blen buf) name ctx) as [enc ctx'] eqn:E. exists enc, ctx'.
  split; [done|]. split; [by eapply enc_name_sound|]. intros rest Hr.
  eapply be_name_enc; try done. rewrite bytes_ok_app. split; [done|].
  apply bytes_ok_app. split; [|done].
  change enc with ((enc, ctx').1). rewrite <- E. apply enc_name_bytes_ok, Hn.
Qed.

Example put_name_roundtrip_witness :
  exists enc ctx',
    put_name (B := NomModel.buf_mut) [] (str "www.skype.com.") NameCompression_new
      = ([] ++ enc, ctx', blen enc)
    /\ ctx_ok ([] ++ enc) ctx'
    /\ forall rest, bytes_ok rest ->
         be_name (N := NomModel.nom) (enc ++ rest) ([] ++ enc ++ rest)
         = Ok (rest, str "www.skype.com").
Proof.
  apply (put_name_roundtrip (H := NomModel.nom_spec) (H0 := NomModel.buf_mut_spec)
           [] (str "www.skype.com.") NameCompression_new).
  - constructor.
  - apply ctx_ok_new.
  - split; [decide_now|]. split; [decide_now|]. decide_now.
Defined.
