(* ===== verification/DnsHeader.v ===== *)
(** * Message header: src/core/parser/header.rs

    [Flags] is generated by the [bitfield_struct] macro from the field list of
    the source; its accessors are modelled over the class [Bitfield] of the two
    operations the macro generates for a field, and [BitfieldSpec] says which
    bits they read and write.  With [order = Msb] the first field of the list
    is the most significant one. *)

From stdpp Require Import base list numbers.
From S2P Require Import Prelude Nom.

Class Bitfield := {
  bits_get : Z -> Z -> Z -> Z;       (* offset, width, raw *)
  bits_set : Z -> Z -> Z -> Z -> Z;  (* offset, width, raw, value *)
}.

Class BitfieldSpec (F : Bitfield) : Prop := {
  bits_get_spec off w raw : 0 <= off -> 0 <= w ->
    bits_get off w raw = (raw / 2 ^ off) mod 2 ^ w;
  bits_set_spec off w raw v : 0 <= off -> 0 <= w -> 0 <= v < 2 ^ w ->
    bits_set off w raw v
    = raw - ((raw / 2 ^ off) mod 2 ^ w) * 2 ^ off + v * 2 ^ off;
}.

(** ** Opcodes and response codes *)
Module Opcode.
Inductive t := StandardQuery | InverseQuery | ServerStatusRequest | Reserved (value : Z).

Definition into_bits (o : t) : Z :=
  match o with
  | StandardQuery => 0
  | InverseQuery => 1
  | ServerStatusRequest => 2
  | Reserved value => value
  end.

Definition from_bits (value : Z) : t :=
  match value with
  | 0 => StandardQuery
  | 1 => InverseQuery
  | 2 => ServerStatusRequest
  | _ => Reserved value
  end.
End Opcode.

Module ResponseCode.
Inductive t :=
| NoError | FormatError | ServerFailure | NameError | NotImplemented | Refused
| Reserved (value : Z).

Definition into_bits (r : t) : Z :=
  match r with
  | NoError => 0
  | FormatError => 1
  | ServerFailure => 2
  | NameError => 3
  | NotImplemented => 4
  | Refused => 5
  | Reserved value => value
  end.

Definition from_bits (value : Z) : t :=
  match value with
  | 0 => NoError
  | 1 => FormatError
  | 2 => ServerFailure
  | 3 => NameError
  | 4 => NotImplemented
  | 5 => Refused
  | _ => Reserved value
  end.
End ResponseCode.

(** ** Flags *)
Record Flags := mkFlags { flags_bits : Z }.

Global Instance Flags_eq_dec : EqDecision Flags.
Proof. solve_decision. Defined.

Definition Flags_new : Flags := mkFlags 0.
Definition Flags_from (raw : Z) : Flags := mkFlags raw.
Definition Flags_into (f : Flags) : Z := flags_bits f.

Section Accessors.
Context `{F : Bitfield}.

Definition flag_get (off : Z) (f : Flags) : bool := negb (bits_get off 1 (flags_bits f) =? 0).
Definition flag_set (off : Z) (f : Flags) (b : bool) : Flags :=
  mkFlags (bits_set off 1 (flags_bits f) (Z.b2z b)).

(** The fields of the struct, from the most significant bit down. *)
Definition query (f : Flags) : bool := flag_get 15 f.
Definition set_query (f : Flags) (b : bool) : Flags := flag_set 15 f b.
Definition opcode (f : Flags) : Opcode.t := Opcode.from_bits (bits_get 11 4 (flags_bits f)).
Definition set_opcode (f : Flags) (o : Opcode.t) : Flags :=
  mkFlags (bits_set 11 4 (flags_bits f) (Opcode.into_bits o)).
Definition authoritative (f : Flags) : bool := flag_get 10 f.
Definition trun_cache (f : Flags) : bool := flag_get 9 f.
Definition recursion_desired (f : Flags) : bool := flag_get 8 f.
Definition set_recursion_desired (f : Flags) (b : bool) : Flags := flag_set 8 f b.
Definition recursion_available (f : Flags) : bool := flag_get 7 f.
Definition set_recursion_available (f : Flags) (b : bool) : Flags := flag_set 7 f b.
Definition zero (f : Flags) : bool := flag_get 6 f.
Definition authenticated_data (f : Flags) : bool := flag_get 5 f.
Definition set_authenticated_data (f : Flags) (b : bool) : Flags := flag_set 5 f b.
Definition checking_disabled (f : Flags) : bool := flag_get 4 f.
Definition set_checking_disabled (f : Flags) (b : bool) : Flags := flag_set 4 f b.
Definition response_code (f : Flags) : ResponseCode.t :=
  ResponseCode.from_bits (bits_get 0 4 (flags_bits f)).
Definition set_response_code (f : Flags) (r : ResponseCode.t) : Flags :=
  mkFlags (bits_set 0 4 (flags_bits f) (ResponseCode.into_bits r)).
End Accessors.

(** ** The header *)
Record Header := mkHeader {
  id : Z;
  flags : Flags;
  questions_count : Z;
  answers_count : Z;
  nameservers_count : Z;
  additional_count : Z;
}.

(** [Header::default()]: the value of [flags.with_query(false)] is dropped by the
    code, the header keeps [Flags::new()]. *)
Definition Header_default : Header := mkHeader 0 Flags_new 0 0 0 0.

Section Wire.
Context `{N : Nom} `{B : BufMut}.

Definition be_header (input : bytes) : IResult Header :=
  let? (remain, id) := be_u16 input in
  let? (remain, flags) := be_u16 remain in
  let flags := Flags_from flags in
  let? (remain, questions) := be_u16 remain in
  let? (remain, answers) := be_u16 remain in
  let? (remain, nameservers) := be_u16 remain in
  let? (remain, additional) := be_u16 remain in
  Ok (remain, mkHeader id flags questions answers nameservers additional).

Definition put_header (buf : bytes) (header : Header) : bytes :=
  let buf := put_u16 buf (id header) in
  let buf := put_u16 buf (Flags_into (flags header)) in
  let buf := put_u16 buf (questions_count header) in
  let buf := put_u16 buf (answers_count header) in
  let buf := put_u16 buf (nameservers_count header) in
  put_u16 buf (additional_count header).
End Wire.

(** All the fields are [u16]. *)
Definition header_ok (h : Header) : Prop :=
  u_ok 16 (id h) /\ u_ok 16 (flags_bits (flags h)) /\ u_ok 16 (questions_count h)
  /\ u_ok 16 (answers_count h) /\ u_ok 16 (nameservers_count h)
  /\ u_ok 16 (additional_count h).

Global Instance header_ok_dec h : Decision (header_ok h).
Proof. unfold header_ok. apply _. Defined.

Definition header_bytes (h : Header) : bytes :=
  to_be 2 (id h) ++ to_be 2 (flags_bits (flags h)) ++ to_be 2 (questions_count h)
  ++ to_be 2 (answers_count h) ++ to_be 2 (nameservers_count h)
  ++ to_be 2 (additional_count h).

Lemma header_bytes_length h : blen (header_bytes h) = 12.
Proof. unfold header_bytes. autorewrite with blen. done. Qed.

Lemma header_bytes_ok h : bytes_ok (header_bytes h).
Proof. unfold header_bytes. rewrite !bytes_ok_app. auto 10 with ddns. Qed.

Lemma put_header_bytes `{BS : BufMutSpec} buf h : put_header buf h = buf ++ header_bytes h.
Proof.
  unfold put_header, header_bytes, Flags_into. autorewrite with put. by rewrite <- !app_assoc.
Qed.

Section Facts.
Context `{NS : NomSpec}.

Lemma be_header_bytes h rest : header_ok h -> be_header (header_bytes h ++ rest) = Ok (rest, h).
Proof.
  destruct h as [i [f] q a n ad]. unfold header_ok, header_bytes, be_header, Flags_from.
  cbn [id flags flags_bits questions_count answers_count nameservers_count additional_count].
  intros (? & ? & ? & ? & ? & ?). rewrite <- !app_assoc. by rewrite !be_u16_app.
Qed.

Lemma be_header_yields input :
  bytes_ok input ->
  yields (be_header input) input (fun l h => header_ok h /\ l = header_bytes h).
Proof.
  intros Hok. unfold be_header. do 6 yields_step be_u16_yields.
  apply yields_ok. unfold header_ok, header_bytes, Flags_from. cbn.
  rewrite !(reads_to_be _ _ _ _ Hv), !(reads_to_be _ _ _ _ Hv0), !(reads_to_be _ _ _ _ Hv1),
    !(reads_to_be _ _ _ _ Hv2), !(reads_to_be _ _ _ _ Hv3), !(reads_to_be _ _ _ _ Hv4) by done.
  split; [|by rewrite app_nil_r]. unfold reads in *. tauto.
Qed.

Lemma be_header_error input e :
  be_header input = Err e -> (exists n, e = Incomplete n) /\ blen input < 12.
Proof.
  unfold be_header. intros E.
  do 6 match type of E with
  | context [be_u16 ?i] =>
      let H := fresh in pose proof (be_u16_cases i) as H;
      destruct (be_u16 i) as [[? ?]|];
      [|injection E as <-; destruct H as [? ?]; split; [done|lia]]
  end. done.
Qed.
End Facts.

(** ** Bit fields of the flags *)
Section FlagFacts.
Context `{FS : BitfieldSpec}.

Lemma bits_get_low off w raw hi :
  0 <= off -> 0 <= w -> off + w <= 15 -> bits_get off w (raw + hi * 2 ^ 15) = bits_get off w raw.
Proof.
  intros. rewrite !bits_get_spec by done.
  replace (hi * 2 ^ 15) with (hi * 2 ^ (15 - off - w) * 2 ^ w * 2 ^ off) by
    (rewrite <- !Z.mul_assoc, <- !Z.pow_add_r by lia; do 2 f_equal; lia).
  rewrite Z.div_add, Z.mod_add by (apply Z.pow_nonzero; lia). done.
Qed.

Lemma set_query_raw f b :
  u_ok 16 (flags_bits f) ->
  exists hi, flags_bits (set_query f b) = flags_bits f + hi * 2 ^ 15
    /\ flags_bits (set_query f b) = flags_bits f mod 2 ^ 15 + Z.b2z b * 2 ^ 15.
Proof.
  unfold u_ok, set_query, flag_set. cbn [flags_bits]. set (raw := flags_bits f). intros Hraw.
  rewrite bits_set_spec by (destruct b; cbn; lia).
  assert (0 <= raw / 2 ^ 15 < 2) by
    (split; [apply Z.div_pos; lia|apply Z.div_lt_upper_bound; lia]).
  rewrite (Z.mod_small (raw / 2 ^ 15)) by (cbn; lia).
  exists (Z.b2z b - raw / 2 ^ 15). split; [lia|].
  pose proof (Z.div_mod raw (2 ^ 15) ltac:(lia)). lia.
Qed.

Lemma set_query_ok f b : u_ok 16 (flags_bits f) -> u_ok 16 (flags_bits (set_query f b)).
Proof.
  intros Hf. destruct (set_query_raw f b Hf) as (_ & _ & ->). unfold u_ok.
  pose proof (Z.mod_pos_bound (flags_bits f) (2 ^ 15) ltac:(lia)). destruct b; cbn [Z.b2z]; lia.
Qed.

Lemma query_set_query f b : u_ok 16 (flags_bits f) -> query (set_query f b) = b.
Proof.
  intros Hf. destruct (set_query_raw f b Hf) as (_ & _ & E).
  unfold query, flag_get. rewrite E, bits_get_spec by lia.
  pose proof (Z.mod_pos_bound (flags_bits f) (2 ^ 15) ltac:(lia)).
  rewrite Z.div_add, Z.div_small by lia. by destruct b.
Qed.
End FlagFacts.

(** The bit fields computed with the formulas of the specification. *)
Module BitfieldModel.
#[export] Instance bitfield : Bitfield := {|
  bits_get off w raw := (raw / 2 ^ off) mod 2 ^ w;
  bits_set off w raw v := raw - ((raw / 2 ^ off) mod 2 ^ w) * 2 ^ off + v * 2 ^ off;
|}.

#[export] Instance bitfield_spec : BitfieldSpec bitfield.
Proof. by constructor. Qed.
End BitfieldModel.

(** ** Properties *)

(** The header codec is a bijection between headers and strings of twelve
    bytes: a header is written in twelve bytes and read back unchanged, and
    whatever [be_header] accepts is re-encoded to the very bytes it consumed. *)
Theorem header_codec `{NomSpec} `{BufMutSpec} (buf : bytes) :
  (forall h rest, header_ok h -> exists enc, put_header buf h = buf ++ enc
     /\ blen enc = 12 /\ be_header (enc ++ rest) = Ok (rest, h))
  /\ (forall input remain h, bytes_ok input -> be_header input = Ok (remain, h) ->
        header_ok h /\ input = put_header [] h ++ remain).
Proof.
  split.
  - intros h rest Hh. exists (header_bytes h). rewrite put_header_bytes, header_bytes_length.
    split; [done|]. split; [done|]. by apply be_header_bytes.
  - intros input remain h Hok E. pose proof (be_header_yields input Hok) as Hy.
    rewrite E in Hy. destruct Hy as (l & -> & Hh & ->). by rewrite put_header_bytes.
Qed.

Example header_codec_witness :
  header_ok (mkHeader 1573 (mkFlags 0x8180) 1 1 0 0)
  /\ exists enc, put_header (B := NomModel.buf_mut) [] (mkHeader 1573 (mkFlags 0x8180) 1 1 0 0) = enc
       /\ blen enc = 12
       /\ be_header (N := NomModel.nom) (enc ++ [9]) = Ok ([9], mkHeader 1573 (mkFlags 0x8180) 1 1 0 0).
Proof.
  assert (header_ok (mkHeader 1573 (mkFlags 0x8180) 1 1 0 0)) as Hok by decide_now.
  split; [exact Hok|].
  exact (proj1 (header_codec (H := NomModel.nom_spec) (H0 := NomModel.buf_mut_spec) []) _ [9] Hok).
Defined.

(** [set_query] stores the flag it is given, keeps the flags a [u16] and
    touches no other field of the flags word. *)
Theorem set_query_frame `{BitfieldSpec} (f : Flags) (b : bool) :
  u_ok 16 (flags_bits f) ->
  let f' := set_query f b in
  query f' = b /\ u_ok 16 (flags_bits f')
  /\ opcode f' = opcode f /\ authoritative f' = authoritative f
  /\ trun_cache f' = trun_cache f /\ recursion_desired f' = recursion_desired f
  /\ recursion_available f' = recursion_available f /\ zero f' = zero f
  /\ authenticated_data f' = authenticated_data f
  /\ checking_disabled f' = checking_disabled f /\ response_code f' = response_code f.
Proof.
  intros Hf. cbv zeta. split; [by apply query_set_query|]. split; [by apply set_query_ok|].
  destruct (set_query_raw f b Hf) as (hi & E & _).
  unfold opcode, authoritative, trun_cache, recursion_desired, recursion_available, zero,
    authenticated_data, checking_disabled, response_code, flag_get.
  rewrite E, !bits_get_low by lia. done.
Qed.

Example set_query_frame_witness :
  let f' := set_query (F := BitfieldModel.bitfield) (mkFlags 0x0100) true in
  query (F := BitfieldModel.bitfield) f' = true
  /\ recursion_desired (F := BitfieldModel.bitfield) f' = true.
Proof.
  destruct (set_query_frame (H := BitfieldModel.bitfield_spec) (mkFlags 0x0100) true)
    as (H1 & _ & _ & _ & _ & H2 & _); [decide_now|].
  split; [exact H1|]. rewrite H2. vm_compute. reflexivity.
Defined.
