(* ===== verification/Question.v ===== *)
(** * Questions: src/core/parser/question.rs *)

From stdpp Require Import base list numbers.
From S2P Require Import Prelude Nom RustString DnsName.

(** The conversions fail with an [io::Error] of kind [InvalidInput] whose message
    names the offending value; the model keeps the value. *)
Inductive io_error := InvalidInput (value : Z).

(** ** Query types and classes *)
Module QueryType.
Inductive t := A | AAAA | Cname | Txt | Srv | Ptr | E | E6 | EE | EE6.

Definition try_from (value : Z) : Result t io_error :=
  match value with
  | 1 => Ok A
  | 28 => Ok AAAA
  | 5 => Ok Cname
  | 16 => Ok Txt
  | 33 => Ok Srv
  | 12 => Ok Ptr
  | 266 => Ok E
  | 267 => Ok E6
  | 268 => Ok EE
  | 269 => Ok EE6
  | _ => Err (InvalidInput value)
  end.

Definition into_u16 (value : t) : Z :=
  match value with
  | A => 1
  | AAAA => 28
  | Cname => 5
  | Txt => 16
  | Srv => 33
  | Ptr => 12
  | E => 266
  | E6 => 267
  | EE => 268
  | EE6 => 269
  end.

Global Instance t_eq_dec : EqDecision t.
Proof. solve_decision. Defined.

Lemma type_from_into q : try_from (into_u16 q) = Ok q.
Proof. by destruct q. Qed.

Lemma type_u16_ok q : u_ok 16 (into_u16 q).
Proof. destruct q; decide_now. Qed.
End QueryType.

Module QueryClass.
Inductive t := IN | CS | CH | HS | Any.

Definition into_u16 (query : t) : Z :=
  match query with IN => 1 | CS => 2 | CH => 3 | HS => 4 | Any => 255 end.

Definition try_from (value : Z) : Result t io_error :=
  match value with
  | 1 => Ok IN
  | 2 => Ok CS
  | 3 => Ok CH
  | 4 => Ok HS
  | 255 => Ok Any
  | _ => Err (InvalidInput value)
  end.

Global Instance t_eq_dec : EqDecision t.
Proof. solve_decision. Defined.

Lemma class_from_into q : try_from (into_u16 q) = Ok q.
Proof. by destruct q. Qed.

Lemma class_u16_ok q : u_ok 15 (into_u16 q).
Proof. destruct q; decide_now. Qed.
End QueryClass.

(** ** Questions *)
Record Question := mkQuestion {
  q_name : Name;
  q_prefer_unicast : bool;
  q_qtype : QueryType.t;
  q_qclass : QueryClass.t;
}.

Global Instance Question_eq_dec : EqDecision Question.
Proof. solve_decision. Defined.

Section Wire.
Context `{N : Nom}.

Definition be_question (input origin : bytes) : IResult Question :=
  let? (remain, name) := be_name input origin in
  let? (remain, qtype) := be_u16 remain in
  let? (remain, qclass) := be_u16 remain in
  match QueryType.try_from qtype with
  | Err _ => Err (Error remain Alt)
  | Ok qtype =>
      let prefer_unicast := Z.land qclass 0x8000 =? 0x8000 in
      let qclass := Z.land qclass 0x7FFF in
      match QueryClass.try_from qclass with
      | Err _ => Err (Error remain Alt)
      | Ok qclass => Ok (remain, mkQuestion name prefer_unicast qtype qclass)
      end
  end.
End Wire.

(** ** The class word: fifteen bits of class and one flag *)
Definition class_word (cls : Z) (flag : bool) : Z := if flag then Z.lor cls 0x8000 else cls.

Lemma class_word_add cls flag : u_ok 15 cls -> class_word cls flag = Z.b2z flag * 2 ^ 15 + cls.
Proof.
  intros Hc. destruct flag; cbn [class_word Z.b2z]; [|lia].
  rewrite Z.lor_comm. apply (lor_high 1 15); [lia|exact Hc].
Qed.

Lemma class_word_ok cls flag : u_ok 15 cls -> u_ok 16 (class_word cls flag).
Proof.
  intros Hc. rewrite class_word_add by done. unfold u_ok in *. destruct flag; cbn [Z.b2z]; lia.
Qed.

Lemma class_word_cls cls flag : u_ok 15 cls -> Z.land (class_word cls flag) 0x7FFF = cls.
Proof.
  intros Hc. rewrite class_word_add by done. change 0x7FFF with (Z.ones 15).
  rewrite Z.land_ones, Z.add_comm, Z.mod_add by lia. by apply Z.mod_small.
Qed.

Lemma class_word_flag cls flag :
  u_ok 15 cls -> (Z.land (class_word cls flag) 0x8000 =? 0x8000) = flag.
Proof.
  intros Hc. assert (Z.land cls 0x8000 = 0) as H0 by
    (rewrite Z.land_comm; apply (land_high 1 15); [lia|exact Hc]).
  destruct flag; cbn [class_word]; [|by rewrite H0].
  by rewrite Z.land_lor_distr_l, H0.
Qed.

Section Facts.
Context `{NS : NomSpec}.

Lemma be_question_yields input origin :
  bytes_ok input -> bytes_ok origin ->
  yields (be_question input origin) input (fun l q => 5 <= blen l /\ utf8 (q_name q)).
Proof.
  intros Hok Hor. unfold be_question. yields_step be_name_yields.
  do 2 yields_step be_u16_yields.
  destruct Hv as [Hne Hu], Hv0 as [Hlen0 _], Hv1 as [Hlen1 _].
  destruct (QueryType.try_from v0) as [qt|]; [|done].
  destruct (QueryClass.try_from _) as [qc|]; [|done].
  apply yields_ok. split; [|done]. unfold blen. rewrite !length_app, Hlen0, Hlen1.
  destruct l; [done|]. cbn [length]. lia.
Qed.
End Facts.
