(* ===== verification/Sigin.v ===== *)
(** * Signature schemes, signing and verification: src/core/parser/sigin.rs

    [rustls], [x509_parser] and [ring] are dependencies of the crate.  The class
    [Crypto] names what the code uses of them: the enumeration of signature
    schemes with its [u16] code points, the parser of a DER-encoded
    SubjectPublicKeyInfo and the verification of one signature. *)

From stdpp Require Import base list numbers sets.
From S2P Require Import Prelude RustString.

(** The algorithm constants of [ring] the code selects from. *)
Inductive RingAlgorithm :=
| ECDSA_P384_SHA384_ASN1 | ECDSA_P256_SHA256_ASN1 | RING_ED25519
| RSA_PKCS1_2048_8192_SHA256 | RSA_PKCS1_2048_8192_SHA384 | RSA_PKCS1_2048_8192_SHA512
| RSA_PSS_2048_8192_SHA256 | RSA_PSS_2048_8192_SHA384 | RSA_PSS_2048_8192_SHA512.

(** [rustls::SignatureAlgorithm], as far as the code tells its values apart. *)
Inductive SignatureAlgorithm := RSA | ECDSA | ED25519_ALG | OtherAlgorithm.

Class Crypto := {
  SignatureScheme : Type;
  #[global] SignatureScheme_eq_dec :: EqDecision SignatureScheme;
  ED25519 : SignatureScheme;
  ECDSA_NISTP256_SHA256 : SignatureScheme;
  ECDSA_NISTP384_SHA384 : SignatureScheme;
  RSA_PSS_SHA256 : SignatureScheme;
  RSA_PSS_SHA384 : SignatureScheme;
  RSA_PSS_SHA512 : SignatureScheme;
  RSA_PKCS1_SHA256 : SignatureScheme;
  RSA_PKCS1_SHA384 : SignatureScheme;
  RSA_PKCS1_SHA512 : SignatureScheme;
  scheme_from_u16 : Z -> SignatureScheme;
  scheme_into_u16 : SignatureScheme -> Z;
  Oid : Type;
  #[global] Oid_eq_dec :: EqDecision Oid;
  OID_SIG_ED25519 : Oid;
  OID_PKCS1_RSAENCRYPTION : Oid;
  OID_KEY_TYPE_EC_PUBLIC_KEY : Oid;
  OID_EC_P256 : Oid;
  OID_NIST_EC_P384 : Oid;
  (* SubjectPublicKeyInfo::from_der: algorithm, parameters.as_oid(), key bits *)
  spki_from_der : bytes -> option (Oid * option Oid * bytes);
  ring_verify : RingAlgorithm -> bytes -> bytes -> bytes -> bool;
}.

(** ** The preference list and the scheme names *)
Section Sigin.
Context `{C : Crypto}.

Definition SIGNATURE_SCHEME_PREFERENCE : list SignatureScheme :=
  [ED25519; ECDSA_NISTP256_SHA256; ECDSA_NISTP384_SHA384;
   RSA_PSS_SHA256; RSA_PSS_SHA384; RSA_PSS_SHA512;
   RSA_PKCS1_SHA256; RSA_PKCS1_SHA384; RSA_PKCS1_SHA512].

Definition scheme_in (scheme : SignatureScheme) (l : list SignatureScheme) : bool :=
  bool_decide (scheme ∈ l).

Definition signature_schemes_for_algorithm (algorithm : SignatureAlgorithm)
  : list SignatureScheme :=
  List.filter (fun scheme =>
    match algorithm with
    | ED25519_ALG => bool_decide (scheme = ED25519)
    | ECDSA => scheme_in scheme [ECDSA_NISTP256_SHA256; ECDSA_NISTP384_SHA384]
    | RSA => scheme_in scheme
        [RSA_PSS_SHA256; RSA_PSS_SHA384; RSA_PSS_SHA512;
         RSA_PKCS1_SHA256; RSA_PKCS1_SHA384; RSA_PKCS1_SHA512]
    | OtherAlgorithm => true
    end) SIGNATURE_SCHEME_PREFERENCE.

(** A [match] on constants of an opaque type: the first arm that is equal. *)
Fixpoint match_arms {A B} `{EqDecision A} (x : A) (arms : list (A * B)) : option B :=
  match arms with
  | [] => None
  | (a, b) :: arms => if decide (x = a) then Some b else match_arms x arms
  end.

Definition alg_name_for_scheme (scheme : SignatureScheme) : option bytes :=
  match_arms scheme
    [(ED25519, str "ed25519");
     (ECDSA_NISTP256_SHA256, str "ecdsa-p256-sha256");
     (ECDSA_NISTP384_SHA384, str "ecdsa-p384-sha384");
     (RSA_PSS_SHA256, str "rsa-pss-sha256");
     (RSA_PSS_SHA384, str "rsa-pss-sha384");
     (RSA_PSS_SHA512, str "rsa-pss-sha512");
     (RSA_PKCS1_SHA256, str "rsa-v1_5-sha256");
     (RSA_PKCS1_SHA384, str "rsa-v1_5-sha384");
     (RSA_PKCS1_SHA512, str "rsa-v1_5-sha512")].

Definition scheme_for_alg_name (alg : bytes) : option SignatureScheme :=
  match_arms alg
    [(str "ed25519", ED25519);
     (str "ecdsa-p256-sha256", ECDSA_NISTP256_SHA256);
     (str "ecdsa-p384-sha384", ECDSA_NISTP384_SHA384);
     (str "rsa-pss-sha256", RSA_PSS_SHA256);
     (str "rsa-pss-sha384", RSA_PSS_SHA384);
     (str "rsa-pss-sha512", RSA_PSS_SHA512);
     (str "rsa-v1_5-sha256", RSA_PKCS1_SHA256);
     (str "rsa-v1_5-sha384", RSA_PKCS1_SHA384);
     (str "rsa-v1_5-sha512", RSA_PKCS1_SHA512)].

(** ** The scheme of a public key *)
Definition canonical_scheme_for_spki (spki : bytes) : option SignatureScheme :=
  match spki_from_der spki with
  | None => None
  | Some (algorithm, parameters, _) =>
      if bool_decide (algorithm = OID_SIG_ED25519) then Some ED25519
      else if bool_decide (algorithm = OID_PKCS1_RSAENCRYPTION) then Some RSA_PSS_SHA512
      else if bool_decide (algorithm <> OID_KEY_TYPE_EC_PUBLIC_KEY) then None
      else match parameters with
           | None => None
           | Some curve =>
               if bool_decide (curve = OID_EC_P256) then Some ECDSA_NISTP256_SHA256
               else if bool_decide (curve = OID_NIST_EC_P384) then Some ECDSA_NISTP384_SHA384
               else None
           end
  end.

Inductive SignatureSchemeError := UnsupportedKey.

Definition signature_scheme (spki : bytes) : Result SignatureScheme SignatureSchemeError :=
  match spki_from_der spki with
  | None => Err UnsupportedKey
  | Some (algorithm, parameters, _) =>
      if bool_decide (algorithm = OID_SIG_ED25519) then Ok ED25519
      else if bool_decide (algorithm = OID_PKCS1_RSAENCRYPTION) then Ok RSA_PSS_SHA512
      else if bool_decide (algorithm <> OID_KEY_TYPE_EC_PUBLIC_KEY) then Err UnsupportedKey
      else match parameters with
           | None => Err UnsupportedKey
           | Some curve =>
               if bool_decide (curve = OID_EC_P256) then Ok ECDSA_NISTP256_SHA256
               else if bool_decide (curve = OID_NIST_EC_P384) then Ok ECDSA_NISTP384_SHA384
               else Err UnsupportedKey
           end
  end.

(** ** Signing: the trait [rustls::sign::SigningKey] *)
Record SigningKey := mkSigningKey {
  key_algorithm : SignatureAlgorithm;
  choose_scheme : list SignatureScheme -> option (bytes -> option bytes);
}.

(** [qtls::SignError], as far as the crate names it. *)
Inductive QtlsSignError := SigningFailed.
Inductive SignError := NoSupportedScheme | SignIdentity (source : QtlsSignError).

Fixpoint try_schemes (key : SigningKey) (data : bytes) (schemes : list SignatureScheme)
  : Result bytes SignError :=
  match schemes with
  | [] => Err NoSupportedScheme
  | scheme :: schemes =>
      match choose_scheme key [scheme] with
      | Some signer => ok_or (signer data) (SignIdentity SigningFailed)
      | None => try_schemes key data schemes
      end
  end.

Definition sign_with_key (key : SigningKey) (data : bytes) : Result bytes SignError :=
  let schemes :=
    match key_algorithm key with
    | RSA => [RSA_PSS_SHA512]
    | ECDSA => [ECDSA_NISTP256_SHA256; ECDSA_NISTP384_SHA384]
    | ED25519_ALG => [ED25519]
    | OtherAlgorithm => []
    end in
  try_schemes key data schemes.

(** ** Verification.  The sources of the errors are their rendered messages. *)
Inductive VerifyError :=
| VerifyIdentity (source : bytes)
| UnsupportedScheme (scheme : SignatureScheme)
| InvalidCertificate (details : bytes)
| InvalidPem (source : bytes)
| InvalidBase64 (source : bytes)
| Io (source : bytes).

Definition ring_algorithm (scheme : SignatureScheme) : option RingAlgorithm :=
  match_arms scheme
    [(ECDSA_NISTP384_SHA384, ECDSA_P384_SHA384_ASN1);
     (ECDSA_NISTP256_SHA256, ECDSA_P256_SHA256_ASN1);
     (ED25519, RING_ED25519);
     (RSA_PKCS1_SHA256, RSA_PKCS1_2048_8192_SHA256);
     (RSA_PKCS1_SHA384, RSA_PKCS1_2048_8192_SHA384);
     (RSA_PKCS1_SHA512, RSA_PKCS1_2048_8192_SHA512);
     (RSA_PSS_SHA256, RSA_PSS_2048_8192_SHA256);
     (RSA_PSS_SHA384, RSA_PSS_2048_8192_SHA384);
     (RSA_PSS_SHA512, RSA_PSS_2048_8192_SHA512)].

Definition verify (spki : bytes) (scheme : SignatureScheme) (data signature : bytes)
  : Result bool VerifyError :=
  match ring_algorithm scheme with
  | None => Err (UnsupportedScheme scheme)
  | Some algorithm =>
      match spki_from_der spki with
      | Some (_, _, public_key) => Ok (ring_verify algorithm public_key data signature)
      | None => Ok false
      end
  end.
End Sigin.

(** ** What the theorems rely on

    The nine schemes are different values of the enumeration and are recovered
    from their [u16] code points. *)
Class CryptoSpec (C : Crypto) : Prop := {
  schemes_distinct : NoDup SIGNATURE_SCHEME_PREFERENCE;
  scheme_code s : s ∈ SIGNATURE_SCHEME_PREFERENCE -> scheme_from_u16 (scheme_into_u16 s) = s;
  scheme_code_range s : u_ok 16 (scheme_into_u16 s);
}.

(** [signing_key_for spki key]: [key] is the private key of [spki].  Its
    algorithm is the one of the public key; it can be asked for the canonical
    scheme, an elliptic-curve key only for the scheme of its curve; and what it
    signs under a scheme is accepted by the verifier of that scheme. *)
Record signing_key_for `{C : Crypto} (spki : bytes) (key : SigningKey) : Prop := {
  key_alg : match canonical_scheme_for_spki spki with
            | Some s => s ∈ signature_schemes_for_algorithm (key_algorithm key)
            | None => True
            end /\ key_algorithm key <> OtherAlgorithm;
  key_supports s : canonical_scheme_for_spki spki = Some s ->
    is_Some (choose_scheme key [s]);
  key_curve s : key_algorithm key = ECDSA ->
    is_Some (choose_scheme key [s]) -> canonical_scheme_for_spki spki = Some s;
  key_signs s signer data sig oid params pk alg :
    choose_scheme key [s] = Some signer -> signer data = Some sig ->
    spki_from_der spki = Some (oid, params, pk) -> ring_algorithm s = Some alg ->
    ring_verify alg pk data sig = true;
}.

Section Facts.
Context `{CS : CryptoSpec}.

Lemma match_arms_spec {A B} `{EqDecision A} (arms : list (A * B)) x b :
  NoDup arms.*1 -> match_arms x arms = Some b <-> (x, b) ∈ arms.
Proof.
  induction arms as [|[a c] arms IH]; intros Hnd; cbn [match_arms].
  { by rewrite elem_of_nil. }
  apply list.NoDup_cons in Hnd as [Hout Hnd]. rewrite elem_of_cons. case_decide as Hx.
  - subst a. split; [intros [= <-]; by left|]. intros [[= ->]|Hin]; [done|].
    destruct Hout. by apply (list_elem_of_fmap_2 fst _ (x, b)).
  - rewrite IH by done. split; [by right|]. intros [[= -> ->]|?]; done.
Qed.

Lemma match_arms_is_some {A B} `{EqDecision A} (arms : list (A * B)) x :
  is_Some (match_arms x arms) <-> x ∈ arms.*1.
Proof.
  induction arms as [|[a c] arms IH]; cbn [match_arms fmap list_fmap].
  { rewrite elem_of_nil. split; [intros []|]; done. }
  rewrite elem_of_cons, <- IH. case_decide as Hx; cbn [fst]; [|tauto].
  split; [by left|eauto].
Qed.

Lemma match_arms_perm {A B} `{EqDecision A} (arms arms' : list (A * B)) x :
  NoDup arms.*1 -> arms ≡ₚ arms' -> match_arms x arms = match_arms x arms'.
Proof.
  intros Hnd Hp. assert (NoDup arms'.*1) as Hnd' by
    (by rewrite <- Hp).
  apply option_eq. intros b. rewrite !match_arms_spec by done. by rewrite Hp.
Qed.

Lemma signature_scheme_canonical spki :
  signature_scheme spki = ok_or (canonical_scheme_for_spki spki) UnsupportedKey.
Proof.
  unfold signature_scheme, canonical_scheme_for_spki.
  repeat (case_match; simplify_eq; try done).
Qed.

Lemma ring_algorithm_supported s :
  is_Some (ring_algorithm s) <-> s ∈ SIGNATURE_SCHEME_PREFERENCE.
Proof.
  unfold ring_algorithm, SIGNATURE_SCHEME_PREFERENCE. rewrite match_arms_is_some. cbn. rewrite !elem_of_cons. tauto.
Qed.

Lemma canonical_scheme_supported spki s :
  canonical_scheme_for_spki spki = Some s ->
  s ∈ [ED25519; ECDSA_NISTP256_SHA256; ECDSA_NISTP384_SHA384; RSA_PSS_SHA512].
Proof.
  unfold canonical_scheme_for_spki.
  repeat (case_match; simplify_eq; try done); intros; simplify_eq; rewrite !elem_of_cons; tauto.
Qed.

Lemma signature_schemes_for_algorithm_elem alg s :
  s ∈ signature_schemes_for_algorithm alg <->
  s ∈ SIGNATURE_SCHEME_PREFERENCE /\
  match alg with
  | ED25519_ALG => s = ED25519
  | ECDSA => s ∈ [ECDSA_NISTP256_SHA256; ECDSA_NISTP384_SHA384]
  | RSA => s ∈ [RSA_PSS_SHA256; RSA_PSS_SHA384; RSA_PSS_SHA512;
                RSA_PKCS1_SHA256; RSA_PKCS1_SHA384; RSA_PKCS1_SHA512]
  | OtherAlgorithm => True
  end.
Proof.
  unfold signature_schemes_for_algorithm.
  rewrite list_elem_of_In, List.filter_In, <- list_elem_of_In. unfold scheme_in.
  destruct alg; rewrite ?bool_decide_eq_true; tauto.
Qed.

(** The loop over the schemes stops at the canonical scheme of the key. *)
Lemma sign_with_key_canonical spki key s data :
  signing_key_for spki key -> canonical_scheme_for_spki spki = Some s ->
  exists signer, choose_scheme key [s] = Some signer
    /\ sign_with_key key data = ok_or (signer data) (SignIdentity SigningFailed).
Proof.
  intros Hk Hs. pose proof (key_supports _ _ Hk s Hs) as [signer Hsig]. exists signer.
  split; [done|]. pose proof (key_alg _ _ Hk) as [Halg Hne]. rewrite Hs in Halg.
  apply signature_schemes_for_algorithm_elem in Halg as [_ Halg].
  pose proof (canonical_scheme_supported _ _ Hs) as Hin.
  pose proof schemes_distinct as Hnd. unfold SIGNATURE_SCHEME_PREFERENCE in Hnd.
  unfold sign_with_key. destruct (key_algorithm key) eqn:Ha; [| |subst s; cbn; by rewrite Hsig|done].
  - assert (s = RSA_PSS_SHA512) as -> by
      (repeat setoid_rewrite list.NoDup_cons in Hnd; set_solver).
    cbn. by rewrite Hsig.
  - cbn [try_schemes]. destruct (choose_scheme key [ECDSA_NISTP256_SHA256]) as [sg|] eqn:H256.
    + pose proof (key_curve _ _ Hk _ Ha (mk_is_Some _ _ H256)) as Hs'.
      rewrite Hs in Hs'. injection Hs' as ->. by rewrite H256 in Hsig; simplify_eq.
    + rewrite !elem_of_cons, elem_of_nil in Halg. destruct Halg as [->|[->|[]]]; [congruence|].
      by rewrite Hsig.
Qed.

Lemma scheme_names_inverse s n :
  alg_name_for_scheme s = Some n <-> scheme_for_alg_name n = Some s.
Proof.
  unfold alg_name_for_scheme, scheme_for_alg_name.
  rewrite !match_arms_spec by (apply schemes_distinct || decide_now).
  rewrite !elem_of_cons, !elem_of_nil, !pair_equal_spec. tauto.
Qed.
End Facts.

(** ** A model of the three crates, with the code points of TLS 1.3 and the object
    identifiers of the registered algorithms; its signatures are the key
    followed by the data. *)
Module CryptoModel.
Definition spki_model (der : bytes) : option (list Z * option (list Z) * bytes) :=
  match der with
  | 1 :: pk => Some ([1; 3; 101; 112], None, pk)
  | 2 :: pk => Some ([1; 2; 840; 113549; 1; 1; 1], None, pk)
  | 3 :: pk => Some ([1; 2; 840; 10045; 2; 1], Some [1; 2; 840; 10045; 3; 1; 7], pk)
  | 4 :: pk => Some ([1; 2; 840; 10045; 2; 1], Some [1; 3; 132; 0; 34], pk)
  | _ => None
  end.

#[export] Instance crypto : Crypto := {|
  SignatureScheme := Z;
  ED25519 := 0x0807;
  ECDSA_NISTP256_SHA256 := 0x0403;
  ECDSA_NISTP384_SHA384 := 0x0503;
  RSA_PSS_SHA256 := 0x0804;
  RSA_PSS_SHA384 := 0x0805;
  RSA_PSS_SHA512 := 0x0806;
  RSA_PKCS1_SHA256 := 0x0401;
  RSA_PKCS1_SHA384 := 0x0501;
  RSA_PKCS1_SHA512 := 0x0601;
  scheme_from_u16 x := as_u 16 x;
  scheme_into_u16 x := as_u 16 x;
  Oid := list Z;
  OID_SIG_ED25519 := [1; 3; 101; 112];
  OID_PKCS1_RSAENCRYPTION := [1; 2; 840; 113549; 1; 1; 1];
  OID_KEY_TYPE_EC_PUBLIC_KEY := [1; 2; 840; 10045; 2; 1];
  OID_EC_P256 := [1; 2; 840; 10045; 3; 1; 7];
  OID_NIST_EC_P384 := [1; 3; 132; 0; 34];
  spki_from_der := spki_model;
  ring_verify _ pk data sig := bool_decide (sig = pk ++ data);
|}.

#[export] Instance crypto_spec : CryptoSpec crypto.
Proof.
  constructor; [decide_now| |].
  - intros s Hs. assert (Forall (fun s => as_u 16 (as_u 16 s) = s)
      (SIGNATURE_SCHEME_PREFERENCE (C := crypto))) as Hall by decide_now.
    rewrite Forall_forall in Hall. by apply Hall.
  - intros s. unfold u_ok. cbn. unfold as_u. apply Z.mod_pos_bound. lia.
Qed.

(** The P-384 key with key bits [pk]. *)
Definition p384_key (pk : bytes) : SigningKey (C := crypto) :=
  mkSigningKey ECDSA (fun schemes =>
    if bool_decide (0x0503 ∈ schemes) then Some (fun data => Some (pk ++ data)) else None).

Lemma p384_key_for pk : signing_key_for (C := crypto) (4 :: pk) (p384_key pk).
Proof.
  constructor.
  - split; [|done]. apply signature_schemes_for_algorithm_elem; split; decide_now.
  - intros s [= <-]. eexists. reflexivity.
  - intros s _ [? Hs]. cbn in Hs. case_bool_decide as Hin; [|done].
    by apply list_elem_of_singleton in Hin as <-.
  - intros s signer data sig oid params pk' alg Hc Hsig [= <- <- <-] _. cbn in *.
    case_bool_decide; [|done]. simplify_eq. by apply bool_decide_eq_true.
Qed.
End CryptoModel.

(** ** Properties *)

(** A key signs under the canonical scheme of its public key.  When the
    public key has a canonical scheme [s], [sign_with_key] never reports
    [NoSupportedScheme], also for the curve that is tried second, and what it
    returns is accepted by [verify] under [s]. *)
Theorem sign_with_key_verifies `{CryptoSpec} (spki : bytes) (key : SigningKey)
    (s : SignatureScheme) (data : bytes) :
  signing_key_for spki key -> canonical_scheme_for_spki spki = Some s ->
  match sign_with_key key data with
  | Ok sig => verify spki s data sig = Ok true
  | Err e => e = SignIdentity SigningFailed
  end.
Proof.
  intros Hk Hs. destruct (sign_with_key_canonical spki key s data Hk Hs) as (signer & Hc & ->).
  destruct (signer data) as [sig|] eqn:Hsig; [|done]. cbn. unfold verify.
  assert (is_Some (ring_algorithm s)) as [alg Halg].
  { apply ring_algorithm_supported. pose proof (canonical_scheme_supported _ _ Hs).
    unfold SIGNATURE_SCHEME_PREFERENCE. set_solver. }
  rewrite Halg. unfold canonical_scheme_for_spki in Hs.
  destruct (spki_from_der spki) as [[[oid params] pk]|] eqn:Hder; [|done].
  f_equal. by eapply key_signs.
Qed.

Example sign_with_key_verifies_witness :
  sign_with_key (CryptoModel.p384_key [7; 7]) [1; 2] = Ok [7; 7; 1; 2]
  /\ verify (C := CryptoModel.crypto) [4; 7; 7] 0x0503 [1; 2] [7; 7; 1; 2] = Ok true.
Proof.
  split; [reflexivity|].
  exact (sign_with_key_verifies (H := CryptoModel.crypto_spec) [4; 7; 7]
           (CryptoModel.p384_key [7; 7]) 0x0503 [1; 2] (CryptoModel.p384_key_for [7; 7]) eq_refl).
Defined.

(** The names of the signature algorithms and the schemes determine each
    other, exactly the schemes of the preference list have a name, and these are
    the schemes that can be verified. *)
Theorem scheme_names_bijective `{CryptoSpec} :
  (forall s n, alg_name_for_scheme s = Some n <-> scheme_for_alg_name n = Some s)
  /\ (forall s, is_Some (alg_name_for_scheme s) <-> s ∈ SIGNATURE_SCHEME_PREFERENCE)
  /\ (forall s spki data sig,
        s ∈ SIGNATURE_SCHEME_PREFERENCE <-> verify spki s data sig <> Err (UnsupportedScheme s)).
Proof.
  split; [apply scheme_names_inverse|]. split.
  - intros s. unfold alg_name_for_scheme, SIGNATURE_SCHEME_PREFERENCE.
    rewrite match_arms_is_some. cbn. rewrite !elem_of_cons. tauto.
  - intros s spki data sig. rewrite <- ring_algorithm_supported. unfold verify.
    destruct (ring_algorithm s) as [alg|].
    + split; [|eauto]. intros _. by destruct (spki_from_der spki) as [[[??]?]|].
    + split; [by intros []|done].
Qed.

Example scheme_names_bijective_witness :
  alg_name_for_scheme (C := CryptoModel.crypto) 0x0806 = Some (str "rsa-pss-sha512")
  /\ scheme_for_alg_name (C := CryptoModel.crypto) (str "rsa-pss-sha512") = Some 0x0806.
Proof.
  split; [reflexivity|].
  apply (proj1 (scheme_names_bijective (H := CryptoModel.crypto_spec))). reflexivity.
Defined.

(** The two functions that choose the scheme of a public key,
    [canonical_scheme_for_spki] and [signature_scheme], agree on every input. *)
Theorem signature_scheme_agrees `{Crypto} (spki : bytes) :
  result_ok (signature_scheme spki) = canonical_scheme_for_spki spki.
Proof. rewrite signature_scheme_canonical. by destruct (canonical_scheme_for_spki spki). Qed.
