(* ===== verification/Certificate.v ===== *)
(** * Certificate chain keys: src/core/certificate.rs

    Sequences, usages and chain keys are types of the dependency [dhttp_home];
    the class [Certificates] names the operations the crate calls. *)

From stdpp Require Import base list numbers.
From S2P Require Import Prelude RustString.

Class Certificates := {
  CertificateSequence : Type;
  #[global] CertificateSequence_eq_dec :: EqDecision CertificateSequence;
  seq_get : CertificateSequence -> Z;
  seq_from_u8 : Z -> CertificateSequence;
  seq_try_from : Z -> option CertificateSequence;
  CertificateUsage : Type;
  ClientAndServer : CertificateUsage;
  ClientOnly : CertificateUsage;
  kind_flag : CertificateUsage -> bytes;
  CertificateChainKey : Type;
  #[global] CertificateChainKey_eq_dec :: EqDecision CertificateChainKey;
  CertificateChainKey_new : CertificateSequence -> CertificateUsage -> CertificateChainKey;
  chain_sequence : CertificateChainKey -> CertificateSequence;
  chain_usage : CertificateChainKey -> CertificateUsage;
}.

(** A sequence is a [u32]; the checked conversion accepts the value of every
    sequence and nothing that is not one. *)
Class CertificatesSpec (C : Certificates) : Prop := {
  seq_get_range s : u_ok 32 (seq_get s);
  seq_from_u8_get b : byte_ok b -> seq_get (seq_from_u8 b) = b;
  seq_try_from_get s : seq_try_from (seq_get s) = Some s;
  seq_get_try_from x s : seq_try_from x = Some s -> seq_get s = x;
  kind_flag_client_and_server : kind_flag ClientAndServer = str "0";
  kind_flag_client_only : kind_flag ClientOnly = str "1";
  chain_sequence_new s u : chain_sequence (CertificateChainKey_new s u) = s;
  chain_usage_new s u : chain_usage (CertificateChainKey_new s u) = u;
}.

Section Keys.
Context `{C : Certificates}.

Definition PRIMARY_KIND_FLAG : bytes := str "0".
Definition SECONDARY_KIND_FLAG : bytes := str "1".

(** The last arm of the [match] is [unreachable!]. *)
Definition chain_key (sequence : CertificateSequence) (flag : bytes)
  : may_panic CertificateChainKey :=
  if bool_decide (flag = str "0") then Some (CertificateChainKey_new sequence ClientAndServer)
  else if bool_decide (flag = str "1") then Some (CertificateChainKey_new sequence ClientOnly)
  else None.

Definition primary_chain_key (sequence : CertificateSequence) : may_panic CertificateChainKey :=
  chain_key sequence PRIMARY_KIND_FLAG.

Definition secondary_chain_key (sequence : CertificateSequence) : may_panic CertificateChainKey :=
  chain_key sequence SECONDARY_KIND_FLAG.

Definition is_primary_chain_key (k : CertificateChainKey) : bool :=
  bool_decide (kind_flag (chain_usage k) = PRIMARY_KIND_FLAG).
End Keys.

Section Facts.
Context `{CS : CertificatesSpec}.

Lemma seq_get_inj s s' : seq_get s = seq_get s' -> s = s'.
Proof.
  intros E. pose proof (seq_try_from_get s) as H. rewrite E, seq_try_from_get in H.
  by injection H.
Qed.

Lemma seq_zero s : seq_get s = 0 <-> s = seq_from_u8 0.
Proof.
  assert (seq_get (seq_from_u8 0) = 0) as H0 by (apply seq_from_u8_get; decide_now).
  split; [|by intros ->]. intros H. apply seq_get_inj. congruence.
Qed.

Lemma primary_chain_key_spec s :
  primary_chain_key s = Some (CertificateChainKey_new s ClientAndServer).
Proof. reflexivity. Qed.

Lemma secondary_chain_key_spec s :
  secondary_chain_key s = Some (CertificateChainKey_new s ClientOnly).
Proof. reflexivity. Qed.

Lemma is_primary_new s u :
  is_primary_chain_key (CertificateChainKey_new s u) = bool_decide (kind_flag u = str "0").
Proof. unfold is_primary_chain_key. by rewrite chain_usage_new. Qed.

Lemma is_primary_primary s :
  is_primary_chain_key (CertificateChainKey_new s ClientAndServer) = true.
Proof. rewrite is_primary_new, kind_flag_client_and_server. reflexivity. Qed.

Lemma is_primary_secondary s :
  is_primary_chain_key (CertificateChainKey_new s ClientOnly) = false.
Proof. rewrite is_primary_new, kind_flag_client_only. reflexivity. Qed.
End Facts.

(** ** Sequences as the [u32] they are, keys as pairs *)
Module CertModel.
Definition u32_of (x : Z) : option (dsig (u_ok 32)) :=
  match decide (u_ok 32 x) with
  | left H => Some (dexist x H)
  | right _ => None
  end.

#[export] Instance certificates : Certificates := {|
  CertificateSequence := dsig (u_ok 32);
  seq_get s := `s;
  seq_from_u8 b := default (dexist 0 (conj (Z.le_refl 0) eq_refl)) (u32_of b);
  seq_try_from := u32_of;
  CertificateUsage := bool;
  ClientAndServer := true;
  ClientOnly := false;
  kind_flag u := if u then str "0" else str "1";
  CertificateChainKey := dsig (u_ok 32) * bool;
  CertificateChainKey_new s u := (s, u);
  chain_sequence := fst;
  chain_usage := snd;
|}.

Lemma u32_of_get s : u32_of (`s) = Some s.
Proof.
  unfold u32_of. destruct (decide (u_ok 32 (`s))) as [H|H].
  - f_equal. apply dsig_eq. reflexivity.
  - destruct H. exact (proj2_dsig s).
Qed.

Lemma get_u32_of x s : u32_of x = Some s -> `s = x.
Proof. unfold u32_of. destruct (decide (u_ok 32 x)); [|done]. by intros [= <-]. Qed.

#[export] Instance certificates_spec : CertificatesSpec certificates.
Proof.
  constructor; try done; cbn.
  - intros s. exact (proj2_dsig s).
  - intros b Hb. unfold u32_of. destruct (decide (u_ok 32 b)) as [H|H]; [reflexivity|].
    destruct H. unfold byte_ok, u_ok in *. lia.
  - apply u32_of_get.
  - apply get_u32_of.
Qed.
End CertModel.
