(* ===== verification/Endpoint.v ===== *)
(** * Endpoint addresses, the RDATA of type E: src/core/parser/record/endpoint.rs

    An endpoint is a flags byte and the optional fields the flags announce.
    [endpoint_ok] says that flags and fields agree; the constructors and the
    setters keep it, the parser establishes it, and under it encoding and
    decoding are inverse.  A load average, an [f32], is its [u32] bit pattern. *)

From stdpp Require Import base list numbers option sets.
From S2P Require Import Prelude Nom VarInt RustString Sigin Certificate.

(** ** Socket addresses of the standard library *)
Record SocketAddrV4 := mkSocketAddrV4 { v4_ip : Z; v4_port : Z }.
Record SocketAddrV6 := mkSocketAddrV6 {
  v6_ip : Z; v6_port : Z; v6_flowinfo : Z; v6_scope_id : Z }.
Inductive SocketAddr := V4 (addr : SocketAddrV4) | V6 (addr : SocketAddrV6).
Inductive IpAddr := IpV4 (ip : Z) | IpV6 (ip : Z).

Global Instance SocketAddrV4_eq_dec : EqDecision SocketAddrV4.
Proof. solve_decision. Defined.
Global Instance SocketAddrV6_eq_dec : EqDecision SocketAddrV6.
Proof. solve_decision. Defined.
Global Instance SocketAddr_eq_dec : EqDecision SocketAddr.
Proof. solve_decision. Defined.

(** [qresolve::EndpointAddr]. *)
Module Dquic.
Inductive EndpointAddr := Direct (addr : SocketAddr) | Mediate (agent outer : SocketAddr).

Global Instance EndpointAddr_eq_dec : EqDecision EndpointAddr.
Proof. solve_decision. Defined.
End Dquic.

(** ** The record *)
Record EndpointSignature := mkEndpointSignature { scheme : Z; signature_bytes : bytes }.

Global Instance EndpointSignature_eq_dec : EqDecision EndpointSignature.
Proof. solve_decision. Defined.

Definition FLAG_FAMILY : Z := 128.
Definition FLAG_MAIN : Z := 64.
Definition FLAG_CLUSTERED : Z := 32.
Definition FLAG_NAT : Z := 16.
Definition FLAG_LOAD : Z := 8.
Definition FLAG_SIGNED : Z := 1.

(** [flags & FLAG != 0]. *)
Definition has_flag (flags flag : Z) : bool := negb (Z.land flags flag =? 0).

(** [flags |= FLAG] and [flags &= !FLAG]. *)
Definition flag_update (flags flag : Z) (on : bool) : Z :=
  if on then Z.lor flags flag else Z.land flags (u8_not flag).
Arguments flag_update : simpl never.
Arguments has_flag : simpl never.

Section Endpoint.
Context `{C : Certificates}.

Record EndpointAddr := mkEndpointAddr {
  flags : Z;
  sequence : option CertificateSequence;
  load : option Z;
  signature : option EndpointSignature;
  primary : SocketAddr;
  agent : option SocketAddr;
}.

Definition endpoint_eq (self other : EndpointAddr) : bool :=
  (flags self =? flags other)
  && bool_decide (sequence self = sequence other)
  && bool_decide (load self = load other)
  && bool_decide (signature self = signature other)
  && bool_decide (primary self = primary other)
  && bool_decide (agent self = agent other).

Definition direct_v4 (addr : SocketAddrV4) : EndpointAddr :=
  mkEndpointAddr 0 None None None (V4 addr) None.
Definition direct_v6 (addr : SocketAddrV6) : EndpointAddr :=
  mkEndpointAddr FLAG_FAMILY None None None (V6 addr) None.
Definition nat_v4 (outer agent : SocketAddrV4) : EndpointAddr :=
  mkEndpointAddr FLAG_NAT None None None (V4 outer) (Some (V4 agent)).
Definition nat_v6 (outer agent : SocketAddrV6) : EndpointAddr :=
  mkEndpointAddr (Z.lor FLAG_FAMILY FLAG_NAT) None None None (V6 outer) (Some (V6 agent)).

Definition is_ipv6 (self : EndpointAddr) : bool := has_flag (flags self) FLAG_FAMILY.
Definition is_nat (self : EndpointAddr) : bool := has_flag (flags self) FLAG_NAT.
Definition is_clustered (self : EndpointAddr) : bool := has_flag (flags self) FLAG_CLUSTERED.
Definition is_load (self : EndpointAddr) : bool := has_flag (flags self) FLAG_LOAD.
Definition is_main (self : EndpointAddr) : bool := Z.land (flags self) FLAG_MAIN =? FLAG_MAIN.
Definition is_signed (self : EndpointAddr) : bool :=
  Z.land (flags self) FLAG_SIGNED =? FLAG_SIGNED.

Definition set_flag (flag : Z) (on : bool) (self : EndpointAddr) : EndpointAddr :=
  mkEndpointAddr (flag_update (flags self) flag on)
    (sequence self) (load self) (signature self) (primary self) (agent self).

Definition with_sequence (s : option CertificateSequence) (self : EndpointAddr) : EndpointAddr :=
  mkEndpointAddr (flags self) s (load self) (signature self) (primary self) (agent self).
Definition with_load (l : option Z) (self : EndpointAddr) : EndpointAddr :=
  mkEndpointAddr (flags self) (sequence self) l (signature self) (primary self) (agent self).
Definition with_signature (s : option EndpointSignature) (self : EndpointAddr) : EndpointAddr :=
  mkEndpointAddr (flags self) (sequence self) (load self) s (primary self) (agent self).

Definition set_clustered (self : EndpointAddr) (clustered : bool) : EndpointAddr :=
  if clustered then set_flag FLAG_CLUSTERED true self
  else with_sequence None (set_flag FLAG_CLUSTERED false self).

Definition set_load (self : EndpointAddr) (l : option Z) : EndpointAddr :=
  let self := with_load l self in
  match load self with
  | Some _ => set_flag FLAG_LOAD true self
  | None => set_flag FLAG_LOAD false self
  end.

Definition set_main (self : EndpointAddr) (main : bool) : EndpointAddr :=
  set_flag FLAG_MAIN main self.
Definition set_signed (self : EndpointAddr) (signed : bool) : EndpointAddr :=
  set_flag FLAG_SIGNED signed self.

Definition addr (self : EndpointAddr) : SocketAddr := primary self.
Definition agent_addr (self : EndpointAddr) : option SocketAddr := agent self.

Definition normalized_sequence (self : EndpointAddr) : CertificateSequence :=
  default (seq_from_u8 0) (sequence self).

Definition set_sequence (self : EndpointAddr) (s : CertificateSequence) : EndpointAddr :=
  if 0 <? seq_get s then set_clustered (with_sequence (Some s) self) true
  else set_clustered (with_sequence None self) false.

Definition certificate_chain_key (self : EndpointAddr) : may_panic CertificateChainKey :=
  if is_main self then primary_chain_key (normalized_sequence self)
  else secondary_chain_key (normalized_sequence self).

(** [VarInt::try_from(len as u64).unwrap_or(VarInt::from_u32(0))]. *)
Definition signature_len (sig : EndpointSignature) : VarInt :=
  match varint_try_from_u64 (as_u 64 (blen (signature_bytes sig))) with
  | Ok v => v
  | Err _ => from_u32 0
  end.

Definition encpding_size (self : EndpointAddr) : may_panic Z :=
  seq_len ← match sequence self with
            | Some s => encoding_size (from_u32 (seq_get s))
            | None => Some 0
            end;
  let load_len := match load self with Some _ => 4 | None => 0 end in
  sig_len ← match is_signed self, signature self with
            | true, Some sig =>
                n ← encoding_size (signature_len sig);
                Some (2 + n + blen (signature_bytes sig))
            | _, _ => Some 0
            end;
  let addr_len :=
    match is_ipv6 self, is_nat self with
    | false, false => 2 + 4
    | false, true => (2 + 4) * 2
    | true, false => 2 + 16
    | true, true => (2 + 16) * 2
    end in
  Some (1 + seq_len + load_len + sig_len + addr_len).
End Endpoint.
Arguments EndpointAddr {C}.

Global Instance EndpointAddr_eq_dec `{Certificates} : EqDecision EndpointAddr.
Proof. solve_decision. Defined.

(** ** The wire format *)
Section Wire.
Context `{C : Certificates} `{N : Nom} `{B : BufMut}.

Definition put_socket_addr_v4 (buf : bytes) (a : SocketAddrV4) : bytes :=
  let buf := put_u16 buf (v4_port a) in
  put_u32 buf (v4_ip a).

Definition put_socket_addr_v6 (buf : bytes) (a : SocketAddrV6) : bytes :=
  let buf := put_u16 buf (v6_port a) in
  put_u128 buf (v6_ip a).

Definition put_socket_addr (buf : bytes) (a : SocketAddr) : bytes :=
  match a with
  | V4 v4 => put_socket_addr_v4 buf v4
  | V6 v6 => put_socket_addr_v6 buf v6
  end.

Definition write_base (self : EndpointAddr) (buf : bytes) : may_panic bytes :=
  let buf := put_u8 buf (flags self) in
  buf ← match sequence self with
        | Some s => put_varint buf (from_u32 (seq_get s))
        | None => Some buf
        end;
  let buf := match primary self with
             | V4 a => put_socket_addr_v4 buf a
             | V6 a => put_socket_addr_v6 buf a
             end in
  let buf := match agent self with
             | Some (V4 a) => put_socket_addr_v4 buf a
             | Some (V6 a) => put_socket_addr_v6 buf a
             | None => buf
             end in
  Some (match load self with
        | Some l => put_u32 buf l
        | None => buf
        end).

Definition signed_data (self : EndpointAddr) : may_panic bytes :=
  let unsigned := set_signed self true in
  let unsigned := with_signature None unsigned in
  write_base unsigned [].

Definition put_endpoint_addr (buf : bytes) (endpoint : EndpointAddr) : may_panic bytes :=
  buf ← write_base endpoint buf;
  match is_signed endpoint, signature endpoint with
  | true, Some sig =>
      let buf := put_u16 buf (scheme sig) in
      buf ← put_varint buf (signature_len sig);
      Some (put_slice buf (signature_bytes sig))
  | _, _ => Some buf
  end.

Definition be_ipv4_addr (input : bytes) : IResult Z := nom_map be_u32 (fun ip => ip) input.
Definition be_ipv6_addr (input : bytes) : IResult Z := nom_map be_u128 (fun ip => ip) input.

Definition be_ip_addr (is_v6 : bool) (input : bytes) : IResult IpAddr :=
  if is_v6 then nom_map be_u128 IpV6 input else nom_map be_u32 IpV4 input.

Definition be_socket_addr_v4 (input : bytes) : IResult SocketAddrV4 :=
  nom_flat_map be_u16
    (fun port => nom_map be_ipv4_addr (fun ip => mkSocketAddrV4 ip port)) input.

Definition be_socket_addr_v6 (input : bytes) : IResult SocketAddrV6 :=
  nom_flat_map be_u16
    (fun port => nom_map be_ipv6_addr (fun ip => mkSocketAddrV6 ip port 0 0)) input.

Definition be_endpoint_signature (input : bytes) (flags : Z)
  : IResult (option EndpointSignature) :=
  if negb (Z.land flags FLAG_SIGNED =? FLAG_SIGNED) then
    match input with
    | [] => Ok (input, None)
    | _ => Err (Error input Eof)
    end
  else
    let? (remain, scheme_u16) := be_u16 input in
    let? (remain, sig_len) := be_varint remain in
    (* usize::try_from on a 64-bit target *)
    if into_inner sig_len <? 2 ^ 64 then
      let? (remain, sig) := nom_take (into_inner sig_len) remain in
      Ok (remain, Some (mkEndpointSignature scheme_u16 sig))
    else Err (Error remain TooLarge).

Definition be_endpoint_addr (input : bytes) : IResult EndpointAddr :=
  let? (remain, flags) := be_u8 input in
  let is_clustered := has_flag flags FLAG_CLUSTERED in
  let is_ipv6 := has_flag flags FLAG_FAMILY in
  let is_nat := has_flag flags FLAG_NAT in
  let has_load := has_flag flags FLAG_LOAD in
  let? (remain, sequence) :=
    if is_clustered then
      let? (remain, seq) := be_varint remain in
      match seq_try_from (into_inner seq) with
      | Some sequence => Ok (remain, Some sequence)
      | None => Err (Failure remain TooLarge)
      end
    else Ok (remain, None) in
  let? (remain, primary) :=
    if is_ipv6 then
      let? (remain, addr) := be_socket_addr_v6 remain in Ok (remain, V6 addr)
    else
      let? (remain, addr) := be_socket_addr_v4 remain in Ok (remain, V4 addr) in
  let? (remain, agent) :=
    if is_nat then
      let? (remain, addr) :=
        if is_ipv6 then
          let? (remain, addr) := be_socket_addr_v6 remain in Ok (remain, V6 addr)
        else
          let? (remain, addr) := be_socket_addr_v4 remain in Ok (remain, V4 addr) in
      Ok (remain, Some addr)
    else Ok (remain, None) in
  let? (remain, load) :=
    if has_load then
      let? (remain, load) := be_u32 remain in Ok (remain, Some load)
    else Ok (remain, None) in
  let? (remain, signature) := be_endpoint_signature remain flags in
  Ok (remain, mkEndpointAddr flags sequence load signature primary agent).

Definition be_legacy_endpoint_addr_by_length (input : bytes) (rdlen : Z)
  : IResult EndpointAddr :=
  match rdlen with
  | 6 =>
      let? (remain, addr) := be_socket_addr_v4 input in
      Ok (remain, mkEndpointAddr 0 None None None (V4 addr) None)
  | 12 =>
      let? (remain, primary) := be_socket_addr_v4 input in
      let? (remain, agent) := be_socket_addr_v4 remain in
      Ok (remain, mkEndpointAddr FLAG_NAT None None None (V4 primary) (Some (V4 agent)))
  | 18 =>
      let? (remain, addr) := be_socket_addr_v6 input in
      Ok (remain, mkEndpointAddr FLAG_FAMILY None None None (V6 addr) None)
  | 36 =>
      let? (remain, primary) := be_socket_addr_v6 input in
      let? (remain, agent) := be_socket_addr_v6 remain in
      Ok (remain, mkEndpointAddr (Z.lor FLAG_FAMILY FLAG_NAT) None None None
                    (V6 primary) (Some (V6 agent)))
  | _ => Err (Error input LengthValue)
  end.

Definition be_endpoint_addr_compat (input : bytes) (rdlen : Z) : IResult EndpointAddr :=
  if bool_decide (rdlen ∈ [6; 12; 18; 36]) then
    match be_endpoint_addr input with
    | Ok ([], endpoint) => Ok ([], endpoint)
    | _ => be_legacy_endpoint_addr_by_length input rdlen
    end
  else be_endpoint_addr input.
End Wire.

(** ** Conversions from and to the endpoint addresses of the transport *)
Section Conversions.
Context `{C : Certificates}.

Definition endpoint_try_from_dquic (value : Dquic.EndpointAddr) : Result EndpointAddr unit :=
  match value with
  | Dquic.Direct (V4 addr) => Ok (direct_v4 addr)
  | Dquic.Direct (V6 addr) => Ok (direct_v6 addr)
  | Dquic.Mediate (V4 agent) (V4 outer) => Ok (nat_v4 outer agent)
  | Dquic.Mediate (V6 agent) (V6 outer) => Ok (nat_v6 outer agent)
  | _ => Err tt
  end.

Definition dquic_try_from_endpoint (value : EndpointAddr) : Result Dquic.EndpointAddr unit :=
  match agent value with
  | Some agent_addr =>
      match primary value, agent_addr with
      | V4 outer, V4 agent => Ok (Dquic.Mediate (V4 agent) (V4 outer))
      | V6 outer, V6 agent => Ok (Dquic.Mediate (V6 agent) (V6 outer))
      | _, _ => Err tt
      end
  | None =>
      match primary value with
      | V4 addr => Ok (Dquic.Direct (V4 addr))
      | V6 addr => Ok (Dquic.Direct (V6 addr))
      end
  end.

(** [Display for EndpointAddr]; [show] is [Display for SocketAddr] of the standard library. *)
Definition endpoint_display (show : SocketAddr -> bytes) (self : EndpointAddr) : bytes :=
  match agent self with
  | Some agent_addr => show (primary self) ++ str "-" ++ show agent_addr
  | None => show (primary self)
  end.
End Conversions.

(** ** Signing and verification *)

(** [qtls::LocalAuthority]: the identity that signs. *)
Record LocalAuthority := mkLocalAuthority {
  authority_certificates : list bytes;
  authority_public_key : bytes;
  authority_sign : Z -> bytes -> Result bytes QtlsSignError;
}.

(** The certificate parsers the code calls; an error is its message. *)
Class CertificateParsers := {
  parse_x509_certificate : bytes -> Result bytes bytes;  (* the raw subject_pki *)
  pem_first_certificate : bytes -> option (Result bytes bytes);
  base64_standard_decode : bytes -> Result bytes bytes;
  base64_standard_encode : bytes -> bytes;
  fs_read : bytes -> Result bytes bytes;
}.

Inductive SignEndpointError := Sign (source : QtlsSignError) | EndpointNoSupportedScheme.

Section Signing.
Context `{C : Certificates} `{B : BufMut} `{K : Crypto} `{P : CertificateParsers}.

(** [&mut self] is returned along with the result: the flag set by the first
    statement stays set when signing fails. *)
Definition sign_with_authority (self : EndpointAddr) (authority : LocalAuthority)
  : may_panic (EndpointAddr * Result unit SignEndpointError) :=
  let self := set_signed self true in
  data ← signed_data self;
  match (_ ← head (authority_certificates authority);
         canonical_scheme_for_spki (authority_public_key authority)) with
  | None => Some (self, Err EndpointNoSupportedScheme)
  | Some scheme =>
      match authority_sign authority (scheme_into_u16 scheme) data with
      | Err source => Some (self, Err (Sign source))
      | Ok signature =>
          Some (with_signature (Some (mkEndpointSignature (scheme_into_u16 scheme) signature)) self,
                Ok tt)
      end
  end.

Definition verify_signature (self : EndpointAddr) (spki : bytes)
  : may_panic (Result bool VerifyError) :=
  match signature self with
  | None => Some (Ok false)
  | Some sig =>
      data ← signed_data self;
      Some (verify spki (scheme_from_u16 (scheme sig)) data (signature_bytes sig))
  end.

Definition verify_signature_from_der (self : EndpointAddr) (cert_der : bytes)
  : may_panic (Result bool VerifyError) :=
  match parse_x509_certificate cert_der with
  | Err e => Some (Err (InvalidCertificate e))
  | Ok spki => verify_signature self spki
  end.

Definition verify_signature_from_pem (self : EndpointAddr) (cert_pem : bytes)
  : may_panic (Result bool VerifyError) :=
  match pem_first_certificate cert_pem with
  | Some (Err e) => Some (Err (InvalidPem e))
  | Some (Ok cert_der) => verify_signature_from_der self cert_der
  | None => Some (Err (InvalidCertificate (str "No certificate found in PEM")))
  end.

Definition verify_signature_from_base64 (self : EndpointAddr) (cert_base64 : bytes)
  : may_panic (Result bool VerifyError) :=
  match base64_standard_decode (trim cert_base64) with
  | Err e => Some (Err (InvalidBase64 e))
  | Ok cert_der => verify_signature_from_der self cert_der
  end.

Definition verify_signature_from_file (self : EndpointAddr) (path : bytes)
  : may_panic (Result bool VerifyError) :=
  match fs_read path with
  | Err e => Some (Err (Io e))
  | Ok contents =>
      pem ← verify_signature_from_pem self contents;
      match pem with
      | Ok res => Some (Ok res)
      | Err _ => verify_signature_from_der self contents
      end
  end.

Definition signature_base64 (self : EndpointAddr) : option bytes :=
  sig ← signature self; Some (base64_standard_encode (signature_bytes sig)).

(** [sign_endponit_address]: the error of [sign_with_authority] is dropped. *)
Definition sign_endponit_address (server_id : Z) (authority : option LocalAuthority)
    (endpoint : Dquic.EndpointAddr) : may_panic (option EndpointAddr) :=
  match endpoint_try_from_dquic endpoint with
  | Err _ => Some None
  | Ok ep =>
      let ep := set_main ep (server_id =? 0) in
      let ep := set_sequence ep (seq_from_u8 server_id) in
      match authority with
      | None => Some (Some ep)
      | Some authority =>
          '(ep, _) ← sign_with_authority ep authority;
          Some (Some ep)
      end
  end.
End Signing.

(** ** The invariant: flags and fields agree, fields fit their types *)
Definition is_some {A} (o : option A) : bool := match o with Some _ => true | None => false end.

Definition is_v6 (a : SocketAddr) : bool := match a with V4 _ => false | V6 _ => true end.

(** A socket address as the wire carries it: no flow label, no scope. *)
Definition addr_ok (a : SocketAddr) : Prop :=
  match a with
  | V4 a => u_ok 32 (v4_ip a) /\ u_ok 16 (v4_port a)
  | V6 a => u_ok 128 (v6_ip a) /\ u_ok 16 (v6_port a)
  end.

Definition strip_scope (a : SocketAddr) : SocketAddr :=
  match a with
  | V4 a => V4 a
  | V6 a => V6 (mkSocketAddrV6 (v6_ip a) (v6_port a) 0 0)
  end.

Definition signature_ok (s : EndpointSignature) : Prop :=
  u_ok 16 (scheme s) /\ bytes_ok (signature_bytes s) /\ blen (signature_bytes s) < 2 ^ 62.

(** [option_all P o]: the value of [o], if any, satisfies [P]. *)
Definition option_all {A} (P : A -> Prop) (o : option A) : Prop :=
  match o with Some x => P x | None => True end.

Global Instance addr_ok_dec a : Decision (addr_ok a).
Proof. destruct a; cbn; apply _. Defined.
Global Instance signature_ok_dec s : Decision (signature_ok s).
Proof. unfold signature_ok. apply _. Defined.
Global Instance option_all_dec {A} (P : A -> Prop) `{forall x, Decision (P x)} o :
  Decision (option_all P o).
Proof. destruct o; cbn; apply _. Defined.

Section Invariant.
Context `{C : Certificates}.

(** The fields fit their types, and the addresses are of one family. *)
Definition fields_ok (e : EndpointAddr) : Prop :=
  byte_ok (flags e) /\ addr_ok (primary e) /\ option_all addr_ok (agent e)
  /\ option_all (u_ok 32) (load e) /\ option_all signature_ok (signature e).

(** The flags announce exactly the fields that are present, the signature apart. *)
Definition base_flags_ok (e : EndpointAddr) : Prop :=
  has_flag (flags e) FLAG_FAMILY = is_v6 (primary e)
  /\ has_flag (flags e) FLAG_NAT = is_some (agent e)
  /\ option_all (fun a => is_v6 a = is_v6 (primary e)) (agent e)
  /\ has_flag (flags e) FLAG_CLUSTERED = is_some (sequence e)
  /\ has_flag (flags e) FLAG_LOAD = is_some (load e).

Definition endpoint_ok (e : EndpointAddr) : Prop :=
  fields_ok e /\ base_flags_ok e /\ has_flag (flags e) FLAG_SIGNED = is_some (signature e).

Global Instance endpoint_ok_dec e : Decision (endpoint_ok e).
Proof. unfold endpoint_ok, fields_ok, base_flags_ok. apply _. Defined.

(** What is left of an endpoint on the wire. *)
Definition wire_endpoint (e : EndpointAddr) : EndpointAddr :=
  mkEndpointAddr (flags e) (sequence e) (load e) (signature e)
    (strip_scope (primary e)) (option_map strip_scope (agent e)).
End Invariant.

(** ** Flags *)
Definition FLAGS : list Z :=
  [FLAG_FAMILY; FLAG_MAIN; FLAG_CLUSTERED; FLAG_NAT; FLAG_LOAD; FLAG_SIGNED].

Lemma set_flag_bits (f flag : Z) (on : bool) :
  byte_ok f -> flag ∈ FLAGS ->
  byte_ok (flag_update f flag on) /\ forall flag', flag' ∈ FLAGS ->
    has_flag (flag_update f flag on) flag' = if flag =? flag' then on else has_flag f flag'.
Proof.
  intros Hf Hflag.
  set (P := fun x => bool_decide (Forall (fun c => Forall (fun on : bool =>
    byte_ok (flag_update x c on) /\ Forall (fun c' =>
      has_flag (flag_update x c on) c' = if c =? c' then on else has_flag x c') FLAGS)
    [true; false]) FLAGS)).
  assert (P f = true) as HP by (apply (byte_enum P); [vm_compute; reflexivity|done]).
  apply bool_decide_eq_true in HP. rewrite Forall_forall in HP.
  specialize (HP flag Hflag). rewrite Forall_forall in HP.
  destruct (HP on) as [H1 H2]; [destruct on; set_solver|].
  rewrite Forall_forall in H2. done.
Qed.

Lemma flag_test f flag :
  byte_ok f -> flag ∈ FLAGS -> (Z.land f flag =? flag) = has_flag f flag.
Proof.
  intros Hf Hflag.
  set (P := fun x => bool_decide (Forall (fun c => (Z.land x c =? c) = has_flag x c) FLAGS)).
  assert (P f = true) as HP by (apply (byte_enum P); [vm_compute; reflexivity|done]).
  apply bool_decide_eq_true in HP. rewrite Forall_forall in HP. by apply HP.
Qed.

Lemma addr_ok_strip a : addr_ok (strip_scope a) <-> addr_ok a.
Proof. by destruct a. Qed.

(** ** Encodings as functions of the value *)
Definition addr_bytes (a : SocketAddr) : bytes :=
  match a with
  | V4 a => to_be 2 (v4_port a) ++ to_be 4 (v4_ip a)
  | V6 a => to_be 2 (v6_port a) ++ to_be 16 (v6_ip a)
  end.

Definition opt_bytes {A} (f : A -> bytes) (o : option A) : bytes :=
  match o with Some x => f x | None => [] end.

Definition sig_bytes (s : EndpointSignature) : bytes :=
  to_be 2 (scheme s) ++ varint_bytes (mkVarInt (blen (signature_bytes s))) ++ signature_bytes s.

Section Encodings.
Context `{C : Certificates}.

Definition seq_bytes (s : CertificateSequence) : bytes := varint_bytes (from_u32 (seq_get s)).

Definition base_bytes (e : EndpointAddr) : bytes :=
  to_be 1 (flags e) ++ opt_bytes seq_bytes (sequence e) ++ addr_bytes (primary e)
  ++ opt_bytes addr_bytes (agent e) ++ opt_bytes (to_be 4) (load e).

Definition endpoint_bytes (e : EndpointAddr) : bytes :=
  base_bytes e ++ opt_bytes sig_bytes (if is_signed e then signature e else None).
End Encodings.

Lemma addr_bytes_length a : blen (addr_bytes a) = if is_v6 a then 18 else 6.
Proof. destruct a; cbn [addr_bytes is_v6]; by autorewrite with blen. Qed.

Lemma varint_bytes_length v : blen (varint_bytes v) ∈ [1; 2; 4; 8].
Proof.
  unfold varint_bytes. rewrite blen_to_be. unfold varint_class.
  repeat case_match; cbn; set_solver.
Qed.

Lemma varint_bytes_ok v : bytes_ok (varint_bytes v).
Proof. apply to_be_ok. Qed.

Lemma addr_bytes_ok a : bytes_ok (addr_bytes a).
Proof. destruct a; cbn [addr_bytes]; apply bytes_ok_app; auto with ddns. Qed.

Lemma opt_bytes_ok {A} (f : A -> bytes) o :
  option_all (fun x => bytes_ok (f x)) o -> bytes_ok (opt_bytes f o).
Proof. destruct o; cbn; [done|constructor]. Qed.

Lemma option_all_impl {A} (P Q : A -> Prop) o :
  (forall x, P x -> Q x) -> option_all P o -> option_all Q o.
Proof. destruct o; cbn; auto. Qed.

Lemma option_all_true {A} (P : A -> Prop) o : (forall x, P x) -> option_all P o.
Proof. destruct o; cbn; auto. Qed.

Lemma signature_len_ok s : signature_ok s -> signature_len s = mkVarInt (blen (signature_bytes s)).
Proof.
  intros (_ & _ & Hl). pose proof (blen_nonneg (signature_bytes s)).
  unfold signature_len, varint_try_from_u64, from_u64, as_u, VARINT_MAX.
  rewrite Z.mod_small by lia. by rewrite (proj2 (Z.leb_le _ _)) by lia.
Qed.

Lemma signature_varint_ok s : signature_ok s -> varint_ok (mkVarInt (blen (signature_bytes s))).
Proof. intros (_ & _ & ?). pose proof (blen_nonneg (signature_bytes s)). by split. Qed.

Lemma base_bytes_ok `{Certificates} e : bytes_ok (base_bytes e).
Proof.
  unfold base_bytes. rewrite !bytes_ok_app. repeat split; auto with ddns.
  - apply opt_bytes_ok, option_all_true. intros s. apply varint_bytes_ok.
  - apply addr_bytes_ok.
  - apply opt_bytes_ok, option_all_true, addr_bytes_ok.
  - apply opt_bytes_ok, option_all_true. auto with ddns.
Qed.

Lemma sig_bytes_ok s : signature_ok s -> bytes_ok (sig_bytes s).
Proof.
  intros (_ & ? & _). unfold sig_bytes. rewrite !bytes_ok_app.
  repeat split; auto using varint_bytes_ok with ddns.
Qed.

Lemma endpoint_bytes_ok `{Certificates} e :
  option_all signature_ok (signature e) -> bytes_ok (endpoint_bytes e).
Proof.
  intros Hs. unfold endpoint_bytes. apply bytes_ok_app. split; [apply base_bytes_ok|].
  apply opt_bytes_ok. destruct (is_signed e); [|done].
  eapply option_all_impl; [|exact Hs]. apply sig_bytes_ok.
Qed.

Section WriteFacts.
Context `{CS : CertificatesSpec} `{BS : BufMutSpec}.

Lemma seq_varint_ok s : varint_ok (from_u32 (seq_get s)).
Proof. apply from_u32_ok, seq_get_range. Qed.

Lemma write_base_bytes e buf : write_base e buf = Some (buf ++ base_bytes e).
Proof.
  unfold write_base, base_bytes, put_socket_addr_v4, put_socket_addr_v6.
  autorewrite with put.
  destruct (sequence e) as [s|]; cbn [opt_bytes];
    [rewrite put_varint_bytes by apply seq_varint_ok|]; cbn [mbind option_bind];
    destruct (primary e), (agent e) as [[]|], (load e); cbn [addr_bytes opt_bytes app];
    autorewrite with put; by rewrite ?app_nil_r, <- ?app_assoc.
Qed.

Lemma put_endpoint_addr_bytes buf e :
  option_all signature_ok (signature e) ->
  put_endpoint_addr buf e = Some (buf ++ endpoint_bytes e).
Proof.
  intros Hs. unfold put_endpoint_addr, endpoint_bytes. rewrite write_base_bytes.
  cbn [mbind option_bind].
  destruct (is_signed e), (signature e) as [s|]; cbn [opt_bytes];
    rewrite ?app_nil_r; try done.
  rewrite put_u16_spec, signature_len_ok, put_varint_bytes by auto using signature_varint_ok.
  cbn [mbind option_bind]. rewrite put_slice_spec. unfold sig_bytes.
  by rewrite <- !app_assoc.
Qed.

Lemma signed_data_bytes e :
  signed_data e = Some (base_bytes (with_signature None (set_signed e true))).
Proof. unfold signed_data. by rewrite write_base_bytes. Qed.
End WriteFacts.

Section ReadFacts.
Context `{CS : CertificatesSpec} `{NS : NomSpec}.

Lemma be_socket_addr_v4_app a rest :
  addr_ok (V4 a) -> be_socket_addr_v4 (addr_bytes (V4 a) ++ rest) = Ok (rest, a).
Proof.
  intros [Hip Hport]. unfold be_socket_addr_v4, be_ipv4_addr. cbn [addr_bytes].
  rewrite nom_flat_map_spec, <- app_assoc, be_u16_app by done.
  rewrite !nom_map_spec, be_u32_app by done. by destruct a.
Qed.

Lemma be_socket_addr_v6_app a rest :
  addr_ok (V6 a) ->
  be_socket_addr_v6 (addr_bytes (V6 a) ++ rest)
  = Ok (rest, mkSocketAddrV6 (v6_ip a) (v6_port a) 0 0).
Proof.
  intros [Hip Hport]. unfold be_socket_addr_v6, be_ipv6_addr. cbn [addr_bytes].
  rewrite nom_flat_map_spec, <- app_assoc, be_u16_app by done.
  rewrite !nom_map_spec, be_u128_app by done. done.
Qed.

(** The choice of the address parser by the FAMILY flag. *)
Definition be_socket_addr (v6 : bool) (input : bytes) : IResult SocketAddr :=
  if v6 then let? (remain, addr) := be_socket_addr_v6 input in Ok (remain, V6 addr)
  else let? (remain, addr) := be_socket_addr_v4 input in Ok (remain, V4 addr).

Lemma be_socket_addr_app a rest :
  addr_ok a -> be_socket_addr (is_v6 a) (addr_bytes a ++ rest) = Ok (rest, strip_scope a).
Proof.
  destruct a as [a|a]; intros Ha; cbn [is_v6 be_socket_addr].
  - by rewrite be_socket_addr_v4_app.
  - by rewrite be_socket_addr_v6_app.
Qed.

Lemma be_socket_addr_yields v6 input :
  bytes_ok input ->
  yields (be_socket_addr v6 input) input (fun l a =>
    addr_ok a /\ is_v6 a = v6 /\ strip_scope a = a /\ l = addr_bytes a).
Proof.
  intros Hok. unfold be_socket_addr, be_socket_addr_v4, be_socket_addr_v6, be_ipv4_addr,
    be_ipv6_addr. rewrite !nom_flat_map_spec.
  assert (forall w k (p : bytes -> IResult Z) (f : Z -> Z -> SocketAddr),
    (forall i, bytes_ok i -> yields (p i) i (reads k w)) ->
    yields (let? (r, port) := be_u16 input in let? (r, ip) := p r in Ok (r, f ip port)) input
      (fun l a => exists ip port, a = f ip port /\ u_ok 16 port /\ u_ok w ip
         /\ l = to_be 2 port ++ to_be k ip)) as Hgen.
  { intros w k p f Hp. yields_step be_u16_yields. yields_step Hp. apply yields_ok.
    exists v0, v. rewrite !(reads_to_be _ _ _ _ Hv), !(reads_to_be _ _ _ _ Hv0) by done.
    rewrite app_nil_r. destruct Hv as (_ & _ & ?), Hv0 as (_ & _ & ?). done. }
  destruct v6.
  - specialize (Hgen 128 16%nat be_u128 (fun ip port => V6 (mkSocketAddrV6 ip port 0 0))
      be_u128_yields).
    destruct (be_u16 input) as [[r port]|]; [|done]. rewrite !nom_map_spec.
    destruct (be_u128 r) as [[r' ip]|]; [|done].
    eapply yields_weaken; [exact Hgen|]. intros l a (? & ? & -> & ? & ? & ->). done.
  - specialize (Hgen 32 4%nat be_u32 (fun ip port => V4 (mkSocketAddrV4 ip port)) be_u32_yields).
    destruct (be_u16 input) as [[r port]|]; [|done]. rewrite !nom_map_spec.
    destruct (be_u32 r) as [[r' ip]|]; [|done].
    eapply yields_weaken; [exact Hgen|]. intros l a (? & ? & -> & ? & ? & ->). done.
Qed.

Lemma be_endpoint_signature_bytes f sig rest :
  byte_ok f -> has_flag f FLAG_SIGNED = is_some sig -> option_all signature_ok sig ->
  (sig = None -> rest = []) ->
  be_endpoint_signature (opt_bytes sig_bytes sig ++ rest) f = Ok (rest, sig).
Proof.
  intros Hf Hs Hok Hrest. unfold be_endpoint_signature.
  rewrite flag_test, Hs by (done || set_solver).
  destruct sig as [s|]; cbn [is_some negb opt_bytes]; [|by rewrite Hrest].
  pose proof (signature_varint_ok s Hok) as Hv. unfold sig_bytes. destruct Hok as (? & ? & ?).
  rewrite <- !app_assoc, be_u16_app, be_varint_bytes by done. cbn [into_inner varint_value].
  rewrite (proj2 (Z.ltb_lt _ _)) by lia. rewrite nom_take_app. by destruct s.
Qed.

(** The parser as a sequence of optional fields. *)
Definition be_opt {A} (present : bool) (p : bytes -> IResult A) (input : bytes)
  : IResult (option A) :=
  if present then let? (remain, v) := p input in Ok (remain, Some v) else Ok (input, None).

Definition be_sequence (input : bytes) : IResult CertificateSequence :=
  let? (remain, seq) := be_varint input in
  match seq_try_from (into_inner seq) with
  | Some sequence => Ok (remain, sequence)
  | None => Err (Failure remain TooLarge)
  end.

Lemma be_endpoint_addr_eq input :
  be_endpoint_addr input =
  let? (remain, flags) := be_u8 input in
  let? (remain, sequence) := be_opt (has_flag flags FLAG_CLUSTERED) be_sequence remain in
  let? (remain, primary) := be_socket_addr (has_flag flags FLAG_FAMILY) remain in
  let? (remain, agent) :=
    be_opt (has_flag flags FLAG_NAT) (be_socket_addr (has_flag flags FLAG_FAMILY)) remain in
  let? (remain, load) := be_opt (has_flag flags FLAG_LOAD) be_u32 remain in
  let? (remain, signature) := be_endpoint_signature remain flags in
  Ok (remain, mkEndpointAddr flags sequence load signature primary agent).
Proof.
  unfold be_endpoint_addr, be_opt, be_sequence, be_socket_addr. cbv zeta.
  destruct (be_u8 input) as [[remain f]|]; [|done].
  destruct (has_flag f FLAG_CLUSTERED); [|reflexivity].
  destruct (be_varint remain) as [[r sq]|]; [|done].
  by destruct (seq_try_from (into_inner sq)).
Qed.

Lemma be_opt_app {A B} (p : bytes -> IResult B) (f : A -> bytes) (g : A -> B) o rest :
  option_all (fun x => p (f x ++ rest) = Ok (rest, g x)) o ->
  be_opt (is_some o) p (opt_bytes f o ++ rest) = Ok (rest, option_map g o).
Proof. destruct o; cbn; [|done]. by intros ->. Qed.

Lemma be_opt_yields {A} present (p : bytes -> IResult A) input Q :
  yields (p input) input Q ->
  yields (be_opt present p input) input (fun l o => present = is_some o /\ option_all (Q l) o).
Proof.
  intros Hp. destruct present; cbn [be_opt]; [|by apply yields_ok].
  eapply yields_bind; [exact Hp|]. intros l remain v -> HQ. apply yields_ok.
  by rewrite app_nil_r.
Qed.

Lemma be_sequence_app s rest : be_sequence (seq_bytes s ++ rest) = Ok (rest, s).
Proof.
  unfold be_sequence, seq_bytes. rewrite be_varint_bytes by apply seq_varint_ok.
  cbn [into_inner varint_value from_u32]. by rewrite seq_try_from_get.
Qed.

Lemma be_sequence_yields input :
  bytes_ok input -> yields (be_sequence input) input (fun l s => True).
Proof.
  intros Hok. unfold be_sequence. yields_step be_varint_yields.
  destruct (seq_try_from _); [by apply yields_ok|done].
Qed.

(** The parser on the fields before the signature. *)
Lemma be_endpoint_addr_base e rest :
  fields_ok e -> base_flags_ok e ->
  be_endpoint_addr (base_bytes e ++ rest) =
  let? (remain, sg) := be_endpoint_signature rest (flags e) in
  Ok (remain, with_signature sg (wire_endpoint e)).
Proof.
  destruct e as [f sq ld sg pr ag]. intros (Hf & Hpr & Hag & Hld & Hsg)
    (Hfam & Hnat & Hsame & Hclu & Hload).
  unfold wire_endpoint, base_bytes, with_signature.
  cbn [flags sequence load signature primary agent] in *.
  rewrite <- !app_assoc, be_endpoint_addr_eq, be_u8_app by done.
  rewrite Hfam, Hnat, Hclu, Hload.
  rewrite (be_opt_app _ _ id) by (apply option_all_true; intros x; apply be_sequence_app).
  rewrite be_socket_addr_app by done.
  rewrite (be_opt_app _ _ strip_scope).
  2:{ destruct ag as [a|]; [|done]. cbn in *. rewrite <- Hsame. by apply be_socket_addr_app. }
  rewrite (be_opt_app _ _ id) by (destruct ld; [by apply be_u32_app|done]).
  destruct (be_endpoint_signature rest f) as [[??]|]; [|done]. by destruct sq, ld.
Qed.

Lemma be_endpoint_addr_bytes e rest :
  endpoint_ok e -> (signature e = None -> rest = []) ->
  be_endpoint_addr (endpoint_bytes e ++ rest) = Ok (rest, wire_endpoint e).
Proof.
  intros (Hf & Hb & Hsigned) Hrest. unfold endpoint_bytes, is_signed.
  rewrite flag_test by (apply Hf || set_solver). rewrite Hsigned.
  replace (if is_some (signature e) then signature e else None) with (signature e) by
    (by destruct (signature e)).
  rewrite <- app_assoc, be_endpoint_addr_base, be_endpoint_signature_bytes by (done || apply Hf).
  done.
Qed.

Lemma be_endpoint_signature_yields input f :
  bytes_ok input -> byte_ok f ->
  yields (be_endpoint_signature input f) input (fun l sg =>
    has_flag f FLAG_SIGNED = is_some sg /\ option_all signature_ok sg).
Proof.
  intros Hok Hf. unfold be_endpoint_signature. rewrite flag_test by (done || set_solver).
  destruct (has_flag f FLAG_SIGNED); cbn [negb]; [|destruct input; [by apply yields_ok|done]].
  yields_step be_u16_yields. yields_step be_varint_yields. destruct Hv0 as [Hvi _].
  destruct (Z.ltb_spec (into_inner v0) (2 ^ 64)); [|done]. unfold varint_ok, into_inner in *.
  eapply yields_bind; [apply nom_take_yields; [lia|done]|].
  intros l1 r1 sg -> (-> & Hlen & Hb). apply yields_ok. split; [done|].
  unfold signature_ok. cbn. unfold reads in Hv. rewrite Hlen. tauto.
Qed.

(** Whatever the parser accepts satisfies the invariant. *)
Lemma be_endpoint_addr_yields input :
  bytes_ok input ->
  yields (be_endpoint_addr input) input (fun l e =>
    endpoint_ok e /\ wire_endpoint e = e /\ 7 <= blen l).
Proof.
  intros Hok. rewrite be_endpoint_addr_eq. yields_step be_u8_yields.
  assert (byte_ok v) as Hf by apply Hv.
  eapply yields_bind; [by apply be_opt_yields, be_sequence_yields|].
  intros l1 r1 sq -> [Hsq _]. apply bytes_ok_app in Hok as [_ Hok].
  yields_step be_socket_addr_yields.
  eapply yields_bind; [by apply be_opt_yields, be_socket_addr_yields|].
  intros l2 r2 ag -> [Hag Hago]. apply bytes_ok_app in Hok as [_ Hok].
  eapply yields_bind; [by apply be_opt_yields, be_u32_yields|].
  intros l3 r3 ld -> [Hld Hldo]. apply bytes_ok_app in Hok as [_ Hok].
  eapply yields_bind; [by apply be_endpoint_signature_yields|].
  intros l4 r4 sg -> [Hsg Hsgo]. apply yields_ok.
  destruct Hv0 as (? & Hfam & Hstrip & ->). destruct Hv as [Hlen _].
  split; [|split; [unfold wire_endpoint; cbn; rewrite Hstrip; f_equal; destruct ag as [a|]; [|done];
                   cbn in *; f_equal; tauto|]].
  2:{ rewrite !blen_app, addr_bytes_length. unfold blen. destruct (is_v6 v0); lia. }
  unfold endpoint_ok, fields_ok, base_flags_ok. cbn. rewrite Hfam.
  split_and!; try done.
  - eapply option_all_impl; [|exact Hago]. intros a Ha. apply Ha.
  - eapply option_all_impl; [|exact Hldo]. intros a Ha. apply Ha.
  - eapply option_all_impl; [|exact Hago]. intros a Ha. apply Ha.
Qed.
End ReadFacts.

(** ** The operations keep the invariant *)
Section Operations.
Context `{CS : CertificatesSpec}.

Lemma flags_set_flag e flag on : flags (set_flag flag on e) = flag_update (flags e) flag on.
Proof. done. Qed.

(** Reads of a flag after the update of a flag. *)
Ltac flag_simpl :=
  repeat match goal with
  | Hf : byte_ok ?f |- context [has_flag (flag_update ?f ?c ?on) ?c'] =>
      rewrite (proj2 (set_flag_bits f c on Hf ltac:(set_solver)) c' ltac:(set_solver));
      let b := eval vm_compute in (c =? c') in change (c =? c') with b; cbv iota
  end.

Ltac flag_bytes :=
  try (apply set_flag_bits; [assumption|set_solver]).

Lemma set_main_ok e main : endpoint_ok e -> endpoint_ok (set_main e main).
Proof.
  unfold endpoint_ok, fields_ok, base_flags_ok, set_main, set_flag. cbn.
  intros ((? & ? & ? & ? & ?) & (? & ? & ? & ? & ?) & ?). flag_simpl.
  split_and!; try done; flag_bytes.
Qed.

Lemma set_load_ok e l : option_all (u_ok 32) l -> endpoint_ok e -> endpoint_ok (set_load e l).
Proof.
  unfold endpoint_ok, fields_ok, base_flags_ok, set_load, set_flag, with_load. cbn.
  intros ? ((? & ? & ? & ? & ?) & (? & ? & ? & ? & ?) & ?).
  destruct l; cbn; flag_simpl; split_and!; try done; flag_bytes.
Qed.

Lemma set_sequence_ok e s : endpoint_ok e -> endpoint_ok (set_sequence e s).
Proof.
  unfold endpoint_ok, fields_ok, base_flags_ok, set_sequence, set_clustered, set_flag,
    with_sequence.
  intros ((? & ? & ? & ? & ?) & (? & ? & ? & ? & ?) & ?).
  destruct (0 <? seq_get s); cbn in *; flag_simpl; split_and!; try done; flag_bytes.
Qed.

Lemma unset_clustered_ok e : endpoint_ok e -> endpoint_ok (set_clustered e false).
Proof.
  unfold endpoint_ok, fields_ok, base_flags_ok, set_clustered, set_flag, with_sequence.
  intros ((? & ? & ? & ? & ?) & (? & ? & ? & ? & ?) & ?).
  cbn in *; flag_simpl; split_and!; try done; flag_bytes.
Qed.

(** Setting CLUSTERED alone announces a sequence, which must be there. *)
Lemma set_clustered_ok e clustered :
  endpoint_ok e -> (endpoint_ok (set_clustered e clustered) <-> clustered = false \/ is_Some (sequence e)).
Proof.
  intros He. destruct clustered; [|split; [by left|intros _; by apply unset_clustered_ok]].
  revert He. unfold endpoint_ok, fields_ok, base_flags_ok, set_clustered, set_flag. cbn.
  intros ((? & ? & ? & ? & ?) & (? & ? & ? & ? & ?) & ?). flag_simpl. split.
  - intros (_ & (_ & _ & _ & Hs & _) & _). right. by destruct (sequence e).
  - intros [|[s Hs]]; [done|]. rewrite Hs. split_and!; try done; flag_bytes.
Qed.

(** Setting SIGNED and the signature together. *)
Lemma signed_ok e sig :
  signature_ok sig -> fields_ok e -> base_flags_ok e ->
  endpoint_ok (with_signature (Some sig) (set_signed e true)).
Proof.
  unfold endpoint_ok, fields_ok, base_flags_ok, set_signed, with_signature, set_flag. cbn.
  intros ? (? & ? & ? & ? & ?) (? & ? & ? & ? & ?). flag_simpl.
  split_and!; try done; flag_bytes.
Qed.

Lemma endpoint_try_from_dquic_ok d e :
  match d with
  | Dquic.Direct a => addr_ok a
  | Dquic.Mediate agent outer => addr_ok agent /\ addr_ok outer
  end -> endpoint_try_from_dquic d = Ok e -> endpoint_ok e.
Proof.
  destruct d as [[a|a]|[a|a] [o|o]]; cbn [endpoint_try_from_dquic]; intros Ha; intros [= <-];
    unfold endpoint_ok, fields_ok, base_flags_ok; cbn; split_and!;
    try done; try apply Ha; unfold byte_ok; cbn; lia.
Qed.

Lemma direct_ok a : addr_ok a ->
  endpoint_ok (match a with V4 a => direct_v4 a | V6 a => direct_v6 a end).
Proof. intros Ha. apply (endpoint_try_from_dquic_ok (Dquic.Direct a)); [done|]. by destruct a. Qed.

Lemma is_main_flag e main : byte_ok (flags e) -> is_main (set_main e main) = main.
Proof.
  intros Hf. unfold is_main. cbn [set_main flags_set_flag set_flag flags].
  rewrite flag_test by (flag_bytes || set_solver). flag_simpl. done.
Qed.

Lemma is_main_set_main e main : fields_ok e -> is_main (set_main e main) = main.
Proof. intros (Hf & _). by apply is_main_flag. Qed.

Lemma is_main_sequence e s : byte_ok (flags e) -> is_main (set_sequence e s) = is_main e.
Proof.
  intros Hf. unfold is_main, set_sequence, set_clustered, set_flag, with_sequence.
  destruct (0 <? seq_get s); cbn [flags];
    rewrite !flag_test by (flag_bytes || done || set_solver); by flag_simpl.
Qed.

Lemma is_main_set_sequence e s : fields_ok e -> is_main (set_sequence e s) = is_main e.
Proof. intros (Hf & _). by apply is_main_sequence. Qed.

Lemma normalized_set_sequence e s : normalized_sequence (set_sequence e s) = s.
Proof.
  unfold normalized_sequence, set_sequence.
  destruct (Z.ltb_spec 0 (seq_get s)); [done|]. cbn. symmetry. apply seq_zero.
  pose proof (seq_get_range s). unfold u_ok in *. lia.
Qed.

Lemma certificate_chain_key_spec e :
  exists k, certificate_chain_key e = Some k
    /\ is_primary_chain_key k = is_main e /\ chain_sequence k = normalized_sequence e.
Proof.
  unfold certificate_chain_key. destruct (is_main e); eexists; (split; [reflexivity|]);
    rewrite ?is_primary_primary, ?is_primary_secondary, chain_sequence_new; done.
Qed.

Lemma encpding_size_bytes e : endpoint_ok e -> encpding_size e = Some (blen (endpoint_bytes e)).
Proof.
  destruct e as [f sq ld sg pr ag]. intros [(Hf & Hpr & Hag & Hld & Hsg)
    [(Hfam & Hnat & Hsame & Hclu & Hload) Hsigned]].
  unfold encpding_size, endpoint_bytes, base_bytes, is_signed, is_ipv6, is_nat.
  cbn [flags sequence load signature primary agent] in *.
  rewrite flag_test by (done || set_solver). rewrite Hsigned, Hfam, Hnat, !blen_app, blen_to_be.
  destruct sq as [s|]; cbn [opt_bytes];
    [rewrite encoding_size_bytes by apply seq_varint_ok; fold (seq_bytes s)|];
    cbn [mbind option_bind]; rewrite ?blen_nil.
  all: destruct sg as [s'|]; cbn [is_some opt_bytes];
    [rewrite signature_len_ok, encoding_size_bytes by auto using signature_varint_ok;
     cbn [mbind option_bind]; unfold sig_bytes; rewrite !blen_app, blen_to_be|];
    cbn [mbind option_bind]; rewrite ?blen_nil; f_equal; rewrite addr_bytes_length.
  all: destruct ag as [a|]; cbn [is_some opt_bytes option_all] in *;
    rewrite ?blen_nil, ?addr_bytes_length, ?Hsame;
    destruct (is_v6 pr), ld; cbn [opt_bytes]; autorewrite with blen; lia.
Qed.
End Operations.

(** ** Signing *)

(** [authority_for authority]: what the authority signs under a scheme is
    accepted by the verifier of that scheme with the authority's public key. *)
Definition authority_for `{K : Crypto} (authority : LocalAuthority) : Prop :=
  forall s data sig oid params pk alg,
    authority_sign authority (scheme_into_u16 s) data = Ok sig ->
    spki_from_der (authority_public_key authority) = Some (oid, params, pk) ->
    ring_algorithm s = Some alg ->
    bytes_ok sig /\ blen sig < 2 ^ 62 /\ ring_verify alg pk data sig = true.

Section SigningFacts.
Context `{CS : CertificatesSpec} `{BS : BufMutSpec} `{KS : CryptoSpec}.

(** The data that is signed does not depend on the signature, on the SIGNED
    flag, nor on what the wire does not carry. *)
Lemma flag_update_twice f : byte_ok f ->
  flag_update (flag_update f FLAG_SIGNED true) FLAG_SIGNED true = flag_update f FLAG_SIGNED true.
Proof.
  intros Hf. set (P := fun x => flag_update (flag_update x FLAG_SIGNED true) FLAG_SIGNED true
                                =? flag_update x FLAG_SIGNED true).
  apply Z.eqb_eq. change (P f = true). apply (byte_enum P); [vm_compute; reflexivity|done].
Qed.

Lemma signed_data_stable e sig :
  byte_ok (flags e) -> signed_data (with_signature sig (set_signed e true)) = signed_data e.
Proof.
  intros Hf. rewrite !signed_data_bytes. unfold with_signature, set_signed, set_flag. cbn.
  by rewrite flag_update_twice.
Qed.

Lemma addr_bytes_strip a : addr_bytes (strip_scope a) = addr_bytes a.
Proof. by destruct a. Qed.

Lemma base_bytes_wire e : base_bytes (wire_endpoint e) = base_bytes e.
Proof.
  unfold base_bytes. cbn. rewrite addr_bytes_strip.
  destruct (agent e); cbn; by rewrite ?addr_bytes_strip.
Qed.

Lemma endpoint_bytes_wire e : endpoint_bytes (wire_endpoint e) = endpoint_bytes e.
Proof. unfold endpoint_bytes. by rewrite base_bytes_wire. Qed.

Lemma signed_data_wire e : signed_data (wire_endpoint e) = signed_data e.
Proof.
  rewrite !signed_data_bytes. f_equal.
  exact (base_bytes_wire (with_signature None (set_signed e true))).
Qed.

(** Either signing succeeds and leaves a signature that verifies, or the endpoint
    keeps its other fields with the SIGNED flag set. *)
Lemma sign_with_authority_cases e authority :
  authority_for authority -> fields_ok e -> base_flags_ok e ->
  exists e' r, sign_with_authority e authority = Some (e', r)
    /\ match r with
       | Ok _ => endpoint_ok e' /\ is_some (signature e') = true
           /\ with_signature None e' = with_signature None (set_signed e true)
           /\ verify_signature e' (authority_public_key authority) = Some (Ok true)
       | Err _ => e' = set_signed e true
       end.
Proof.
  intros Hauth Hf Hb. unfold sign_with_authority. rewrite signed_data_bytes.
  cbn [mbind option_bind].
  destruct (head (authority_certificates authority)); cbn [mbind option_bind];
    [|eexists _, _; split; [reflexivity|done]].
  destruct (canonical_scheme_for_spki (authority_public_key authority)) as [s|] eqn:Hs;
    [|eexists _, _; split; [reflexivity|done]].
  destruct (authority_sign authority (scheme_into_u16 s) _) as [sig|err] eqn:Hsign;
    [|eexists _, _; split; [reflexivity|done]].
  eexists _, _. split; [reflexivity|]. cbv beta iota.
  assert (s ∈ SIGNATURE_SCHEME_PREFERENCE) as Hin by
    (pose proof (canonical_scheme_supported _ _ Hs); unfold SIGNATURE_SCHEME_PREFERENCE; set_solver).
  destruct (proj2 (ring_algorithm_supported s) Hin) as [alg Halg].
  assert (exists oid params pk, spki_from_der (authority_public_key authority)
    = Some (oid, params, pk)) as (oid & params & pk & Hder).
  { unfold canonical_scheme_for_spki in Hs.
    destruct (spki_from_der _) as [[[??]?]|]; [eauto|done]. }
  destruct (Hauth _ _ _ _ _ _ _ Hsign Hder Halg) as (? & ? & Hv).
  split; [apply signed_ok; [split; [apply scheme_code_range|done]|done..]|].
  split; [done|]. split; [done|].
  unfold verify_signature. cbn [signature with_signature].
  rewrite signed_data_stable, signed_data_bytes by apply Hf. cbn [mbind option_bind].
  cbn [scheme signature_bytes]. rewrite scheme_code by done. unfold verify. rewrite Halg, Hder.
  unfold set_signed, set_flag, with_signature in Hv |- *. cbn in Hv |- *.
  rewrite flag_update_twice in Hv by apply Hf. by rewrite Hv.
Qed.

(** What signing can fail with. *)
Lemma sign_errors e authority e' err :
  sign_with_authority e authority = Some (e', Err err) ->
  match err with
  | EndpointNoSupportedScheme => authority_certificates authority = []
      \/ canonical_scheme_for_spki (authority_public_key authority) = None
  | Sign source => exists s data,
      canonical_scheme_for_spki (authority_public_key authority) = Some s
      /\ signed_data (set_signed e true) = Some data
      /\ authority_sign authority (scheme_into_u16 s) data = Err source
  end.
Proof.
  unfold sign_with_authority. destruct (signed_data _) as [data|] eqn:Hd; cbn [mbind option_bind]; [|done].
  destruct (authority_certificates authority) as [|c cs]; cbn [head mbind option_bind];
    [intros [= _ <-]; by left|].
  destruct (canonical_scheme_for_spki _) as [s|] eqn:Hc; [|intros [= _ <-]; by right].
  destruct (authority_sign _ _ _) eqn:Ha; [done|]. intros [= _ <-]. by exists s, data.
Qed.

Lemma sign_failure e authority e' err :
  sign_with_authority e authority = Some (e', Err err) -> e' = set_signed e true.
Proof.
  unfold sign_with_authority. destruct (signed_data _) as [data|]; cbn [mbind option_bind]; [|done].
  destruct (head _ ≫= _) as [s|]; [|by intros [= <- _]].
  destruct (authority_sign _ _ _); [done|by intros [= <- _]].
Qed.

Lemma flagged_ok e :
  endpoint_ok e ->
  fields_ok (set_signed e true) /\ base_flags_ok (set_signed e true)
  /\ has_flag (flags (set_signed e true)) FLAG_SIGNED = true.
Proof.
  intros (Hf & Hb & _). set (sig := mkEndpointSignature 0 []).
  assert (signature_ok sig) as Hsig by decide_now.
  destruct (signed_ok e sig Hsig Hf Hb) as ((Hbyte & _) & Hb' & Hsg).
  destruct Hf as (_ & ? & ? & ? & ?). done.
Qed.
End SigningFacts.

(** ** Compatibility with the legacy layout *)
Section Compat.
Context `{CS : CertificatesSpec} `{NS : NomSpec}.

Lemma be_socket_addr_v4_yields input :
  bytes_ok input -> yields (be_socket_addr_v4 input) input (fun l a => addr_ok (V4 a)).
Proof.
  intros Hok. pose proof (be_socket_addr_yields false input Hok) as Hy. cbn in Hy.
  destruct (be_socket_addr_v4 input) as [[r a]|]; [|done]. destruct Hy as (l & -> & Ha & _).
  by exists l.
Qed.

Lemma be_socket_addr_v6_yields input :
  bytes_ok input ->
  yields (be_socket_addr_v6 input) input (fun l a => addr_ok (V6 a) /\ strip_scope (V6 a) = V6 a).
Proof.
  intros Hok. pose proof (be_socket_addr_yields true input Hok) as Hy. cbn in Hy.
  destruct (be_socket_addr_v6 input) as [[r a]|]; [|done].
  destruct Hy as (l & -> & Ha & _ & Hs & _). by exists l.
Qed.

Lemma be_legacy_other input rdlen :
  rdlen ∉ [6; 12; 18; 36] ->
  be_legacy_endpoint_addr_by_length input rdlen = Err (Error input LengthValue).
Proof.
  destruct rdlen as [|p|p]; [done| |done]. intros Hp.
  do 6 (try done; try (exfalso; set_solver); destruct p as [p|p|]); try done; exfalso; set_solver.
Qed.

Lemma be_legacy_yields input rdlen :
  bytes_ok input ->
  yields (be_legacy_endpoint_addr_by_length input rdlen) input (fun l e =>
    endpoint_ok e /\ wire_endpoint e = e).
Proof.
  intros Hok. destruct (decide (rdlen ∈ [6; 12; 18; 36])) as [Hin|];
    [|rewrite be_legacy_other by done; exact Hok].
  unfold endpoint_ok, fields_ok, base_flags_ok, wire_endpoint.
  rewrite !elem_of_cons, elem_of_nil in Hin. destruct Hin as [->|[->|[->|[->|[]]]]];
    cbn [be_legacy_endpoint_addr_by_length].
  - yields_step be_socket_addr_v4_yields. apply yields_ok. cbn -[addr_ok]. split_and!; done || decide_now.
  - do 2 yields_step be_socket_addr_v4_yields. apply yields_ok. cbn -[addr_ok].
    split_and!; done || decide_now.
  - yields_step be_socket_addr_v6_yields. apply yields_ok. destruct Hv as [? E].
    cbn -[strip_scope addr_ok]. rewrite E. split_and!; done || decide_now.
  - do 2 yields_step be_socket_addr_v6_yields. apply yields_ok. destruct Hv as [? E], Hv0 as [? E0].
    cbn -[strip_scope addr_ok]. rewrite E, E0. split_and!; done || decide_now.
Qed.

Lemma be_endpoint_addr_compat_yields input rdlen :
  bytes_ok input ->
  yields (be_endpoint_addr_compat input rdlen) input (fun l e =>
    endpoint_ok e /\ wire_endpoint e = e).
Proof.
  intros Hok. pose proof (be_endpoint_addr_yields input Hok) as Hm.
  pose proof (be_legacy_yields input rdlen Hok) as Hl.
  assert (yields (be_endpoint_addr input) input (fun l e =>
    endpoint_ok e /\ wire_endpoint e = e)) as Hm' by
    (eapply yields_weaken; [exact Hm|]; intros ?? (? & ? & _); done).
  unfold be_endpoint_addr_compat. case_bool_decide; [|done].
  destruct (be_endpoint_addr input) as [[[|b r] e]|]; done.
Qed.

(** A complete modern encoding is read as such, whatever its length. *)
Lemma compat_modern e :
  endpoint_ok e ->
  be_endpoint_addr_compat (endpoint_bytes e) (blen (endpoint_bytes e)) = Ok ([], wire_endpoint e).
Proof.
  intros He. unfold be_endpoint_addr_compat.
  pose proof (be_endpoint_addr_bytes e [] He (fun _ => eq_refl)) as E. rewrite app_nil_r in E.
  rewrite E. by case_bool_decide.
Qed.

(** Without its signature, an endpoint flagged SIGNED cannot be read. *)
Lemma be_endpoint_addr_unsigned e :
  fields_ok e -> base_flags_ok e -> has_flag (flags e) FLAG_SIGNED = true ->
  be_endpoint_addr (base_bytes e) = Err (Incomplete (needed_new 2)).
Proof.
  intros Hf Hb Hs. rewrite <- (app_nil_r (base_bytes e)), be_endpoint_addr_base by done.
  unfold be_endpoint_signature. rewrite flag_test, Hs by (apply Hf || set_solver). cbn [negb].
  by rewrite be_u16_spec.
Qed.

Lemma base_bytes_length e :
  load e = None -> option_all (fun a => is_v6 a = is_v6 (primary e)) (agent e) ->
  blen (base_bytes e) ∉ [6; 12; 18; 36].
Proof.
  intros Hl Hsame. unfold base_bytes. rewrite Hl. rewrite !blen_app, blen_to_be, addr_bytes_length.
  destruct (sequence e) as [s|]; cbn [opt_bytes].
  1: pose proof (varint_bytes_length (from_u32 (seq_get s))) as Hv; fold (seq_bytes s) in Hv.
  all: destruct (agent e) as [a|]; cbn [opt_bytes option_all] in *;
    rewrite ?addr_bytes_length, ?Hsame; autorewrite with blen;
    destruct (is_v6 (primary e)); rewrite ?elem_of_cons, ?elem_of_nil in *; lia.
Qed.

Lemma compat_unsigned e :
  fields_ok e -> base_flags_ok e -> has_flag (flags e) FLAG_SIGNED = true -> load e = None ->
  be_endpoint_addr_compat (base_bytes e) (blen (base_bytes e)) = Err (Incomplete (needed_new 2)).
Proof.
  intros Hf Hb Hs Hl. unfold be_endpoint_addr_compat.
  rewrite bool_decide_false by (apply base_bytes_length; [done|apply Hb]).
  by apply be_endpoint_addr_unsigned.
Qed.
End Compat.

(** ** Properties *)

(** C7: an endpoint whose flags agree with its fields is encoded in
    [encpding_size] bytes, without panicking, and decoded to the same endpoint
    up to the IPv6 flow label and scope, which the wire does not carry; the
    backward-compatible parser agrees, also at the lengths of the legacy layout. *)
Theorem endpoint_roundtrip `{CertificatesSpec} `{NomSpec} `{BufMutSpec} (buf : bytes)
    (e : EndpointAddr) :
  endpoint_ok e ->
  exists enc, put_endpoint_addr buf e = Some (buf ++ enc)
    /\ encpding_size e = Some (blen enc)
    /\ be_endpoint_addr enc = Ok ([], wire_endpoint e)
    /\ be_endpoint_addr_compat enc (blen enc) = Ok ([], wire_endpoint e).
Proof.
  intros He. exists (endpoint_bytes e).
  split; [by apply put_endpoint_addr_bytes, He|]. split; [by apply encpding_size_bytes|].
  split; [|by apply compat_modern].
  rewrite <- (app_nil_r (endpoint_bytes e)). by apply be_endpoint_addr_bytes.
Qed.

(** A NAT endpoint over IPv6 with every optional field. *)
Definition sample_endpoint : EndpointAddr (C := CertModel.certificates) :=
  mkEndpointAddr (C := CertModel.certificates) 0xF9 (CertModel.u32_of 300) (Some 0x3F800000)
    (Some (mkEndpointSignature 0x0807 [1; 2; 3]))
    (V6 (mkSocketAddrV6 1 4433 0 0)) (Some (V6 (mkSocketAddrV6 2 53 0 0))).

Example endpoint_roundtrip_witness :
  exists enc, put_endpoint_addr (B := NomModel.buf_mut) [] sample_endpoint = Some ([] ++ enc)
    /\ encpding_size sample_endpoint = Some (blen enc)
    /\ be_endpoint_addr (N := NomModel.nom) enc = Ok ([], wire_endpoint sample_endpoint)
    /\ be_endpoint_addr_compat (N := NomModel.nom) enc (blen enc)
       = Ok ([], wire_endpoint sample_endpoint).
Proof.
  apply (endpoint_roundtrip (H := CertModel.certificates_spec) (H0 := NomModel.nom_spec)
           (H1 := NomModel.buf_mut_spec)). decide_now.
Defined.

(** C13: the endpoint parsers are total on bytes, and every endpoint they produce
    satisfies the invariant: its flags announce exactly the fields it has, both
    addresses are of the announced family and every field fits its type. *)
Theorem endpoint_parse_sound `{CertificatesSpec} `{NomSpec} (input : bytes) (rdlen : Z) :
  bytes_ok input ->
  match be_endpoint_addr_compat input rdlen with
  | Ok (remain, e) => endpoint_ok e /\ wire_endpoint e = e /\ exists l, input = l ++ remain
  | Err err => err_ok err
  end.
Proof.
  intros Hok. pose proof (be_endpoint_addr_compat_yields input rdlen Hok) as Hy.
  destruct (be_endpoint_addr_compat input rdlen) as [[r e]|]; [|done].
  destruct Hy as (l & -> & ? & ?). eauto.
Qed.

Example endpoint_parse_sound_witness :
  be_endpoint_addr_compat (C := CertModel.certificates) (N := NomModel.nom)
    [17; 81; 127; 0; 0; 1] 6
  = Ok ([], direct_v4 (mkSocketAddrV4 0x7F000001 4433))
  /\ endpoint_ok (C := CertModel.certificates) (direct_v4 (mkSocketAddrV4 0x7F000001 4433)).
Proof.
  split; [reflexivity|].
  apply (endpoint_parse_sound (H := CertModel.certificates_spec) (H0 := NomModel.nom_spec)
    [17; 81; 127; 0; 0; 1] 6). decide_now.
Defined.

(** C31: the constructors establish the invariant of endpoints, with exactly the addresses
    they are given, and the setters keep it: [set_main], [set_load] and [set_sequence]
    always, [set_clustered] exactly when it clears CLUSTERED (and the sequence with it) or
    the endpoint has a sequence.  They store what they are given, a sequence of zero
    included, and the chain key of an endpoint is the primary key of its sequence exactly
    when MAIN is set. *)
Theorem endpoint_setters `{CertificatesSpec} (e : EndpointAddr) (main clustered : bool)
    (l : option Z) (s : CertificateSequence) (a4 b4 : SocketAddrV4) (a6 b6 : SocketAddrV6) :
  addr_ok (V4 a4) -> addr_ok (V4 b4) -> addr_ok (V6 a6) -> addr_ok (V6 b6) ->
  endpoint_ok e -> option_all (u_ok 32) l ->
  (endpoint_ok (direct_v4 a4) /\ primary (direct_v4 a4) = V4 a4 /\ agent (direct_v4 a4) = None)
  /\ (endpoint_ok (direct_v6 a6) /\ primary (direct_v6 a6) = V6 a6 /\ agent (direct_v6 a6) = None)
  /\ (endpoint_ok (nat_v4 a4 b4) /\ primary (nat_v4 a4 b4) = V4 a4
      /\ agent (nat_v4 a4 b4) = Some (V4 b4))
  /\ (endpoint_ok (nat_v6 a6 b6) /\ primary (nat_v6 a6 b6) = V6 a6
      /\ agent (nat_v6 a6 b6) = Some (V6 b6))
  /\ endpoint_ok (set_main e main) /\ endpoint_ok (set_load e l) /\ endpoint_ok (set_sequence e s)
  /\ (endpoint_ok (set_clustered e clustered) <-> clustered = false \/ is_Some (sequence e))
  /\ sequence (set_clustered e false) = None
  /\ is_main (set_main e main) = main /\ load (set_load e l) = l
  /\ normalized_sequence (set_sequence e s) = s
  /\ exists k, certificate_chain_key (set_main (set_sequence e s) main) = Some k
       /\ is_primary_chain_key k = main /\ chain_sequence k = s.
Proof.
  intros Ha4 Hb4 Ha6 Hb6 He Hl. pose proof (set_sequence_ok e s He) as Hs.
  split; [split; [by apply (direct_ok (V4 a4))|done]|].
  split; [split; [by apply (direct_ok (V6 a6))|done]|].
  split; [split; [by apply (endpoint_try_from_dquic_ok (Dquic.Mediate (V4 b4) (V4 a4)))|done]|].
  split; [split; [by apply (endpoint_try_from_dquic_ok (Dquic.Mediate (V6 b6) (V6 a6)))|done]|].
  split_and!; [by apply set_main_ok|by apply set_load_ok|done|by apply set_clustered_ok|done| | | |].
  - apply is_main_set_main, He.
  - by destruct l.
  - apply normalized_set_sequence.
  - destruct (certificate_chain_key_spec (set_main (set_sequence e s) main)) as (k & ? & Hk & Hq).
    exists k. rewrite Hk, Hq, is_main_set_main by apply Hs. split; [done|]. split; [done|].
    apply normalized_set_sequence.
Qed.

Example endpoint_setters_witness :
  endpoint_ok (C := CertModel.certificates) (nat_v4 (mkSocketAddrV4 1 443) (mkSocketAddrV4 2 443))
  /\ normalized_sequence (set_sequence sample_endpoint (seq_from_u8 0)) = seq_from_u8 0
  /\ sequence (set_sequence sample_endpoint (seq_from_u8 0)) = None.
Proof.
  destruct (endpoint_setters (H := CertModel.certificates_spec) sample_endpoint false true (Some 1)
    (seq_from_u8 0) (mkSocketAddrV4 1 443) (mkSocketAddrV4 2 443) (mkSocketAddrV6 1 443 0 0)
    (mkSocketAddrV6 2 443 0 0)) as (_ & _ & [Hn _] & _ & _ & _ & _ & _ & _ & _ & _ & Hq & _);
    [decide_now..|]. split; [exact Hn|]. split; [exact Hq|reflexivity].
Defined.

(** C8: signing with an authority whose signatures verify never panics.  When it succeeds,
    the endpoint is well formed and differs from the given one in its signature and the
    SIGNED flag only, and what a receiver decodes from its encoding, the endpoint less the
    IPv6 scopes, verifies with the authority's public key.  It fails only when the
    authority has no certificate or no supported scheme, or when the authority itself
    fails to sign. *)
Theorem signed_endpoint_verifies `{CertificatesSpec} `{NomSpec} `{BufMutSpec} `{CryptoSpec}
    (e : EndpointAddr) (authority : LocalAuthority) :
  endpoint_ok e -> authority_for authority ->
  exists e' r, sign_with_authority e authority = Some (e', r)
    /\ match r with
       | Ok _ => endpoint_ok e' /\ is_some (signature e') = true
           /\ with_signature None e' = with_signature None (set_signed e true)
           /\ exists enc, put_endpoint_addr [] e' = Some enc
                /\ be_endpoint_addr enc = Ok ([], wire_endpoint e')
                /\ verify_signature (wire_endpoint e') (authority_public_key authority) = Some (Ok true)
       | Err EndpointNoSupportedScheme => authority_certificates authority = []
           \/ canonical_scheme_for_spki (authority_public_key authority) = None
       | Err (Sign source) => exists s data,
           canonical_scheme_for_spki (authority_public_key authority) = Some s
           /\ signed_data (set_signed e true) = Some data
           /\ authority_sign authority (scheme_into_u16 s) data = Err source
       end.
Proof.
  intros (Hf & Hb & _) Hauth.
  destruct (sign_with_authority_cases e authority Hauth Hf Hb) as (e' & r & Hs & Hr).
  exists e', r. split; [done|]. destruct r as [u|err]; [|by apply (sign_errors e authority e')].
  destruct Hr as (Hok & Hsig & Hrest & Hv). split_and!; [done..|].
  exists (endpoint_bytes e'). split; [by apply (put_endpoint_addr_bytes []), Hok|]. split.
  - rewrite <- (app_nil_r (endpoint_bytes e')). by apply be_endpoint_addr_bytes.
  - unfold verify_signature in *. rewrite signed_data_wire. exact Hv.
Qed.

(** An authority that signs as the model of [ring] verifies. *)
Definition sample_authority : LocalAuthority :=
  mkLocalAuthority [[1]] [1; 9; 9] (fun _ data =>
    if bool_decide (bytes_ok data /\ blen data < 100) then Ok ([9; 9] ++ data)
    else Err SigningFailed).

Lemma sample_authority_for : authority_for (K := CryptoModel.crypto) sample_authority.
Proof.
  intros s data sig oid params pk alg. cbn. case_bool_decide as Hd; [|done].
  intros [= <-] [= <- <- <-] _. destruct Hd as [Hd Hl].
  split; [|split; [blen_lia|by apply bool_decide_eq_true]].
  repeat constructor; unfold byte_ok; try lia. exact Hd.
Qed.

Lemma sample_signs :
  match sign_with_authority (B := NomModel.buf_mut) (K := CryptoModel.crypto)
          (direct_v4 (C := CertModel.certificates) (mkSocketAddrV4 0x7F000001 4433)) sample_authority with
  | Some (_, Ok _) => true
  | _ => false
  end = true.
Proof. vm_compute. reflexivity. Qed.

Example signed_endpoint_verifies_witness :
  let e := direct_v4 (C := CertModel.certificates) (mkSocketAddrV4 0x7F000001 4433) in
  exists e' enc,
    sign_with_authority (B := NomModel.buf_mut) (K := CryptoModel.crypto) e sample_authority
      = Some (e', Ok tt)
    /\ put_endpoint_addr (B := NomModel.buf_mut) [] e' = Some enc
    /\ be_endpoint_addr (C := CertModel.certificates) (N := NomModel.nom) enc = Ok ([], wire_endpoint e')
    /\ verify_signature (B := NomModel.buf_mut) (K := CryptoModel.crypto) (wire_endpoint e') [1; 9; 9]
       = Some (Ok true).
Proof.
  intros e.
  destruct (signed_endpoint_verifies (H := CertModel.certificates_spec) (H0 := NomModel.nom_spec)
    (H1 := NomModel.buf_mut_spec) (H2 := CryptoModel.crypto_spec) e sample_authority
    ltac:(decide_now) sample_authority_for) as (e' & r & Hs & Hr).
  pose proof sample_signs as Hb. fold e in Hb. rewrite Hs in Hb. destruct r as [[]|]; [|discriminate].
  destruct Hr as (_ & _ & _ & enc & H1 & H2 & H3). exists e', enc. split_and!; assumption.
Defined.

(** C32: a signature binds every field the wire carries: two endpoints with the same
    signed data have the same sequence, load and addresses, and the same flags
    up to SIGNED. *)
Theorem signed_data_binds `{CertificatesSpec} `{NomSpec} `{BufMutSpec} (e e' : EndpointAddr) :
  endpoint_ok e -> endpoint_ok e' -> signed_data e = signed_data e' ->
  Z.lor (flags e) FLAG_SIGNED = Z.lor (flags e') FLAG_SIGNED
  /\ sequence e = sequence e' /\ load e = load e'
  /\ strip_scope (primary e) = strip_scope (primary e')
  /\ option_map strip_scope (agent e) = option_map strip_scope (agent e').
Proof.
  intros (Hf & Hb & _) (Hf' & Hb' & _). rewrite !signed_data_bytes. intros E%(inj Some).
  set (sig := mkEndpointSignature 0 []). assert (signature_ok sig) as Hsig by decide_now.
  pose proof (be_endpoint_addr_bytes _ [] (signed_ok e sig Hsig Hf Hb) ltac:(done)) as P.
  pose proof (be_endpoint_addr_bytes _ [] (signed_ok e' sig Hsig Hf' Hb') ltac:(done)) as P'.
  assert (forall x, fields_ok x -> base_flags_ok x ->
    endpoint_bytes (with_signature (Some sig) (set_signed x true))
    = base_bytes (with_signature None (set_signed x true)) ++ sig_bytes sig) as Hshape.
  { intros x Hx Hbx. destruct (signed_ok x sig Hsig Hx Hbx) as ((Hbyte & _) & _ & Hsg).
    unfold endpoint_bytes, is_signed. rewrite flag_test, Hsg by (done || set_solver). done. }
  rewrite Hshape, E, <- Hshape, P' in P by done. injection P as ? ? ? ? ?. done.
Qed.

Example signed_data_binds_witness :
  endpoint_ok sample_endpoint
  /\ load (with_signature None sample_endpoint) = load sample_endpoint.
Proof.
  assert (endpoint_ok sample_endpoint) as Hok by decide_now. split; [exact Hok|].
  apply (signed_data_binds (H := CertModel.certificates_spec) (H0 := NomModel.nom_spec)
    (H1 := NomModel.buf_mut_spec) sample_endpoint sample_endpoint Hok Hok eq_refl).
Defined.

(** C39: a failed signature makes the endpoint unreadable.  [sign_with_authority]
    sets SIGNED before it can fail and [sign_endponit_address] drops the error,
    so the endpoint it returns is then encoded with the flag and without the
    signature, and both parsers report that bytes are missing. *)
Theorem failed_signature_unreadable `{CertificatesSpec} `{NomSpec} `{BufMutSpec} `{CryptoSpec}
    (server_id : Z) (d : Dquic.EndpointAddr) (e ep : EndpointAddr) (authority : LocalAuthority)
    (err : SignEndpointError) :
  endpoint_try_from_dquic d = Ok e -> endpoint_ok e ->
  sign_with_authority (set_sequence (set_main e (server_id =? 0)) (seq_from_u8 server_id)) authority
    = Some (ep, Err err) ->
  exists enc, sign_endponit_address server_id (Some authority) d = Some (Some ep)
    /\ put_endpoint_addr [] ep = Some enc
    /\ be_endpoint_addr enc = Err (Incomplete (needed_new 2))
    /\ be_endpoint_addr_compat enc (blen enc) = Err (Incomplete (needed_new 2)).
Proof.
  intros Hd He Hsign. unfold sign_endponit_address. rewrite Hd, Hsign.
  apply sign_failure in Hsign as ->.
  set (e1 := set_sequence (set_main e (server_id =? 0)) (seq_from_u8 server_id)) in *.
  assert (endpoint_ok e1) as He1 by (by apply set_sequence_ok, set_main_ok).
  assert (load e1 = None /\ signature e1 = None) as [Hl Hs].
  { subst e1. unfold set_sequence. destruct d as [[?|?]|[?|?] [?|?]]; try done; injection Hd as <-;
      by destruct (0 <? _). }
  destruct (flagged_ok e1 He1) as (Hf & Hb & Hsg).
  exists (base_bytes (set_signed e1 true)). split; [reflexivity|]. split.
  - rewrite (put_endpoint_addr_bytes []) by (cbn; by rewrite Hs). unfold endpoint_bytes.
    cbn [set_signed set_flag signature]. rewrite Hs. destruct (is_signed _); by rewrite app_nil_r.
  - split; [by apply be_endpoint_addr_unsigned|by apply compat_unsigned].
Qed.

Example failed_signature_unreadable_witness :
  exists ep enc,
    sign_endponit_address (C := CertModel.certificates) (B := NomModel.buf_mut)
      (K := CryptoModel.crypto) 1 (Some (mkLocalAuthority [] [1] (fun _ _ => Err SigningFailed)))
      (Dquic.Direct (V4 (mkSocketAddrV4 0x7F000001 4433))) = Some (Some ep)
    /\ put_endpoint_addr (B := NomModel.buf_mut) [] ep = Some enc
    /\ be_endpoint_addr (C := CertModel.certificates) (N := NomModel.nom) enc
       = Err (Incomplete (Size 2))
    /\ be_endpoint_addr_compat (C := CertModel.certificates) (N := NomModel.nom) enc (blen enc)
       = Err (Incomplete (Size 2)).
Proof.
  eexists. eapply (failed_signature_unreadable (H := CertModel.certificates_spec)
    (H0 := NomModel.nom_spec) (H1 := NomModel.buf_mut_spec) (H2 := CryptoModel.crypto_spec) 1 _
    (direct_v4 (mkSocketAddrV4 0x7F000001 4433))); [reflexivity|decide_now|reflexivity].
Defined.

(** The conversion from the endpoint of the transport is defined exactly when
    the agent and the outer address are of one family, gives a well-formed
    endpoint, and is undone by the conversion back. *)
Theorem dquic_conversions `{CertificatesSpec} (d : Dquic.EndpointAddr) :
  match endpoint_try_from_dquic d with
  | Ok e => dquic_try_from_endpoint e = Ok d
      /\ (match d with
          | Dquic.Direct a => addr_ok a
          | Dquic.Mediate agent outer => addr_ok agent /\ addr_ok outer
          end -> endpoint_ok e)
  | Err _ => exists agent outer, d = Dquic.Mediate agent outer /\ is_v6 agent <> is_v6 outer
  end.
Proof.
  pose proof (endpoint_try_from_dquic_ok d) as Hok.
  destruct d as [[a|a]|[a|a] [o|o]]; cbn [endpoint_try_from_dquic] in *; eauto.
Qed.

Example dquic_conversions_witness :
  endpoint_ok (C := CertModel.certificates)
    (nat_v4 (mkSocketAddrV4 1 2) (mkSocketAddrV4 3 4)).
Proof.
  apply (dquic_conversions (H := CertModel.certificates_spec)
    (Dquic.Mediate (V4 (mkSocketAddrV4 3 4)) (V4 (mkSocketAddrV4 1 2)))). split; decide_now.
Defined.
