(* ===== verification/RustFmt.v ===== *)
(** * Text of the standard library: [Display] and [Debug] of strings, numbers and addresses

    What [{}] and [{:?}] print for the values the crate formats, and a reader of string
    literals of the language, which the [Debug] text of a string is shown to be.  Which
    characters beyond ASCII are printed as they are is a table of the standard library,
    the parameter [printable]. *)

From stdpp Require Import base list numbers option sets.
From S2P Require Import Prelude RustString Endpoint.

(** ** Numbers *)

(** [{:x}] *)
Fixpoint hex_fuel (fuel : nat) (n : Z) : bytes :=
  match fuel with
  | O => []
  | S fuel => if n <? 16 then [hex_digit n] else hex_fuel fuel (n / 16) ++ [hex_digit (n mod 16)]
  end.
Definition hex (n : Z) : bytes := hex_fuel (Z.to_nat (Z.log2 n + 1)) n.

Definition show_bool (b : bool) : bytes := if b then str "true" else str "false".

(** ** Characters *)

(** The code point of an encoded character, and [char::encode_utf8]. *)
Definition code_point (c : bytes) : Z :=
  match c with
  | [b] => b
  | [b; c1] => (b - 0xC0) * 64 + (c1 - 0x80)
  | [b; c1; c2] => (b - 0xE0) * 4096 + (c1 - 0x80) * 64 + (c2 - 0x80)
  | [b; c1; c2; c3] => (b - 0xF0) * 262144 + (c1 - 0x80) * 4096 + (c2 - 0x80) * 64 + (c3 - 0x80)
  | _ => 0
  end.

Definition encode_char (n : Z) : bytes :=
  if n <? 0x80 then [n]
  else if n <? 0x800 then [0xC0 + n / 64; 0x80 + n mod 64]
  else if n <? 0x10000 then [0xE0 + n / 4096; 0x80 + n / 64 mod 64; 0x80 + n mod 64]
  else [0xF0 + n / 262144; 0x80 + n / 4096 mod 64; 0x80 + n / 64 mod 64; 0x80 + n mod 64].

(** ** Strings *)
Definition backslash : Z := 92.
Definition double_quote : Z := 34.

Section Debug.
Context (printable : Z -> bool).

Definition unicode_escape (n : Z) : bytes := [backslash] ++ str "u{" ++ hex n ++ str "}".

(** A character inside the [Debug] text of a string. *)
Definition escape_debug (c : bytes) : bytes :=
  let n := code_point c in
  if n =? 0 then backslash :: str "0"
  else if n =? 9 then backslash :: str "t"
  else if n =? 13 then backslash :: str "r"
  else if n =? 10 then backslash :: str "n"
  else if (n =? backslash) || (n =? double_quote) then [backslash; n]
  else if n <? 0x80 then if in_range 0x20 0x7E n then c else unicode_escape n
  else if printable n then c else unicode_escape n.

Fixpoint escape_chars (fuel : nat) (l : bytes) : bytes :=
  match fuel, l with
  | S fuel, _ :: _ =>
      let n := (utf8_step l).2 in escape_debug (take n l) ++ escape_chars fuel (drop n l)
  | _, _ => []
  end.

(** [{:?}] of a string. *)
Definition debug_str (l : bytes) : bytes := [double_quote] ++ escape_chars (length l) l ++ [double_quote].
End Debug.

(** ** String literals *)
Definition hex_value (b : Z) : option Z :=
  if is_ascii_digit b then Some (b - 48)
  else if in_range 97 102 b then Some (b - 87)
  else None.

Fixpoint parse_hex (acc : Z) (l : bytes) : option Z :=
  match l with
  | [] => Some acc
  | b :: l => d ← hex_value b; parse_hex (acc * 16 + d) l
  end.

(** The character of an escape of one letter. *)
Definition simple_escape (e : Z) : option Z :=
  if e =? 48 then Some 0 else if e =? 116 then Some 9 else if e =? 114 then Some 13
  else if e =? 110 then Some 10 else if (e =? backslash) || (e =? double_quote) then Some e else None.

(** The value of a literal whose opening quote was read, and what follows it. *)
Fixpoint read_chars (fuel : nat) (l : bytes) : option (bytes * bytes) :=
  match fuel, l with
  | S fuel, c :: l =>
      if c =? double_quote then Some ([], l)
      else if c =? backslash then
        match l with
        | [] => None
        | e :: l =>
            '(x, l) ←
              if e =? 117 then
                l ← strip_prefix (str "{") l; '(digits, l) ← split_once 125 l;
                n ← parse_hex 0 digits; Some (encode_char n, l)
              else x ← simple_escape e; Some ([x], l);
            '(v, rest) ← read_chars fuel l; Some (x ++ v, rest)
        end
      else '(v, rest) ← read_chars fuel l; Some (c :: v, rest)
  | _, _ => None
  end.

Definition read_literal (l : bytes) : option (bytes * bytes) :=
  l ← strip_prefix [double_quote] l; read_chars (length l) l.

(** ** Addresses *)
Definition show_ipv4 (ip : Z) : bytes := join [dot] (map decimal (to_be 4 ip)).

Fixpoint segments (n : nat) (ip : Z) : list Z :=
  match n with
  | O => []
  | S k => as_u 16 (Z.shiftr ip (16 * Z.of_nat k)) :: segments k ip
  end.

(** The longest run of zeros, the first of them: its start and its length. *)
Fixpoint zero_runs (index : nat) (current longest : nat * nat) (l : list Z) : nat * nat :=
  match l with
  | [] => longest
  | s :: l =>
      if s =? 0 then
        let current := if (snd current =? 0)%nat then (index, 1%nat) else (fst current, S (snd current)) in
        zero_runs (S index) current (if (snd longest <? snd current)%nat then current else longest) l
      else zero_runs (S index) (0, 0)%nat longest l
  end.

Definition show_segments (l : list Z) : bytes := join [colon] (map hex l).

Definition show_ipv6 (ip : Z) : bytes :=
  let l := segments 8 ip in
  if Z.shiftr ip 32 =? 0xFFFF then str "::ffff:" ++ show_ipv4 (as_u 32 ip)
  else
    let '(start, len) := zero_runs 0 (0, 0)%nat (0, 0)%nat l in
    if (1 <? len)%nat
    then show_segments (take start l) ++ str "::" ++ show_segments (drop (start + len) l)
    else show_segments l.

Definition show_socket (a : SocketAddr) : bytes :=
  match a with
  | V4 a => show_ipv4 (v4_ip a) ++ str ":" ++ decimal (v4_port a)
  | V6 a =>
      str "[" ++ show_ipv6 (v6_ip a)
      ++ (if v6_scope_id a =? 0 then [] else str "%" ++ decimal (v6_scope_id a))
      ++ str "]:" ++ decimal (v6_port a)
  end.

Example show_addresses :
  map show_socket
    [V4 (mkSocketAddrV4 0xC0000201 443); V6 (mkSocketAddrV6 0x20010db8000000000000000000000001 53 0 0);
     V6 (mkSocketAddrV6 0xfe80000000000000000000000000fb 5353 0 2);
     V6 (mkSocketAddrV6 0xffffc0000201 1 0 0); V6 (mkSocketAddrV6 1 80 0 0); V6 (mkSocketAddrV6 0 80 0 0)]
  = [str "192.0.2.1:443"; str "[2001:db8::1]:53"; str "[fe:8000::fb%2]:5353";
     str "[::ffff:192.0.2.1]:1"; str "[::1]:80"; str "[::]:80"].
Proof. vm_compute. reflexivity. Qed.

(** ** Facts *)
Lemma hex_value_digit d : 0 <= d < 16 -> hex_value (hex_digit d) = Some d.
Proof.
  intros Hd. unfold hex_value, hex_digit, is_ascii_digit, in_range.
  destruct (Z.ltb_spec d 10).
  - rewrite !(proj2 (Z.leb_le _ _)) by lia. cbn. f_equal. lia.
  - rewrite (proj2 (Z.leb_gt (87 + d) 57)), andb_false_r by lia.
    rewrite !(proj2 (Z.leb_le _ _)) by lia. cbn. f_equal. lia.
Qed.

Lemma parse_hex_app l k acc : parse_hex acc (l ++ k) = parse_hex acc l ≫= fun a => parse_hex a k.
Proof.
  revert acc. induction l as [|b l IH]; intros acc; cbn; [done|].
  destruct (hex_value b); cbn; [apply IH|done].
Qed.

Lemma parse_hex_fuel fuel : forall n, 0 <= n < 2 ^ Z.of_nat fuel -> parse_hex 0 (hex_fuel fuel n) = Some n.
Proof.
  induction fuel as [|fuel IH]; intros n Hn; cbn [hex_fuel].
  { change (2 ^ Z.of_nat 0) with 1 in Hn. cbn. f_equal. lia. }
  destruct (Z.ltb_spec n 16).
  { cbn [parse_hex]. by rewrite hex_value_digit by lia. }
  replace (Z.of_nat (S fuel)) with (1 + Z.of_nat fuel) in Hn by lia.
  rewrite Z.pow_add_r in Hn by lia. pose proof (Z.div_mod n 16 ltac:(lia)).
  pose proof (Z.mod_pos_bound n 16 ltac:(lia)).
  rewrite parse_hex_app, IH by lia. cbn [mbind option_bind parse_hex].
  rewrite hex_value_digit by lia. cbn. f_equal. lia.
Qed.

Lemma parse_hex_hex n : 0 <= n -> parse_hex 0 (hex n) = Some n.
Proof.
  intros Hn. unfold hex. pose proof (Z.log2_nonneg n). apply parse_hex_fuel. split; [done|].
  rewrite Z2Nat.id by lia. destruct (Z.eq_dec n 0) as [->|]; [by cbn|]. apply Z.log2_spec. lia.
Qed.

Lemma hex_no_brace n : 0 <= n -> 125 ∉ hex n.
Proof.
  unfold hex. generalize (Z.to_nat (Z.log2 n + 1)) as fuel. intros fuel. revert n.
  assert (forall d, 0 <= d < 16 -> 125 <> hex_digit d) as Hd
    by (intros d Hd; unfold hex_digit; case_match; lia).
  induction fuel as [|fuel IH]; intros n Hn; cbn [hex_fuel]; [set_solver|].
  destruct (Z.ltb_spec n 16); [rewrite list_elem_of_singleton; apply Hd; lia|].
  rewrite elem_of_app, list_elem_of_singleton. intros [Hin|Heq].
  - by apply IH in Hin; [|apply Z.div_pos; lia].
  - by apply Hd in Heq; [|apply Z.mod_pos_bound].
Qed.

Lemma split_once_app sep p l : sep ∉ p -> split_once sep (p ++ sep :: l) = Some (p, l).
Proof.
  induction p as [|b p IH]; cbn; [by rewrite Z.eqb_refl|]. intros Hp.
  destruct (Z.eqb_spec b sep) as [->|]; [set_solver|]. rewrite IH; [done|set_solver].
Qed.

(** Encoding a character's code point gives back its bytes. *)
Definition cont (c : Z) : Prop := 0x80 <= c <= 0xBF.

Lemma leading_conts_all n c :
  leading_conts n c = n -> length c = n -> Forall cont c.
Proof.
  revert c. induction n as [|n IH]; intros [|b c]; cbn; try done.
  destruct (in_range 128 191 b) eqn:E; [|done]. intros [= Hc] [= Hl].
  unfold in_range in E. apply andb_prop in E as [?%Z.leb_le ?%Z.leb_le].
  constructor; [unfold cont; lia|by apply IH].
Qed.

(** The bounds of the second byte are those of the code points its length encodes. *)
Lemma utf8_second_bounds b lo hi k :
  utf8_second b = Some (lo, hi, k) ->
  0x80 <= lo /\ hi <= 0xBF
  /\ match k with
     | 0%nat => 0xC2 <= b <= 0xDF
     | 1%nat => 0xE0 <= b <= 0xEF /\ 0x800 <= (b - 0xE0) * 4096 + (lo - 0x80) * 64
     | 2%nat => 0xF0 <= b <= 0xF4 /\ 0x10000 <= (b - 0xF0) * 262144 + (lo - 0x80) * 4096
     | _ => False
     end.
Proof.
  unfold utf8_second, in_range. intros H.
  repeat match type of H with
  | (if ?t then _ else _) = _ =>
      let E := fresh in destruct t eqn:E;
        [first [apply andb_prop in E as [?%Z.leb_le ?%Z.leb_le]|apply Z.eqb_eq in E];
         injection H as [= <- <- <-]; lia|clear E]
  end.
  done.
Qed.

Lemma utf8_char_bytes c :
  utf8_char c -> bytes_ok c ->
  match c with
  | [b] => 0 <= b < 0x80
  | [b; c1] => 0xC2 <= b <= 0xDF /\ cont c1
  | [b; c1; c2] => 0xE0 <= b <= 0xEF /\ cont c1 /\ cont c2 /\ 0x800 <= (b - 0xE0) * 4096 + (c1 - 0x80) * 64
  | [b; c1; c2; c3] =>
      0xF0 <= b <= 0xF4 /\ cont c1 /\ cont c2 /\ cont c3 /\ 0x10000 <= (b - 0xF0) * 262144 + (c1 - 0x80) * 4096
  | _ => False
  end.
Proof.
  unfold utf8_char. destruct c as [|b c]; [done|]. cbn [utf8_step]. intros Hc Hb.
  apply Forall_cons in Hb as [Hb _]. unfold byte_ok in Hb. revert Hc.
  destruct (Z.ltb_spec b 0x80).
  { intros [= ?%eq_sym%nil_length_inv]. subst c. lia. }
  destruct (utf8_second b) as [[[lo hi] k]|] eqn:Hs; [|done].
  destruct c as [|c1 c]; [done|]. destruct (in_range lo hi c1) eqn:H1; [|done].
  intros [= Hk Hl]. apply Nat.eqb_eq in Hk. rewrite Hk in Hl. pose proof (leading_conts_all _ _ Hk (eq_sym Hl)) as Hall.
  unfold in_range in H1. apply andb_prop in H1 as [?%Z.leb_le ?%Z.leb_le].
  apply utf8_second_bounds in Hs as (? & ? & Hs).
  destruct k as [|[|[|k]]], c as [|c2 [|c3 [|c4 c]]]; try done;
    rewrite ?Forall_cons in Hall; unfold cont in *; lia.
Qed.

Lemma encode_code_point c :
  utf8_char c -> bytes_ok c -> encode_char (code_point c) = c /\ 0 <= code_point c.
Proof.
  intros Hc Hb. pose proof (utf8_char_bytes c Hc Hb) as H. unfold cont in *.
  destruct c as [|b [|c1 [|c2 [|c3 [|]]]]]; try done; cbn [code_point]; unfold encode_char.
  all: (split; [|lia]); repeat match goal with |- context [?a <? ?b] => destruct (Z.ltb_spec a b); try lia end.
  all: repeat (apply (f_equal2 cons); [Z.to_euclidean_division_equations; lia|]); done.
Qed.

(** ** The [Debug] text of a string is a literal of it *)
Lemma read_plain p l fuel :
  double_quote ∉ p -> backslash ∉ p -> (length (p ++ l) <= fuel)%nat ->
  exists fuel', (length l <= fuel')%nat
    /\ read_chars fuel (p ++ l) = '(v, rest) ← read_chars fuel' l; Some (p ++ v, rest).
Proof.
  revert fuel. induction p as [|b p IH]; intros fuel Hq Hb Hf.
  { exists fuel. split; [done|]. cbn [app]. destruct (read_chars fuel l) as [[]|]; done. }
  destruct fuel as [|fuel]; [cbn in Hf; lia|].
  destruct (IH fuel ltac:(set_solver) ltac:(set_solver) ltac:(cbn in Hf; lia)) as (f' & Hf' & E).
  exists f'. split; [done|]. cbn [app read_chars]. rewrite E.
  destruct (Z.eqb_spec b double_quote); [set_solver|].
  destruct (Z.eqb_spec b backslash); [set_solver|].
  destruct (read_chars f' l) as [[]|]; done.
Qed.

(** An escape is read in one step. *)
Lemma read_simple e x l fuel :
  e <> 117 -> simple_escape e = Some x -> (length (backslash :: e :: l) <= fuel)%nat ->
  exists fuel', (length l <= fuel')%nat
    /\ read_chars fuel (backslash :: e :: l) = '(v, rest) ← read_chars fuel' l; Some (x :: v, rest).
Proof.
  intros He Hx Hf. destruct fuel as [|fuel]; [cbn in Hf; lia|]. exists fuel.
  split; [cbn in Hf; lia|]. cbn [read_chars].
  replace (backslash =? double_quote) with false by done. rewrite Z.eqb_refl.
  destruct (Z.eqb_spec e 117); [done|]. by rewrite Hx.
Qed.

Lemma read_unicode n l fuel :
  0 <= n -> (length (unicode_escape n ++ l) <= fuel)%nat ->
  exists fuel', (length l <= fuel')%nat
    /\ read_chars fuel (unicode_escape n ++ l)
       = '(v, rest) ← read_chars fuel' l; Some (encode_char n ++ v, rest).
Proof.
  intros Hn Hf. unfold unicode_escape in *. destruct fuel as [|fuel]; [cbn in Hf; lia|].
  exists fuel. rewrite !length_app in Hf. split; [cbn in Hf; lia|].
  change (str "u{") with [117; 123]. change (str "}") with [125].
  rewrite <- !app_assoc. cbn [app read_chars].
  replace (backslash =? double_quote) with false by done. rewrite Z.eqb_refl.
  change (117 =? 117) with true. change (str "{") with [123].
  change (123 :: hex n ++ 125 :: l) with ([123] ++ hex n ++ 125 :: l).
  rewrite strip_prefix_app. cbn [mbind option_bind].
  rewrite (split_once_app 125 (hex n) l) by by apply hex_no_brace.
  cbn [mbind option_bind]. by rewrite parse_hex_hex.
Qed.

Section Literal.
Context (printable : Z -> bool).

Lemma read_escaped c l fuel :
  utf8_char c -> bytes_ok c -> (length (escape_debug printable c ++ l) <= fuel)%nat ->
  exists fuel', (length l <= fuel')%nat
    /\ read_chars fuel (escape_debug printable c ++ l)
       = '(v, rest) ← read_chars fuel' l; Some (c ++ v, rest).
Proof.
  intros Hc Hok. destruct (encode_code_point c Hc Hok) as [He Hpos]. unfold escape_debug.
  assert (forall x, 0 <= x < 0x80 -> code_point c = x -> c = [x]) as Hone.
  { intros x Hx Hcx. rewrite <- He, Hcx. unfold encode_char. by rewrite (proj2 (Z.ltb_lt _ _)) by lia. }
  destruct (Z.eqb_spec (code_point c) 0); [rewrite (Hone 0) by done; by apply read_simple|].
  destruct (Z.eqb_spec (code_point c) 9); [rewrite (Hone 9) by done; by apply read_simple|].
  destruct (Z.eqb_spec (code_point c) 13); [rewrite (Hone 13) by done; by apply read_simple|].
  destruct (Z.eqb_spec (code_point c) 10); [rewrite (Hone 10) by done; by apply read_simple|].
  destruct (Z.eqb_spec (code_point c) backslash);
    [rewrite (Hone backslash) by done; by apply (read_simple backslash)|].
  destruct (Z.eqb_spec (code_point c) double_quote);
    [rewrite (Hone double_quote) by done; by apply (read_simple double_quote)|]. cbn [orb].
  assert (double_quote ∉ c /\ backslash ∉ c) as [Hq Hb].
  { destruct (utf8_char_shape c Hc) as [(b & -> & _)|Hh]; [cbn in *; set_solver|].
    rewrite Forall_forall in Hh.
    split; intros ?%Hh; unfold double_quote, backslash in *; lia. }
  intros Hf. revert Hf. repeat case_match; intros Hf;
    first [by apply read_plain|idtac].
  all: destruct (read_unicode (code_point c) l fuel Hpos Hf) as (f' & Hf' & E);
    rewrite He in E; by exists f'.
Qed.

(** Reading the [Debug] text of a string gives back the string. *)
Lemma debug_str_reads l rest :
  utf8 l -> bytes_ok l -> read_literal (debug_str printable l ++ rest) = Some (l, rest).
Proof.
  intros Hu Hok. unfold read_literal, debug_str. rewrite <- !app_assoc, strip_prefix_app.
  cbn [mbind option_bind].
  assert (forall n fuel, (length l <= n)%nat ->
    (length (escape_chars printable n l ++ [double_quote] ++ rest) <= fuel)%nat ->
    read_chars fuel (escape_chars printable n l ++ [double_quote] ++ rest) = Some (l, rest)) as Hgen;
    [|by apply Hgen].
  induction Hu as [|c l Hc Hl IH]; intros n fuel Hn Hf.
  { destruct n; cbn [escape_chars app] in *; (destruct fuel; [cbn in Hf; lia|]); cbn; done. }
  apply bytes_ok_app in Hok as [Hc1 Hl1]. pose proof (utf8_char_nonempty c Hc).
  pose proof (utf8_step_app c l Hc) as Hs.
  destruct c as [|b c]; [done|]. destruct n as [|n]; [cbn in Hn; lia|].
  cbn [escape_chars app] in *. change (b :: c ++ l) with ((b :: c) ++ l) in *. rewrite Hs in *.
  cbn [snd] in *. rewrite take_app_length, drop_app_length, <- app_assoc in *.
  destruct (read_escaped (b :: c) _ fuel Hc Hc1 Hf) as (f' & Hf' & ->).
  rewrite IH; [done..| |done]. rewrite length_app in Hn. cbn in Hn. lia.
Qed.
End Literal.
