(* ===== verification/Records.v ===== *)
(** * Resource records: src/core/parser/record.rs, record/srv.rs, record/txt.rs,
    record/ptr.rs *)

From stdpp Require Import base list numbers.
From S2P Require Import Prelude Nom RustString DnsName Question Sigin Certificate Endpoint.

(** ** SRV, TXT and PTR data *)
Record Srv := mkSrv { priority : Z; weight : Z; port : Z; target : Name }.
Record Txt := mkTxt { txt_bytes : bytes }.
Record Ptr := mkPtr { ptr_name : Name }.

Global Instance Srv_eq_dec : EqDecision Srv.
Proof. solve_decision. Defined.
Global Instance Txt_eq_dec : EqDecision Txt.
Proof. solve_decision. Defined.
Global Instance Ptr_eq_dec : EqDecision Ptr.
Proof. solve_decision. Defined.

(** ** Classes and types *)
Module RClass.
Inductive t := IN | CS | CH | HS.

Definition try_from (value : Z) : Result t io_error :=
  let value := Z.land value 0x7FFF in
  match value with
  | 1 => Ok IN
  | 2 => Ok CS
  | 3 => Ok CH
  | 4 => Ok HS
  | _ => Err (InvalidInput value)
  end.

Definition into_u16 (value : t) : Z :=
  match value with IN => 1 | CS => 2 | CH => 3 | HS => 4 end.

Global Instance t_eq_dec : EqDecision t.
Proof. solve_decision. Defined.

Lemma rclass_from_into c : try_from (into_u16 c) = Ok c.
Proof. by destruct c. Qed.

Lemma rclass_u16_ok c : u_ok 15 (into_u16 c).
Proof. destruct c; decide_now. Qed.
End RClass.

Module RType.
Inductive t := A | Ns | AAAA | Cname | Txt | Srv | Ptr | E.

(** The codes 267 to 269 of older records are read as [E]. *)
Definition try_from (value : Z) : Result t io_error :=
  match value with
  | 1 => Ok A
  | 2 => Ok Ns
  | 28 => Ok AAAA
  | 5 => Ok Cname
  | 16 => Ok Txt
  | 33 => Ok Srv
  | 12 => Ok Ptr
  | 266 => Ok E
  | 267 | 268 | 269 => Ok E
  | _ => Err (InvalidInput value)
  end.

Definition into_u16 (value : t) : Z :=
  match value with
  | A => 1
  | Ns => 2
  | AAAA => 28
  | Cname => 5
  | Txt => 16
  | Srv => 33
  | Ptr => 12
  | E => 266
  end.

Global Instance t_eq_dec : EqDecision t.
Proof. solve_decision. Defined.

Lemma rtype_from_into c : try_from (into_u16 c) = Ok c.
Proof. by destruct c. Qed.

Lemma rtype_u16_ok c : u_ok 16 (into_u16 c).
Proof. destruct c; decide_now. Qed.
End RType.

(** ** Records *)
Module RData.
Inductive t `{C : Certificates} :=
| A (ip : Z)
| AAAA (ip : Z)
| CName (name : Name)
| Txt (txt : Txt)
| Srv (srv : Srv)
| Ptr (ptr : Ptr)
| E (endpoint : EndpointAddr).
Arguments t {C}.
Arguments A {C}.
Arguments AAAA {C}.
Arguments CName {C}.
Arguments Txt {C}.
Arguments Srv {C}.
Arguments Ptr {C}.
Arguments E {C}.

Global Instance t_eq_dec `{Certificates} : EqDecision t.
Proof. solve_decision. Defined.
End RData.

Record ResourceRecord `{C : Certificates} := mkResourceRecord {
  rr_name : Name;
  rr_typ : RType.t;
  rr_multicast_unique : bool;
  rr_cls : RClass.t;
  rr_ttl : Z;
  rr_data : RData.t;
}.
Arguments ResourceRecord {C}.
Arguments mkResourceRecord {C}.

Global Instance ResourceRecord_eq_dec `{Certificates} : EqDecision ResourceRecord.
Proof. solve_decision. Defined.

Section Wire.
Context `{C : Certificates} `{N : Nom}.

Definition be_srv (input origin : bytes) : IResult Srv :=
  let? (remain, priority) := be_u16 input in
  let? (remain, weight) := be_u16 remain in
  let? (remain, port) := be_u16 remain in
  let? (remain, target) := be_name remain origin in
  Ok (remain, mkSrv priority weight port target).

Definition be_ptr (input origin : bytes) : IResult Ptr :=
  let? (remain, name) := be_name input origin in
  Ok (remain, mkPtr name).

Definition be_rdata (input origin : bytes) (typ : RType.t) (rdlen : Z) : IResult RData.t :=
  match typ with
  | RType.A => nom_map be_u32 RData.A input
  | RType.AAAA => nom_map be_u128 RData.AAAA input
  | RType.Cname => let? (remain, name) := be_name input origin in Ok (remain, RData.CName name)
  | RType.Txt => nom_map (nom_take rdlen) (fun txt => RData.Txt (mkTxt txt)) input
  | RType.Srv => let? (remain, srv) := be_srv input origin in Ok (remain, RData.Srv srv)
  | RType.Ptr => let? (remain, ptr) := be_ptr input origin in Ok (remain, RData.Ptr ptr)
  | RType.Ns => let? (remain, name) := be_name input origin in Ok (remain, RData.CName name)
  | RType.E => let? (remain, e) := be_endpoint_addr_compat input rdlen in Ok (remain, RData.E e)
  end.

Definition be_record (input origin : bytes) : IResult ResourceRecord :=
  let? (remain, name) := be_name input origin in
  let? (remain, typ) := be_u16 remain in
  let? (remain, cls) := be_u16 remain in
  let? (remain, ttl) := be_u32 remain in
  let? (remain, rdlen) := be_u16 remain in
  match RType.try_from typ with
  | Err _ =>
      if blen remain <? rdlen then Err (Incomplete (needed_new (rdlen - blen remain)))
      else Err (Error (drop (Z.to_nat rdlen) remain) Alt)
  | Ok typ =>
      if blen remain <? rdlen then Err (Incomplete (needed_new (rdlen - blen remain)))
      else
        let? (remain_after_rdata, rdata_bytes) := nom_take rdlen remain in
        let? (rdata_remain, rdata) := be_rdata rdata_bytes origin typ rdlen in
        match rdata_remain with
        | _ :: _ => Err (Error remain_after_rdata Eof)
        | [] =>
            let remain := remain_after_rdata in
            let multicast_unique := Z.land cls 0x8000 =? 0x8000 in
            let cls := Z.land cls 0x7FFF in
            match RClass.try_from cls with
            | Err _ =>
                if blen remain <? rdlen
                then Err (Incomplete (needed_new (rdlen - blen remain)))
                else Err (Error (drop (Z.to_nat rdlen) remain) Alt)
            | Ok cls =>
                Ok (remain, mkResourceRecord name typ multicast_unique cls ttl rdata)
            end
        end
  end.
End Wire.

(** ** What the parser establishes *)
Section Invariant.
Context `{C : Certificates}.

(** The type of a record announces its data. *)
Definition typ_matches (typ : RType.t) (d : RData.t) : bool :=
  match typ, d with
  | RType.A, RData.A _ | RType.AAAA, RData.AAAA _ | RType.Cname, RData.CName _
  | RType.Ns, RData.CName _ | RType.Txt, RData.Txt _ | RType.Srv, RData.Srv _
  | RType.Ptr, RData.Ptr _ | RType.E, RData.E _ => true
  | _, _ => false
  end.

Definition srv_ok (s : Srv) : Prop :=
  u_ok 16 (priority s) /\ u_ok 16 (weight s) /\ u_ok 16 (port s) /\ utf8 (target s).

Definition rdata_ok (d : RData.t) : Prop :=
  match d with
  | RData.A ip => u_ok 32 ip
  | RData.AAAA ip => u_ok 128 ip
  | RData.CName name => utf8 name
  | RData.Txt txt => bytes_ok (txt_bytes txt)
  | RData.Srv srv => srv_ok srv
  | RData.Ptr ptr => utf8 (ptr_name ptr)
  | RData.E e => endpoint_ok e /\ wire_endpoint e = e
  end.

Definition record_ok (r : ResourceRecord) : Prop :=
  utf8 (rr_name r) /\ u_ok 32 (rr_ttl r) /\ typ_matches (rr_typ r) (rr_data r) = true
  /\ rdata_ok (rr_data r).
End Invariant.

Section Facts.
Context `{CS : CertificatesSpec} `{NS : NomSpec}.

Lemma be_srv_yields input origin :
  bytes_ok input -> bytes_ok origin ->
  yields (be_srv input origin) input (fun l s => srv_ok s).
Proof.
  intros Hok Hor. unfold be_srv. do 3 yields_step be_u16_yields. yields_step be_name_yields.
  apply yields_ok. unfold srv_ok, reads in *. cbn. tauto.
Qed.

Lemma be_rdata_yields input origin typ rdlen :
  bytes_ok input -> bytes_ok origin -> 0 <= rdlen ->
  yields (be_rdata input origin typ rdlen) input (fun l d =>
    typ_matches typ d = true /\ rdata_ok d).
Proof.
  intros Hok Hor Hlen. destruct typ; cbn [be_rdata]; rewrite ?nom_map_spec.
  - yields_step be_u32_yields. apply yields_ok. split; [done|apply Hv].
  - yields_step be_name_yields. apply yields_ok. split; [done|apply Hv].
  - yields_step be_u128_yields. apply yields_ok. split; [done|apply Hv].
  - yields_step be_name_yields. apply yields_ok. split; [done|apply Hv].
  - eapply yields_bind; [by apply nom_take_yields|]. intros l r v -> (_ & _ & ?).
    by apply yields_ok.
  - yields_step be_srv_yields. by apply yields_ok.
  - unfold be_ptr. destruct (be_name input origin) as [[r n]|] eqn:E;
      pose proof (be_name_yields input origin Hok Hor) as Hy; rewrite E in Hy; [|done].
    destruct Hy as (l & -> & _ & ?). by exists l.
  - yields_step be_endpoint_addr_compat_yields. by apply yields_ok.
Qed.

Lemma be_record_yields input origin :
  bytes_ok input -> bytes_ok origin ->
  yields (be_record input origin) input (fun l r => 11 <= blen l /\ record_ok r).
Proof.
  intros Hok Hor. unfold be_record. yields_step be_name_yields. do 2 yields_step be_u16_yields.
  yields_step be_u32_yields. yields_step be_u16_yields.
  destruct (RType.try_from v0) as [typ|].
  2:{ destruct (_ <? _); [done|]. by apply bytes_ok_drop. }
  destruct (_ <? _); [done|]. destruct Hv3 as (Hlen3 & _ & Hr3).
  eapply yields_bind; [apply nom_take_yields; [apply Hr3|done]|].
  intros l' r' rb -> (-> & Hrb & Hrbok). apply bytes_ok_app in Hok as [_ Hok].
  pose proof (be_rdata_yields rb origin typ v3 Hrbok Hor ltac:(apply Hr3)) as Hy.
  destruct (be_rdata rb origin typ v3) as [[[|b rr] d]|e]; [| |exact Hy]; [|done].
  destruct Hy as (_ & _ & Htyp & Hd).
  destruct (RClass.try_from _) as [cls|].
  2:{ destruct (_ <? _); [done|]. by apply bytes_ok_drop. }
  apply yields_ok. destruct Hv as [Hne Hu], Hv0 as [Hn0 _], Hv1 as [Hn1 _], Hv2 as (Hn2 & _ & Httl).
  split; [|done]. unfold blen. rewrite !length_app, Hn0, Hn1, Hn2, Hlen3.
  destruct l; [done|]. cbn [length]. lia.
Qed.
End Facts.

(** C37: a record of unknown class desynchronises its section.  [be_record] skips the
    RDATA a second time: after an address record whose class is unknown, parsing
    resumes four bytes into the next record, or stops when fewer than four
    bytes are left. *)
Theorem unknown_class_skips_twice `{CertificatesSpec} `{NomSpec}
    (input origin name rest : bytes) (cls ttl ip : Z) :
  u_ok 16 cls -> u_ok 32 ttl -> u_ok 32 ip ->
  (exists v, RClass.try_from (Z.land cls 0x7FFF) = Err (InvalidInput v)) ->
  be_name input origin = Ok (to_be 2 1 ++ to_be 2 cls ++ to_be 4 ttl ++ to_be 2 4
                               ++ to_be 4 ip ++ rest, name) ->
  be_record input origin =
  if blen rest <? 4 then Err (Incomplete (needed_new (4 - blen rest)))
  else Err (Error (drop 4 rest) Alt).
Proof.
  intros Hc Ht Hip [v Hv] Hn. unfold be_record. rewrite Hn.
  rewrite be_u16_app by decide_now. rewrite be_u16_app, be_u32_app by done.
  rewrite be_u16_app by decide_now. cbn [RType.try_from].
  rewrite (proj2 (Z.ltb_ge _ _)) by (autorewrite with blen; pose proof (blen_nonneg rest); lia).
  change 4 with (blen (to_be 4 ip)) at 1. rewrite nom_take_app. cbn [be_rdata].
  rewrite nom_map_spec. rewrite <- (app_nil_r (to_be 4 ip)) at 1.
  rewrite be_u32_app, Hv by done. done.
Qed.

Example unknown_class_skips_twice_witness :
  be_record (C := CertModel.certificates) (N := NomModel.nom)
    [0; 0; 1; 0; 9; 0; 0; 0; 60; 0; 4; 127; 0; 0; 1; 0; 0; 1; 0; 1]
    [0; 0; 1; 0; 9; 0; 0; 0; 60; 0; 4; 127; 0; 0; 1; 0; 0; 1; 0; 1]
  = Err (Error [1] Alt).
Proof.
  apply (unknown_class_skips_twice (H := CertModel.certificates_spec) (H0 := NomModel.nom_spec)
    _ _ [dot] [0; 0; 1; 0; 1] 9 60 0x7F000001); [decide_now..| |reflexivity].
  exists 9. reflexivity.
Defined.
