(* ===== verification/Packet.v ===== *)
(** * DNS messages: src/core/parser/packet.rs

    The builders, the encoder [to_bytes] with name compression and back-patched
    RDATA lengths, and the parser [be_packet] with its bounded sections.  The
    main results are that [be_packet] is total and that it inverts [to_bytes]. *)

From stdpp Require Import base list numbers option.
From S2P Require Import Prelude Nom RustString DnsName DnsHeader Question Sigin Certificate Endpoint Records.

Section Packet.
Context `{C : Certificates}.

Record Packet := mkPacket {
  header : Header;
  questions : list Question;
  answers : list ResourceRecord;
  nameservers : list ResourceRecord;
  additional : list ResourceRecord;
}.

Definition Packet_default : Packet := mkPacket Header_default [] [] [] [].

Definition packet_id (self : Packet) : Z := id (header self).

Definition with_header (h : Header) (self : Packet) : Packet :=
  mkPacket h (questions self) (answers self) (nameservers self) (additional self).

(** [packet.header.id = id] and [self.header.flags = flags]. *)
Definition set_id (i : Z) (self : Packet) : Packet :=
  let h := header self in
  with_header (mkHeader i (DnsHeader.flags h) (questions_count h) (answers_count h)
                 (nameservers_count h) (additional_count h)) self.
Definition set_flags (f : Flags) (self : Packet) : Packet :=
  let h := header self in
  with_header (mkHeader (id h) f (questions_count h) (answers_count h)
                 (nameservers_count h) (additional_count h)) self.

(** [self.header.questions_count += 1] and [self.header.answers_count += 1] on
    [u16], with the wrap-around of a release build. *)
Definition incr_questions (self : Packet) : Packet :=
  let h := header self in
  with_header (mkHeader (id h) (DnsHeader.flags h) (as_u 16 (questions_count h + 1))
                 (answers_count h) (nameservers_count h) (additional_count h)) self.
Definition incr_answers (self : Packet) : Packet :=
  let h := header self in
  with_header (mkHeader (id h) (DnsHeader.flags h) (questions_count h)
                 (as_u 16 (answers_count h + 1)) (nameservers_count h) (additional_count h)) self.

Definition add_question (self : Packet) (qname : bytes) (qtype : QueryType.t)
    (qclass : QueryClass.t) (prefer_unicast : bool) : Packet :=
  let question := mkQuestion qname prefer_unicast qtype qclass in
  let self := incr_questions self in
  mkPacket (header self) (questions self ++ [question]) (answers self) (nameservers self)
    (additional self).

Section Builders.
Context `{F : Bitfield}.

Definition is_query (self : Packet) : bool := query (DnsHeader.flags (header self)).

Definition add_answer (self : Packet) (name : bytes) (rtype : RType.t) (rclass : RClass.t)
    (ttl : Z) (data : RData.t) : Packet :=
  let response := mkResourceRecord name rtype false rclass ttl data in
  let self := set_flags (set_query (DnsHeader.flags (header self)) true) self in
  let self := incr_answers self in
  mkPacket (header self) (questions self) (answers self ++ [response]) (nameservers self)
    (additional self).

(** [rand_id] is the value of [rand::random()]. *)
Definition query_with_id (rand_id : Z) (service_name : bytes) : Packet :=
  let packet := Packet_default in
  let packet := set_id rand_id packet in
  let packet := set_flags (set_query (DnsHeader.flags (header packet)) false) packet in
  add_question packet service_name QueryType.A QueryClass.IN false.

Definition query (service_name : bytes) : Packet :=
  add_question Packet_default service_name QueryType.A QueryClass.IN true.

(** The hosts are a [HashMap]: a list of distinct names with their endpoints, in
    the order of the iteration. *)
Definition answer (i : Z) (hosts : list (bytes * list EndpointAddr)) : Packet :=
  let packet := Packet_default in
  let packet := set_id i packet in
  let packet := set_flags (set_query (DnsHeader.flags (header packet)) true) packet in
  fold_left (fun packet '(name, eps) =>
    fold_left (fun packet ep => add_answer packet name RType.E RClass.IN 300 (RData.E ep))
      eps packet) hosts packet.
End Builders.
End Packet.
Arguments Packet {C}.

(** ** Encoding *)

(** [v[i] = x]: an index out of range panics. *)
Definition vec_set (v : bytes) (i x : Z) : may_panic bytes :=
  if (0 <=? i) && (i <? blen v) then Some (<[Z.to_nat i := x]> v) else None.

Section Write.
Context `{C : Certificates} `{B : BufMut}.

(** The body of the loop over the questions. *)
Definition put_question (buf : bytes) (question : Question) (ctx : NameCompression)
  : bytes * NameCompression :=
  let '(buf, ctx, _) := put_name buf (q_name question) ctx in
  let buf := put_u16 buf (QueryType.into_u16 (q_qtype question)) in
  let qclass := QueryClass.into_u16 (q_qclass question) in
  let qclass := if q_prefer_unicast question then Z.lor qclass 0x8000 else qclass in
  (put_u16 buf qclass, ctx).

Definition put_srv (buf : bytes) (srv : Srv) (ctx : NameCompression)
  : bytes * NameCompression :=
  let buf := put_u16 buf (priority srv) in
  let buf := put_u16 buf (weight srv) in
  let buf := put_u16 buf (port srv) in
  let '(buf, ctx, _) := put_name buf (target srv) ctx in
  (buf, ctx).

(** The [match &record.data] of [put_record]; [ip.octets()] are the big-endian
    bytes of the address. *)
Definition put_rdata (buf : bytes) (data : RData.t) (ctx : NameCompression)
  : may_panic (bytes * NameCompression) :=
  match data with
  | RData.A ip => Some (put_slice buf (to_be 4 ip), ctx)
  | RData.AAAA ip => Some (put_slice buf (to_be 16 ip), ctx)
  | RData.CName name => let '(buf, ctx, _) := put_name buf name ctx in Some (buf, ctx)
  | RData.Txt txt => Some (put_slice buf (txt_bytes txt), ctx)
  | RData.Srv srv => Some (put_srv buf srv ctx)
  | RData.Ptr ptr => let '(buf, ctx, _) := put_name buf (ptr_name ptr) ctx in Some (buf, ctx)
  | RData.E e => buf ← put_endpoint_addr buf e; Some (buf, ctx)
  end.

Definition put_record (buf : bytes) (record : ResourceRecord) (ctx : NameCompression)
  : may_panic (bytes * NameCompression) :=
  let '(buf, ctx, _) := put_name buf (rr_name record) ctx in
  let buf := put_u16 buf (RType.into_u16 (rr_typ record)) in
  let cls := RClass.into_u16 (rr_cls record) in
  let cls := if rr_multicast_unique record then Z.lor cls 0x8000 else cls in
  let buf := put_u16 buf cls in
  let buf := put_u32 buf (rr_ttl record) in
  let rdlen_pos := blen buf in
  let buf := put_u16 buf 0 in
  let rdata_start := blen buf in
  '(buf, ctx) ← put_rdata buf (rr_data record) ctx;
  let rdlen := as_u 16 (blen buf - rdata_start) in
  match to_be 2 rdlen with
  | [hi; lo] =>
      buf ← vec_set buf rdlen_pos hi;
      buf ← vec_set buf (rdlen_pos + 1) lo;
      Some (buf, ctx)
  | _ => None
  end.

Fixpoint put_questions (buf : bytes) (qs : list Question) (ctx : NameCompression)
  : bytes * NameCompression :=
  match qs with
  | [] => (buf, ctx)
  | question :: qs => let '(buf, ctx) := put_question buf question ctx in put_questions buf qs ctx
  end.

Fixpoint put_records (buf : bytes) (rs : list ResourceRecord) (ctx : NameCompression)
  : may_panic (bytes * NameCompression) :=
  match rs with
  | [] => Some (buf, ctx)
  | record :: rs => '(buf, ctx) ← put_record buf record ctx; put_records buf rs ctx
  end.

Definition to_bytes (self : Packet) : may_panic bytes :=
  let ctx := NameCompression_new in
  let buf := put_header [] (header self) in
  let '(buf, ctx) := put_questions buf (questions self) ctx in
  '(buf, ctx) ← put_records buf (answers self) ctx;
  '(buf, ctx) ← put_records buf (nameservers self) ctx;
  '(buf, ctx) ← put_records buf (additional self) ctx;
  Some buf.
End Write.

(** ** Parsing *)
Definition MIN_QUESTION_WIRE_LEN : Z := 5.
Definition MIN_RESOURCE_RECORD_WIRE_LEN : Z := 11.

(** [usize::checked_add] and [usize::checked_mul]. *)
Definition checked_add (a b : Z) : option Z := if a + b <? 2 ^ 64 then Some (a + b) else None.
Definition checked_mul (a b : Z) : option Z := if a * b <? 2 ^ 64 then Some (a * b) else None.

Definition validate_section_counts (input : bytes) (h : Header) : IResult unit :=
  let question_bytes := checked_mul (questions_count h) MIN_QUESTION_WIRE_LEN in
  let record_count :=
    n ← checked_add (answers_count h) (nameservers_count h);
    checked_add n (additional_count h) in
  let minimum_wire_len :=
    question_bytes ← question_bytes;
    record_bytes ← (count ← record_count; checked_mul count MIN_RESOURCE_RECORD_WIRE_LEN);
    checked_add question_bytes record_bytes in
  match minimum_wire_len with
  | None => Err (Failure input Verify)
  | Some minimum_wire_len =>
      if blen input <? minimum_wire_len then Err (Failure input Verify) else Ok (input, tt)
  end.

Section Read.
Context `{C : Certificates} `{N : Nom}.

(** [for _ in 0..count]: an [Error] resumes at the position it carries, any other
    error of the item parser ends the section. *)
Fixpoint parse {T} (count : nat) (input original : bytes)
    (parser : bytes -> bytes -> IResult T) (records : list T) : IResult (list T) :=
  match count with
  | O => Ok (input, records)
  | S count =>
      match parser input original with
      | Ok (new_input, record) => parse count new_input original parser (records ++ [record])
      | Err (Error remaining _) => parse count remaining original parser records
      | Err OutOfFuel => Err OutOfFuel
      | Err _ => Ok (input, records)
      end
  end.

Definition be_packet (input : bytes) : IResult Packet :=
  let? (remain, h) := be_header input in
  let? (remain, _) := validate_section_counts remain h in
  let? (remain, questions) :=
    parse (Z.to_nat (questions_count h)) remain input be_question [] in
  let? (remain, answers) := parse (Z.to_nat (answers_count h)) remain input be_record [] in
  let? (remain, nameservers) :=
    parse (Z.to_nat (nameservers_count h)) remain input be_record [] in
  let? (remain, additional) :=
    parse (Z.to_nat (additional_count h)) remain input be_record [] in
  Ok (remain, mkPacket h questions answers nameservers additional).
End Read.

(** ** Items of a section

    [codec enc parser canon ok min]: at every position of a message whose
    compression context is correct, an item that satisfies [ok] is encoded by
    [enc] in at least [min] bytes, from which [parser] reads [canon] of it,
    and the context stays correct.  A section is a list of such items. *)
Definition codec {T} (enc : Z -> T -> NameCompression -> bytes * NameCompression)
    (parser : bytes -> bytes -> IResult T) (canon : T -> T) (ok : T -> Prop) (min : Z) : Prop :=
  forall buf x ctx e ctx', ctx_ok buf ctx -> ok x -> bytes_ok buf ->
    enc (blen buf) x ctx = (e, ctx') ->
    ctx_ok (buf ++ e) ctx' /\ bytes_ok e /\ min <= blen e
    /\ forall rest, bytes_ok rest -> parser (e ++ rest) (buf ++ e ++ rest) = Ok (rest, canon x).

Section Sections.
Context {T : Type} (enc : Z -> T -> NameCompression -> bytes * NameCompression).

Fixpoint enc_list (pos : Z) (l : list T) (ctx : NameCompression) : bytes * NameCompression :=
  match l with
  | [] => ([], ctx)
  | x :: l =>
      let '(e, ctx) := enc pos x ctx in
      let '(es, ctx) := enc_list (pos + blen e) l ctx in
      (e ++ es, ctx)
  end.

Context (parser : bytes -> bytes -> IResult T) (canon : T -> T) (ok : T -> Prop) (min : Z).
Context (Hcodec : codec enc parser canon ok min).

Lemma enc_list_sound l : forall buf ctx e ctx',
  ctx_ok buf ctx -> Forall ok l -> bytes_ok buf -> enc_list (blen buf) l ctx = (e, ctx') ->
  ctx_ok (buf ++ e) ctx' /\ bytes_ok e /\ min * blen l <= blen e
  /\ forall rest acc, bytes_ok rest ->
       parse (length l) (e ++ rest) (buf ++ e ++ rest) parser acc = Ok (rest, acc ++ map canon l).
Proof.
  induction l as [|x l IH]; intros buf ctx e ctx' Hctx Hl Hb He; cbn [enc_list] in He.
  { apply pair_equal_spec in He as [<- <-]. rewrite app_nil_r. split; [done|]. split; [constructor|].
    split; [by autorewrite with blen; lia|]. intros rest acc _. cbn. by rewrite app_nil_r. }
  apply Forall_cons_1 in Hl as [Hx Hl].
  destruct (enc (blen buf) x ctx) as [e1 ctx1] eqn:E1.
  destruct (enc_list (blen buf + blen e1) l ctx1) as [e2 ctx2] eqn:E2. apply pair_equal_spec in He as [<- <-].
  destruct (Hcodec _ _ _ _ _ Hctx Hx Hb E1) as (Hctx1 & Hb1 & Hmin & Hp).
  rewrite <- blen_app in E2.
  destruct (IH _ _ _ _ Hctx1 Hl ltac:(by apply bytes_ok_app) E2) as (Hctx2 & Hb2 & Hmin2 & Hp2).
  rewrite app_assoc. split; [done|]. split; [by apply bytes_ok_app|].
  split; [autorewrite with blen in *; lia|]. intros rest acc Hrest. cbn [length parse map].
  rewrite <- !app_assoc, Hp by (by apply bytes_ok_app).
  specialize (Hp2 rest (acc ++ [canon x]) Hrest). rewrite <- !app_assoc in Hp2. exact Hp2.
Qed.
End Sections.

(** ** Questions and records as functions of the position and the context *)
Section Encoders.
Context `{C : Certificates}.

Definition enc_question (pos : Z) (q : Question) (ctx : NameCompression)
  : bytes * NameCompression :=
  let '(n, ctx) := enc_name pos (q_name q) ctx in
  (n ++ to_be 2 (QueryType.into_u16 (q_qtype q))
     ++ to_be 2 (class_word (QueryClass.into_u16 (q_qclass q)) (q_prefer_unicast q)), ctx).

Definition enc_rdata (pos : Z) (d : RData.t) (ctx : NameCompression) : bytes * NameCompression :=
  match d with
  | RData.A ip => (to_be 4 ip, ctx)
  | RData.AAAA ip => (to_be 16 ip, ctx)
  | RData.CName name => enc_name pos name ctx
  | RData.Txt txt => (txt_bytes txt, ctx)
  | RData.Srv srv =>
      let '(n, ctx) := enc_name (pos + 6) (target srv) ctx in
      (to_be 2 (priority srv) ++ to_be 2 (weight srv) ++ to_be 2 (port srv) ++ n, ctx)
  | RData.Ptr ptr => enc_name pos (ptr_name ptr) ctx
  | RData.E e => (endpoint_bytes e, ctx)
  end.

Definition record_fixed (r : ResourceRecord) : bytes :=
  to_be 2 (RType.into_u16 (rr_typ r))
  ++ to_be 2 (class_word (RClass.into_u16 (rr_cls r)) (rr_multicast_unique r))
  ++ to_be 4 (rr_ttl r).

Definition enc_record (pos : Z) (r : ResourceRecord) (ctx : NameCompression)
  : bytes * NameCompression :=
  let '(n, ctx) := enc_name pos (rr_name r) ctx in
  let '(d, ctx) := enc_rdata (pos + blen n + 10) (rr_data r) ctx in
  (n ++ record_fixed r ++ to_be 2 (blen d) ++ d, ctx).

(** What a record has to satisfy to be read back: names whose labels fit, fields
    that fit their types, and RDATA that fits its length field. *)
Definition rdata_writable (d : RData.t) : Prop :=
  match d with
  | RData.A ip => u_ok 32 ip
  | RData.AAAA ip => u_ok 128 ip
  | RData.CName name => name_ok name /\ blen name < 0xFFF0
  | RData.Txt txt => bytes_ok (txt_bytes txt) /\ blen (txt_bytes txt) < 0x10000
  | RData.Srv srv =>
      u_ok 16 (priority srv) /\ u_ok 16 (weight srv) /\ u_ok 16 (port srv)
      /\ name_ok (target srv) /\ blen (target srv) < 0xFFF0
  | RData.Ptr ptr => name_ok (ptr_name ptr) /\ blen (ptr_name ptr) < 0xFFF0
  | RData.E e => endpoint_ok e /\ blen (endpoint_bytes e) < 0x10000
  end.

Definition record_writable (r : ResourceRecord) : Prop :=
  name_ok (rr_name r) /\ u_ok 32 (rr_ttl r) /\ typ_matches (rr_typ r) (rr_data r) = true
  /\ rdata_writable (rr_data r).

Global Instance record_writable_dec r : Decision (record_writable r).
Proof.
  unfold record_writable. destruct (rr_data r); cbn [rdata_writable]; apply _.
Defined.

Definition canonical_rdata (d : RData.t) : RData.t :=
  match d with
  | RData.CName name => RData.CName (canonical_name name)
  | RData.Srv srv =>
      RData.Srv (mkSrv (priority srv) (weight srv) (port srv) (canonical_name (target srv)))
  | RData.Ptr ptr => RData.Ptr (mkPtr (canonical_name (ptr_name ptr)))
  | RData.E e => RData.E (wire_endpoint e)
  | d => d
  end.

Definition canonical_record (r : ResourceRecord) : ResourceRecord :=
  mkResourceRecord (canonical_name (rr_name r)) (rr_typ r) (rr_multicast_unique r) (rr_cls r)
    (rr_ttl r) (canonical_rdata (rr_data r)).

Definition canonical_question (q : Question) : Question :=
  mkQuestion (canonical_name (q_name q)) (q_prefer_unicast q) (q_qtype q) (q_qclass q).
End Encoders.

Section CodecFacts.
Context `{CS : CertificatesSpec} `{NS : NomSpec}.

(** A name written in the message is read back from any input that starts there. *)
Lemma enc_name_step buf name ctx e ctx' :
  ctx_ok buf ctx -> name_ok name -> bytes_ok buf -> enc_name (blen buf) name ctx = (e, ctx') ->
  ctx_ok (buf ++ e) ctx' /\ bytes_ok e /\ 1 <= blen e <= blen name + 2
  /\ forall t rest, bytes_ok t -> bytes_ok rest ->
       be_name (e ++ t) (buf ++ e ++ rest) = Ok (t, canonical_name name).
Proof.
  intros Hctx Hn Hb He.
  assert (bytes_ok e) as Hbe by
    (change e with ((e, ctx').1); rewrite <- He; apply enc_name_bytes_ok, Hn).
  split; [by eapply enc_name_sound|]. split; [done|]. split.
  - change e with ((e, ctx').1). rewrite <- He. apply enc_name_length.
  - intros t rest Ht Hr. eapply be_name_enc; try done. by rewrite !bytes_ok_app.
Qed.

Lemma ctx_ok_snoc buf l ctx : ctx_ok buf ctx -> ctx_ok (buf ++ l) ctx.
Proof. apply ctx_ok_app. Qed.

Lemma question_codec :
  codec enc_question be_question canonical_question (fun q => name_ok (q_name q)) 5.
Proof.
  intros buf q ctx e ctx' Hctx Hq Hb He. unfold enc_question in He.
  destruct (enc_name (blen buf) (q_name q) ctx) as [n ctx1] eqn:En. apply pair_equal_spec in He as [<- <-].
  destruct (enc_name_step _ _ _ _ _ Hctx Hq Hb En) as (Hctx1 & Hn & Hlen & Hp).
  split; [rewrite app_assoc; by apply ctx_ok_snoc|].
  split; [rewrite !bytes_ok_app; auto with ddns|].
  split; [autorewrite with blen; lia|]. intros rest Hrest. unfold be_question.
  rewrite <- !app_assoc, Hp by (rewrite !bytes_ok_app; auto with ddns).
  rewrite be_u16_app by apply QueryType.type_u16_ok.
  rewrite be_u16_app by apply class_word_ok, QueryClass.class_u16_ok.
  rewrite QueryType.type_from_into, class_word_flag, class_word_cls, QueryClass.class_from_into
    by apply QueryClass.class_u16_ok. done.
Qed.
(** RDATA is parsed from exactly its own bytes. *)
Definition rdata_step (buf : bytes) (d : RData.t) (e : bytes) (typ : RType.t) : Prop :=
  bytes_ok e /\ u_ok 16 (blen e)
  /\ forall rest, bytes_ok rest ->
       be_rdata e (buf ++ e ++ rest) typ (blen e) = Ok ([], canonical_rdata d).

Lemma name_rdata_step buf name ctx e ctx' d typ :
  ctx_ok buf ctx -> name_ok name -> blen name < 0xFFF0 -> bytes_ok buf ->
  enc_name (blen buf) name ctx = (e, ctx') ->
  (forall origin, be_rdata e origin typ (blen e)
     = let? (r, n) := be_name e origin in
       Ok (r, if bool_decide (typ = RType.Ptr) then RData.Ptr (mkPtr n) else RData.CName n)) ->
  canonical_rdata d = (if bool_decide (typ = RType.Ptr) then RData.Ptr (mkPtr (canonical_name name))
                       else RData.CName (canonical_name name)) ->
  ctx_ok (buf ++ e) ctx' /\ rdata_step buf d e typ.
Proof.
  intros Hctx Hn Hlen Hb En Hbe Hd.
  destruct (enc_name_step _ _ _ _ _ Hctx Hn Hb En) as (Hctx1 & Hbn & Hl & Hp).
  split; [done|]. split; [done|]. split; [unfold u_ok; lia|]. intros rest Hr.
  rewrite Hbe, Hd. rewrite <- (app_nil_r e) at 1. by rewrite Hp by (done || constructor).
Qed.

Lemma srv_rdata_step buf srv ctx e ctx' :
  ctx_ok buf ctx -> rdata_writable (RData.Srv srv) -> bytes_ok buf ->
  enc_rdata (blen buf) (RData.Srv srv) ctx = (e, ctx') ->
  ctx_ok (buf ++ e) ctx' /\ rdata_step buf (RData.Srv srv) e RType.Srv.
Proof.
  cbn [enc_rdata rdata_writable]. intros Hctx (Hpr & Hw & Hport & Hn & Hlen) Hb He.
  destruct (enc_name (blen buf + 6) (target srv) ctx) as [n ctx1] eqn:En.
  apply pair_equal_spec in He as [<- <-].
  set (h := to_be 2 (priority srv) ++ to_be 2 (weight srv) ++ to_be 2 (port srv)).
  assert (to_be 2 (priority srv) ++ to_be 2 (weight srv) ++ to_be 2 (port srv) ++ n = h ++ n)
    as Hshape by (unfold h; by rewrite <- !app_assoc).
  assert (blen h = 6) as Hh by (unfold h; by autorewrite with blen).
  assert (bytes_ok h) as Hhb by (unfold h; rewrite !bytes_ok_app; auto with ddns).
  rewrite <- Hh, <- blen_app in En. rewrite Hshape.
  destruct (enc_name_step _ _ _ _ _ (ctx_ok_snoc _ h _ Hctx) Hn ltac:(by apply bytes_ok_app) En)
    as (Hctx1 & Hbn & Hl & Hp).
  rewrite app_assoc. split; [done|]. split; [by apply bytes_ok_app|].
  split; [unfold u_ok; rewrite blen_app; lia|]. intros rest Hr.
  cbn [be_rdata]. unfold be_srv. rewrite <- Hshape. rewrite !be_u16_app by done.
  specialize (Hp [] rest ltac:(constructor) Hr). rewrite app_nil_r in Hp.
  rewrite <- !app_assoc in Hp. unfold h in Hp. rewrite <- !app_assoc in Hp.
  rewrite <- !app_assoc, Hp. done.
Qed.

Lemma enc_rdata_step buf d ctx e ctx' typ :
  ctx_ok buf ctx -> rdata_writable d -> typ_matches typ d = true -> bytes_ok buf ->
  enc_rdata (blen buf) d ctx = (e, ctx') ->
  ctx_ok (buf ++ e) ctx' /\ rdata_step buf d e typ.
Proof.
  intros Hctx Hd Htyp Hb He. destruct d as [ip|ip|name|txt|srv|ptr|ep]; cbn in Hd.
  - destruct typ; try done. apply pair_equal_spec in He as [<- <-].
    split; [by apply ctx_ok_snoc|]. split; [apply to_be_ok|].
    split; [rewrite blen_to_be; decide_now|]. intros rest _. cbn [be_rdata].
    rewrite nom_map_spec, <- (app_nil_r (to_be 4 ip)) at 1. by rewrite be_u32_app.
  - destruct typ; try done. apply pair_equal_spec in He as [<- <-].
    split; [by apply ctx_ok_snoc|]. split; [apply to_be_ok|].
    split; [rewrite blen_to_be; decide_now|]. intros rest _. cbn [be_rdata].
    rewrite nom_map_spec, <- (app_nil_r (to_be 16 ip)) at 1. by rewrite be_u128_app.
  - destruct Hd. eapply name_rdata_step; try done; by destruct typ.
  - destruct typ; try done. apply pair_equal_spec in He as [<- <-]. destruct Hd.
    split; [by apply ctx_ok_snoc|]. split; [done|].
    split; [unfold u_ok; pose proof (blen_nonneg (txt_bytes txt)); lia|].
    intros rest _. cbn [be_rdata]. rewrite nom_map_spec.
    rewrite <- (app_nil_r (txt_bytes txt)) at 2. rewrite nom_take_app. by destruct txt.
  - destruct typ; try done. by eapply srv_rdata_step.
  - destruct Hd. eapply name_rdata_step; try done; destruct typ; try done.
    intros origin. cbn [be_rdata]. unfold be_ptr. by destruct (be_name e origin) as [[]|].
  - destruct typ; try done. apply pair_equal_spec in He as [<- <-]. destruct Hd as [Hep Hlen].
    split; [by apply ctx_ok_snoc|]. split; [apply endpoint_bytes_ok, Hep|].
    split; [unfold u_ok; pose proof (blen_nonneg (endpoint_bytes ep)); lia|].
    intros rest _. cbn [be_rdata]. by rewrite compat_modern.
Qed.

Lemma record_codec : codec enc_record be_record canonical_record record_writable 11.
Proof.
  intros buf r ctx e ctx' Hctx (Hname & Httl & Htyp & Hdata) Hb He. unfold enc_record in He.
  destruct (enc_name (blen buf) (rr_name r) ctx) as [n ctx1] eqn:En.
  destruct (enc_rdata (blen buf + blen n + 10) (rr_data r) ctx1) as [d ctx2] eqn:Ed.
  apply pair_equal_spec in He as [<- <-].
  destruct (enc_name_step _ _ _ _ _ Hctx Hname Hb En) as (Hctx1 & Hn & Hlen & Hp).
  set (pre := n ++ record_fixed r ++ to_be 2 (blen d)).
  assert (blen pre = blen n + 10) as Hpre by (unfold pre, record_fixed; autorewrite with blen; lia).
  assert (bytes_ok pre) as Hpb by
    (unfold pre, record_fixed; rewrite !bytes_ok_app; auto 10 with ddns).
  assert (n ++ record_fixed r ++ to_be 2 (blen d) ++ d = pre ++ d) as Hshape by
    (unfold pre; by rewrite <- !app_assoc).
  assert (ctx_ok (buf ++ pre) ctx1) as Hctx1' by
    (unfold pre; rewrite app_assoc; by apply ctx_ok_snoc).
  replace (blen buf + blen n + 10) with (blen (buf ++ pre)) in Ed by (rewrite blen_app; lia).
  destruct (enc_rdata_step _ _ _ _ _ _ Hctx1' Hdata Htyp ltac:(by apply bytes_ok_app) Ed)
    as (Hctx2 & Hdb & Hdl & Hdp).
  rewrite Hshape, app_assoc. split; [done|]. split; [by apply bytes_ok_app|].
  split; [rewrite blen_app, Hpre; pose proof (blen_nonneg d); lia|]. intros rest Hrest.
  specialize (Hdp rest Hrest). rewrite <- !app_assoc in Hdp.
  rewrite <- Hshape, <- !app_assoc. unfold be_record.
  rewrite Hp by (unfold record_fixed; rewrite !bytes_ok_app; auto 10 with ddns).
  unfold record_fixed at 1. rewrite <- !app_assoc.
  rewrite be_u16_app by apply RType.rtype_u16_ok.
  rewrite be_u16_app by apply class_word_ok, RClass.rclass_u16_ok.
  rewrite be_u32_app, be_u16_app, RType.rtype_from_into by done.
  rewrite (proj2 (Z.ltb_ge _ _)) by (rewrite blen_app; pose proof (blen_nonneg rest); lia).
  rewrite nom_take_app. unfold pre in Hdp. rewrite <- !app_assoc in Hdp. rewrite Hdp.
  rewrite class_word_flag, class_word_cls, RClass.rclass_from_into by apply RClass.rclass_u16_ok.
  done.
Qed.
End CodecFacts.

(** ** The writers *)
Lemma vec_set_app (l : bytes) (x y : Z) (k : bytes) :
  vec_set (l ++ x :: k) (blen l) y = Some (l ++ y :: k).
Proof.
  unfold vec_set. rewrite (proj2 (Z.leb_le _ _)) by apply blen_nonneg.
  rewrite (proj2 (Z.ltb_lt _ _)) by (autorewrite with blen; pose proof (blen_nonneg k); lia).
  cbn [andb]. unfold blen. rewrite Nat2Z.id. f_equal.
  rewrite insert_app_r_alt by lia. by rewrite Nat.sub_diag.
Qed.

(** Writing a length into the two bytes reserved for it. *)
Lemma backpatch (l d : bytes) (v : Z) :
  match to_be 2 v with
  | [hi; lo] =>
      buf ← vec_set ((l ++ to_be 2 0) ++ d) (blen l) hi; vec_set buf (blen l + 1) lo
  | _ => None
  end = Some (l ++ to_be 2 v ++ d).
Proof.
  unfold to_be at 1. change (to_be 2 0) with [0; 0]. rewrite <- app_assoc. cbn [app].
  rewrite vec_set_app. cbn [mbind option_bind].
  replace (blen l + 1) with (blen (l ++ [(v / 256 ^ Z.of_nat 1) mod 256])) by
    (autorewrite with blen; lia).
  replace (l ++ (v / 256 ^ Z.of_nat 1) mod 256 :: 0 :: d) with
    ((l ++ [(v / 256 ^ Z.of_nat 1) mod 256]) ++ 0 :: d) by (by rewrite <- app_assoc).
  rewrite vec_set_app, <- app_assoc. done.
Qed.

Section WriteFacts.
Context `{CS : CertificatesSpec} `{BS : BufMutSpec}.

Lemma put_question_enc buf q ctx :
  put_question buf q ctx
  = let '(e, ctx') := enc_question (blen buf) q ctx in (buf ++ e, ctx').
Proof.
  unfold put_question, enc_question. rewrite put_name_enc.
  destruct (enc_name (blen buf) (q_name q) ctx) as [n ctx']. autorewrite with put.
  by rewrite <- !app_assoc.
Qed.

Lemma put_rdata_enc buf d ctx :
  rdata_writable d ->
  put_rdata buf d ctx = Some (let '(e, ctx') := enc_rdata (blen buf) d ctx in (buf ++ e, ctx')).
Proof.
  intros Hd. destruct d as [ip|ip|name|txt|srv|ptr|ep]; cbn [put_rdata enc_rdata];
    rewrite ?put_slice_spec, ?put_name_enc; try done.
  - by destruct (enc_name _ _ _).
  - unfold put_srv. rewrite put_name_enc. autorewrite with put. autorewrite with blen.
    replace (blen buf + Z.of_nat 2 + Z.of_nat 2 + Z.of_nat 2) with (blen buf + 6) by lia.
    destruct (enc_name _ _ _). by rewrite <- !app_assoc.
  - by destruct (enc_name _ _ _).
  - rewrite put_endpoint_addr_bytes by apply Hd. done.
Qed.

Lemma put_record_enc buf r ctx :
  record_writable r ->
  put_record buf r ctx
  = Some (let '(e, ctx') := enc_record (blen buf) r ctx in (buf ++ e, ctx')).
Proof.
  intros (_ & _ & _ & Hd). unfold put_record, enc_record. rewrite put_name_enc.
  destruct (enc_name (blen buf) (rr_name r) ctx) as [n ctx1]. autorewrite with put.
  fold (class_word (RClass.into_u16 (rr_cls r)) (rr_multicast_unique r)).
  set (l := (((buf ++ n) ++ _) ++ _) ++ to_be 4 (rr_ttl r)).
  assert (l = buf ++ n ++ record_fixed r) as Hl by
    (unfold l, record_fixed; by rewrite <- !app_assoc).
  rewrite put_rdata_enc by done.
  replace (blen (l ++ to_be 2 0)) with (blen buf + blen n + 10) by
    (rewrite Hl; unfold record_fixed; autorewrite with blen; lia).
  destruct (enc_rdata _ (rr_data r) ctx1) as [d ctx2]. cbn [mbind option_bind].
  rewrite blen_app. replace (blen (l ++ to_be 2 0)) with (blen buf + blen n + 10) by
    (rewrite Hl; unfold record_fixed; autorewrite with blen; lia).
  replace (blen buf + blen n + 10 + blen d - (blen buf + blen n + 10)) with (blen d) by lia.
  pose proof (backpatch l d (as_u 16 (blen d))) as Hbp.
  assert (to_be 2 (as_u 16 (blen d)) = to_be 2 (blen d)) as Hmod by
    (exact (to_be_mod 2 (blen d) 2 ltac:(lia))).
  destruct (to_be 2 (as_u 16 (blen d))) as [|hi [|lo [|]]]; try done.
  destruct (vec_set _ (blen l) hi) as [b1|]; cbn [mbind option_bind] in *; [|done].
  rewrite Hbp. cbn [mbind option_bind]. rewrite Hmod, Hl, <- !app_assoc. done.
Qed.

Lemma put_questions_enc qs : forall buf ctx,
  put_questions buf qs ctx
  = let '(e, ctx') := enc_list enc_question (blen buf) qs ctx in (buf ++ e, ctx').
Proof.
  induction qs as [|q qs IH]; intros buf ctx; cbn [put_questions enc_list].
  { by rewrite app_nil_r. }
  rewrite put_question_enc. destruct (enc_question (blen buf) q ctx) as [e ctx1].
  rewrite IH, blen_app. destruct (enc_list _ _ qs ctx1). by rewrite <- app_assoc.
Qed.

Lemma put_records_enc rs : forall buf ctx,
  Forall record_writable rs ->
  put_records buf rs ctx
  = Some (let '(e, ctx') := enc_list enc_record (blen buf) rs ctx in (buf ++ e, ctx')).
Proof.
  induction rs as [|r rs IH]; intros buf ctx Hrs; cbn [put_records enc_list].
  { by rewrite app_nil_r. }
  apply Forall_cons_1 in Hrs as [Hr Hrs].
  rewrite put_record_enc by done. destruct (enc_record (blen buf) r ctx) as [e ctx1].
  cbn [mbind option_bind]. rewrite IH, blen_app by done.
  destruct (enc_list _ _ rs ctx1). by rewrite <- app_assoc.
Qed.
End WriteFacts.

(** ** Messages *)
Section Messages.
Context `{C : Certificates}.

(** The header counts the items of the sections, and every item can be written. *)
Definition packet_ok (p : Packet) : Prop :=
  header_ok (header p)
  /\ questions_count (header p) = blen (questions p)
  /\ answers_count (header p) = blen (answers p)
  /\ nameservers_count (header p) = blen (nameservers p)
  /\ additional_count (header p) = blen (additional p)
  /\ Forall (fun q => name_ok (q_name q)) (questions p)
  /\ Forall record_writable (answers p) /\ Forall record_writable (nameservers p)
  /\ Forall record_writable (additional p).

Definition canonical_packet (p : Packet) : Packet :=
  mkPacket (header p) (map canonical_question (questions p)) (map canonical_record (answers p))
    (map canonical_record (nameservers p)) (map canonical_record (additional p)).
End Messages.

Section MessageFacts.
Context `{CS : CertificatesSpec} `{NS : NomSpec}.

Lemma validate_counts_ok input h :
  header_ok h ->
  questions_count h * 5 + (answers_count h + nameservers_count h + additional_count h) * 11
    <= blen input ->
  validate_section_counts input h = Ok (input, tt).
Proof.
  intros (_ & _ & Hq & Ha & Hn & Had) Hlen. unfold u_ok in *.
  unfold validate_section_counts, checked_mul, checked_add, MIN_QUESTION_WIRE_LEN,
    MIN_RESOURCE_RECORD_WIRE_LEN.
  rewrite (proj2 (Z.ltb_lt (answers_count h + _) _)) by lia. cbn [mbind option_bind].
  rewrite (proj2 (Z.ltb_lt (questions_count h * 5) _)) by lia. cbn [mbind option_bind].
  rewrite (proj2 (Z.ltb_lt (_ + additional_count h) _)) by lia. cbn [mbind option_bind].
  rewrite (proj2 (Z.ltb_lt (_ * 11) _)) by lia. cbn [mbind option_bind].
  rewrite (proj2 (Z.ltb_lt (_ * 5 + _) _)) by lia.
  by rewrite (proj2 (Z.ltb_ge _ _)) by lia.
Qed.

Lemma validate_counts_inv input h r u :
  header_ok h -> validate_section_counts input h = Ok (r, u) ->
  r = input /\
  questions_count h * 5 + (answers_count h + nameservers_count h + additional_count h) * 11
    <= blen input.
Proof.
  intros (_ & _ & Hq & Ha & Hn & Had). unfold u_ok in *.
  unfold validate_section_counts, checked_mul, checked_add, MIN_QUESTION_WIRE_LEN,
    MIN_RESOURCE_RECORD_WIRE_LEN.
  rewrite (proj2 (Z.ltb_lt (answers_count h + _) _)) by lia. cbn [mbind option_bind].
  rewrite (proj2 (Z.ltb_lt (questions_count h * 5) _)) by lia. cbn [mbind option_bind].
  rewrite (proj2 (Z.ltb_lt (_ + additional_count h) _)) by lia. cbn [mbind option_bind].
  rewrite (proj2 (Z.ltb_lt (_ * 11) _)) by lia. cbn [mbind option_bind].
  rewrite (proj2 (Z.ltb_lt (_ * 5 + _) _)) by lia.
  destruct (Z.ltb_spec (blen input) (questions_count h * 5 + (answers_count h
    + nameservers_count h + additional_count h) * 11)); [done|]. by intros [= <- _].
Qed.

Lemma validate_counts_error input h e :
  validate_section_counts input h = Err e -> e = Failure input Verify.
Proof.
  unfold validate_section_counts.
  destruct (_ ≫= _) as [n|]; [destruct (_ <? _)|]; by intros [= <-].
Qed.

Lemma validate_counts_exceeded input h e :
  header_ok h -> validate_section_counts input h = Err e ->
  blen input < 5 * questions_count h
               + 11 * (answers_count h + nameservers_count h + additional_count h).
Proof.
  intros Hh Hv. apply Z.nle_gt. intros Hle. by rewrite validate_counts_ok in Hv by (done || lia).
Qed.

(** The encoding of a message, section by section. *)
Lemma be_packet_sections p e1 ctx1 e2 ctx2 e3 ctx3 e4 ctx4 :
  packet_ok p -> let hb := header_bytes (header p) in
  enc_list enc_question (blen hb) (questions p) NameCompression_new = (e1, ctx1) ->
  enc_list enc_record (blen (hb ++ e1)) (answers p) ctx1 = (e2, ctx2) ->
  enc_list enc_record (blen ((hb ++ e1) ++ e2)) (nameservers p) ctx2 = (e3, ctx3) ->
  enc_list enc_record (blen (((hb ++ e1) ++ e2) ++ e3)) (additional p) ctx3 = (e4, ctx4) ->
  bytes_ok ((((hb ++ e1) ++ e2) ++ e3) ++ e4)
  /\ be_packet ((((hb ++ e1) ++ e2) ++ e3) ++ e4) = Ok ([], canonical_packet p).
Proof.
  intros (Hh & Cq & Ca & Cn & Cd & Fq & Fa & Fn & Fd) hb E1 E2 E3 E4.
  assert (bytes_ok hb) as Hhb by apply header_bytes_ok.
  assert (ctx_ok hb NameCompression_new) as K0 by exact (ctx_ok_snoc [] hb _ ctx_ok_new).
  destruct (enc_list_sound _ _ _ _ _ question_codec _ _ _ _ _ K0 Fq Hhb E1)
    as (K1 & B1 & M1 & P1).
  assert (bytes_ok (hb ++ e1)) as Hb1 by (by apply bytes_ok_app).
  destruct (enc_list_sound _ _ _ _ _ record_codec _ _ _ _ _ K1 Fa Hb1 E2) as (K2 & B2 & M2 & P2).
  assert (bytes_ok ((hb ++ e1) ++ e2)) as Hb2 by (by apply bytes_ok_app).
  destruct (enc_list_sound _ _ _ _ _ record_codec _ _ _ _ _ K2 Fn Hb2 E3) as (K3 & B3 & M3 & P3).
  assert (bytes_ok (((hb ++ e1) ++ e2) ++ e3)) as Hb3 by (by apply bytes_ok_app).
  destruct (enc_list_sound _ _ _ _ _ record_codec _ _ _ _ _ K3 Fd Hb3 E4) as (K4 & B4 & M4 & P4).
  split; [by apply bytes_ok_app|].
  specialize (P4 [] [] ltac:(constructor)). rewrite !app_nil_r in P4.
  specialize (P3 e4 [] B4). specialize (P2 (e3 ++ e4) [] ltac:(by apply bytes_ok_app)).
  specialize (P1 (e2 ++ e3 ++ e4) [] ltac:(by rewrite !bytes_ok_app)).
  rewrite <- ?app_assoc in P1. rewrite <- ?app_assoc in P2. rewrite <- !app_assoc in P3.
  rewrite <- !app_assoc in P4. rewrite <- !app_assoc. unfold be_packet.
  assert (be_header (hb ++ e1 ++ e2 ++ e3 ++ e4) = Ok (e1 ++ e2 ++ e3 ++ e4, header p)) as ->
    by (by apply be_header_bytes).
  rewrite validate_counts_ok; [|done|rewrite Cq, Ca, Cn, Cd; autorewrite with blen; lia].
  rewrite Cq, Ca, Cn, Cd. unfold blen. rewrite !Nat2Z.id.
  by rewrite P1, P2, P3, P4.
Qed.

(** An item parser that satisfies [yields] makes a section total. *)
Lemma parse_total {T} (parser : bytes -> bytes -> IResult T) (R : T -> Prop) count original :
  (forall i, bytes_ok i -> yields (parser i original) i (fun _ v => R v)) ->
  forall input acc, bytes_ok input -> Forall R acc ->
  exists remain l, parse count input original parser acc = Ok (remain, acc ++ l)
    /\ bytes_ok remain /\ Forall R l /\ (length l <= count)%nat.
Proof.
  intros Hp. induction count as [|count IH]; intros input acc Hin Hacc; cbn [parse].
  { exists input, []. rewrite app_nil_r. repeat split; [done|constructor|cbn; lia]. }
  specialize (Hp input Hin). destruct (parser input original) as [[r v]|[| | |]].
  - destruct Hp as (l & -> & HR). apply bytes_ok_app in Hin as [_ Hin].
    destruct (IH r (acc ++ [v]) Hin) as (remain & l' & -> & Hr & Hl' & Hlen).
    { apply Forall_app. auto. }
    exists remain, (v :: l'). rewrite <- app_assoc. repeat split; auto. cbn. lia.
  - exists input, []. rewrite app_nil_r. repeat split; [done|constructor|cbn; lia].
  - destruct (IH input0 acc Hp Hacc) as (remain & l & -> & ? & ? & ?). eauto 10.
  - exists input, []. rewrite app_nil_r. repeat split; [done|constructor|cbn; lia].
  - done.
Qed.
End MessageFacts.

Lemma to_bytes_sections `{CertificatesSpec} `{NomSpec} `{BufMutSpec} p :
  packet_ok p ->
  exists enc, to_bytes p = Some enc /\ bytes_ok enc /\ be_packet enc = Ok ([], canonical_packet p).
Proof.
  intros Hp. pose proof Hp as (_ & _ & _ & _ & _ & _ & Fa & Fn & Fd).
  unfold to_bytes. rewrite put_header_bytes, put_questions_enc. cbn [app].
  destruct (enc_list enc_question _ _ _) as [e1 ctx1] eqn:E1.
  rewrite put_records_enc by done.
  destruct (enc_list enc_record _ (answers p) _) as [e2 ctx2] eqn:E2. cbn [mbind option_bind].
  rewrite put_records_enc by done.
  destruct (enc_list enc_record _ (nameservers p) _) as [e3 ctx3] eqn:E3. cbn [mbind option_bind].
  rewrite put_records_enc by done.
  destruct (enc_list enc_record _ (additional p) _) as [e4 ctx4] eqn:E4. cbn [mbind option_bind].
  eexists. split; [reflexivity|]. exact (be_packet_sections _ _ _ _ _ _ _ _ _ Hp E1 E2 E3 E4).
Qed.

(** Every answer takes its part of the message, also when the counter wraps around. *)
Lemma answers_length `{CertificatesSpec} `{NomSpec} `{BufMutSpec} h rs enc :
  Forall record_writable rs -> to_bytes (mkPacket h [] rs [] []) = Some enc ->
  12 + 11 * blen rs <= blen enc.
Proof.
  intros Hrs. unfold to_bytes. rewrite put_header_bytes.
  cbn [app header questions answers nameservers additional put_questions].
  rewrite put_records_enc by done.
  destruct (enc_list enc_record _ rs _) as [e ctx] eqn:E1. cbn [mbind option_bind put_records].
  intros <-%(inj Some).
  destruct (enc_list_sound _ _ _ _ _ record_codec _ _ _ _ _
    (ctx_ok_snoc [] (header_bytes h) _ ctx_ok_new) Hrs (header_bytes_ok h) E1) as (_ & _ & Hmin & _).
  rewrite blen_app, header_bytes_length. lia.
Qed.

(** ** The builders *)
Section BuilderFacts.
Context `{C : Certificates} `{FS : BitfieldSpec}.

Definition answer_record (name : bytes) (ep : EndpointAddr) : ResourceRecord :=
  mkResourceRecord name RType.E false RClass.IN 300 (RData.E ep).

(** The records of an answer, in the order of the hosts. *)
Definition answer_records (hosts : list (bytes * list EndpointAddr)) : list ResourceRecord :=
  List.concat (map (fun '(name, eps) => map (answer_record name) eps) hosts).

(** A response under construction: only answers, counted modulo [2^16]. *)
Definition building (i : Z) (rs : list ResourceRecord) (p : Packet) : Prop :=
  exists f, u_ok 16 (flags_bits f) /\ DnsHeader.query f = true
    /\ p = mkPacket (mkHeader i f 0 (as_u 16 (blen rs)) 0 0) [] rs [] [].

Lemma building_add i rs p name ep :
  building i rs p ->
  building i (rs ++ [answer_record name ep])
    (add_answer p name RType.E RClass.IN 300 (RData.E ep)).
Proof.
  intros (f & Hf & Hq & ->). exists (set_query f true).
  split; [by apply set_query_ok|]. split; [by apply query_set_query|].
  unfold add_answer, incr_answers, set_flags, with_header. cbn.
  do 2 f_equal. rewrite blen_app. unfold as_u. by rewrite Z.add_mod_idemp_l by lia.
Qed.

Lemma building_host i rs p name eps :
  building i rs p ->
  building i (rs ++ map (answer_record name) eps)
    (fold_left (fun packet ep => add_answer packet name RType.E RClass.IN 300 (RData.E ep)) eps p).
Proof.
  revert rs p. induction eps as [|ep eps IH]; intros rs p Hp; cbn [fold_left map].
  { by rewrite app_nil_r. }
  rewrite list.cons_middle, app_assoc. by apply IH, building_add.
Qed.

Lemma answer_building i hosts : building i (answer_records hosts) (answer i hosts).
Proof.
  unfold answer. set (p0 := set_flags _ _). set (step := fun _ _ => _).
  assert (building i [] p0) as H0.
  { exists (set_query (mkFlags 0) true). split; [apply set_query_ok; decide_now|].
    split; [apply query_set_query; decide_now|]. done. }
  change (answer_records hosts) with ([] ++ answer_records hosts). clearbody p0.
  revert p0 H0. generalize (@nil ResourceRecord). induction hosts as [|[name eps] hosts IH];
    intros rs p Hp; cbn [fold_left]; [by rewrite app_nil_r|].
  unfold answer_records. cbn [map List.concat]. rewrite app_assoc.
  apply IH, building_host, Hp.
Qed.

Lemma building_ok i rs p :
  building i rs p -> u_ok 16 i -> blen rs < 2 ^ 16 -> Forall record_writable rs -> packet_ok p.
Proof.
  intros (f & Hf & _ & ->) Hi Hlen Hrs. pose proof (blen_nonneg rs).
  unfold packet_ok, header_ok, as_u. cbn. rewrite Z.mod_small by lia.
  unfold u_ok. split_and!; try done; try lia; apply Hi || apply Hf || constructor.
Qed.
End BuilderFacts.

Section Total.
Context `{CS : CertificatesSpec} `{NS : NomSpec}.

(** The outcome of parsing any input. *)
Lemma be_packet_cases input :
  bytes_ok input ->
  match be_packet input with
  | Ok (remain, p) =>
      bytes_ok remain /\ header_ok (header p)
      /\ (length (questions p) <= Z.to_nat (questions_count (header p)))%nat
      /\ (length (answers p) <= Z.to_nat (answers_count (header p)))%nat
      /\ (length (nameservers p) <= Z.to_nat (nameservers_count (header p)))%nat
      /\ (length (additional p) <= Z.to_nat (additional_count (header p)))%nat
      /\ Forall record_ok (answers p) /\ Forall record_ok (nameservers p)
      /\ Forall record_ok (additional p) /\ Forall (fun q => utf8 (q_name q)) (questions p)
      /\ exists r, input = header_bytes (header p) ++ r
           /\ be_header input = Ok (r, header p)
           /\ 5 * questions_count (header p)
              + 11 * (answers_count (header p) + nameservers_count (header p)
                      + additional_count (header p)) <= blen r
  | Err (Incomplete _) => blen input < 12
  | Err (Failure r Verify) => exists h, be_header input = Ok (r, h)
      /\ blen r < 5 * questions_count h
                  + 11 * (answers_count h + nameservers_count h + additional_count h)
  | Err _ => False
  end.
Proof.
  intros Hok. unfold be_packet. pose proof (be_header_yields input Hok) as Hh.
  destruct (be_header input) as [[r h]|e] eqn:Eh.
  2:{ by apply be_header_error in Eh as [[n ->] ?]. }
  destruct Hh as (l & -> & Hh & ->). pose proof Hok as [_ Hr]%bytes_ok_app.
  pose proof (header_bytes_length h) as Hl.
  destruct (validate_section_counts r h) as [[r1 u]|e] eqn:Ev.
  2:{ pose proof (validate_counts_exceeded _ _ _ Hh Ev). apply validate_counts_error in Ev as ->. by exists h. }
  apply validate_counts_inv in Ev as [-> Hmin]; [|done].
  assert (forall i, bytes_ok i -> yields (be_record i (header_bytes h ++ r)) i
    (fun _ => record_ok)) as Hrec.
  { intros i Hi. eapply yields_weaken; [by apply be_record_yields|]. by intros ?? [_ ?]. }
  destruct (parse_total be_question (fun q => utf8 (q_name q)) (Z.to_nat (questions_count h))
    (header_bytes h ++ r)) with (input := r) (acc := @nil Question)
    as (r2 & qs & -> & Hr2 & Fq & Hq); [|done|constructor|].
  { intros i Hi. eapply yields_weaken; [by apply be_question_yields|]. by intros ?? [_ ?]. }
  cbn [app].
  destruct (parse_total _ _ (Z.to_nat (answers_count h)) _ Hrec r2 [] Hr2)
    as (r3 & ans & -> & Hr3 & Fa & Ha); [constructor|]. cbn [app].
  destruct (parse_total _ _ (Z.to_nat (nameservers_count h)) _ Hrec r3 [] Hr3)
    as (r4 & ns & -> & Hr4 & Fn & Hn); [constructor|]. cbn [app].
  destruct (parse_total _ _ (Z.to_nat (additional_count h)) _ Hrec r4 [] Hr4)
    as (r5 & ad & -> & Hr5 & Fd & Hd); [constructor|]. cbn [app header questions answers
      nameservers additional].
  split_and!; try done. exists r. split; [done|]. split; [done|]. lia.
Qed.
End Total.

Lemma hosts_writable `{Certificates} (hosts : list (bytes * list EndpointAddr)) :
  Forall (fun '(name, eps) => name_ok name /\
    Forall (fun e => endpoint_ok e /\ blen (endpoint_bytes e) < 0x10000) eps) hosts ->
  Forall record_writable (answer_records hosts).
Proof.
  intros Hhosts. apply List.Forall_concat, Forall_fmap. eapply Forall_impl; [|exact Hhosts].
  intros [name eps] [Hn He]. apply Forall_fmap. eapply Forall_impl; [|exact He].
  intros e Hep. repeat split; try done; apply Hn || apply Hep || decide_now.
Qed.

(** The answer to a query carries one endpoint record per address of every host,
    in order, marked as a response with the given id; when there are fewer than
    [2^16] of them (the count is a [u16]) and the names and endpoints can be
    written, the receiver decodes exactly these records. *)
Lemma answer_received `{CertificatesSpec} `{NomSpec} `{BufMutSpec} `{BitfieldSpec}
    (i : Z) (hosts : list (bytes * list EndpointAddr)) :
  u_ok 16 i -> blen (answer_records hosts) < 2 ^ 16 ->
  Forall (fun '(name, eps) => name_ok name /\
    Forall (fun e => endpoint_ok e /\ blen (endpoint_bytes e) < 0x10000) eps) hosts ->
  exists enc p, to_bytes (answer i hosts) = Some enc /\ be_packet enc = Ok ([], p)
    /\ packet_id p = i /\ is_query p = true
    /\ answers p = map canonical_record (answer_records hosts)
    /\ questions p = [] /\ nameservers p = [] /\ additional p = [].
Proof.
  intros Hi Hlen Hhosts. pose proof (answer_building i hosts) as Hb.
  pose proof (hosts_writable hosts Hhosts) as Hw.
  destruct (to_bytes_sections _ (building_ok _ _ _ Hb Hi Hlen Hw)) as (enc & E1 & _ & E2).
  exists enc, (canonical_packet (answer i hosts)). split; [done|]. split; [done|].
  destruct Hb as (f & _ & Hq & ->). done.
Qed.

(** Every record of an answer takes at least 11 bytes, also when there are too many
    of them for their count. *)
Lemma answer_size `{CertificatesSpec} `{NomSpec} `{BufMutSpec} `{BitfieldSpec}
    (i : Z) (hosts : list (bytes * list EndpointAddr)) (enc : bytes) :
  Forall record_writable (answer_records hosts) ->
  to_bytes (answer i hosts) = Some enc -> 11 * blen (answer_records hosts) <= blen enc.
Proof.
  intros Hw. destruct (answer_building i hosts) as (f & _ & _ & ->).
  unfold to_bytes. rewrite put_header_bytes. cbn [put_questions app questions answers nameservers
    additional].
  rewrite put_records_enc by done.
  destruct (enc_list enc_record _ _ _) as [e ctx] eqn:E. cbn [mbind option_bind put_records].
  intros Henc. apply (inj Some) in Henc. rewrite <- Henc.
  destruct (enc_list_sound enc_record be_record canonical_record record_writable 11 record_codec
    _ _ _ _ _ (ctx_ok_snoc [] _ _ ctx_ok_new) Hw (header_bytes_ok _) E) as (_ & _ & Hlen & _).
  rewrite blen_app. match goal with |- _ <= blen ?x + _ => pose proof (blen_nonneg x) end.
  cbn [answers] in Hlen. lia.
Qed.

(** Both kinds of query are well-formed messages with one question; the
    receiver sees a query, not a response, with the question unchanged up to a
    trailing dot of the name. *)
Lemma query_received `{CertificatesSpec} `{NomSpec} `{BufMutSpec} `{BitfieldSpec}
    (rand_id : Z) (name : bytes) :
  u_ok 16 rand_id -> name_ok name ->
  (exists enc p, to_bytes (query_with_id rand_id name) = Some enc /\ be_packet enc = Ok ([], p)
     /\ packet_id p = rand_id /\ is_query p = false
     /\ questions p = [mkQuestion (canonical_name name) false QueryType.A QueryClass.IN])
  /\ (exists enc p, to_bytes (query name) = Some enc /\ be_packet enc = Ok ([], p)
     /\ packet_id p = 0 /\ is_query p = false
     /\ questions p = [mkQuestion (canonical_name name) true QueryType.A QueryClass.IN]).
Proof.
  intros Hi Hn. assert (u_ok 16 (flags_bits (set_query Flags_new false))) as Hf by
    (apply set_query_ok; decide_now).
  assert (DnsHeader.query (set_query Flags_new false) = false) as Hq by
    (apply query_set_query; decide_now).
  assert (DnsHeader.query Flags_new = false) as Hq0 by
    (unfold DnsHeader.query, flag_get; by rewrite bits_get_spec by lia).
  split.
  - destruct (to_bytes_sections (query_with_id rand_id name)) as (enc & E1 & _ & E2).
    { unfold packet_ok, header_ok. cbn. split_and!; try done; try decide_now; by constructor. }
    exists enc. eexists. split; [exact E1|]. split; [exact E2|]. done.
  - destruct (to_bytes_sections (query name)) as (enc & E1 & _ & E2).
    { unfold packet_ok, header_ok. cbn. split_and!; try done; try decide_now; by constructor. }
    exists enc. eexists. split; [exact E1|]. split; [exact E2|]. done.
Qed.

(** ** Properties *)

(** C1: the message parser inverts the message encoder.  A packet whose header
    counts its sections and whose items can be written is encoded without
    panicking, name compression and back-patched RDATA lengths included, and
    [be_packet] reads every section back, consuming the whole message. *)
Theorem packet_roundtrip `{CertificatesSpec} `{NomSpec} `{BufMutSpec} (p : Packet) :
  packet_ok p ->
  exists enc, to_bytes p = Some enc /\ bytes_ok enc
    /\ be_packet enc = Ok ([], canonical_packet p).
Proof. apply to_bytes_sections. Qed.

(** A response with an SRV and an endpoint record that share name suffixes. *)
Definition sample_packet : Packet (C := CertModel.certificates) :=
  mkPacket (mkHeader 7 (mkFlags 0x8000) 1 2 0 0)
    [mkQuestion (str "a.example.com") true QueryType.Srv QueryClass.IN]
    [mkResourceRecord (C := CertModel.certificates) (str "a.example.com") RType.Srv false RClass.IN 60
       (RData.Srv (mkSrv 1 2 443 (str "srv.example.com")));
     mkResourceRecord (C := CertModel.certificates) (str "srv.example.com") RType.E true RClass.IN 300
       (RData.E sample_endpoint)]
    [] [].

Lemma sample_packet_ok : packet_ok sample_packet.
Proof.
  unfold packet_ok. cbn. split_and!; decide_now.
Qed.

Example packet_roundtrip_witness :
  exists enc, to_bytes (B := NomModel.buf_mut) sample_packet = Some enc /\ bytes_ok enc
    /\ be_packet (N := NomModel.nom) enc = Ok ([], sample_packet).
Proof.
  destruct (packet_roundtrip (H := CertModel.certificates_spec) (H0 := NomModel.nom_spec)
    (H1 := NomModel.buf_mut_spec) sample_packet sample_packet_ok) as (enc & H1 & H2 & H3).
  exists enc. split; [exact H1|]. split; [exact H2|]. exact H3.
Defined.

(** C2: the message parser is total on bytes: it never runs out of fuel and never
    panics.  It fails in two cases only: the input is shorter than a header, or the
    bytes after the header are fewer than the announced questions, of 5 bytes each, and
    records, of 11 bytes each, need at least, so that forged counts are refused and no
    other message is.  Otherwise it returns, with the header that was read, at most the
    announced number of items per section, with names of valid UTF-8 and records within
    the ranges of their types, and this number is bounded by the size of the input. *)
Theorem be_packet_total `{CertificatesSpec} `{NomSpec} (input : bytes) :
  bytes_ok input ->
  match be_packet input with
  | Ok (remain, p) =>
      bytes_ok remain /\ header_ok (header p)
      /\ (exists r, be_header input = Ok (r, header p)
           /\ 5 * questions_count (header p)
              + 11 * (answers_count (header p) + nameservers_count (header p)
                      + additional_count (header p)) <= blen r)
      /\ blen (questions p) <= questions_count (header p)
      /\ blen (answers p) <= answers_count (header p)
      /\ blen (nameservers p) <= nameservers_count (header p)
      /\ blen (additional p) <= additional_count (header p)
      /\ Forall (fun q => utf8 (q_name q)) (questions p)
      /\ Forall record_ok (answers p) /\ Forall record_ok (nameservers p)
      /\ Forall record_ok (additional p)
      /\ 12 + 5 * blen (questions p)
         + 11 * (blen (answers p) + blen (nameservers p) + blen (additional p)) <= blen input
  | Err (Incomplete _) => blen input < 12
  | Err (Failure r Verify) => exists h, be_header input = Ok (r, h)
      /\ blen r < 5 * questions_count h
                  + 11 * (answers_count h + nameservers_count h + additional_count h)
  | Err _ => False
  end.
Proof.
  intros Hok. pose proof (be_packet_cases input Hok) as Hc.
  destruct (be_packet input) as [[remain p]|[| | |]]; [|done..].
  destruct Hc as (Hr & Hh & Hq & Ha & Hn & Hd & Fa & Fn & Fd & Fq & r & -> & Hbe & Hmin).
  pose proof (header_bytes_length (header p)) as Hl. pose proof Hh as (_ & _ & ? & ? & ? & ?).
  unfold u_ok in *. rewrite blen_app, Hl. unfold blen in *. split_and!; try done; try lia.
  by exists r.
Qed.

Example be_packet_total_witness :
  let input := [0; 7; 128; 0; 0; 0; 0; 1; 0; 0; 0; 0;
                0; 1; 10; 0; 1; 0; 0; 0; 60; 0; 4; 127; 0; 0; 1] in
  match be_packet (C := CertModel.certificates) (N := NomModel.nom) input with
  | Ok (remain, p) => bytes_ok remain /\ blen (answers p) <= 1
  | Err _ => False
  end.
Proof.
  cbv zeta. set (input := [0; 7; 128; 0; 0; 0; 0; 1; 0; 0; 0; 0;
                0; 1; 10; 0; 1; 0; 0; 0; 60; 0; 4; 127; 0; 0; 1]).
  pose proof (be_packet_total (H := CertModel.certificates_spec) (H0 := NomModel.nom_spec) input
    ltac:(decide_now)) as Ht.
  vm_compute be_packet in Ht |- *. destruct Ht as (H1 & _ & _ & _ & H2 & _). split; [exact H1|exact H2].
Defined.
