(* ===== verification/Signature.v ===== *)
(** * Publisher signature fields of a DNS packet: src/core/signature.rs

    The three header fields of an HTTP message signature: the digest of the DNS
    packet, the signature parameters and the signature.  SHA-256 comes from
    [ring] and is a parameter, like the crates of [Crypto] and
    [CertificateParsers]. *)

From stdpp Require Import base list numbers option sets.
From S2P Require Import Prelude RustString Nom Sigin Certificate Endpoint.

Class Sha256 := { sha256 : bytes -> bytes }.

(** Base64 decoding inverts encoding and encoded text is ASCII; a digest is
    made of bytes. *)
Class TextSpec (P : CertificateParsers) (S : Sha256) : Prop := {
  base64_decode_encode x : bytes_ok x ->
    base64_standard_decode (base64_standard_encode x) = Ok x;
  base64_encode_ascii x : Forall (fun b => 0 <= b < 0x80) (base64_standard_encode x);
  sha256_ok x : bytes_ok (sha256 x);
}.

Definition quote : bytes := [34].
Definition newline : bytes := [10].
Definition semicolon : Z := 59.

Definition CONTENT_DIGEST_HEADER : bytes := str "content-digest".
Definition SIGNATURE_INPUT_HEADER : bytes := str "signature-input".
Definition SIGNATURE_HEADER : bytes := str "signature".
Definition SIGNATURE_LABEL : bytes := str "dns".
Definition DIGEST_PREFIX : bytes := str "sha-256=:".
Definition SIGNATURE_PREFIX : bytes := str "dns=:".
Definition quoted_content_digest : bytes := quote ++ str "content-digest" ++ quote.
Definition SIGNATURE_INPUT_PREFIX : bytes := str "dns=(" ++ quoted_content_digest ++ str ")".

Record SignatureFields := mkSignatureFields {
  content_digest : bytes;
  signature_input : bytes;
  fields_signature : bytes;
}.

Global Instance SignatureFields_eq_dec : EqDecision SignatureFields.
Proof. solve_decision. Defined.

Definition SignatureFields_empty : SignatureFields := mkSignatureFields [] [] [].

Definition is_empty_bytes (l : bytes) : bool := match l with [] => true | _ => false end.

Definition SignatureFields_is_empty (self : SignatureFields) : bool :=
  is_empty_bytes (content_digest self) && is_empty_bytes (signature_input self)
  && is_empty_bytes (fields_signature self).

Record ParsedSignatureInput := mkParsedSignatureInput {
  signature_params : bytes;
  parsed_alg : bytes;
  parsed_keyid : bytes;
}.

Section Fields.
Context `{K : Crypto} `{P : CertificateParsers} `{S : Sha256}.

Inductive SignatureFieldsError :=
| MissingCertificate
| FieldsUnsupportedScheme (scheme : SignatureScheme)
| UnsupportedAlgorithm (alg : bytes)
| InvalidField (field : bytes)
| InvalidUtf8
| FieldsInvalidBase64 (source : bytes)
| DigestMismatch
| KeyIdMismatch
| FieldsSign (source : QtlsSignError)
| FieldsInvalidCertificate (details : bytes)
| FieldsVerify (source : VerifyError).

Definition content_digest_value (dns_bytes : bytes) : bytes :=
  DIGEST_PREFIX ++ base64_standard_encode (sha256 dns_bytes) ++ [colon].

Definition cert_fingerprint_hex (cert_der : bytes) : bytes :=
  List.concat (map hex02 (sha256 cert_der)).

Definition keyid_for_cert (cert_der : bytes) : bytes :=
  str "sha256:" ++ cert_fingerprint_hex cert_der.

(** [SystemTime::now().duration_since(UNIX_EPOCH)] in seconds, or an error when
    the clock is before the epoch. *)
Definition unix_now_secs (since_epoch : option Z) : Z := default 0 since_epoch.

Definition signature_input_value (created : Z) (keyid alg : bytes) : bytes :=
  SIGNATURE_LABEL ++ str "=(" ++ quoted_content_digest ++ str ");created=" ++ decimal created
  ++ str ";keyid=" ++ quote ++ keyid ++ quote ++ str ";alg=" ++ quote ++ alg ++ quote.

Definition signature_value (signature : bytes) : bytes :=
  SIGNATURE_PREFIX ++ base64_standard_encode signature ++ [colon].

Definition unquote (value : bytes) : option bytes :=
  value ← strip_prefix quote value;
  strip_suffix quote value.

(** The loop over the parameters: the last value of each wins. *)
Fixpoint parse_params (params : list bytes) (created : option Z) (keyid alg : option bytes)
  : Result (option Z * option bytes * option bytes) SignatureFieldsError :=
  match params with
  | [] => Ok (created, keyid, alg)
  | param :: params =>
      match strip_prefix (str "created=") param with
      | Some value => parse_params params (parse_u64 value) keyid alg
      | None =>
          match strip_prefix (str "keyid=") param with
          | Some value => parse_params params created (unquote value) alg
          | None =>
              match strip_prefix (str "alg=") param with
              | Some value => parse_params params created keyid (unquote value)
              | None => Err (InvalidField SIGNATURE_INPUT_HEADER)
              end
          end
      end
  end.

Definition parse_signature_input (input : bytes)
  : Result ParsedSignatureInput SignatureFieldsError :=
  if negb (starts_with SIGNATURE_INPUT_PREFIX input)
  then Err (InvalidField SIGNATURE_INPUT_HEADER)
  else
    let? signature_params :=
      ok_or (strip_prefix (str "dns=") input) (InvalidField SIGNATURE_INPUT_HEADER) in
    let? params :=
      ok_or (strip_prefix (str "(" ++ quoted_content_digest ++ str ")") signature_params)
        (InvalidField SIGNATURE_INPUT_HEADER) in
    let? (created, keyid, alg) :=
      parse_params (List.filter (fun part => negb (is_empty_bytes part))
                      (split_on semicolon params)) None None None in
    match created with
    | None => Err (InvalidField SIGNATURE_INPUT_HEADER)
    | Some _ =>
        let? keyid := ok_or keyid (InvalidField SIGNATURE_INPUT_HEADER) in
        let? alg := ok_or alg (InvalidField SIGNATURE_INPUT_HEADER) in
        Ok (mkParsedSignatureInput signature_params alg keyid)
    end.

Definition signature_base (content_digest signature_input : bytes)
  : Result bytes SignatureFieldsError :=
  let? parsed := parse_signature_input signature_input in
  Ok (quoted_content_digest ++ str ": " ++ content_digest ++ newline
      ++ quote ++ str "@signature-params" ++ quote ++ str ": " ++ signature_params parsed).

Definition field_str (field : bytes) : Result bytes SignatureFieldsError :=
  if utf8_valid field then Ok field else Err InvalidUtf8.

Definition verify_content_digest (content_digest dns_bytes : bytes)
  : Result unit SignatureFieldsError :=
  let? encoded :=
    ok_or (rest ← strip_prefix DIGEST_PREFIX content_digest; strip_suffix [colon] rest)
      (InvalidField CONTENT_DIGEST_HEADER) in
  let? decoded := result_map_err FieldsInvalidBase64 (base64_standard_decode encoded) in
  if bool_decide (decoded <> sha256 dns_bytes) then Err DigestMismatch else Ok tt.

Definition parse_signature (input : bytes) : Result bytes SignatureFieldsError :=
  let? encoded :=
    ok_or (rest ← strip_prefix SIGNATURE_PREFIX input; strip_suffix [colon] rest)
      (InvalidField SIGNATURE_HEADER) in
  result_map_err FieldsInvalidBase64 (base64_standard_decode encoded).

(** [SignatureFields::sign]; [since_epoch] is the clock. *)
Definition SignatureFields_sign (since_epoch : option Z) (dns_bytes : bytes)
    (authority : LocalAuthority) : Result SignatureFields SignatureFieldsError :=
  let? cert := ok_or (head (authority_certificates authority)) MissingCertificate in
  let keyid := keyid_for_cert cert in
  let content_digest := content_digest_value dns_bytes in
  let created := unix_now_secs since_epoch in
  let? scheme :=
    ok_or (canonical_scheme_for_spki (authority_public_key authority))
      (FieldsUnsupportedScheme (scheme_from_u16 0)) in
  let? alg := ok_or (alg_name_for_scheme scheme) (FieldsUnsupportedScheme scheme) in
  let signature_input := signature_input_value created keyid alg in
  let? base := signature_base content_digest signature_input in
  let? signature :=
    result_map_err FieldsSign (authority_sign authority (scheme_into_u16 scheme) base) in
  let signature := signature_value signature in
  Ok (mkSignatureFields content_digest signature_input signature).

Definition SignatureFields_verify (self : SignatureFields) (dns_bytes cert_der : bytes)
  : Result bool SignatureFieldsError :=
  if SignatureFields_is_empty self then Ok false
  else
    let? content_digest := field_str (content_digest self) in
    let? _ := verify_content_digest content_digest dns_bytes in
    let? signature_input := field_str (signature_input self) in
    let? parsed_input := parse_signature_input signature_input in
    let expected_keyid := keyid_for_cert cert_der in
    if bool_decide (parsed_keyid parsed_input <> expected_keyid) then Ok false
    else
      let? scheme :=
        ok_or (scheme_for_alg_name (parsed_alg parsed_input))
          (UnsupportedAlgorithm (parsed_alg parsed_input)) in
      let? signature := field_str (fields_signature self) in
      let? signature := parse_signature signature in
      let? base := signature_base content_digest signature_input in
      let? spki := result_map_err FieldsInvalidCertificate (parse_x509_certificate cert_der) in
      result_map_err FieldsVerify (verify spki scheme base signature).
End Fields.

(** ** Round trips of the fields *)
Definition ascii (l : bytes) : Prop := Forall (fun b => 0 <= b < 0x80) l.

Lemma ascii_app l k : ascii (l ++ k) <-> ascii l /\ ascii k.
Proof. apply Forall_app. Qed.

Lemma field_str_ascii `{Crypto} l : ascii l -> field_str l = Ok l.
Proof.
  intros Hl. unfold field_str. by rewrite (proj2 (utf8_valid_iff l) (ascii_utf8 l Hl)).
Qed.

Lemma decimal_ascii n : 0 <= n -> ascii (decimal n) /\ semicolon ∉ decimal n.
Proof.
  intros Hn. pose proof (decimal_digits n Hn) as Hd. split.
  - eapply Forall_impl; [exact Hd|]. cbn. intros b. unfold is_ascii_digit.
    rewrite andb_true_iff, !Z.leb_le. lia.
  - rewrite Forall_forall in Hd. intros Hin. by apply Hd in Hin.
Qed.

Lemma hex02_spec b : byte_ok b -> ascii (hex02 b) /\ semicolon ∉ hex02 b.
Proof.
  intros Hb. set (P := fun x => bool_decide (Forall (fun c => 0 <= c < 0x80) (hex02 x)
                                /\ semicolon ∉ hex02 x)).
  assert (P b = true) as HP by (apply (byte_enum P); [vm_compute; reflexivity|done]).
  by apply bool_decide_eq_true in HP.
Qed.

Section FieldFacts.
Context `{KS : CryptoSpec} `{TS : TextSpec}.

Lemma keyid_ascii cert : ascii (keyid_for_cert cert) /\ semicolon ∉ keyid_for_cert cert.
Proof.
  unfold keyid_for_cert, cert_fingerprint_hex. pose proof (sha256_ok cert) as Hd.
  assert (ascii (List.concat (map hex02 (sha256 cert)))
    /\ semicolon ∉ List.concat (map hex02 (sha256 cert))) as [H1 H2].
  { induction Hd as [|b l Hb Hl [IH1 IH2]]; cbn [map List.concat].
    { split; [constructor|apply not_elem_of_nil]. }
    destruct (hex02_spec b Hb). rewrite ascii_app, not_elem_of_app. done. }
  rewrite ascii_app, not_elem_of_app. split_and!; [decide_now|done|decide_now|done].
Qed.

Lemma alg_name_ascii s alg : alg_name_for_scheme s = Some alg -> ascii alg /\ semicolon ∉ alg.
Proof.
  unfold alg_name_for_scheme. rewrite match_arms_spec by apply schemes_distinct.
  rewrite !elem_of_cons, elem_of_nil, !pair_equal_spec.
  intros Hin. assert (alg ∈ [str "ed25519"; str "ecdsa-p256-sha256"; str "ecdsa-p384-sha384";
    str "rsa-pss-sha256"; str "rsa-pss-sha384"; str "rsa-pss-sha512"; str "rsa-v1_5-sha256";
    str "rsa-v1_5-sha384"; str "rsa-v1_5-sha512"]) as Halg by (rewrite !elem_of_cons; tauto).
  clear Hin. revert alg Halg. apply Forall_forall. unfold ascii. decide_now.
Qed.

Lemma unquote_quoted v : unquote (quote ++ v ++ quote) = Some v.
Proof.
  unfold unquote. rewrite strip_prefix_app. cbn [mbind option_bind]. apply strip_suffix_app.
Qed.

(** The parameters of the signature after the list of covered components. *)
Definition params_tail (created : Z) (keyid alg : bytes) : bytes :=
  [] ++ semicolon :: (str "created=" ++ decimal created)
  ++ semicolon :: (str "keyid=" ++ quote ++ keyid ++ quote)
  ++ semicolon :: str "alg=" ++ quote ++ alg ++ quote.

Lemma signature_input_shape created keyid alg :
  signature_input_value created keyid alg = SIGNATURE_INPUT_PREFIX ++ params_tail created keyid alg.
Proof. unfold params_tail. rewrite <- !app_assoc. reflexivity. Qed.

Lemma parse_signature_input_value created keyid alg :
  u_ok 64 created -> semicolon ∉ keyid -> semicolon ∉ alg ->
  parse_signature_input (signature_input_value created keyid alg)
  = Ok (mkParsedSignatureInput
          ((str "(" ++ quoted_content_digest ++ str ")") ++ params_tail created keyid alg)
          alg keyid).
Proof.
  intros Hc Hk Ha. unfold parse_signature_input. rewrite signature_input_shape, starts_with_app.
  cbn [negb].
  change (SIGNATURE_INPUT_PREFIX ++ params_tail created keyid alg) with
    (str "dns=" ++ (str "(" ++ quoted_content_digest ++ str ")") ++ params_tail created keyid alg).
  rewrite strip_prefix_app. cbn [ok_or]. rewrite strip_prefix_app. cbn [ok_or].
  unfold params_tail. destruct (decimal_ascii created ltac:(apply Hc)) as [_ Hd].
  rewrite split_on_app by apply not_elem_of_nil.
  rewrite split_on_app by (rewrite not_elem_of_app; split; [decide_now|done]).
  rewrite split_on_app by (rewrite !not_elem_of_app; split_and!; done || decide_now).
  rewrite split_on_none by (rewrite !not_elem_of_app; split_and!; done || decide_now).
  change (List.filter _ _) with [str "created=" ++ decimal created;
    str "keyid=" ++ quote ++ keyid ++ quote; str "alg=" ++ quote ++ alg ++ quote].
  cbn [parse_params]. rewrite strip_prefix_app.
  change (strip_prefix (str "created=") (str "keyid=" ++ _)) with (@None bytes).
  cbv iota. rewrite strip_prefix_app.
  change (strip_prefix (str "created=") (str "alg=" ++ _)) with (@None bytes).
  change (strip_prefix (str "keyid=") (str "alg=" ++ _)) with (@None bytes).
  cbv iota. rewrite strip_prefix_app, !unquote_quoted. unfold parse_u64.
  rewrite parse_uint_decimal by (unfold u_ok in Hc; lia). reflexivity.
Qed.

Lemma verify_content_digest_value dns dns' :
  verify_content_digest (content_digest_value dns) dns'
  = if bool_decide (sha256 dns <> sha256 dns') then Err DigestMismatch else Ok tt.
Proof.
  unfold verify_content_digest, content_digest_value.
  rewrite strip_prefix_app. cbn [mbind option_bind]. rewrite strip_suffix_app. cbn [ok_or].
  rewrite base64_decode_encode by apply sha256_ok. done.
Qed.

Lemma parse_signature_value sig : bytes_ok sig -> parse_signature (signature_value sig) = Ok sig.
Proof.
  intros Hs. unfold parse_signature, signature_value.
  rewrite strip_prefix_app. cbn [mbind option_bind]. rewrite strip_suffix_app. cbn [ok_or].
  by rewrite base64_decode_encode.
Qed.
End FieldFacts.

Section SignFacts.
Context `{KS : CryptoSpec} `{TS : TextSpec}.

(** The text that is signed. *)
Definition signed_text (created : Z) (cert dns alg : bytes) : bytes :=
  quoted_content_digest ++ str ": " ++ content_digest_value dns ++ newline
  ++ quote ++ str "@signature-params" ++ quote ++ str ": "
  ++ (str "(" ++ quoted_content_digest ++ str ")")
  ++ params_tail created (keyid_for_cert cert) alg.

Lemma signature_base_value created cert dns alg :
  u_ok 64 created -> semicolon ∉ alg ->
  signature_base (content_digest_value dns)
    (signature_input_value created (keyid_for_cert cert) alg)
  = Ok (signed_text created cert dns alg).
Proof.
  intros Hc Ha. unfold signature_base. destruct (keyid_ascii cert) as [_ Hk].
  by rewrite parse_signature_input_value.
Qed.

(** What a successful [sign] returns. *)
Lemma sign_inv since dns authority fields :
  u_ok 64 (unix_now_secs since) ->
  SignatureFields_sign since dns authority = Ok fields ->
  exists cert scheme alg sig,
    head (authority_certificates authority) = Some cert
    /\ canonical_scheme_for_spki (authority_public_key authority) = Some scheme
    /\ alg_name_for_scheme scheme = Some alg
    /\ authority_sign authority (scheme_into_u16 scheme)
         (signed_text (unix_now_secs since) cert dns alg) = Ok sig
    /\ fields = mkSignatureFields (content_digest_value dns)
                  (signature_input_value (unix_now_secs since) (keyid_for_cert cert) alg)
                  (signature_value sig).
Proof.
  intros Hc. unfold SignatureFields_sign.
  destruct (head (authority_certificates authority)) as [cert|]; [|done]. cbn [ok_or].
  destruct (canonical_scheme_for_spki _) as [scheme|]; [|done]. cbn [ok_or].
  destruct (alg_name_for_scheme scheme) as [alg|] eqn:Ha; [|done]. cbn [ok_or].
  rewrite signature_base_value by (done || by eapply alg_name_ascii).
  destruct (authority_sign _ _ _) as [sig|] eqn:Hs; [|done]. cbn [result_map_err].
  intros [= <-]. eauto 10.
Qed.

Lemma fields_ascii created cert dns alg :
  u_ok 64 created -> ascii alg ->
  ascii (content_digest_value dns)
  /\ ascii (signature_input_value created (keyid_for_cert cert) alg).
Proof.
  intros Hc Ha. destruct (keyid_ascii cert) as [Hk _].
  destruct (decimal_ascii created ltac:(apply Hc)) as [Hd _].
  unfold content_digest_value, signature_input_value. rewrite !ascii_app.
  split_and!; try done; try apply base64_encode_ascii; unfold ascii; decide_now.
Qed.

Lemma signature_value_ascii sig : ascii (signature_value sig).
Proof.
  unfold signature_value. rewrite !ascii_app.
  split_and!; try apply base64_encode_ascii; unfold ascii; decide_now.
Qed.

(** Verification of signed fields against any packet and certificate. *)
Lemma verify_signed created cert dns alg scheme sig dns' cert' :
  u_ok 64 created -> alg_name_for_scheme scheme = Some alg -> bytes_ok sig ->
  SignatureFields_verify
    (mkSignatureFields (content_digest_value dns)
       (signature_input_value created (keyid_for_cert cert) alg) (signature_value sig)) dns' cert'
  = if bool_decide (sha256 dns <> sha256 dns') then Err DigestMismatch
    else if bool_decide (keyid_for_cert cert <> keyid_for_cert cert') then Ok false
    else let? spki := result_map_err FieldsInvalidCertificate (parse_x509_certificate cert') in
         result_map_err FieldsVerify
           (verify spki scheme (signed_text created cert dns alg) sig).
Proof.
  intros Hc Halg Hsig. destruct (alg_name_ascii _ _ Halg) as [Ha Hsemi].
  destruct (fields_ascii created cert dns alg Hc Ha) as [Hcd Hsi].
  destruct (keyid_ascii cert) as [_ Hk]. unfold SignatureFields_verify.
  cbn [SignatureFields_is_empty is_empty_bytes content_digest signature_input fields_signature].
  change (SignatureFields_is_empty _) with false. cbv iota.
  rewrite field_str_ascii, verify_content_digest_value by done.
  case_bool_decide; [done|]. rewrite field_str_ascii, parse_signature_input_value by done.
  cbn [parsed_keyid parsed_alg]. case_bool_decide; [done|].
  rewrite (proj1 (scheme_names_inverse scheme alg) Halg). cbn [ok_or].
  rewrite field_str_ascii by apply signature_value_ascii.
  rewrite parse_signature_value, signature_base_value by done. done.
Qed.

(** A signature of an authority under the canonical scheme of its key. *)
Lemma authority_signature authority scheme text sig :
  authority_for authority ->
  canonical_scheme_for_spki (authority_public_key authority) = Some scheme ->
  authority_sign authority (scheme_into_u16 scheme) text = Ok sig ->
  bytes_ok sig /\ verify (authority_public_key authority) scheme text sig = Ok true.
Proof.
  intros Hauth Hs Hsg. destruct (proj2 (ring_algorithm_supported scheme)) as [ralg Halg].
  { pose proof (canonical_scheme_supported _ _ Hs). unfold SIGNATURE_SCHEME_PREFERENCE. set_solver. }
  assert (exists oid params pk, spki_from_der (authority_public_key authority)
    = Some (oid, params, pk)) as (oid & params & pk & Hder).
  { unfold canonical_scheme_for_spki in Hs.
    destruct (spki_from_der _) as [[[??]?]|]; [eauto|done]. }
  destruct (Hauth _ _ _ _ _ _ _ Hsg Hder Halg) as (Hb & _ & Hv).
  split; [done|]. unfold verify. by rewrite Halg, Hder, Hv.
Qed.

Lemma sign_verifies since dns authority fields cert :
  u_ok 64 (unix_now_secs since) -> authority_for authority ->
  head (authority_certificates authority) = Some cert ->
  parse_x509_certificate cert = Ok (authority_public_key authority) ->
  SignatureFields_sign since dns authority = Ok fields ->
  SignatureFields_verify fields dns cert = Ok true.
Proof.
  intros Hc Hauth Hcert Hx Hsign.
  destruct (sign_inv _ _ _ _ Hc Hsign) as (cert0 & scheme & alg & sig & Hh & Hs & Ha & Hsg & ->).
  rewrite Hcert in Hh. injection Hh as <-.
  destruct (authority_signature _ _ _ _ Hauth Hs Hsg) as [Hb Hv].
  rewrite (verify_signed _ _ _ _ scheme) by done.
  rewrite !bool_decide_false by tauto. rewrite Hx. cbn [result_map_err]. by rewrite Hv.
Qed.
End SignFacts.

(** ** Hexadecimal text and byte sums as a model of the text encodings *)
Module TextModel.
Definition unhex_digit (c : Z) : Z := if c <? 58 then c - 48 else c - 87.

Fixpoint unhex (l : bytes) : Result bytes bytes :=
  match l with
  | [] => Ok []
  | [_] => Err (str "odd length")
  | a :: b :: l => let? r := unhex l in Ok (unhex_digit a * 16 + unhex_digit b :: r)
  end.

#[export] Instance parsers : CertificateParsers := {|
  parse_x509_certificate cert := Ok cert;
  pem_first_certificate pem := Some (Ok pem);
  base64_standard_decode := unhex;
  base64_standard_encode x := List.concat (map hex02 (map (fun b => b mod 256) x));
  fs_read path := Ok path;
|}.

#[export] Instance digest : Sha256 := {| sha256 x := map (fun b => b mod 256) x |}.

Lemma mod_bytes_ok x : bytes_ok (map (fun b => b mod 256) x).
Proof. apply Forall_fmap, Forall_true. intros b. cbn. apply Z.mod_pos_bound. lia. Qed.

Lemma mod_bytes_id x : bytes_ok x -> map (fun b => b mod 256) x = x.
Proof.
  induction 1 as [|b x Hb Hx IH]; [done|]. cbn [map]. rewrite IH.
  by rewrite Z.mod_small by exact Hb.
Qed.

Lemma unhex_hex x : bytes_ok x -> unhex (List.concat (map hex02 x)) = Ok x.
Proof.
  induction 1 as [|b x Hb Hx IH]; [done|]. cbn [map List.concat hex02 app unhex]. rewrite IH.
  set (P := fun c => unhex_digit (hex_digit (c / 16)) * 16 + unhex_digit (hex_digit (c mod 16)) =? c).
  assert (P b = true) as HP by (apply (byte_enum P); [vm_compute; reflexivity|done]).
  apply Z.eqb_eq in HP. by rewrite HP.
Qed.

#[export] Instance text_spec : TextSpec parsers digest.
Proof.
  constructor; cbn.
  - intros x Hx. rewrite mod_bytes_id by done. by apply unhex_hex.
  - intros x. pose proof (mod_bytes_ok x) as Hx. induction Hx as [|b l Hb Hl IH]; [constructor|].
    cbn [map List.concat]. apply Forall_app. split; [by apply hex02_spec|done].
  - apply mod_bytes_ok.
Qed.
End TextModel.

(** ** Properties *)

(** C14: the fields produced by [sign] verify for the packet that was signed and the
    certificate of the authority, and bind both: another packet with another
    digest is rejected with [DigestMismatch], and a certificate with another
    fingerprint is not accepted. *)
Theorem signature_fields_verify `{CryptoSpec} `{TextSpec} (since_epoch : option Z)
    (dns : bytes) (authority : LocalAuthority) (fields : SignatureFields) (cert : bytes) :
  u_ok 64 (unix_now_secs since_epoch) -> authority_for authority ->
  head (authority_certificates authority) = Some cert ->
  parse_x509_certificate cert = Ok (authority_public_key authority) ->
  SignatureFields_sign since_epoch dns authority = Ok fields ->
  SignatureFields_verify fields dns cert = Ok true
  /\ (forall dns' cert', sha256 dns' <> sha256 dns ->
        SignatureFields_verify fields dns' cert' = Err DigestMismatch)
  /\ (forall cert', keyid_for_cert cert' <> keyid_for_cert cert ->
        SignatureFields_verify fields dns cert' = Ok false).
Proof.
  intros Hc Hauth Hcert Hx Hsign.
  split; [by eapply sign_verifies|].
  destruct (sign_inv _ _ _ _ Hc Hsign) as (cert0 & scheme & alg & sig & Hh & Hs & Ha & Hsg & ->).
  rewrite Hcert in Hh. injection Hh as <-.
  destruct (authority_signature _ _ _ _ Hauth Hs Hsg) as [Hb _].
  split.
  - intros dns' cert' Hne. rewrite (verify_signed _ _ _ _ scheme) by done.
    by rewrite bool_decide_true by congruence.
  - intros cert' Hne. rewrite (verify_signed _ _ _ _ scheme) by done.
    rewrite bool_decide_false by tauto. by rewrite bool_decide_true by congruence.
Qed.

(** An authority whose certificate is its public key, as [TextModel] parses it. *)
Definition fields_authority : LocalAuthority :=
  mkLocalAuthority [[1; 9; 9]] [1; 9; 9] (fun _ data =>
    if bool_decide (bytes_ok data /\ blen data < 1000) then Ok ([9; 9] ++ data)
    else Err SigningFailed).

Lemma fields_authority_for : authority_for (K := CryptoModel.crypto) fields_authority.
Proof.
  intros s data sig oid params pk alg. cbn. case_bool_decide as Hd; [|done].
  intros [= <-] [= <- <- <-] _. destruct Hd as [Hd Hl].
  split; [|split; [blen_lia|by apply bool_decide_eq_true]].
  repeat constructor; unfold byte_ok; try lia. exact Hd.
Qed.

Definition sample_fields : SignatureFields :=
  unwrap_or (SignatureFields_sign (K := CryptoModel.crypto) (P := TextModel.parsers)
    (S := TextModel.digest) (Some 1700000000) [1; 2; 3] fields_authority) SignatureFields_empty.

Example signature_fields_verify_witness :
  exists fields,
    SignatureFields_sign (K := CryptoModel.crypto) (P := TextModel.parsers) (S := TextModel.digest)
      (Some 1700000000) [1; 2; 3] fields_authority = Ok fields
    /\ SignatureFields_verify (K := CryptoModel.crypto) (P := TextModel.parsers)
         (S := TextModel.digest) fields [1; 2; 3] [1; 9; 9] = Ok true.
Proof.
  assert (SignatureFields_sign (K := CryptoModel.crypto) (P := TextModel.parsers)
    (S := TextModel.digest) (Some 1700000000) [1; 2; 3] fields_authority
    = Ok sample_fields) as Hs by (apply is_ok_unwrap; vm_compute; reflexivity).
  exists sample_fields. split; [exact Hs|].
  apply (signature_fields_verify (H := CryptoModel.crypto_spec) (H0 := TextModel.text_spec)
    (Some 1700000000) [1; 2; 3] fields_authority).
  - decide_now.
  - exact fields_authority_for.
  - reflexivity.
  - reflexivity.
  - exact Hs.
Defined.

(** A signature input that [sign] writes is parsed back to the key id and the
    algorithm it was made from, whatever the time of its creation. *)
Theorem signature_input_roundtrip `{CryptoSpec} (created : Z) (keyid alg : bytes) :
  u_ok 64 created -> semicolon ∉ keyid -> semicolon ∉ alg ->
  exists params, parse_signature_input (signature_input_value created keyid alg)
    = Ok (mkParsedSignatureInput params alg keyid)
    /\ signature_input_value created keyid alg = str "dns=" ++ params.
Proof.
  intros. eexists. split; [by apply parse_signature_input_value|].
  rewrite signature_input_shape. reflexivity.
Qed.

Example signature_input_roundtrip_witness :
  exists params, parse_signature_input (K := CryptoModel.crypto)
      (signature_input_value 18446744073709551615 (str "sha256:ab") (str "ed25519"))
    = Ok (mkParsedSignatureInput params (str "ed25519") (str "sha256:ab"))
    /\ signature_input_value 18446744073709551615 (str "sha256:ab") (str "ed25519")
       = str "dns=" ++ params.
Proof.
  apply (signature_input_roundtrip (H := CryptoModel.crypto_spec)); decide_now.
Defined.
