(* ===== verification/Wire.v ===== *)
(** * Multi-record responses: src/core/wire.rs

    The body of an HTTP lookup response: a count and, per record, five fields
    with their lengths. *)

From stdpp Require Import base list numbers option.
From S2P Require Import Prelude Nom RustString Sigin Certificate Endpoint Signature.

Record ResponseRecord := mkResponseRecord {
  signature_fields : SignatureFields;
  dns : bytes;
  cert : bytes;
}.

Global Instance ResponseRecord_eq_dec : EqDecision ResponseRecord.
Proof. solve_decision. Defined.

Definition ResponseRecord_new (fields : SignatureFields) (dns cert : bytes) : ResponseRecord :=
  mkResponseRecord fields dns cert.
Definition ResponseRecord_unsigned (dns cert : bytes) : ResponseRecord :=
  ResponseRecord_new SignatureFields_empty dns cert.

(** [ResponseRecord::cert_fingerprint_hex]. *)
Definition record_cert_fingerprint_hex `{Sha256} (self : ResponseRecord) : option bytes :=
  match cert self with
  | [] => None
  | _ => Some (List.concat (map hex02 (sha256 (cert self))))
  end.

(** [extract] is [dhttp_home::certificate::extract_dhttp_subject_key_identifier]
    followed by [.ok()] and [.chain()]. *)
Definition publisher_certificate_chain_key `{Certificates}
    (extract : bytes -> option CertificateChainKey) (self : ResponseRecord)
  : option CertificateChainKey :=
  match cert self with
  | [] => None
  | _ => extract (cert self)
  end.

Record MultiResponse := mkMultiResponse { records : list ResponseRecord }.

Definition MultiResponse_new (iter : list ResponseRecord) : MultiResponse := mkMultiResponse iter.

Definition record_size (record : ResponseRecord) : Z :=
  4 + blen (content_digest (signature_fields record))
  + 4 + blen (signature_input (signature_fields record))
  + 4 + blen (fields_signature (signature_fields record))
  + 4 + blen (dns record)
  + 4 + blen (cert record).

Definition multi_encoding_size (self : MultiResponse) : Z :=
  4 + foldr Z.add 0 (map record_size (records self)).

Section Wire.
Context `{N : Nom} `{B : BufMut}.

Definition put_field (buf value : bytes) : bytes :=
  let buf := put_u32 buf (as_u 32 (blen value)) in
  put_slice buf value.

Definition put_response_record (buf : bytes) (record : ResponseRecord) : bytes :=
  let buf := put_field buf (content_digest (signature_fields record)) in
  let buf := put_field buf (signature_input (signature_fields record)) in
  let buf := put_field buf (fields_signature (signature_fields record)) in
  let buf := put_field buf (dns record) in
  put_field buf (cert record).

Definition put_multi_response (buf : bytes) (response : MultiResponse) : bytes :=
  let buf := put_u32 buf (as_u 32 (blen (records response))) in
  fold_left put_response_record (records response) buf.

Definition encode (self : MultiResponse) : bytes := put_multi_response [] self.

(** The loop of [encode_records]: [checked_add] on the [u32] counter panics. *)
Fixpoint encode_records_loop (buf : bytes) (count : Z) (rs : list ResponseRecord)
  : may_panic (bytes * Z) :=
  match rs with
  | [] => Some (buf, count)
  | record :: rs =>
      if count + 1 <? 2 ^ 32
      then encode_records_loop (put_response_record buf record) (count + 1) rs
      else None
  end.

Definition encode_records (rs : list ResponseRecord) : may_panic bytes :=
  let buf := put_u32 [] 0 in
  '(buf, count) ← encode_records_loop buf 0 rs;
  (* buf[..4].copy_from_slice(&count.to_be_bytes()) *)
  if (4 <=? blen buf) then Some (to_be 4 count ++ drop 4 buf) else None.

Definition be_field (input : bytes) : IResult bytes :=
  let? (input, len) := be_u32 input in
  let? (input, value) := nom_take len input in
  Ok (input, value).

Fixpoint be_records (count : nat) (input : bytes) (rs : list ResponseRecord)
  : IResult (list ResponseRecord) :=
  match count with
  | O => Ok (input, rs)
  | S count =>
      let? (rest, content_digest) := be_field input in
      let? (rest, signature_input) := be_field rest in
      let? (rest, signature) := be_field rest in
      let? (rest, dns) := be_field rest in
      let? (rest, cert) := be_field rest in
      be_records count rest
        (rs ++ [ResponseRecord_new (mkSignatureFields content_digest signature_input signature)
                  dns cert])
  end.

(** The capacity reserved for the announced number of records is not part of the model. *)
Definition be_multi_response (input : bytes) : IResult MultiResponse :=
  let? (input, count) := be_u32 input in
  let? (input, rs) := be_records (Z.to_nat count) input [] in
  Ok (input, mkMultiResponse rs).
End Wire.

(** ** The encoding as a function of the value *)
Definition field_bytes (v : bytes) : bytes := to_be 4 (blen v) ++ v.

Definition record_bytes (r : ResponseRecord) : bytes :=
  field_bytes (content_digest (signature_fields r))
  ++ field_bytes (signature_input (signature_fields r))
  ++ field_bytes (fields_signature (signature_fields r))
  ++ field_bytes (dns r) ++ field_bytes (cert r).

Definition response_bytes (r : MultiResponse) : bytes :=
  to_be 4 (blen (records r)) ++ List.concat (map record_bytes (records r)).

(** Field lengths fit the [u32] they are written to. *)
Definition field_ok (v : bytes) : Prop := blen v < 2 ^ 32.
Definition response_record_ok (r : ResponseRecord) : Prop :=
  field_ok (content_digest (signature_fields r)) /\ field_ok (signature_input (signature_fields r))
  /\ field_ok (fields_signature (signature_fields r)) /\ field_ok (dns r) /\ field_ok (cert r).
Definition response_ok (r : MultiResponse) : Prop :=
  blen (records r) < 2 ^ 32 /\ Forall response_record_ok (records r).

Global Instance response_ok_dec r : Decision (response_ok r).
Proof. unfold response_ok, response_record_ok, field_ok. apply _. Defined.

Lemma field_bytes_length v : blen (field_bytes v) = 4 + blen v.
Proof. unfold field_bytes. autorewrite with blen. lia. Qed.

Lemma record_bytes_length r : blen (record_bytes r) = record_size r.
Proof. unfold record_bytes, record_size. rewrite !blen_app, !field_bytes_length. lia. Qed.

Section WriteFacts.
Context `{BS : BufMutSpec}.

Lemma put_field_bytes buf v : put_field buf v = buf ++ field_bytes v.
Proof.
  unfold put_field, field_bytes. autorewrite with put. rewrite <- app_assoc. do 2 f_equal.
  exact (to_be_mod 4 (blen v) 4 ltac:(lia)).
Qed.

Lemma put_response_record_bytes buf r : put_response_record buf r = buf ++ record_bytes r.
Proof.
  unfold put_response_record, record_bytes. rewrite !put_field_bytes. by rewrite <- !app_assoc.
Qed.

Lemma put_all_records rs : forall buf,
  fold_left put_response_record rs buf = buf ++ List.concat (map record_bytes rs).
Proof.
  induction rs as [|r rs IH]; intros buf; cbn [fold_left map List.concat]; [by rewrite app_nil_r|].
  rewrite IH, put_response_record_bytes. by rewrite <- app_assoc.
Qed.

Lemma encode_bytes r : encode r = response_bytes r.
Proof.
  unfold encode, put_multi_response, response_bytes. rewrite put_all_records, put_u32_spec.
  cbn [app]. f_equal. exact (to_be_mod 4 (blen (records r)) 4 ltac:(lia)).
Qed.

Lemma encode_records_loop_bytes rs : forall buf count,
  0 <= count -> count + blen rs < 2 ^ 32 ->
  encode_records_loop buf count rs
  = Some (buf ++ List.concat (map record_bytes rs), count + blen rs).
Proof.
  induction rs as [|r rs IH]; intros buf count Hc Hlen; cbn [encode_records_loop map List.concat].
  { rewrite app_nil_r, blen_nil. do 2 f_equal. lia. }
  rewrite blen_cons in *. pose proof (blen_nonneg rs).
  rewrite (proj2 (Z.ltb_lt _ _)) by lia. rewrite IH by lia.
  rewrite put_response_record_bytes, <- app_assoc. do 2 f_equal. lia.
Qed.

Lemma encode_records_loop_overflow rs : forall buf count,
  0 <= count < 2 ^ 32 -> 2 ^ 32 <= count + blen rs -> encode_records_loop buf count rs = None.
Proof.
  induction rs as [|r rs IH]; intros buf count Hc Hlen; cbn [encode_records_loop].
  { rewrite blen_nil in *. lia. }
  rewrite blen_cons in *. destruct (Z.ltb_spec (count + 1) (2 ^ 32)); [apply IH; lia|done].
Qed.

Lemma encode_records_spec rs :
  encode_records rs
  = if blen rs <? 2 ^ 32 then Some (encode (mkMultiResponse rs)) else None.
Proof.
  unfold encode_records. destruct (Z.ltb_spec (blen rs) (2 ^ 32)).
  - rewrite encode_records_loop_bytes, encode_bytes, put_u32_spec by lia.
    cbn [mbind option_bind]. rewrite Z.add_0_l.
    rewrite (proj2 (Z.leb_le _ _)) by (autorewrite with blen;
      pose proof (blen_nonneg (List.concat (map record_bytes rs))); lia).
    done.
  - by rewrite encode_records_loop_overflow by lia.
Qed.
End WriteFacts.

Section ReadFacts.
Context `{NS : NomSpec}.

Lemma be_field_app v rest : field_ok v -> be_field (field_bytes v ++ rest) = Ok (rest, v).
Proof.
  intros Hv. unfold be_field, field_bytes. rewrite <- app_assoc.
  rewrite be_u32_app by (split; [apply blen_nonneg|exact Hv]). by rewrite nom_take_app.
Qed.

Lemma be_records_app rs : forall acc rest,
  Forall response_record_ok rs ->
  be_records (length rs) (List.concat (map record_bytes rs) ++ rest) acc = Ok (rest, acc ++ rs).
Proof.
  induction rs as [|r rs IH]; intros acc rest Hrs; cbn [length be_records map List.concat].
  { by rewrite app_nil_r. }
  pose proof (Forall_inv Hrs) as (H1 & H2 & H3 & H4 & H5). apply Forall_inv_tail in Hrs.
  unfold record_bytes at 1. rewrite <- !app_assoc. rewrite !be_field_app by done.
  rewrite IH by done. rewrite <- app_assoc. destruct r as [[] ? ?]. done.
Qed.

Lemma be_multi_response_bytes r rest :
  response_ok r -> be_multi_response (response_bytes r ++ rest) = Ok (rest, r).
Proof.
  destruct r as [rs]. intros [Hlen Hrs]. unfold be_multi_response, response_bytes.
  cbn [records] in *. rewrite <- app_assoc, be_u32_app by (split; [apply blen_nonneg|done]).
  unfold blen. by rewrite Nat2Z.id, be_records_app.
Qed.

Lemma be_field_yields input :
  bytes_ok input -> yields (be_field input) input (fun l v => l = field_bytes v /\ bytes_ok v
    /\ field_ok v).
Proof.
  intros Hok. unfold be_field. yields_step be_u32_yields.
  eapply yields_bind; [apply nom_take_yields; [apply Hv|done]|].
  intros l' r' x -> (-> & Hx & Hxb). apply yields_ok. rewrite app_nil_r. unfold field_bytes.
  rewrite Hx, (reads_to_be _ _ _ _ Hv) by done. split; [done|]. split; [done|].
  unfold field_ok. rewrite Hx. apply Hv.
Qed.

Lemma be_records_yields count : forall input acc,
  bytes_ok input ->
  yields (be_records count input acc) input (fun l rs => exists rs', rs = acc ++ rs'
    /\ length rs' = count /\ Forall response_record_ok rs'
    /\ l = List.concat (map record_bytes rs')).
Proof.
  induction count as [|count IH]; intros input acc Hok; cbn [be_records].
  { apply yields_ok. exists []. by rewrite app_nil_r. }
  do 5 yields_step be_field_yields. eapply yields_weaken; [by apply IH|].
  intros l' rs (rs' & -> & Hlen & Hf & ->). eexists (_ :: rs'). rewrite <- app_assoc.
  split; [reflexivity|]. cbn [length map List.concat]. split; [by rewrite Hlen|].
  destruct Hv as (-> & _ & ?), Hv0 as (-> & _ & ?), Hv1 as (-> & _ & ?), Hv2 as (-> & _ & ?),
    Hv3 as (-> & _ & ?).
  split; [by constructor|]. unfold record_bytes at 2. cbn. by rewrite <- !app_assoc.
Qed.

Lemma be_multi_response_yields input :
  bytes_ok input ->
  yields (be_multi_response input) input (fun l r => l = response_bytes r /\ response_ok r).
Proof.
  intros Hok. unfold be_multi_response. yields_step be_u32_yields.
  eapply yields_bind; [by apply be_records_yields|].
  intros l' r' rs -> (rs' & -> & Hlen & Hf & ->). apply yields_ok.
  pose proof Hv as (_ & _ & Hu). unfold u_ok in Hu.
  assert (blen rs' = v) as Hb by (unfold blen; lia).
  rewrite app_nil_r. unfold response_bytes, response_ok. cbn [records app].
  rewrite Hb, (reads_to_be _ _ _ _ Hv) by done. split; [done|]. split; [lia|done].
Qed.
End ReadFacts.

(** ** Properties *)

(** C26: a multi-record response whose lengths fit their [u32] fields is encoded in
    [encoding_size] bytes and decoded to the same response; conversely, the
    decoder is total and what it accepts is re-encoded to the bytes it consumed. *)
Theorem multi_response_codec `{NomSpec} `{BufMutSpec} :
  (forall r rest, response_ok r ->
     blen (encode r) = multi_encoding_size r /\ be_multi_response (encode r ++ rest) = Ok (rest, r))
  /\ (forall input, bytes_ok input ->
        match be_multi_response input with
        | Ok (remain, r) => input = encode r ++ remain /\ response_ok r
        | Err e => err_ok e
        end).
Proof.
  split.
  - intros [rs] rest [Hlen Hrs]. rewrite encode_bytes. unfold response_bytes, multi_encoding_size.
    cbn [records] in *. split.
    + rewrite blen_app, blen_to_be. f_equal. clear. induction rs as [|r rs IH]; [done|].
      cbn [map List.concat foldr]. by rewrite blen_app, record_bytes_length, IH.
    + by apply (be_multi_response_bytes (mkMultiResponse rs)).
  - intros input Hok.
    pose proof (be_multi_response_yields input Hok) as Hy.
    destruct (be_multi_response input) as [[remain r]|]; [|done].
    destruct Hy as (l & -> & -> & ?). by rewrite encode_bytes.
Qed.

Example multi_response_codec_witness :
  let r := mkMultiResponse [ResponseRecord_unsigned [1; 2; 3] [4; 5];
             mkResponseRecord (mkSignatureFields (str "d") (str "i") (str "s")) [6] []] in
  blen (encode (B := NomModel.buf_mut) r) = multi_encoding_size r
  /\ be_multi_response (N := NomModel.nom) (encode (B := NomModel.buf_mut) r ++ [9]) = Ok ([9], r).
Proof.
  apply (multi_response_codec (H := NomModel.nom_spec) (H0 := NomModel.buf_mut_spec)). decide_now.
Defined.

(** The streaming encoder [encode_records], which reserves the count and writes
    it at the end, produces the bytes of [encode]; it panics exactly when the
    number of records does not fit the [u32] count, where [encode] would
    truncate it. *)
Theorem encode_records_correct `{BufMutSpec} (rs : list ResponseRecord) :
  encode_records rs
  = if blen rs <? 2 ^ 32 then Some (encode (MultiResponse_new rs)) else None.
Proof. apply encode_records_spec. Qed.

Example encode_records_correct_witness :
  encode_records (B := NomModel.buf_mut) [ResponseRecord_unsigned [1] []]
  = Some (encode (B := NomModel.buf_mut)
            (MultiResponse_new [ResponseRecord_unsigned [1] []])).
Proof.
  exact (encode_records_correct (H := NomModel.buf_mut_spec) [ResponseRecord_unsigned [1] []]).
Defined.
