(* ===== verification/Candidates.v ===== *)
(** * Endpoint candidates: src/resolvers/endpoint_candidates.rs and
    src/resolvers/endpoint_group.rs

    Endpoint records are grouped by the certificate chain they belong to; only
    primary chains are kept.  [grouped_spec] is the abstract description of the
    grouping, and [grouped_endpoint_candidates] is shown to implement it. *)

From stdpp Require Import base list numbers option sets.
From S2P Require Import Prelude RustString Certificate Endpoint.

(** [qresolve::Family]. *)
Inductive Family := FamilyV4 | FamilyV6.

Global Instance Family_eq_dec : EqDecision Family.
Proof. solve_decision. Defined.

Section Lookup.
Context `{C : Certificates}.

(** The sources are values of [qresolve::Source], which the crate passes on. *)
Record EndpointCandidateGroup {Source : Type} := mkEndpointCandidateGroup {
  chain : CertificateChainKey;
  endpoints : list Dquic.EndpointAddr;
  sources : list Source;
}.

Record EndpointCandidates {Source : Type} := mkEndpointCandidates {
  groups : list (EndpointCandidateGroup (Source := Source));
}.

Inductive SequenceQuery :=
| DefaultSequences
| Exact (sequence : CertificateSequence)
| Limit (count : Z)
| All.

Record EndpointLookup := mkEndpointLookup {
  sequences : SequenceQuery;
  record_limit : option Z;
  family : option Family;
}.

Definition lookup_exact (s : CertificateSequence) : EndpointLookup :=
  mkEndpointLookup (Exact s) None None.
Definition lookup_limit (count : Z) : EndpointLookup := mkEndpointLookup (Limit count) None None.
Definition lookup_all : EndpointLookup := mkEndpointLookup All None None.
Definition with_record_limit (self : EndpointLookup) (count : Z) : EndpointLookup :=
  mkEndpointLookup (sequences self) (Some count) (family self).
Definition with_family (self : EndpointLookup) (f : option Family) : EndpointLookup :=
  mkEndpointLookup (sequences self) (record_limit self) f.

Global Instance SequenceQuery_eq_dec : EqDecision SequenceQuery.
Proof. solve_decision. Defined.
Global Instance EndpointLookup_eq_dec : EqDecision EndpointLookup.
Proof. solve_decision. Defined.

(** The query string: [url::Url::query_pairs_mut().append_pair] adds a pair. *)
Definition append_endpoint_lookup_query (pairs : list (bytes * bytes)) (lookup : EndpointLookup)
  : list (bytes * bytes) :=
  let pairs :=
    match sequences lookup with
    | DefaultSequences => pairs
    | Exact s => pairs ++ [(str "sequence", decimal (seq_get s))]
    | Limit limit => pairs ++ [(str "sequence_limit", decimal limit)]
    | All => pairs ++ [(str "sequence_limit", str "all")]
    end in
  match record_limit lookup with
  | Some limit => pairs ++ [(str "record_limit", decimal limit)]
  | None => pairs
  end.

Definition select_group_pairs {T} (gs : list (CertificateChainKey * T)) (query : SequenceQuery)
  : list (CertificateChainKey * T) :=
  match query with
  | DefaultSequences => take 3 gs
  | Exact s => List.filter (fun '(chain, _) => bool_decide (chain_sequence chain = s)) gs
  | Limit limit => take (Z.to_nat limit) gs
  | All => gs
  end.
End Lookup.
Arguments EndpointCandidateGroup {C} Source.
Arguments EndpointCandidates {C} Source.
Arguments mkEndpointCandidateGroup {C Source}.
Arguments mkEndpointCandidates {C Source}.

(** ** Families; [dquic_addr] is [qresolve::EndpointAddr::addr] *)
Section Families.
Context `{C : Certificates} (dquic_addr : Dquic.EndpointAddr -> SocketAddr).

Definition endpoint_matches_family (endpoint : Dquic.EndpointAddr) (f : option Family) : bool :=
  match f with
  | None => true
  | Some FamilyV4 => negb (is_v6 (dquic_addr endpoint))
  | Some FamilyV6 => is_v6 (dquic_addr endpoint)
  end.

Definition filter_endpoint_candidate_groups {T}
    (gs : list (CertificateChainKey * list (T * Dquic.EndpointAddr))) (f : option Family)
  : list (CertificateChainKey * list (T * Dquic.EndpointAddr)) :=
  match f with
  | None => gs
  | Some _ =>
      let gs := map (fun '(k, es) =>
        (k, List.filter (fun '(_, e) => endpoint_matches_family e f) es)) gs in
      List.filter (fun '(_, es) => match es with [] => false | _ => true end) gs
  end.
End Families.

(** ** Grouping *)
Section Grouping.
Context `{C : Certificates} {T : Type}.

Record TaggedEndpointCandidate := mkTagged {
  tag : T;
  record : EndpointAddr;
  fallback_chain_key : option CertificateChainKey;
}.

Definition effective_chain_key (r : EndpointAddr) (fallback : option CertificateChainKey)
  : may_panic CertificateChainKey :=
  if is_main r || is_some (sequence r) then certificate_chain_key r
  else match fallback with
       | Some k => Some k
       | None => certificate_chain_key r
       end.

(** [groups.iter_mut().find(..)]: push to the first group with the key, or a new one. *)
Fixpoint push_group (gs : list (CertificateChainKey * list (T * Dquic.EndpointAddr)))
    (k : CertificateChainKey) (x : T * Dquic.EndpointAddr)
  : list (CertificateChainKey * list (T * Dquic.EndpointAddr)) :=
  match gs with
  | [] => [(k, [x])]
  | (key, es) :: gs =>
      if bool_decide (key = k) then (key, es ++ [x]) :: gs else (key, es) :: push_group gs k x
  end.

Fixpoint group_loop (records : list TaggedEndpointCandidate)
    (gs : list (CertificateChainKey * list (T * Dquic.EndpointAddr)))
  : may_panic (list (CertificateChainKey * list (T * Dquic.EndpointAddr))) :=
  match records with
  | [] => Some gs
  | r :: records =>
      chain_key ← effective_chain_key (record r) (fallback_chain_key r);
      if negb (is_primary_chain_key chain_key) then group_loop records gs
      else match dquic_try_from_endpoint (record r) with
           | Err _ => group_loop records gs
           | Ok endpoint => group_loop records (push_group gs chain_key (tag r, endpoint))
           end
  end.

Definition grouped_endpoint_candidates (records : list TaggedEndpointCandidate)
  : may_panic (list (CertificateChainKey * list (T * Dquic.EndpointAddr))) :=
  group_loop records [].

(** ** Selection of one group *)
Definition selected_endpoint_records_with_fallback_chain_keys
    (records : list (T * EndpointAddr * option CertificateChainKey))
    (seq : option CertificateSequence) : may_panic (list (T * Dquic.EndpointAddr)) :=
  gs ← grouped_endpoint_candidates (map (fun '(t, r, k) => mkTagged t r k) records);
  match seq with
  | Some s =>
      Some (match List.find (fun '(k, _) =>
              is_primary_chain_key k && bool_decide (chain_sequence k = s)) gs with
            | Some (_, es) => es
            | None => []
            end)
  | None => Some (match gs with (_, es) :: _ => es | [] => [] end)
  end.

Definition selected_endpoint_records (records : list (T * EndpointAddr))
  : may_panic (list (T * Dquic.EndpointAddr)) :=
  selected_endpoint_records_with_fallback_chain_keys
    (map (fun '(t, r) => (t, r, None)) records) None.

Definition selected_endpoint_records_for_sequence (records : list (T * EndpointAddr))
    (seq : option CertificateSequence) : may_panic (list (T * Dquic.EndpointAddr)) :=
  selected_endpoint_records_with_fallback_chain_keys
    (map (fun '(t, r) => (t, r, None)) records) seq.
End Grouping.
Arguments TaggedEndpointCandidate {C} T.

Definition selected_endpoint_addrs `{Certificates} (records : list EndpointAddr)
  : may_panic (list Dquic.EndpointAddr) :=
  es ← selected_endpoint_records (map (fun r => (tt, r)) records);
  Some (map snd es).

Definition selected_endpoint_addrs_for_sequence `{Certificates} (records : list EndpointAddr)
    (seq : option CertificateSequence) : may_panic (list Dquic.EndpointAddr) :=
  match seq with
  | Some s =>
      es ← selected_endpoint_records_for_sequence (map (fun r => (tt, r)) records) (Some s);
      Some (map snd es)
  | None => selected_endpoint_addrs records
  end.

(** ** Specification of the grouping *)
Section Spec.
Context `{CS : CertificatesSpec} {T : Type}.

(** The chain of a candidate. *)
Definition chain_of (r : TaggedEndpointCandidate T) : CertificateChainKey :=
  let own := CertificateChainKey_new (normalized_sequence (record r))
               (if is_main (record r) then ClientAndServer else ClientOnly) in
  if is_main (record r) || is_some (sequence (record r)) then own
  else default own (fallback_chain_key r).

(** The candidates of primary chains that the transport can address, in order. *)
Definition eligible (r : TaggedEndpointCandidate T)
  : option (CertificateChainKey * (T * Dquic.EndpointAddr)) :=
  if is_primary_chain_key (chain_of r)
  then match dquic_try_from_endpoint (record r) with
       | Ok e => Some (chain_of r, (tag r, e))
       | Err _ => None
       end
  else None.

(** The distinct elements of a list in the order of their first occurrence. *)
Fixpoint firsts {A} `{EqDecision A} (l : list A) : list A :=
  match l with
  | [] => []
  | x :: l => x :: List.filter (fun y => bool_decide (y <> x)) (firsts l)
  end.

Definition values_of {K V} `{EqDecision K} (k : K) (l : list (K * V)) : list V :=
  map snd (List.filter (fun '(k', _) => bool_decide (k' = k)) l).

Definition group_by {K V} `{EqDecision K} (l : list (K * V)) : list (K * list V) :=
  map (fun k => (k, values_of k l)) (firsts (map fst l)).

Definition grouped_spec (records : list (TaggedEndpointCandidate T))
  : list (CertificateChainKey * list (T * Dquic.EndpointAddr)) :=
  group_by (omap eligible records).

Lemma effective_chain_key_spec r :
  effective_chain_key (record r) (fallback_chain_key r) = Some (chain_of r).
Proof.
  unfold effective_chain_key, chain_of, certificate_chain_key.
  destruct (is_main (record r)), (is_some (sequence (record r))), (fallback_chain_key r); done.
Qed.

Lemma firsts_elem {A} `{EqDecision A} (l : list A) x : x ∈ firsts l <-> x ∈ l.
Proof.
  induction l as [|y l IH]; cbn [firsts]; [done|].
  rewrite !elem_of_cons, list_elem_of_In, List.filter_In, <- list_elem_of_In, IH.
  rewrite bool_decide_eq_true. destruct (decide (x = y)); tauto.
Qed.

Lemma firsts_nodup {A} `{EqDecision A} (l : list A) : NoDup (firsts l).
Proof.
  induction l as [|y l IH]; cbn [firsts]; [constructor|]. apply list.NoDup_cons. split.
  - rewrite list_elem_of_In, List.filter_In, bool_decide_eq_true. tauto.
  - apply NoDup_ListNoDup, List.NoDup_filter. by apply NoDup_ListNoDup.
Qed.

Lemma firsts_snoc {A} `{EqDecision A} (l : list A) x :
  firsts (l ++ [x]) = if bool_decide (x ∈ l) then firsts l else firsts l ++ [x].
Proof.
  induction l as [|y l IH]; [done|]. cbn [app firsts]. rewrite IH.
  destruct (decide (x = y)) as [->|Hne].
  - rewrite (bool_decide_true (y ∈ y :: l)) by set_solver. case_bool_decide; [done|].
    rewrite List.filter_app. cbn [List.filter]. rewrite bool_decide_false by tauto.
    by rewrite app_nil_r.
  - destruct (decide (x ∈ l)) as [Hin|Hout].
    + rewrite !bool_decide_true by set_solver. done.
    + rewrite !bool_decide_false by set_solver. rewrite List.filter_app. cbn [List.filter].
      by rewrite bool_decide_true by done.
Qed.

Lemma values_of_app {K V} `{EqDecision K} (k : K) (l l' : list (K * V)) :
  values_of k (l ++ l') = values_of k l ++ values_of k l'.
Proof. unfold values_of. by rewrite List.filter_app, map_app. Qed.

Lemma push_group_map (ks : list CertificateChainKey)
    (f : CertificateChainKey -> list (T * Dquic.EndpointAddr)) k x :
  NoDup ks ->
  push_group (map (fun k' => (k', f k')) ks) k x
  = if bool_decide (k ∈ ks)
    then map (fun k' => (k', if bool_decide (k' = k) then f k' ++ [x] else f k')) ks
    else map (fun k' => (k', f k')) ks ++ [(k, [x])].
Proof.
  induction ks as [|k' ks IH]; intros Hnd; [done|]. apply list.NoDup_cons in Hnd as [Hout Hnd].
  cbn [map push_group]. destruct (decide (k' = k)) as [->|Hne].
  - rewrite (bool_decide_true (k = k)) by done. rewrite (bool_decide_true (k ∈ k :: ks)) by set_solver.
    f_equal. apply map_ext_in. intros y Hy%list_elem_of_In.
    by rewrite bool_decide_false by set_solver.
  - rewrite (bool_decide_false (k' = k)) by done. rewrite IH by done.
    destruct (decide (k ∈ ks)).
    + rewrite !bool_decide_true by set_solver. done.
    + rewrite !bool_decide_false by set_solver. done.
Qed.

Lemma group_by_snoc (l : list (CertificateChainKey * (T * Dquic.EndpointAddr))) k x :
  group_by (l ++ [(k, x)]) = push_group (group_by l) k x.
Proof.
  unfold group_by. rewrite push_group_map by apply firsts_nodup.
  rewrite map_app. cbn [map fst]. rewrite firsts_snoc.
  assert (forall k', values_of k' (l ++ [(k, x)])
    = if bool_decide (k' = k) then values_of k' l ++ [x] else values_of k' l) as Hv.
  { intros k'. rewrite values_of_app. unfold values_of at 2. cbn.
    destruct (decide (k' = k)) as [->|].
    - by rewrite !bool_decide_true.
    - rewrite !bool_decide_false by congruence. cbn. by rewrite app_nil_r. }
  assert (forall ks, map (fun k' => (k', values_of k' (l ++ [(k, x)]))) ks
    = map (fun k' => (k', if bool_decide (k' = k) then values_of k' l ++ [x] else values_of k' l)) ks)
    as Hm by (intros; apply map_ext; intros; by rewrite Hv).
  destruct (decide (k ∈ map fst l)) as [Hin|Hout].
  - rewrite !bool_decide_true by (done || by apply firsts_elem). apply Hm.
  - rewrite !bool_decide_false by (done || by rewrite firsts_elem).
    rewrite Hm, map_app. cbn [map]. f_equal.
    + apply map_ext_in. intros y Hy%list_elem_of_In. rewrite firsts_elem in Hy.
      by rewrite bool_decide_false by set_solver.
    + rewrite bool_decide_true by done. do 2 f_equal.
      unfold values_of. destruct (List.filter _ l) as [|[k' v'] r] eqn:E; [done|].
      assert (In (k', v') (List.filter (fun '(k', _) => bool_decide (k' = k)) l)) as Hin by
        (rewrite E; by left).
      apply List.filter_In in Hin as [Hin Hk]. apply bool_decide_eq_true in Hk as ->.
      destruct Hout. apply list_elem_of_In, in_map_iff. by exists (k, v').
Qed.

Lemma group_loop_spec records : forall l,
  group_loop records (group_by l) = Some (group_by (l ++ omap eligible records)).
Proof.
  induction records as [|r records IH]; intros l; cbn [group_loop omap list_omap].
  { by rewrite app_nil_r. }
  rewrite effective_chain_key_spec. cbn [mbind option_bind]. unfold eligible at 1.
  destruct (is_primary_chain_key (chain_of r)); cbn [negb]; [|apply IH].
  destruct (dquic_try_from_endpoint (record r)) as [e|]; [|apply IH].
  rewrite <- group_by_snoc, IH. by rewrite <- app_assoc.
Qed.

Lemma grouped_refines records : grouped_endpoint_candidates records = Some (grouped_spec records).
Proof. exact (group_loop_spec records []). Qed.
Lemma eligible_inv r k t e :
  eligible r = Some (k, (t, e)) ->
  is_primary_chain_key k = true /\ chain_of r = k /\ tag r = t
  /\ dquic_try_from_endpoint (record r) = Ok e.
Proof.
  unfold eligible. destruct (is_primary_chain_key (chain_of r)) eqn:Hp; [|done].
  destruct (dquic_try_from_endpoint (record r)); [|done]. by intros [= <- <- <-].
Qed.

Lemma values_of_elem {K V} `{EqDecision K} (k : K) (l : list (K * V)) v :
  v ∈ values_of k l <-> (k, v) ∈ l.
Proof.
  unfold values_of. rewrite list_elem_of_In, in_map_iff, list_elem_of_In. split.
  - intros ([k' v'] & <- & [Hin ->%bool_decide_eq_true]%List.filter_In). done.
  - intros Hin. exists (k, v). split; [done|]. apply List.filter_In. split; [done|].
    by apply bool_decide_eq_true.
Qed.

Lemma grouped_chains_nodup records : NoDup (map fst (grouped_spec records)).
Proof.
  unfold grouped_spec, group_by. rewrite map_map. cbn [fst]. rewrite map_id. apply firsts_nodup.
Qed.

(** The members of a group come from candidates of its chain. *)
Lemma grouped_spec_elem records k es :
  (k, es) ∈ grouped_spec records ->
  es <> [] /\ forall x, x ∈ es -> exists r, r ∈ records /\ is_primary_chain_key k = true
    /\ chain_of r = k /\ tag r = x.1 /\ dquic_try_from_endpoint (record r) = Ok x.2.
Proof.
  unfold grouped_spec, group_by. rewrite list_elem_of_In, in_map_iff.
  intros (k' & [= -> <-] & Hk%list_elem_of_In). rewrite firsts_elem in Hk. split.
  - apply list_elem_of_In, in_map_iff in Hk as ([? v] & <- & Hin%list_elem_of_In).
    cbn [fst]. intros E. apply values_of_elem in Hin. rewrite E in Hin.
    by apply not_elem_of_nil in Hin.
  - intros [t e] (r & Hr & He%eligible_inv)%values_of_elem%list_elem_of_omap.
    exists r. tauto.
Qed.
End Spec.

Section SelectFacts.
Context `{CS : CertificatesSpec} {T : Type}.

(** The endpoints of the main records of one sequence, in order. *)
Definition main_endpoint (s : CertificateSequence) (x : T * EndpointAddr)
  : option (T * Dquic.EndpointAddr) :=
  if is_main x.2 && bool_decide (normalized_sequence x.2 = s)
  then match dquic_try_from_endpoint x.2 with Ok e => Some (x.1, e) | Err _ => None end
  else None.

Definition untagged (x : T * EndpointAddr) : TaggedEndpointCandidate T := mkTagged x.1 x.2 None.

Lemma eligible_untagged x :
  eligible (untagged x)
  = if is_main x.2
    then match dquic_try_from_endpoint x.2 with
         | Ok e => Some (CertificateChainKey_new (normalized_sequence x.2) ClientAndServer, (x.1, e))
         | Err _ => None
         end
    else None.
Proof.
  unfold eligible, chain_of, untagged. cbn.
  destruct (is_main x.2); cbn [orb]; [by rewrite is_primary_primary|].
  destruct (is_some _); by rewrite is_primary_secondary.
Qed.

Definition primary_key (s : CertificateSequence) : CertificateChainKey :=
  CertificateChainKey_new s ClientAndServer.

Lemma eligible_keys xs :
  Forall (fun k => exists s, k = primary_key s) (map fst (omap eligible (map untagged xs))).
Proof.
  induction xs as [|x xs IH]; cbn [map omap list_omap]; [constructor|].
  rewrite eligible_untagged. destruct (is_main x.2); [|done].
  destruct (dquic_try_from_endpoint x.2); [|done]. constructor; [by eexists|done].
Qed.

Lemma values_of_sequence s xs :
  values_of (primary_key s) (omap eligible (map untagged xs)) = omap (main_endpoint s) xs.
Proof.
  induction xs as [|x xs IH]; cbn [map omap list_omap]; [done|].
  rewrite eligible_untagged. unfold main_endpoint at 1.
  destruct (is_main x.2); cbn [andb]; [|exact IH].
  destruct (dquic_try_from_endpoint x.2) as [e|]; [|by case_bool_decide].
  unfold values_of in *. cbn [List.filter].
  destruct (decide (normalized_sequence x.2 = s)) as [Hs|Hs].
  - rewrite !bool_decide_true by (unfold primary_key; congruence). cbn [map snd]. by rewrite IH.
  - rewrite (bool_decide_false (normalized_sequence x.2 = s)) by done.
    rewrite bool_decide_false; [exact IH|]. intros E. apply Hs.
    apply (f_equal chain_sequence) in E. unfold primary_key in E. by rewrite !chain_sequence_new in E.
Qed.

Lemma primary_key_sequence s s' :
  bool_decide (chain_sequence (primary_key s') = s) = bool_decide (s' = s).
Proof. apply bool_decide_ext. unfold primary_key. by rewrite chain_sequence_new. Qed.

Lemma find_key {V} (ks : list CertificateChainKey) (f : CertificateChainKey -> V) s :
  Forall (fun k => exists s, k = primary_key s) ks ->
  List.find (fun '(k, _) => is_primary_chain_key k && bool_decide (chain_sequence k = s))
    (map (fun k => (k, f k)) ks)
  = if bool_decide (primary_key s ∈ ks) then Some (primary_key s, f (primary_key s)) else None.
Proof.
  induction ks as [|k ks IH]; intros Hks; [done|]. pose proof (Forall_inv Hks) as [s' ->].
  apply Forall_inv_tail in Hks. cbn [map List.find].
  rewrite primary_key_sequence. unfold primary_key at 1. rewrite is_primary_primary. cbn [andb].
  destruct (decide (s' = s)) as [->|Hne].
  - rewrite (bool_decide_true (s = s)), bool_decide_true by set_solver. done.
  - rewrite (bool_decide_false (s' = s)) by done. rewrite IH by done.
    assert (primary_key s <> primary_key s') as Hk.
    { intros E. apply Hne. apply (f_equal chain_sequence) in E. unfold primary_key in E.
      by rewrite !chain_sequence_new in E. }
    destruct (decide (primary_key s ∈ ks)).
    + by rewrite !bool_decide_true by set_solver.
    + by rewrite !bool_decide_false by set_solver.
Qed.

Lemma values_of_absent {K V} `{EqDecision K} (k : K) (l : list (K * V)) :
  k ∉ map fst l -> values_of k l = [].
Proof.
  intros Hout. unfold values_of. destruct (List.filter _ l) as [|[k' v] r] eqn:E; [done|].
  assert (In (k', v) (List.filter (fun '(k', _) => bool_decide (k' = k)) l)) as Hin by
    (rewrite E; by left).
  apply List.filter_In in Hin as [Hin Hk]. apply bool_decide_eq_true in Hk as ->.
  destruct Hout. apply list_elem_of_In, in_map_iff. by exists (k, v).
Qed.

Lemma selected_for_sequence_spec s xs :
  selected_endpoint_records_for_sequence xs (Some s) = Some (omap (main_endpoint s) xs).
Proof.
  unfold selected_endpoint_records_for_sequence, selected_endpoint_records_with_fallback_chain_keys.
  rewrite map_map.
  replace (map _ xs) with (map untagged xs) by (apply map_ext; by intros []).
  rewrite grouped_refines. cbn [mbind option_bind]. unfold grouped_spec, group_by.
  set (es := omap eligible (map untagged xs)).
  assert (Forall (fun k => exists s, k = primary_key s) (firsts (map fst es))) as Hk.
  { pose proof (eligible_keys xs) as H. rewrite Forall_forall in *. intros k. rewrite firsts_elem.
    apply H. }
  rewrite find_key by done. f_equal. case_bool_decide as Hin.
  - apply values_of_sequence.
  - rewrite firsts_elem in Hin. rewrite <- values_of_sequence. symmetry.
    by apply values_of_absent.
Qed.

Lemma selected_default_spec xs :
  selected_endpoint_records xs
  = Some (match omap eligible (map untagged xs) with
          | [] => []
          | (k, _) :: _ => omap (main_endpoint (chain_sequence k)) xs
          end).
Proof.
  unfold selected_endpoint_records, selected_endpoint_records_with_fallback_chain_keys.
  rewrite map_map. replace (map _ xs) with (map untagged xs) by (apply map_ext; by intros []).
  rewrite grouped_refines. cbn [mbind option_bind]. unfold grouped_spec, group_by.
  pose proof (eligible_keys xs) as Hk.
  destruct (omap eligible (map untagged xs)) as [|[k v] es] eqn:E; [done|].
  cbn [map fst firsts]. cbn [map fst] in Hk. apply Forall_inv in Hk as [s ->].
  rewrite <- E, values_of_sequence. unfold primary_key. by rewrite chain_sequence_new.
Qed.
(** The sequence of the first main record that the transport can address. *)
Definition first_sequence (xs : list (T * EndpointAddr)) : option CertificateSequence :=
  head (omap (fun x => if is_main x.2 && is_ok (dquic_try_from_endpoint x.2)
                       then Some (normalized_sequence x.2) else None) xs).

Lemma first_eligible xs :
  first_sequence xs = match omap eligible (map untagged xs) with
                      | [] => None
                      | (k, _) :: _ => Some (chain_sequence k)
                      end.
Proof.
  unfold first_sequence. induction xs as [|x xs IH]; cbn [map omap list_omap]; [done|].
  rewrite eligible_untagged. destruct (is_main x.2); cbn [andb]; [|exact IH].
  destruct (dquic_try_from_endpoint x.2); cbn [is_ok]; [|exact IH].
  cbn [head]. by rewrite chain_sequence_new.
Qed.

(** A record of the first sequence is selected. *)
Lemma first_selected xs s : first_sequence xs = Some s -> omap (main_endpoint s) xs <> [].
Proof.
  unfold first_sequence. induction xs as [|x xs IH]; cbn [omap list_omap]; [done|].
  unfold main_endpoint at 1. destruct (is_main x.2); cbn [andb]; [|exact IH].
  destruct (dquic_try_from_endpoint x.2) as [e|] eqn:Hd; cbn [is_ok].
  - cbn [head]. intros [= ->]. by rewrite bool_decide_true.
  - intros Hs. case_bool_decide; by apply IH.
Qed.
End SelectFacts.

(** ** Properties *)

(** C19: grouping refines its specification: the candidates of primary chains that the
    transport can address are grouped by chain, the groups in the order in which
    the chains first occur, the endpoints of a group in the order of the
    records; in particular the chains are distinct, all primary, and no group is
    empty. *)
Theorem grouping_refinement `{CertificatesSpec} {T} (records : list (TaggedEndpointCandidate T)) :
  grouped_endpoint_candidates records = Some (grouped_spec records)
  /\ NoDup (map fst (grouped_spec records))
  /\ Forall (fun '(k, es) => is_primary_chain_key k = true /\ es <> []) (grouped_spec records).
Proof.
  split; [apply grouped_refines|]. split; [apply grouped_chains_nodup|].
  apply Forall_forall. intros [k es] Hin. apply grouped_spec_elem in Hin as [Hne Hes].
  split; [|done]. destruct es as [|[t e] es]; [done|].
  by destruct (Hes (t, e) ltac:(left)) as (r & _ & Hp & _).
Qed.

Example grouping_refinement_witness :
  let ep n main := set_sequence (C := CertModel.certificates)
    (set_main (direct_v4 (mkSocketAddrV4 n 443)) main) (seq_from_u8 2) in
  let rs := [mkTagged 1 (ep 1 true) None; mkTagged 2 (ep 2 false) None;
             mkTagged 3 (set_main (direct_v4 (mkSocketAddrV4 3 443)) true) None;
             mkTagged 4 (ep 4 true) None] in
  map (fun '(k, es) => map fst es) (grouped_spec rs) = [[1; 4]; [3]]
  /\ grouped_endpoint_candidates rs = Some (grouped_spec rs).
Proof.
  intros ep rs. split; [vm_compute; reflexivity|].
  apply (grouping_refinement (H := CertModel.certificates_spec)).
Defined.

(** C20: for a given sequence the selection returns exactly the endpoints of the main
    records with that sequence (a missing sequence counts as zero), in order.  Without
    one it returns those of one sequence, that of the first main record that the
    transport can address, this record among them, and nothing when there is no such
    record. *)
Theorem selection_correct `{CertificatesSpec} {T} (xs : list (T * EndpointAddr))
    (s : CertificateSequence) :
  selected_endpoint_records_for_sequence xs (Some s) = Some (omap (main_endpoint s) xs)
  /\ selected_endpoint_records_for_sequence xs None = selected_endpoint_records xs
  /\ (first_sequence xs = None -> selected_endpoint_records xs = Some [])
  /\ (first_sequence xs = Some s ->
      selected_endpoint_records xs = Some (omap (main_endpoint s) xs)
      /\ omap (main_endpoint s) xs <> []).
Proof.
  split; [apply selected_for_sequence_spec|]. split; [done|].
  rewrite selected_default_spec. pose proof (first_selected xs s) as Hne. rewrite first_eligible in *.
  destruct (omap eligible (map untagged xs)) as [|[k v] es]; [done|].
  split; [done|]. intros [= <-]. split; [done|]. by apply Hne.
Qed.

(** Records of the sequences 3, 2 and 2 again, the first of them not a main one. *)
Example selection_correct_witness :
  let ep n main s := set_sequence (C := CertModel.certificates)
    (set_main (direct_v4 (mkSocketAddrV4 n 443)) main) (seq_from_u8 s) in
  selected_endpoint_records
    [(1, ep 1 false 3); (2, ep 2 true 2); (3, ep 3 true 3); (4, ep 4 true 2)]
  = Some [(2, Dquic.Direct (V4 (mkSocketAddrV4 2 443)));
          (4, Dquic.Direct (V4 (mkSocketAddrV4 4 443)))].
Proof.
  intros ep. set (xs := [(1, _); _; _; _]).
  destruct (selection_correct (H := CertModel.certificates_spec) xs (seq_from_u8 2)) as (_ & _ & _ & Hd).
  destruct Hd as [Hd _]; [reflexivity|]. rewrite Hd. reflexivity.
Defined.

(** Filtering by family keeps exactly the endpoints of that family, in their groups
    and order, and drops the groups that become empty; without a family nothing
    changes. *)
Theorem family_filter `{Certificates} {T} (dquic_addr : Dquic.EndpointAddr -> SocketAddr)
    (gs : list (CertificateChainKey * list (T * Dquic.EndpointAddr))) (f : option Family) :
  let gs' := filter_endpoint_candidate_groups dquic_addr gs f in
  (f = None -> gs' = gs)
  /\ (f <> None -> Forall (fun '(_, es) => es <> [] /\
        Forall (fun '(_, e) => endpoint_matches_family dquic_addr e f = true) es) gs')
  /\ (forall k es, (k, es) ∈ gs -> forall t e, (t, e) ∈ es ->
        endpoint_matches_family dquic_addr e f = true ->
        exists es', (k, es') ∈ gs' /\ (t, e) ∈ es').
Proof.
  cbv zeta. unfold filter_endpoint_candidate_groups. destruct f as [f|].
  2:{ split; [done|]. split; [done|]. eauto. }
  split; [done|]. split.
  - intros _. apply Forall_forall. intros [k es].
    rewrite list_elem_of_In, List.filter_In, in_map_iff.
    intros (([k0 es0] & [= <- <-] & _) & Hne). split; [by destruct (List.filter _ es0)|].
    apply Forall_forall. intros [t e] Hte.
    by apply list_elem_of_In, List.filter_In in Hte as [_ ?].
  - intros k es Hin t e Hte Hm.
    exists (List.filter (fun '(_, e) => endpoint_matches_family dquic_addr e (Some f)) es).
    assert (In (t, e) (List.filter (fun '(_, e) =>
      endpoint_matches_family dquic_addr e (Some f)) es)) as Hf by
      (apply List.filter_In; split; [by apply list_elem_of_In|done]).
    split; [|by apply list_elem_of_In]. apply list_elem_of_In, List.filter_In. split.
    + apply in_map_iff. exists (k, es). split; [done|by apply list_elem_of_In].
    + by destruct (List.filter _ es).
Qed.

Example family_filter_witness :
  let a d := match d with Dquic.Direct a => a | Dquic.Mediate _ outer => outer end in
  let d4 := Dquic.Direct (V4 (mkSocketAddrV4 1 1)) in
  let d6 := Dquic.Direct (V6 (mkSocketAddrV6 1 1 0 0)) in
  let k := primary_key (C := CertModel.certificates) (seq_from_u8 0) in
  filter_endpoint_candidate_groups a [(k, [(1, d4); (2, d6)]); (k, [(3, d6)])] None
  = [(k, [(1, d4); (2, d6)]); (k, [(3, d6)])].
Proof.
  intros a d4 d6 k.
  apply (proj1 (family_filter a [(k, [(1, d4); (2, d6)]); (k, [(3, d6)])] None)). reflexivity.
Defined.
