(* ===== verification/Publish.v ===== *)
(** * Packets of a publisher: src/publishers/packet.rs

    The endpoints of an authority become endpoint records of its certificate
    chain, and these a DNS answer.  The main result follows a packet from the
    publisher through the wire to the selection of a resolver. *)

From stdpp Require Import base list numbers option sets.
From S2P Require Import Prelude Nom VarInt RustString DnsName DnsHeader Question Sigin Certificate Endpoint Records Packet Candidates.

Section Publish.
Context `{C : Certificates} `{B : BufMut} `{F : Bitfield}.

(** [LocalAuthority::name] and
    [dhttp_home::certificate::extract_dhttp_subject_key_identifier] with [chain()]. *)
Context (authority_name : LocalAuthority -> bytes).
Context (extract_chain : list bytes -> Result CertificateChainKey bytes).

Inductive EncodeAuthorityDnsPacketError :=
| AuthorityNameMismatch
| DhttpSubjectKeyIdentifier (source : bytes)
| EncodeEndpoint
| SecondaryAuthority.

Definition display_encode_error (e : EncodeAuthorityDnsPacketError) : bytes :=
  match e with
  | AuthorityNameMismatch => str "publisher authority name does not match dns name"
  | DhttpSubjectKeyIdentifier _ =>
      str "publisher authority has no valid dhttp subject key identifier"
  | EncodeEndpoint => str "failed to encode endpoint address"
  | SecondaryAuthority => str "secondary authority cannot publish dns endpoints"
  end.

(** The loop over the endpoints. *)
Fixpoint encode_endpoints (chain : CertificateChainKey) (eps : list Dquic.EndpointAddr)
    (encoded : list EndpointAddr) : Result (list EndpointAddr) EncodeAuthorityDnsPacketError :=
  match eps with
  | [] => Ok encoded
  | endpoint :: eps =>
      match endpoint_try_from_dquic endpoint with
      | Err _ => Err EncodeEndpoint
      | Ok endpoint =>
          let endpoint := set_main endpoint true in
          let endpoint := set_sequence endpoint (chain_sequence chain) in
          encode_endpoints chain eps (encoded ++ [endpoint])
      end
  end.

Definition dns_endpoints_for_authority (authority : LocalAuthority) (name : bytes)
    (eps : list Dquic.EndpointAddr)
  : Result (list EndpointAddr) EncodeAuthorityDnsPacketError :=
  if negb (bool_decide (authority_name authority = name)) then Err AuthorityNameMismatch
  else
    let? chain := result_map_err DhttpSubjectKeyIdentifier
                    (extract_chain (authority_certificates authority)) in
    let? encoded := encode_endpoints chain eps [] in
    if match encoded with [] => true | _ => false end || is_primary_chain_key chain
    then Ok encoded
    else Err SecondaryAuthority.

Definition dns_packet_for_authority (authority : LocalAuthority) (name : bytes)
    (eps : list Dquic.EndpointAddr)
  : Result (may_panic bytes) EncodeAuthorityDnsPacketError :=
  let? encoded := dns_endpoints_for_authority authority name eps in
  Ok (to_bytes (answer 0 [(name, encoded)])).
End Publish.

(** ** Facts *)
Section Facts.
Context `{CS : CertificatesSpec}.

(** The record of one endpoint of a chain. *)
Definition published (chain : CertificateChainKey) (e : EndpointAddr) : EndpointAddr :=
  set_sequence (set_main e true) (chain_sequence chain).

(** An endpoint that the wire carries unchanged. *)
Definition wire_dquic (d : Dquic.EndpointAddr) : Prop :=
  match d with
  | Dquic.Direct a => addr_ok a /\ strip_scope a = a
  | Dquic.Mediate agent outer =>
      addr_ok agent /\ strip_scope agent = agent /\ addr_ok outer /\ strip_scope outer = outer
      /\ is_v6 agent = is_v6 outer
  end.

Lemma dquic_encodable d :
  wire_dquic d -> exists e, endpoint_try_from_dquic d = Ok e /\ endpoint_ok e
    /\ wire_endpoint e = e /\ dquic_try_from_endpoint e = Ok d
    /\ load e = None /\ signature e = None.
Proof.
  intros Hd. pose proof (endpoint_try_from_dquic_ok d) as Hok.
  destruct d as [[a|a]|[a|a] [o|o]]; cbn [wire_dquic endpoint_try_from_dquic] in *;
    try (by destruct Hd as (_ & _ & _ & _ & ?)); eexists; (split; [reflexivity|]);
    (split; [apply Hok; [tauto|reflexivity]|]); (split; [|done]);
    unfold wire_endpoint; cbn -[strip_scope].
  - done.
  - by destruct Hd as [_ ->].
  - done.
  - by destruct Hd as (_ & -> & _ & -> & _).
Qed.

Lemma published_spec chain e d :
  endpoint_ok e -> wire_endpoint e = e -> dquic_try_from_endpoint e = Ok d ->
  load e = None -> signature e = None ->
  let e' := published chain e in
  endpoint_ok e' /\ wire_endpoint e' = e' /\ dquic_try_from_endpoint e' = Ok d
  /\ is_main e' = true /\ normalized_sequence e' = chain_sequence chain
  /\ blen (endpoint_bytes e') < 0x10000.
Proof.
  intros He Hw Hd Hl Hs e'. assert (endpoint_ok e') as He' by (by apply set_sequence_ok, set_main_ok).
  assert (primary e' = primary e /\ agent e' = agent e /\ load e' = None /\ signature e' = None)
    as (Hp & Ha & Hl' & Hs').
  { subst e'. unfold published, set_sequence. by destruct (0 <? _). }
  split; [done|]. split.
  { unfold wire_endpoint in *. destruct e as [f sq ld sg pr ag]. cbn in Hw, Hp, Ha.
    injection Hw as Hw1 Hw2. clearbody e'. destruct e' as [f' sq' ld' sg' pr' ag'].
    cbn in Hp, Ha |- *. by rewrite Hp, Ha, Hw1, Hw2. }
  split; [unfold dquic_try_from_endpoint in *; by rewrite Hp, Ha|].
  split.
  { subst e'. unfold published. rewrite is_main_set_sequence by (by apply set_main_ok).
    apply is_main_set_main, He. }
  split; [apply normalized_set_sequence|].
  unfold endpoint_bytes, base_bytes. rewrite Hl', Hs'.
  replace (if is_signed e' then None else None) with (@None EndpointSignature) by
    (by destruct (is_signed e')).
  rewrite !blen_app, blen_to_be, addr_bytes_length.
  assert (blen (opt_bytes addr_bytes (agent e')) <= 18) by
    (destruct (agent e') as [a|]; cbn [opt_bytes];
     [rewrite addr_bytes_length; destruct (is_v6 a); lia|autorewrite with blen; lia]).
  assert (blen (opt_bytes seq_bytes (sequence e')) <= 8).
  { destruct (sequence e') as [q|]; cbn [opt_bytes]; [|autorewrite with blen; lia].
    pose proof (varint_bytes_length (from_u32 (seq_get q))) as Hv. unfold seq_bytes.
    rewrite !elem_of_cons, elem_of_nil in Hv. lia. }
  cbn [opt_bytes]. autorewrite with blen. destruct (is_v6 (primary e')); lia.
Qed.

(** What the loop returns. *)
Lemma encode_endpoints_spec chain ds : forall acc,
  encode_endpoints chain ds acc
  = match mapM (fun d => result_ok (endpoint_try_from_dquic d)) ds with
    | Some es => Ok (acc ++ map (published chain) es)
    | None => Err EncodeEndpoint
    end.
Proof.
  induction ds as [|d ds IH]; intros acc; cbn -[endpoint_try_from_dquic];
    [by rewrite app_nil_r|].
  destruct (endpoint_try_from_dquic d) as [e|]; cbn; [|done].
  rewrite IH. destruct (mapM _ ds) as [es|]; cbn; [|done]. by rewrite <- app_assoc.
Qed.

(** The addresses of an endpoint behind an agent are of different families. *)
Definition mixed_families (d : Dquic.EndpointAddr) : Prop :=
  match d with
  | Dquic.Direct _ => False
  | Dquic.Mediate agent outer => is_v6 agent <> is_v6 outer
  end.

Lemma mixed_unencodable d : mixed_families d <-> endpoint_try_from_dquic d = Err tt.
Proof. by destruct d as [[]|[] []]; cbn; split; intros. Qed.

Lemma encoded_families ds es :
  mapM (fun d => result_ok (endpoint_try_from_dquic d)) ds = Some es ->
  Forall (fun d => ~ mixed_families d) ds.
Proof.
  intros Hm%mapM_Some. induction Hm as [|d e ds es Hd _ IH]; constructor; [|done].
  intros Hx%mixed_unencodable. by rewrite Hx in Hd.
Qed.

Lemma unencodable_mixed ds :
  mapM (fun d => result_ok (endpoint_try_from_dquic d)) ds = None -> Exists mixed_families ds.
Proof.
  intros Hm%mapM_None. eapply Exists_impl; [exact Hm|]. cbn. intros d Hd. apply mixed_unencodable.
  by destruct (endpoint_try_from_dquic d) as [|[]].
Qed.

(** What is published for each endpoint. *)
Lemma published_all chain ds es :
  mapM (fun d => result_ok (endpoint_try_from_dquic d)) ds = Some es ->
  Forall2 (fun d e => dquic_try_from_endpoint e = Ok d /\ is_main e = true
             /\ normalized_sequence e = chain_sequence chain /\ load e = None /\ signature e = None)
    ds (map (published chain) es).
Proof.
  intros Hm%mapM_Some. induction Hm as [|d e ds es Hd _ IH]; cbn [map]; constructor; [|done].
  assert (endpoint_try_from_dquic d = Ok e) as He by (destruct (endpoint_try_from_dquic d); cbn in Hd; congruence).
  assert (byte_ok (flags e) /\ dquic_try_from_endpoint e = Ok d /\ load e = None /\ signature e = None)
    as (Hf & Hback & Hl & Hs).
  { destruct d as [[]|[] []]; try done; injection He as <-; (split; [decide_now|done]). }
  split_and!; [| | |unfold published, set_sequence; by destruct (0 <? _)..].
  - rewrite <- Hback. unfold published, set_sequence. by destruct (0 <? _).
  - unfold published. rewrite is_main_sequence, is_main_flag; [done|done|].
    apply set_flag_bits; [done|set_solver].
  - apply normalized_set_sequence.
Qed.

Lemma encodable_all ds :
  Forall wire_dquic ds ->
  exists es, mapM (fun d => result_ok (endpoint_try_from_dquic d)) ds = Some es
    /\ Forall2 (fun d e => endpoint_ok e /\ wire_endpoint e = e
         /\ dquic_try_from_endpoint e = Ok d /\ load e = None /\ signature e = None) ds es.
Proof.
  induction 1 as [|d ds Hd Hds (es & Hes & Hall)]; cbn -[endpoint_try_from_dquic];
    [by exists []|].
  destruct (dquic_encodable d Hd) as (e & He & Hok). exists (e :: es).
  rewrite He. cbn. rewrite Hes. split; [done|]. by constructor.
Qed.

(** The endpoint records of a name among the answers of a message. *)
Definition endpoint_of_answer (name : bytes) (r : ResourceRecord) : option EndpointAddr :=
  if bool_decide (rr_name r = name)
  then match rr_data r with RData.E e => Some e | _ => None end
  else None.

Lemma answer_endpoints name eps :
  canonical_name name = name -> Forall (fun e => wire_endpoint e = e) eps ->
  omap (endpoint_of_answer name)
    (map canonical_record (answer_records [(name, eps)])) = eps.
Proof.
  intros Hn Heps. unfold answer_records. cbn [map List.concat]. rewrite app_nil_r.
  induction Heps as [|e eps He Heps IH]; [done|].
  cbn [map omap list_omap]. unfold endpoint_of_answer at 1. cbn. rewrite Hn, He, IH.
  by rewrite bool_decide_true.
Qed.

Lemma published_selected chain ds es :
  Forall2 (fun d e => endpoint_ok e /\ wire_endpoint e = e
    /\ dquic_try_from_endpoint e = Ok d /\ load e = None /\ signature e = None) ds es ->
  selected_endpoint_addrs_for_sequence (map (published chain) es) (Some (chain_sequence chain))
  = Some ds.
Proof.
  intros Hall. unfold selected_endpoint_addrs_for_sequence.
  rewrite selected_for_sequence_spec. cbn [mbind option_bind]. f_equal.
  induction Hall as [|d e ds es (He & Hw & Hd & Hl & Hs) Hall IH]; [done|].
  destruct (published_spec chain e d He Hw Hd Hl Hs) as (_ & _ & Hd' & Hm & Hq & _).
  cbn [map omap list_omap]. unfold main_endpoint at 1. cbn [snd fst].
  rewrite Hm, Hd', bool_decide_true by done. cbn [andb map snd]. by rewrite IH.
Qed.

Lemma published_writable chain name ds es :
  name_ok name ->
  Forall2 (fun d e => endpoint_ok e /\ wire_endpoint e = e
    /\ dquic_try_from_endpoint e = Ok d /\ load e = None /\ signature e = None) ds es ->
  Forall record_writable (answer_records [(name, map (published chain) es)])
  /\ Forall (fun e => wire_endpoint e = e) (map (published chain) es)
  /\ length es = length ds.
Proof.
  intros Hn Hall. unfold answer_records. cbn [map List.concat]. rewrite app_nil_r.
  induction Hall as [|d e ds es (He & Hw & Hd & Hl & Hs) Hall (IH1 & IH2 & IH3)];
    [repeat constructor|].
  destruct (published_spec chain e d He Hw Hd Hl Hs) as (He' & Hw' & _ & _ & _ & Hlen).
  cbn [map length]. split_and!; [|by constructor|by rewrite IH3].
  constructor; [|done]. split; [done|]. split; [decide_now|]. done.
Qed.
End Facts.

Section PacketFacts.
Context `{CS : CertificatesSpec} `{NS : NomSpec} `{BS : BufMutSpec} `{FS : BitfieldSpec}.
Context (authority_name : LocalAuthority -> bytes).
Context (extract_chain : list bytes -> Result CertificateChainKey bytes).

(** The records of a publication, whose packet has room for each of them. *)
Lemma published_records authority name chain ds :
  authority_name authority = name ->
  extract_chain (authority_certificates authority) = Ok chain ->
  is_primary_chain_key chain = true \/ ds = [] ->
  name_ok name -> Forall wire_dquic ds ->
  exists es,
    Forall2 (fun d e => endpoint_ok e /\ wire_endpoint e = e
      /\ dquic_try_from_endpoint e = Ok d /\ load e = None /\ signature e = None) ds es
    /\ dns_packet_for_authority authority_name extract_chain authority name ds
       = Ok (to_bytes (answer 0 [(name, map (published chain) es)]))
    /\ Forall record_writable (answer_records [(name, map (published chain) es)])
    /\ blen (answer_records [(name, map (published chain) es)]) = blen ds.
Proof.
  intros Ha Hx Hp Hn Hds. destruct (encodable_all ds Hds) as (es & Hes & Hall).
  destruct (published_writable chain name ds es Hn Hall) as (Hw & _ & Hl). exists es.
  split; [done|]. split; [|split; [done|]].
  - unfold dns_packet_for_authority, dns_endpoints_for_authority.
    rewrite (bool_decide_true _ Ha), Hx. cbn [negb result_map_err].
    rewrite encode_endpoints_spec, Hes. cbn [app]. destruct Hp as [->| ->]; [by rewrite orb_true_r|].
    by apply Forall2_nil_inv_l in Hall as ->.
  - unfold answer_records, blen. cbn [map List.concat]. rewrite app_nil_r, !length_map. by rewrite Hl.
Qed.

Lemma packet_room authority name chain ds packet :
  authority_name authority = name ->
  extract_chain (authority_certificates authority) = Ok chain ->
  is_primary_chain_key chain = true \/ ds = [] ->
  name_ok name -> Forall wire_dquic ds ->
  dns_packet_for_authority authority_name extract_chain authority name ds = Ok (Some packet) ->
  12 + 11 * blen ds <= blen packet.
Proof.
  intros Ha Hx Hp Hn Hds Hd.
  destruct (published_records _ _ _ _ Ha Hx Hp Hn Hds) as (es & _ & Hd' & Hw & <-).
  rewrite Hd' in Hd. injection Hd as Hd.
  destruct (answer_building 0 [(name, map (published chain) es)]) as (f & _ & _ & E).
  rewrite E in Hd. by eapply answers_length.
Qed.

(** The packet of an authority and what the receiver decodes it to. *)
Lemma packet_decoded authority name chain ds :
  authority_name authority = name ->
  extract_chain (authority_certificates authority) = Ok chain ->
  is_primary_chain_key chain = true \/ ds = [] ->
  name_ok name -> Forall wire_dquic ds -> blen ds < 2 ^ 16 ->
  exists es enc p,
    Forall2 (fun d e => endpoint_ok e /\ wire_endpoint e = e
      /\ dquic_try_from_endpoint e = Ok d /\ load e = None /\ signature e = None) ds es
    /\ dns_packet_for_authority authority_name extract_chain authority name ds = Ok (Some enc)
    /\ be_packet enc = Ok ([], p) /\ is_query p = true /\ answers_count (header p) = blen ds
    /\ answers p = map canonical_record (answer_records [(name, map (published chain) es)]).
Proof.
  intros Ha Hx Hp Hn Hds Hlen.
  destruct (published_records _ _ _ _ Ha Hx Hp Hn Hds) as (es & Hall & Hd & Hw & Hl).
  pose proof (answer_building 0 [(name, map (published chain) es)]) as Hb.
  destruct (to_bytes_sections _ (building_ok _ _ _ Hb ltac:(decide_now) ltac:(by rewrite Hl) Hw))
    as (enc & E1 & _ & E2).
  exists es, enc. eexists. rewrite Hd, E1. split; [done|]. split; [done|]. split; [exact E2|].
  destruct Hb as (f & _ & Hq & ->). split; [exact Hq|]. split; [|done].
  cbn [canonical_packet header answers_count]. rewrite Hl. pose proof (blen_nonneg ds). unfold as_u. by rewrite Z.mod_small by lia.
Qed.

Lemma published_packet authority name chain ds :
  authority_name authority = name ->
  extract_chain (authority_certificates authority) = Ok chain ->
  is_primary_chain_key chain = true ->
  name_ok name -> canonical_name name = name ->
  Forall wire_dquic ds -> blen ds < 2 ^ 16 ->
  exists es enc p,
    Forall2 (fun d e => endpoint_ok e /\ wire_endpoint e = e
      /\ dquic_try_from_endpoint e = Ok d /\ load e = None /\ signature e = None) ds es
    /\ dns_packet_for_authority authority_name extract_chain authority name ds = Ok (Some enc)
    /\ be_packet enc = Ok ([], p) /\ is_query p = true
    /\ answers p = map canonical_record (answer_records [(name, map (published chain) es)]).
Proof.
  intros Ha Hx Hp Hn _ Hds Hlen.
  destruct (packet_decoded _ _ _ _ Ha Hx (or_introl Hp) Hn Hds Hlen)
    as (es & enc & p & Hall & Henc & Hdec & Hq & _ & Hans).
  by exists es, enc, p.
Qed.
(** The guards a packet has passed. *)
Lemma packet_guards authority name ds o :
  dns_packet_for_authority authority_name extract_chain authority name ds = Ok o ->
  authority_name authority = name /\ exists chain,
    extract_chain (authority_certificates authority) = Ok chain
    /\ (is_primary_chain_key chain = true \/ ds = []).
Proof.
  unfold dns_packet_for_authority, dns_endpoints_for_authority.
  case_bool_decide as Hn; cbn [negb]; [|done].
  destruct (extract_chain _) as [chain|] eqn:Hx; cbn [result_map_err]; [|done].
  rewrite encode_endpoints_spec. destruct (mapM _ ds) as [es|] eqn:Hm; [|done]. cbn [app].
  intros Hr. split; [done|]. exists chain. split; [done|].
  destruct (is_primary_chain_key chain); [by left|right]. rewrite orb_false_r in Hr.
  destruct es as [|e es]; [|done]. apply mapM_Some in Hm. by apply Forall2_nil_inv_r in Hm.
Qed.

(** What limits the size of a packet protects: the counter of [2 ^ 16] answers is zero, and
    the receiver takes none of them. *)
Lemma wrapped_counter_loses_answers authority name chain ds packet :
  authority_name authority = name ->
  extract_chain (authority_certificates authority) = Ok chain ->
  is_primary_chain_key chain = true -> name_ok name -> Forall wire_dquic ds ->
  blen ds = 2 ^ 16 ->
  dns_packet_for_authority authority_name extract_chain authority name ds = Ok (Some packet) ->
  exists rest p, be_packet packet = Ok (rest, p) /\ answers p = [] /\ rest <> [].
Proof.
  intros Ha Hx Hp Hn Hds Hlen Hd.
  destruct (published_records _ _ _ _ Ha Hx (or_introl Hp) Hn Hds) as (es & _ & Hd' & Hw & Hl).
  rewrite Hd' in Hd. injection Hd as Hd.
  destruct (answer_building 0 [(name, map (published chain) es)]) as (f & Hf & _ & E).
  rewrite E, Hl, Hlen in Hd. set (rs := answer_records _) in *. set (h := mkHeader 0 f 0 _ 0 0) in *.
  pose proof (answers_length h rs packet Hw Hd) as Hroom.
  assert (header_ok h) as Hh by (unfold header_ok, u_ok, as_u in *; cbn; split_and!; try done; apply Hf).
  unfold to_bytes in Hd. rewrite put_header_bytes in Hd.
  cbn [app header questions answers nameservers additional put_questions] in Hd.
  rewrite put_records_enc in Hd by done. destruct (enc_list enc_record _ rs _) as [e ctx].
  cbn [mbind option_bind put_records] in Hd. apply (inj Some) in Hd as <-.
  exists e, (mkPacket h [] [] [] []). unfold be_packet. rewrite be_header_bytes by done.
  rewrite validate_counts_ok; [|done|change (0 <= blen e); apply blen_nonneg].
  split; [done|]. split; [done|]. intros ->. rewrite app_nil_r, header_bytes_length in Hroom. lia.
Qed.
End PacketFacts.

(** ** Properties *)

(** What an authority publishes is what a resolver selects.  The packet of a
    primary authority for endpoints that the wire can carry is built without
    panicking, is decoded by the receiver, and the selection for the sequence of
    the authority's certificate returns exactly the published endpoints, in order. *)
Theorem publish_resolve `{CertificatesSpec} `{NomSpec} `{BufMutSpec} `{BitfieldSpec}
    (authority_name : LocalAuthority -> bytes)
    (extract_chain : list bytes -> Result CertificateChainKey bytes)
    (authority : LocalAuthority) (name : bytes) (chain : CertificateChainKey)
    (ds : list Dquic.EndpointAddr) :
  authority_name authority = name ->
  extract_chain (authority_certificates authority) = Ok chain ->
  is_primary_chain_key chain = true ->
  name_ok name -> canonical_name name = name ->
  Forall wire_dquic ds -> blen ds < 2 ^ 16 ->
  exists enc p, dns_packet_for_authority authority_name extract_chain authority name ds
                = Ok (Some enc)
    /\ be_packet enc = Ok ([], p) /\ is_query p = true
    /\ selected_endpoint_addrs_for_sequence (omap (endpoint_of_answer name) (answers p))
         (Some (chain_sequence chain)) = Some ds.
Proof.
  intros Ha Hx Hp Hn Hc Hds Hlen.
  destruct (published_packet _ _ _ _ _ _ Ha Hx Hp Hn Hc Hds Hlen)
    as (es & enc & p & Hall & Henc & Hdec & Hq & Hans).
  exists enc, p. split; [done|]. split; [done|]. split; [done|].
  destruct (published_writable chain name ds es Hn Hall) as (_ & Hwire & _).
  rewrite Hans, answer_endpoints by done. by apply published_selected.
Qed.

Example publish_resolve_witness :
  let ds := [Dquic.Direct (V4 (mkSocketAddrV4 0x7F000001 443));
             Dquic.Mediate (V6 (mkSocketAddrV6 5 53 0 0)) (V6 (mkSocketAddrV6 9 443 0 0))] in
  let name := str "demo.dhttp.net" in
  let chain := primary_key (C := CertModel.certificates) (seq_from_u8 7) in
  exists enc p,
    dns_packet_for_authority (B := NomModel.buf_mut) (F := BitfieldModel.bitfield)
      (fun _ => name) (fun _ => Ok chain) sample_authority name ds = Ok (Some enc)
    /\ be_packet (C := CertModel.certificates) (N := NomModel.nom) enc = Ok ([], p)
    /\ is_query (F := BitfieldModel.bitfield) p = true
    /\ selected_endpoint_addrs_for_sequence (omap (endpoint_of_answer name) (answers p))
         (Some (chain_sequence chain)) = Some ds.
Proof.
  intros ds name chain.
  apply (publish_resolve (H := CertModel.certificates_spec) (H0 := NomModel.nom_spec)
    (H1 := NomModel.buf_mut_spec) (H2 := BitfieldModel.bitfield_spec));
    [reflexivity|reflexivity|reflexivity|decide_now|reflexivity| |reflexivity].
  constructor; [split; decide_now|]. constructor; [|constructor].
  split_and!; decide_now || reflexivity.
Defined.

(** C30: a publisher only emits endpoints of its own name and of a primary chain.  The
    error cases are, in this order, each with the earlier checks passed: a foreign name, a
    certificate without a chain, an endpoint whose two addresses are of different
    families, and a secondary chain with at least one endpoint.  Otherwise the records are
    those of the given endpoints, one for each and in order: a receiver converts a record
    back to exactly its endpoint, and it is a main record with the sequence of the
    authority's chain, without load and signature. *)
Theorem publish_guards `{CertificatesSpec} (authority_name : LocalAuthority -> bytes)
    (extract_chain : list bytes -> Result CertificateChainKey bytes)
    (authority : LocalAuthority) (name : bytes) (ds : list Dquic.EndpointAddr) :
  let chain_is r := extract_chain (authority_certificates authority) = r in
  match dns_endpoints_for_authority authority_name extract_chain authority name ds with
  | Err AuthorityNameMismatch => authority_name authority <> name
  | Err (DhttpSubjectKeyIdentifier err) => authority_name authority = name /\ chain_is (Err err)
  | Err EncodeEndpoint => authority_name authority = name /\ (exists chain, chain_is (Ok chain))
      /\ Exists mixed_families ds
  | Err SecondaryAuthority => authority_name authority = name /\ ds <> []
      /\ Forall (fun d => ~ mixed_families d) ds
      /\ exists chain, chain_is (Ok chain) /\ is_primary_chain_key chain = false
  | Ok es => authority_name authority = name
      /\ exists chain, chain_is (Ok chain) /\ (is_primary_chain_key chain = true \/ ds = [])
           /\ Forall2 (fun d e => dquic_try_from_endpoint e = Ok d /\ is_main e = true
                          /\ normalized_sequence e = chain_sequence chain
                          /\ load e = None /\ signature e = None) ds es
  end.
Proof.
  unfold dns_endpoints_for_authority. case_bool_decide as Hn; cbn [negb]; [|done].
  destruct (extract_chain _) as [chain|err] eqn:Hx; cbn [result_map_err]; [|done].
  rewrite encode_endpoints_spec. destruct (mapM _ ds) as [es|] eqn:Hm; cbn [app].
  - pose proof (published_all chain ds es Hm) as Hall. pose proof (encoded_families ds es Hm) as Hmix.
    destruct (is_primary_chain_key chain) eqn:Hp; rewrite ?orb_true_r, ?orb_false_r.
    + split; [done|]. exists chain. split; [done|]. split; [by left|done].
    + destruct es as [|e es]; cbn [map].
      * split; [done|]. exists chain. split; [done|]. split; [right|done].
        by apply Forall2_nil_inv_r in Hall.
      * split_and!; [done| |done|by exists chain]. by intros ->; inversion Hall.
  - split; [done|]. split; [by exists chain|]. by apply unencodable_mixed.
Qed.

(** An endpoint of mixed families under a chain that would publish. *)
Example publish_guards_witness :
  let mixed := Dquic.Mediate (V4 (mkSocketAddrV4 1 443)) (V6 (mkSocketAddrV6 1 443 0 0)) in
  dns_endpoints_for_authority (C := CertModel.certificates) (fun _ => str "a") (fun _ => Ok (CertificateChainKey_new (seq_from_u8 2) ClientAndServer))
    sample_authority (str "a") [mixed] = Err EncodeEndpoint
  /\ Exists mixed_families [mixed].
Proof.
  intros mixed. split; [reflexivity|].
  apply (publish_guards (H := CertModel.certificates_spec) (fun _ => str "a")
    (fun _ => Ok (CertificateChainKey_new (seq_from_u8 2) ClientAndServer)) sample_authority (str "a") [mixed]).
Defined.
