(* ===== verification/Cache.v ===== *)
(** * The cache of HTTP/3 lookups: src/h3/cache.rs

    A concurrent map from normalised lookups to answers with a deadline.  The
    map is an association list with distinct keys, a [tokio] instant is a
    number and every operation takes the current time.  Each operation of the cache
    is atomic here; [H3Tasks] takes apart the lookup and the removal of an expired
    answer, between which other tasks run; the histories of the cache are sequences of operations with
    a clock that does not go back ([reach]). *)

From stdpp Require Import base list numbers option sets.
From S2P Require Import Prelude RustString Certificate Endpoint Candidates.

Section Cache.
Context `{C : Certificates} {Source : Type}.

Record LookupKey := mkLookupKey { key_name : bytes; key_lookup : EndpointLookup }.

Definition LookupKey_new (name : bytes) (lookup : EndpointLookup) : LookupKey :=
  mkLookupKey (to_ascii_lowercase (trim_end_matches dot name)) lookup.

Global Instance LookupKey_eq_dec : EqDecision LookupKey.
Proof. solve_decision. Defined.

Record CachedAnswer := mkCachedAnswer {
  candidates : EndpointCandidates Source;
  expires_at : Z;
}.

Record LookupCache := mkLookupCache { positive : list (LookupKey * CachedAnswer) }.

(** [DashMap]: lookup, removal and insertion. *)
Fixpoint map_get (m : list (LookupKey * CachedAnswer)) (k : LookupKey) : option CachedAnswer :=
  match m with
  | [] => None
  | (k', v) :: m => if bool_decide (k' = k) then Some v else map_get m k
  end.
Definition map_remove (m : list (LookupKey * CachedAnswer)) (k : LookupKey)
  : list (LookupKey * CachedAnswer) :=
  List.filter (fun '(k', _) => negb (bool_decide (k' = k))) m.
Definition map_insert (m : list (LookupKey * CachedAnswer)) (k : LookupKey) (v : CachedAnswer)
  : list (LookupKey * CachedAnswer) :=
  (k, v) :: map_remove m k.

Definition cache_default : LookupCache := mkLookupCache [].

Definition get (now : Z) (self : LookupCache) (key : LookupKey)
  : LookupCache * option (EndpointCandidates Source) :=
  match map_get (positive self) key with
  | None => (self, None)
  | Some answer =>
      if now <? expires_at answer then (self, Some (candidates answer))
      else (mkLookupCache (map_remove (positive self) key), None)
  end.

Definition insert (now : Z) (self : LookupCache) (key : LookupKey)
    (cs : EndpointCandidates Source) (ttl : Z) : LookupCache :=
  if negb (ttl =? 0)
  then mkLookupCache (map_insert (positive self) key (mkCachedAnswer cs (now + ttl)))
  else self.

Definition invalidate_name (self : LookupCache) (name : bytes) : LookupCache :=
  let name := trim_end_matches dot name in
  mkLookupCache (List.filter (fun '(key, _) => negb (eq_ignore_ascii_case (key_name key) name))
                   (positive self)).

Definition clear (self : LookupCache) : LookupCache := mkLookupCache [].

(** ** Facts about the map *)
Lemma map_get_remove m k k' :
  map_get (map_remove m k) k' = if bool_decide (k' = k) then None else map_get m k'.
Proof.
  induction m as [|[k0 v] m IH]; cbn [map_remove List.filter map_get].
  { by case_bool_decide. }
  fold (map_remove m k). destruct (decide (k0 = k)) as [->|Hne].
  - rewrite (bool_decide_true (k = k)) by done. cbn [negb]. rewrite IH.
    case_bool_decide; [done|]. by rewrite bool_decide_false by congruence.
  - rewrite (bool_decide_false (k0 = k)) by done. cbn [negb map_get]. rewrite IH.
    destruct (decide (k0 = k')) as [->|].
    + by rewrite (bool_decide_true (k' = k')), (bool_decide_false (k' = k)).
    + by rewrite (bool_decide_false (k0 = k')).
Qed.

Lemma map_get_insert m k v k' :
  map_get (map_insert m k v) k' = if bool_decide (k' = k) then Some v else map_get m k'.
Proof.
  unfold map_insert. cbn [map_get]. rewrite map_get_remove.
  destruct (decide (k' = k)) as [->|]; [by rewrite bool_decide_true|].
  by rewrite !bool_decide_false by congruence.
Qed.

Lemma map_get_filter m (p : LookupKey -> bool) k :
  map_get (List.filter (fun '(key, _) => p key) m) k = if p k then map_get m k else None.
Proof.
  induction m as [|[k0 v] m IH]; cbn [List.filter map_get]; [by destruct (p k)|].
  destruct (p k0) eqn:Hp; cbn [map_get]; rewrite IH.
  - case_bool_decide as Hk; [|done]. subst. by rewrite Hp.
  - case_bool_decide as Hk; [|done]. subst. by rewrite Hp.
Qed.

Lemma to_lower_idem l : to_ascii_lowercase (to_ascii_lowercase l) = to_ascii_lowercase l.
Proof.
  unfold to_ascii_lowercase. rewrite map_map. apply map_ext. intros b. unfold ascii_lower.
  destruct (Z.leb_spec 65 b), (Z.leb_spec b 90); cbn [andb];
    destruct (Z.leb_spec 65 (b + 32)), (Z.leb_spec (b + 32) 90),
      (Z.leb_spec 65 b), (Z.leb_spec b 90); cbn [andb]; lia.
Qed.

(** ** Histories: an abstract cache

    [reach now c h]: at time [now] the cache [c] was reached by operations, the
    most recent insertions of which are [h]: [h] maps a key to the answer that
    was inserted last and to its deadline, unless it was invalidated since. *)
Inductive reach : Z -> LookupCache -> (LookupKey -> option CachedAnswer) -> Prop :=
| reach_init now : reach now cache_default (fun _ => None)
| reach_time now now' c h : now <= now' -> reach now c h -> reach now' c h
| reach_get now c h key : reach now c h -> reach now (get now c key).1 h
| reach_insert now c h key cs ttl : 0 <= ttl -> reach now c h ->
    reach now (insert now c key cs ttl)
      (fun k => if bool_decide (k = key) && negb (ttl =? 0)
                then Some (mkCachedAnswer cs (now + ttl)) else h k)
| reach_invalidate now c h name : reach now c h ->
    reach now (invalidate_name c name)
      (fun k => if eq_ignore_ascii_case (key_name k) (trim_end_matches dot name)
                then None else h k)
| reach_clear now c h : reach now c h -> reach now (clear c) (fun _ => None).

(** The cache holds every answer that has not expired, and nothing else. *)
Lemma reach_inv now c h :
  reach now c h -> forall k,
  match map_get (positive c) k with
  | Some a => h k = Some a
  | None => match h k with Some a => expires_at a <= now | None => True end
  end.
Proof.
  induction 1 as [now|now now' c h Hle Hr IH|now c h key Hr IH|now c h key cs ttl Httl Hr IH
                 |now c h name Hr IH|now c h Hr IH]; intros k.
  - done.
  - specialize (IH k). destruct (map_get (positive c) k); [done|]. destruct (h k); [lia|done].
  - unfold get. specialize (IH k). pose proof (IH) as IHk.
    destruct (map_get (positive c) key) as [a|] eqn:E; [|done].
    destruct (Z.ltb_spec now (expires_at a)); [done|]. cbn [fst positive].
    rewrite map_get_remove. case_bool_decide as Hk; [|done]. subst k. rewrite E in IH.
    by rewrite IH.
  - specialize (IH k). unfold insert. destruct (ttl =? 0); cbn [negb andb].
    { by rewrite andb_false_r. }
    rewrite andb_true_r. cbn [positive]. rewrite map_get_insert. by case_bool_decide.
  - specialize (IH k). unfold invalidate_name. cbn [positive].
    rewrite (map_get_filter _ (fun key => negb (eq_ignore_ascii_case (key_name key) _))).
    destruct (eq_ignore_ascii_case _ _); done.
  - done.
Qed.

Lemma get_reach now c h key :
  reach now c h ->
  (get now c key).2 = match h key with
                      | Some a => if now <? expires_at a then Some (candidates a) else None
                      | None => None
                      end.
Proof.
  intros Hr. pose proof (reach_inv _ _ _ Hr key) as H. unfold get.
  destruct (map_get (positive c) key) as [a|].
  - rewrite H. by destruct (now <? expires_at a).
  - cbn. destruct (h key) as [a|]; [|done]. by rewrite (proj2 (Z.ltb_ge _ _)) by lia.
Qed.
End Cache.
Arguments LookupCache {C} Source.
Arguments CachedAnswer {C} Source.

(** Names are normalised consistently: invalidating a name removes the answers of
    every lookup whose name differs only in case or in trailing dots, and no
    other answer. *)
Lemma get_invalidated `{Certificates} {Source} (now : Z)
    (c : LookupCache Source) (name name' : bytes) (lookup : EndpointLookup) :
  (get now (invalidate_name c name) (LookupKey_new name' lookup)).2
  = if eq_ignore_ascii_case (trim_end_matches dot name') (trim_end_matches dot name)
    then None else (get now c (LookupKey_new name' lookup)).2.
Proof.
  unfold get, invalidate_name. cbn [positive].
  rewrite (map_get_filter _ (fun key => negb (eq_ignore_ascii_case (key_name key) _))).
  cbn [key_name LookupKey_new].
  assert (eq_ignore_ascii_case (to_ascii_lowercase (trim_end_matches dot name'))
    (trim_end_matches dot name)
    = eq_ignore_ascii_case (trim_end_matches dot name') (trim_end_matches dot name)) as ->.
  { unfold eq_ignore_ascii_case. by rewrite to_lower_idem. }
  destruct (eq_ignore_ascii_case _ _); cbn [negb]; [done|].
  destruct (map_get (positive c) _); [|done]. by destruct (_ <? _).
Qed.

(** ** Properties *)

(** C24: the cache refines a map of deadlines.  After any history of operations a
    lookup returns the answer inserted last for its key exactly until its
    deadline, unless the name was invalidated or the cache cleared since;
    evicting expired entries on lookup is not observable. *)
Theorem cache_refinement `{Certificates} {Source} (now : Z) (c : LookupCache Source)
    (h : LookupKey -> option (CachedAnswer Source)) (key : LookupKey) :
  reach now c h ->
  (get now c key).2 = match h key with
                      | Some a => if now <? expires_at a then Some (candidates a) else None
                      | None => None
                      end.
Proof. apply get_reach. Qed.

Example cache_refinement_witness :
  let key := LookupKey_new (C := CertModel.certificates) (str "Demo.dhttp.net.") lookup_all in
  let cs := mkEndpointCandidates (C := CertModel.certificates) (Source := unit) [] in
  (get 14 (insert 10 cache_default key cs 5) key).2 = Some cs
  /\ (get 15 (insert 10 cache_default key cs 5) key).2 = None.
Proof.
  intros key cs.
  assert (reach 10 (insert 10 cache_default key cs 5)
    (fun k => if bool_decide (k = key) && negb (5 =? 0)
              then Some (mkCachedAnswer cs (10 + 5)) else None)) as Hr
    by (apply reach_insert; [lia|apply reach_init]).
  split.
  - rewrite (cache_refinement 14 _ _ key (reach_time 10 14 _ _ ltac:(lia) Hr)).
    rewrite bool_decide_true by reflexivity. reflexivity.
  - rewrite (cache_refinement 15 _ _ key (reach_time 10 15 _ _ ltac:(lia) Hr)).
    rewrite bool_decide_true by reflexivity. reflexivity.
Defined.
