(* ===== verification/MdnsRouter.v ===== *)
(** * The mDNS packet router: src/mdns/protocol.rs

    [PacketRouter] hands received packets to the responder and to the running
    queries over bounded channels.  A channel of [flume] is its queue; a running
    query is the [Responses] stream it polls, which owns the receiving end of its
    channel.  Sockets, timers and tasks are outside the model: what they do is
    the order of the steps ([step]). *)

From stdpp Require Import base list gmap numbers option sets.
From S2P Require Import Prelude Nom DnsName DnsHeader Question Certificate Endpoint Records Packet.

Definition MAX_DEQUE_SIZE : Z := 64.
Definition MAX_MDNS_DNS_MESSAGE_LEN : Z := 9000.

Section Router.
Context `{C : Certificates} `{F : Bitfield}.

Abbreviation Msg := (SocketAddr * Packet)%type.

(** [flume::Sender::try_send] on a bounded channel whose receiver is alive. *)
Definition try_send (queue : list Msg) (m : Msg) : option (list Msg) :=
  if blen queue <? MAX_DEQUE_SIZE then Some (queue ++ [m]) else None.

(** The stream of a query: its id and the queue of its channel. *)
Record Responses := mkResponses { query_id : Z; recver : list Msg }.

(** [requests] is the channel of the responder.  [queries] maps a query id to the
    channel its responses are sent to; [responses] are the streams that are
    alive, by channel. *)
Record PacketRouter := mkPacketRouter {
  requests : list Msg;
  queries : gmap Z nat;
  responses : gmap nat Responses;
  next_channel : nat;
}.

Definition PacketRouter_new : PacketRouter := mkPacketRouter [] ∅ ∅ 0.

(** [receive_query]: the next request, when there is one. *)
Definition receive_query (r : PacketRouter) : option (Msg * PacketRouter) :=
  match requests r with
  | [] => None
  | m :: ms => Some (m, mkPacketRouter ms (queries r) (responses r) (next_channel r))
  end.

(** [register_query]: the sender of an earlier query with the same id is replaced. *)
Definition register_query (r : PacketRouter) (id : Z) : nat * PacketRouter :=
  let c := next_channel r in
  (c, mkPacketRouter (requests r) (<[id := c]> (queries r))
        (<[c := mkResponses id []]> (responses r)) (S c)).

(** [Responses::poll_next]. *)
Inductive Poll := Ready (m : option Msg) | Pending.

Definition poll_next (r : PacketRouter) (c : nat) : option (Poll * PacketRouter) :=
  match responses r !! c with
  | None => None
  | Some s =>
      match recver s with
      | m :: ms => Some (Ready (Some m),
                         mkPacketRouter (requests r) (queries r)
                           (<[c := mkResponses (query_id s) ms]> (responses r)) (next_channel r))
      | [] => (* the channel is closed when its sender was dropped *)
          if bool_decide (queries r !! query_id s = Some c) then Some (Pending, r)
          else Some (Ready None, r)
      end
  end.

(** [Drop for Responses], then the drop of the receiver. *)
Definition drop_responses (r : PacketRouter) (c : nat) : PacketRouter :=
  match responses r !! c with
  | None => r
  | Some s => mkPacketRouter (requests r) (delete (query_id s) (queries r))
                (delete c (responses r)) (next_channel r)
  end.

Definition deliver (r : PacketRouter) (source : SocketAddr) (packet : Packet) : PacketRouter :=
  match is_query packet, packet_id packet with
  | true, 0 => r
  | true, id =>
      match queries r !! id with
      | Some c =>
          match responses r !! c with
          | Some s =>
              match try_send (recver s) (source, packet) with
              | Some q => mkPacketRouter (requests r) (queries r)
                            (<[c := mkResponses (query_id s) q]> (responses r)) (next_channel r)
              | None => r
              end
          | None => r
          end
      | None => r
      end
  | false, _ =>
      match try_send (requests r) (source, packet) with
      | Some q => mkPacketRouter q (queries r) (responses r) (next_channel r)
      | None =>
          (* the queue is full: remove the oldest message and try again *)
          let rest := List.tl (requests r) in
          mkPacketRouter (default rest (try_send rest (source, packet))) (queries r) (responses r)
            (next_channel r)
      end
  end.

(** ** Steps of the router *)
Inductive step : PacketRouter -> PacketRouter -> Prop :=
| step_deliver r source packet : step r (deliver r source packet)
| step_request r m r' : receive_query r = Some (m, r') -> step r r'
| step_register r id : id <> 0 -> step r (register_query r id).2
| step_poll r c p r' : poll_next r c = Some (p, r') -> step r r'
| step_drop r c : step r (drop_responses r c).

Inductive reachable : PacketRouter -> Prop :=
| reachable_new : reachable PacketRouter_new
| reachable_step r r' : reachable r -> step r r' -> reachable r'.

(** ** The invariant

    Queues are bounded; the responder only sees queries, a stream only sees
    responses with its own id; a channel is the target of at most one id, the one
    of the stream that owns it. *)
Definition stream_ok (s : Responses) : Prop :=
  blen (recver s) <= MAX_DEQUE_SIZE
  /\ Forall (fun m => is_query m.2 = true /\ packet_id m.2 = query_id s) (recver s).

Definition router_ok (r : PacketRouter) : Prop :=
  blen (requests r) <= MAX_DEQUE_SIZE
  /\ Forall (fun m => is_query m.2 = false) (requests r)
  /\ (forall c s, responses r !! c = Some s -> (c < next_channel r)%nat /\ stream_ok s)
  /\ (forall id c, queries r !! id = Some c -> (c < next_channel r)%nat
        /\ id <> 0 /\ forall s, responses r !! c = Some s -> query_id s = id).

Lemma try_send_spec q m :
  match try_send q m with
  | Some q' => q' = q ++ [m] /\ blen q' <= MAX_DEQUE_SIZE
  | None => MAX_DEQUE_SIZE <= blen q
  end.
Proof.
  unfold try_send. destruct (Z.ltb_spec (blen q) MAX_DEQUE_SIZE); [|done].
  split; [done|]. autorewrite with blen. lia.
Qed.

Lemma deliver_response_ok r source packet :
  is_query packet = true -> router_ok r -> router_ok (deliver r source packet).
Proof.
  intros Hq Hr. pose proof Hr as (Hlen & Hreq & Hres & Hque). unfold deliver. rewrite Hq.
  set (id := packet_id packet).
  assert (forall c s, queries r !! id = Some c -> responses r !! c = Some s ->
    router_ok match try_send (recver s) (source, packet) with
              | Some q => mkPacketRouter (requests r) (queries r)
                            (<[c := mkResponses (query_id s) q]> (responses r)) (next_channel r)
              | None => r
              end) as Hgen.
  { intros c s Hc Hs. pose proof (try_send_spec (recver s) (source, packet)) as Ht.
    destruct (try_send (recver s) (source, packet)) as [q|]; [|done]. destruct Ht as [-> Hq'].
    destruct (Hres c s Hs) as [Hcn [_ Hall]]. destruct (Hque id c Hc) as (_ & _ & Hid).
    split_and!; [done|done| |].
    - cbn. intros c' s' [[<- <-]|[? Hs']]%lookup_insert_Some; [|by apply Hres].
      split; [done|]. split; [done|]. cbn. apply Forall_app. split; [done|].
      constructor; [|constructor]. split; [done|]. symmetry. by apply Hid.
    - cbn. intros id' c' Hc'. destruct (Hque id' c' Hc') as (? & ? & Hid'). split_and!; [done..|].
      intros s' [[<- <-]|[? Hs']]%lookup_insert_Some; [exact (Hid' s Hs)|by apply Hid']. }
  destruct id as [|p|p] eqn:Eid; [done| |].
  - destruct (queries r !! Z.pos p) as [c|] eqn:Ec; [|done].
    destruct (responses r !! c) as [s|] eqn:Es; [|done]. by apply Hgen.
  - destruct (queries r !! Z.neg p) as [c|] eqn:Ec; [|done].
    destruct (responses r !! c) as [s|] eqn:Es; [|done]. by apply Hgen.
Qed.

(** A request is always queued last; when the queue is full the oldest is dropped. *)
Lemma deliver_request r source packet :
  is_query packet = false -> blen (requests r) <= MAX_DEQUE_SIZE ->
  deliver r source packet
  = mkPacketRouter
      ((if blen (requests r) <? MAX_DEQUE_SIZE then requests r else List.tl (requests r))
         ++ [(source, packet)]) (queries r) (responses r) (next_channel r).
Proof.
  intros Hq Hlen. unfold deliver. rewrite Hq. unfold try_send.
  destruct (Z.ltb_spec (blen (requests r)) MAX_DEQUE_SIZE) as [|Hge]; [done|].
  assert (blen (List.tl (requests r)) < MAX_DEQUE_SIZE) as Htl.
  { unfold MAX_DEQUE_SIZE in *. destruct (requests r) as [|m ms]; cbn [List.tl];
      autorewrite with blen in *; lia. }
  by rewrite (proj2 (Z.ltb_lt _ _)) by done.
Qed.

(** A response is the next packet of a registered stream that is empty. *)
Lemma deliver_waiting r i c source packet :
  is_query packet = true -> packet_id packet = i -> i <> 0 ->
  queries r !! i = Some c -> responses r !! c = Some (mkResponses i []) ->
  exists r2, poll_next (deliver r source packet) c = Some (Ready (Some (source, packet)), r2).
Proof.
  intros Hq Hp Hi Hreg Hs. unfold deliver. rewrite Hq, Hp.
  destruct i as [|i|i]; [done| |];
    (rewrite Hreg, Hs; cbn [recver]; unfold try_send;
     change (blen (@nil Msg) <? MAX_DEQUE_SIZE) with true; cbv iota;
     unfold poll_next; cbn [responses]; rewrite lookup_insert_eq; cbn [recver app]; by eexists).
Qed.

(** A response to a query that was just registered is the next item of its stream. *)
Lemma deliver_registered r i source packet :
  is_query packet = true -> packet_id packet = i -> i <> 0 ->
  let '(c, r1) := register_query r i in
  exists r2, poll_next (deliver r1 source packet) c = Some (Ready (Some (source, packet)), r2).
Proof.
  intros Hq Hp Hi. cbn [register_query]. apply (deliver_waiting _ i); try done; apply lookup_insert_eq.
Qed.

Lemma deliver_ok r source packet : router_ok r -> router_ok (deliver r source packet).
Proof.
  intros Hr. destruct (is_query packet) eqn:Hq; [by apply deliver_response_ok|].
  pose proof Hr as (Hlen & Hreq & Hres & Hque). rewrite deliver_request by done.
  split_and!; [| |done|done]; cbn [requests].
  - rewrite blen_app. destruct (Z.ltb_spec (blen (requests r)) MAX_DEQUE_SIZE);
      [autorewrite with blen; lia|].
    unfold MAX_DEQUE_SIZE in *. destruct (requests r); cbn [List.tl]; autorewrite with blen in *; lia.
  - apply Forall_app. split; [|by constructor].
    destruct (_ <? _); [done|]. by destruct Hreq.
Qed.

Lemma step_ok r r' : step r r' -> router_ok r -> router_ok r'.
Proof.
  intros Hstep Hr. pose proof Hr as (Hlen & Hreq & Hres & Hque). destruct Hstep as
    [r source packet|r m r' E|r id Hid|r c p r' E|r c].
  - by apply deliver_ok.
  - unfold receive_query in E. destruct (requests r) as [|m' ms] eqn:Er; [done|].
    injection E as -> <-. apply Forall_cons in Hreq as [_ Hreq].
    split_and!; [|done..]. cbn. rewrite blen_cons in Hlen. lia.
  - split_and!; [done|done| |]; cbn.
    + intros c s [[<- <-]|[? Hs]]%lookup_insert_Some.
      * split; [lia|]. split; [by cbn|constructor].
      * apply Hres in Hs as [? ?]. split; [lia|done].
    + intros id' c [[<- <-]|[? Hc]]%lookup_insert_Some.
      * split_and!; [lia|done|]. rewrite lookup_insert_eq. by intros s [= <-].
      * destruct (Hque id' c Hc) as (? & ? & Hs). split_and!; [lia|done|].
        rewrite lookup_insert_ne by lia. exact Hs.
  - unfold poll_next in E. destruct (responses r !! c) as [s|] eqn:Es; [|done].
    destruct (recver s) as [|m ms] eqn:Em; [by case_bool_decide; injection E as _ <-|].
    injection E as _ <-. destruct (Hres c s Es) as [Hc [Hb Hall]]. rewrite Em in Hb, Hall.
    apply Forall_cons in Hall as [_ Hall]. rewrite blen_cons in Hb.
    split_and!; [done|done| |]; cbn.
    + intros c' s' [[<- <-]|[? Hs']]%lookup_insert_Some; [|by apply Hres].
      split; [done|]. split; [cbn; lia|done].
    + intros id' c' Hc'. destruct (Hque id' c' Hc') as (? & ? & Hs). split_and!; [done..|].
      intros s' [[<- <-]|[? Hs']]%lookup_insert_Some; [exact (Hs s Es)|by apply Hs].
  - unfold drop_responses. destruct (responses r !! c) as [s|] eqn:Es; [|done].
    split_and!; [done|done| |]; cbn.
    + intros c' s' [_ Hs']%lookup_delete_Some. by apply Hres.
    + intros id' c' [_ Hc']%lookup_delete_Some. destruct (Hque id' c' Hc') as (? & ? & Hs).
      split_and!; [done..|]. intros s' [_ Hs']%lookup_delete_Some. by apply Hs.
Qed.

Lemma reachable_ok r : reachable r -> router_ok r.
Proof.
  induction 1 as [|r r' _ IH Hstep]; [|by eapply step_ok].
  split_and!; [by cbn|constructor|..]; cbn; set_solver.
Qed.
End Router.
Arguments PacketRouter {C}.

(** ** Properties *)

(** C23: in every reachable state of the router, whatever the interleaving of received
    packets, polls, registrations and dropped streams, no queue holds more than
    64 packets, the responder's queue holds queries only, and the stream of a
    query holds only responses that carry its own id. *)
Theorem router_invariant `{Certificates} `{Bitfield} (r : PacketRouter) :
  reachable r ->
  blen (requests r) <= 64 /\ Forall (fun m => is_query m.2 = false) (requests r)
  /\ forall c s, responses r !! c = Some s ->
       blen (recver s) <= 64
       /\ Forall (fun m => is_query m.2 = true /\ packet_id m.2 = query_id s) (recver s).
Proof.
  intros (Hlen & Hreq & Hres & _)%reachable_ok. split_and!; [done|done|].
  intros c s Hs. by apply Hres in Hs as [_ ?].
Qed.

(** The router after a query with id 7 was registered and answered. *)
Definition sample_response : Packet (C := CertModel.certificates) :=
  answer (F := BitfieldModel.bitfield) 7 [].
Definition sample_router : PacketRouter (C := CertModel.certificates) :=
  deliver (F := BitfieldModel.bitfield) (register_query PacketRouter_new 7).2
    (V4 (mkSocketAddrV4 1 5353)) sample_response.

Lemma sample_router_reachable : reachable (F := BitfieldModel.bitfield) sample_router.
Proof.
  eapply reachable_step; [|apply step_deliver].
  eapply reachable_step; [apply reachable_new|by apply step_register].
Qed.

Example router_invariant_witness :
  match responses sample_router !! 0%nat with
  | Some s => Some (query_id s, length (recver s))
  | None => None
  end = Some (7, 1%nat)
  /\ blen (requests sample_router) <= 64.
Proof.
  split; [vm_compute; reflexivity|].
  apply (router_invariant (H0 := BitfieldModel.bitfield) sample_router sample_router_reachable).
Defined.

(** Delivery is exact.  A query is appended to the responder's queue, dropping the
    oldest entry exactly when the queue is full; a response whose id has a live
    stream with room is appended to that stream; nothing else changes. *)
Theorem deliver_exact `{Certificates} `{Bitfield} (r : PacketRouter) (source : SocketAddr)
    (p : Packet) :
  reachable r ->
  (is_query p = false ->
     deliver r source p = mkPacketRouter
       ((if blen (requests r) <? 64 then requests r else List.tl (requests r)) ++ [(source, p)])
       (queries r) (responses r) (next_channel r))
  /\ (forall c s, is_query p = true -> queries r !! packet_id p = Some c ->
        responses r !! c = Some s -> blen (recver s) < 64 ->
        deliver r source p = mkPacketRouter (requests r) (queries r)
          (<[c := mkResponses (packet_id p) (recver s ++ [(source, p)])]> (responses r))
          (next_channel r))
  /\ (is_query p = true -> queries r !! packet_id p = None -> deliver r source p = r).
Proof.
  intros (Hlen & Hreq & Hres & Hque)%reachable_ok. split_and!.
  - intros Hq. by apply deliver_request.
  - intros c s Hq Hc Hs Hroom. destruct (Hque _ _ Hc) as (_ & Hid & Hown).
    rewrite <- (Hown s Hs). unfold deliver. rewrite Hq.
    destruct (packet_id p) as [|n|n] eqn:E; [done| |]; rewrite Hc, Hs; unfold try_send;
      by rewrite (proj2 (Z.ltb_lt _ _)) by done.
  - intros Hq Hc. unfold deliver. rewrite Hq.
    destruct (packet_id p); [done| |]; by rewrite Hc.
Qed.

Example deliver_exact_witness :
  deliver (F := BitfieldModel.bitfield) sample_router (V4 (mkSocketAddrV4 1 5353))
    (set_id 8 sample_response) = sample_router.
Proof.
  apply (deliver_exact (H0 := BitfieldModel.bitfield) sample_router (V4 (mkSocketAddrV4 1 5353))
    (set_id 8 sample_response) sample_router_reachable); vm_compute; reflexivity.
Defined.

(** C40: dropping a stream unregisters its id, not itself.  When a second query is
    registered with an id that is in use, dropping the first stream removes the
    registration of the second: its stream ends, and later responses to it are
    discarded. *)
Theorem duplicate_id_unregisters `{Certificates} `{Bitfield} (r : PacketRouter) (i : Z)
    (source : SocketAddr) (p : Packet) :
  reachable r -> i <> 0 -> is_query p = true -> packet_id p = i ->
  let '(c1, r1) := register_query r i in
  let '(c2, r2) := register_query r1 i in
  let r3 := drop_responses r2 c1 in
  poll_next r2 c2 = Some (Pending, r2)
  /\ poll_next r3 c2 = Some (Ready None, r3)
  /\ deliver r3 source p = r3.
Proof.
  intros _ Hi Hq Hp. cbn [register_query]. set (c := next_channel r).
  set (r2 := mkPacketRouter _ _ _ (S (next_channel _))).
  assert (responses r2 !! S c = Some (mkResponses i [])) as H2 by apply lookup_insert_eq.
  assert (responses r2 !! c = Some (mkResponses i [])) as H1.
  { cbn. rewrite lookup_insert_ne by lia. apply lookup_insert_eq. }
  assert (queries r2 !! i = Some (S c)) as Hque by apply lookup_insert_eq.
  assert (drop_responses r2 c = mkPacketRouter (requests r2) (delete i (queries r2))
    (delete c (responses r2)) (next_channel r2)) as Hdrop by (unfold drop_responses; by rewrite H1).
  rewrite Hdrop. clearbody r2. unfold poll_next. cbn [responses queries next_channel requests].
  rewrite lookup_delete_ne, H2 by lia. cbn [recver query_id].
  rewrite (bool_decide_true _ Hque), bool_decide_false by (by rewrite lookup_delete_eq).
  split_and!; [done|done|]. unfold deliver. rewrite Hq, Hp. cbn [queries].
  destruct i; [done| |]; by rewrite lookup_delete_eq.
Qed.

Example duplicate_id_unregisters_witness :
  let r2 := (register_query (register_query
    (PacketRouter_new (C := CertModel.certificates)) 7).2 7).2 in
  poll_next (drop_responses r2 0) 1 = Some (Ready None, drop_responses r2 0).
Proof.
  apply (duplicate_id_unregisters (H0 := BitfieldModel.bitfield) PacketRouter_new 7
    (V4 (mkSocketAddrV4 1 5353)) sample_response reachable_new); [done|reflexivity|reflexivity].
Defined.
