(* ===== verification/Lookup.v ===== *)
(** * Lookups over HTTP: src/api.rs and the names of src/resolvers.rs

    The part that the HTTP/3 and the HTTP resolver share: how a name is read,
    which origins are accepted, how the request is built, and how the body and
    the headers of a response become candidates and a lifetime.  A [Duration] is
    a number of nanoseconds.  The crates [url] and [http] are parameters. *)

From stdpp Require Import base list numbers option sets.
From S2P Require Import Prelude Nom RustString DnsName DnsHeader Question Sigin Certificate Endpoint Records Packet Signature Wire Candidates Publish.

Definition from_secs (s : Z) : Z := s * 1000000000.

(** [url::Url]. *)
Class UrlApi := {
  Url : Type;
  url_scheme : Url -> bytes;
  url_host_str : Url -> option bytes;
  url_username : Url -> bytes;
  url_password : Url -> option bytes;
  url_path : Url -> bytes;
  url_query : Url -> option bytes;
  url_fragment : Url -> option bytes;
  url_join : Url -> bytes -> option Url;
  url_append_pair : Url -> bytes -> bytes -> Url;
}.

(** [http::HeaderMap]: the values of a header in order, and their text when they
    are visible ASCII. *)
Class HeaderApi := {
  HeaderMap : Type;
  HeaderValue : Type;
  header_get_all : HeaderMap -> bytes -> list HeaderValue;
  header_to_str : HeaderValue -> option bytes;
  header_from_bytes : bytes -> option HeaderValue;
}.

Definition header_get `{HeaderApi} (h : HeaderMap) (name : bytes) : option HeaderValue :=
  head (header_get_all h name).

(** ** Names; [dns_name_ok] is [rustls::pki_types::DnsName::try_from] *)
Section Names.
Context `{C : Certificates} (dns_name_ok : bytes -> bool).

Definition is_number (l : bytes) : bool := negb (is_empty_bytes l) && forallb is_ascii_digit l.

Definition resolvable_name (name : bytes) : option bytes :=
  let host :=
    match rsplit_once colon name with
    | Some (host, port) => if is_number port then host else name
    | None => name
    end in
  if dns_name_ok host then Some host else None.

Definition endpoint_lookup_name_and_sequence (name : bytes)
  : option (bytes * option CertificateSequence) :=
  '(host, sequence) ←
    match rsplit_once colon name with
    | Some (host, digits) =>
        if is_number digits
        then n ← parse_u64 digits; s ← seq_try_from n; Some (host, Some s)
        else Some (name, None)
    | None => Some (name, None)
    end;
  host ← resolvable_name host;
  Some (host, sequence).

(** [exact_override]: a sequence in the name takes precedence over the lookup. *)
Definition exact_override (lookup : EndpointLookup) (seq : option CertificateSequence)
  : EndpointLookup :=
  match seq with
  | None => lookup
  | Some s =>
      let exact := with_family (lookup_exact s) (family lookup) in
      match record_limit lookup with
      | Some limit => with_record_limit exact limit
      | None => exact
      end
  end.
End Names.

(** ** Origins and requests *)
Inductive InvalidServerOrigin :=
| NotHttps
| MissingHost
| HasCredentials
| HasPathQueryOrFragment
| DhttpOrigin.

(** The test on a host in lower case without trailing dots. *)
Definition is_dhttp_host (host : bytes) : bool :=
  bool_decide (host = str "dhttp.net") || ends_with (str ".dhttp.net") host.

Section Requests.
Context `{C : Certificates} `{U : UrlApi}.

Definition validate_server_origin (url : Url) (reject_dhttp : bool)
  : Result unit InvalidServerOrigin :=
  if negb (bool_decide (url_scheme url = str "https")) then Err NotHttps
  else
    let? host := ok_or (url_host_str url) MissingHost in
    if negb (is_empty_bytes (url_username url)) || is_some (url_password url)
    then Err HasCredentials
    else if negb (bool_decide (url_path url = str "/")) || is_some (url_query url)
            || is_some (url_fragment url)
    then Err HasPathQueryOrFragment
    else
      let host := to_ascii_lowercase (trim_end_matches dot host) in
      if reject_dhttp && is_dhttp_host host then Err DhttpOrigin else Ok tt.

Definition lookup_url (server_origin : Url) (name : bytes) (lookup : EndpointLookup)
  : may_panic Url :=
  url ← url_join server_origin (str "/api/v2/lookup");
  Some (fold_left (fun url '(k, v) => url_append_pair url k v)
          (append_endpoint_lookup_query [(str "host", name)] lookup) url).
End Requests.

Lemma valid_origin_host `{UrlApi} url host :
  validate_server_origin url true = Ok tt -> url_host_str url = Some host ->
  is_dhttp_host (to_ascii_lowercase (trim_end_matches dot host)) = false.
Proof.
  unfold validate_server_origin. intros Hv Hh. rewrite Hh in Hv. cbn [ok_or] in Hv.
  repeat (destruct (negb _ || _) in Hv || destruct (negb _) in Hv); try done.
  all: repeat case_match; try done.
Qed.

(** ** Responses *)
Definition MAX_LOOKUP_RESPONSE_BYTES : Z := 1024 * 1024.
Definition MAX_RESPONSE_RECORDS : Z := 256.

Module LookupDecodeError.
Inductive t :=
| TooManyRecords (limit : Z)
| MultiResponse
| ParseRecords (source : nom_err).
End LookupDecodeError.

Inductive LookupSemanticError :=
| Decode (source : LookupDecodeError.t)
| NoRecordFound
| NoUsableRecord.

Record LookupAnswer `{Certificates} {Source : Type} := mkLookupAnswer {
  answer_candidates : EndpointCandidates Source;
  answer_ttl : Z;
}.
Arguments LookupAnswer {_} Source.
Arguments mkLookupAnswer {_ Source}.

Section Decode.
Context `{C : Certificates} `{N : Nom} `{K : Crypto} `{P : CertificateParsers} `{S : Sha256}.
(** [extract_dhttp_subject_key_identifier(..).ok()] with [chain()], and
    [qresolve::EndpointAddr::addr]. *)
Context (extract : bytes -> option CertificateChainKey).
Context (dquic_addr : Dquic.EndpointAddr -> SocketAddr).

(** [matches!(response.signature_fields.verify(..), Ok(true))]. *)
Definition verifies (r : ResponseRecord) : bool :=
  match SignatureFields_verify (signature_fields r) (dns r) (cert r) with
  | Ok true => true
  | _ => false
  end.

(** The endpoint records of a packet that answer for the name. *)
Definition tagged_answers (name : bytes) (fallback : option CertificateChainKey) (p : Packet)
  : list (TaggedEndpointCandidate Z) :=
  omap (fun answer =>
    match rr_data answer with
    | RData.E record =>
        if bool_decide (rr_name answer = name)
        then Some (mkTagged (rr_ttl answer) record fallback) else None
    | _ => None
    end) (answers p).

Fixpoint decode_responses (name : bytes) (rs : list ResponseRecord) (rejected : Z)
    (eps : list (TaggedEndpointCandidate Z))
  : Result (list (TaggedEndpointCandidate Z) * Z) LookupDecodeError.t :=
  match rs with
  | [] => Ok (eps, rejected)
  | response :: rs =>
      let fallback := publisher_certificate_chain_key extract response in
      if negb (SignatureFields_is_empty (signature_fields response)) && negb (verifies response)
      then decode_responses name rs (rejected + 1) eps
      else
        match be_packet (dns response) with
        | Err source => Err (LookupDecodeError.ParseRecords source)
        | Ok (remain, packet) =>
            if negb (is_empty_bytes remain) then Err LookupDecodeError.MultiResponse
            else decode_responses name rs rejected (eps ++ tagged_answers name fallback packet)
        end
  end.

Definition decode_candidate_groups (name body : bytes)
  : may_panic (Result (list (CertificateChainKey * list (Z * Dquic.EndpointAddr)) * Z)
                 LookupDecodeError.t) :=
  if blen body <? 4 then Some (Err LookupDecodeError.MultiResponse)
  else
    let count := of_be (take 4 body) in
    if MAX_RESPONSE_RECORDS <? count
    then Some (Err (LookupDecodeError.TooManyRecords MAX_RESPONSE_RECORDS))
    else
      match be_multi_response body with
      | Err _ => Some (Err LookupDecodeError.MultiResponse)
      | Ok (remain, multi) =>
          if negb (is_empty_bytes remain) then Some (Err LookupDecodeError.MultiResponse)
          else
            match decode_responses name (records multi) 0 [] with
            | Err e => Some (Err e)
            | Ok (eps, rejected) =>
                gs ← grouped_endpoint_candidates eps;
                Some (Ok (gs, rejected))
            end
      end.

(** The filter that keeps an endpoint when [seen.insert] accepts it. *)
Fixpoint unseen {T} (seen : list Dquic.EndpointAddr) (l : list (T * Dquic.EndpointAddr))
  : list (T * Dquic.EndpointAddr) :=
  match l with
  | [] => []
  | (t, e) :: l =>
      if bool_decide (e ∈ seen) then unseen seen l else (t, e) :: unseen (e :: seen) l
  end.

(** [.take(limit)]; without a limit the source takes [usize::MAX] elements, more
    than a [Vec] can hold. *)
Definition take_limit {A} (limit : option Z) (l : list A) : list A :=
  match limit with
  | Some n => take (Z.to_nat n) l
  | None => l
  end.

Definition min_ttl (ttl : option Z) (record_ttl : Z) : option Z :=
  Some (match ttl with None => record_ttl | Some current => Z.min current record_ttl end).

(** The loop over the groups of [decode_lookup_response]. *)
Fixpoint candidate_loop {Source} (limit : option Z) (source : Source)
    (gs : list (CertificateChainKey * list (Z * Dquic.EndpointAddr)))
    (cs : list (EndpointCandidateGroup Source)) (ttl : option Z)
  : list (EndpointCandidateGroup Source) * option Z :=
  match gs with
  | [] => (cs, ttl)
  | (chain, records) :: gs =>
      let kept := take_limit limit (unseen [] records) in
      let ttl := fold_left min_ttl (map fst kept) ttl in
      match map snd kept with
      | [] => candidate_loop limit source gs cs ttl
      | endpoints =>
          candidate_loop limit source gs
            (cs ++ [mkEndpointCandidateGroup chain endpoints [source]]) ttl
      end
  end.
End Decode.

Section Freshness.
Context `{H : HeaderApi}.

Definition CACHE_CONTROL : bytes := str "cache-control".
Definition AGE : bytes := str "age".
Definition comma : Z := 44.
Definition equals : Z := 61.

Definition trim_matches (c : Z) (l : bytes) : bytes := trim_end_matches c (trim_start_matches c l).

(** A directive that forbids to store or to reuse the response. *)
Definition forbids_reuse (directive : bytes) : bool :=
  let name := trim (default [] (head (split_on equals (trim directive)))) in
  eq_ignore_ascii_case name (str "no-store") || eq_ignore_ascii_case name (str "no-cache").

Definition max_age_directive (directive : bytes) : option Z :=
  '(name, value) ← split_once equals (trim directive);
  if eq_ignore_ascii_case name (str "max-age") then parse_u64 (trim_matches 34 value) else None.

Fixpoint find_map {A B} (f : A -> option B) (l : list A) : option B :=
  match l with
  | [] => None
  | x :: l => match f x with Some y => Some y | None => find_map f l end
  end.

Definition freshness (dns_ttl : Z) (headers : HeaderMap) : Z :=
  if existsb forbids_reuse
       (List.concat (map (split_on comma)
          (omap header_to_str (header_get_all headers CACHE_CONTROL))))
  then 0
  else
    let max_age :=
      option_map from_secs
        (v ← header_get headers CACHE_CONTROL; v ← header_to_str v;
         find_map max_age_directive (split_on comma v)) in
    let age :=
      match v ← header_get headers AGE; v ← header_to_str v; parse_u64 v with
      | Some s => from_secs s
      | None => 0
      end in
    let lifetime := match max_age with Some m => Z.min dns_ttl m | None => dns_ttl end in
    Z.max 0 (lifetime - age).
End Freshness.

Section Response.
Context `{C : Certificates} `{N : Nom} `{K : Crypto} `{P : CertificateParsers} `{S : Sha256}.
Context `{H : HeaderApi} {Source : Type}.
Context (extract : bytes -> option CertificateChainKey).
Context (dquic_addr : Dquic.EndpointAddr -> SocketAddr).

Definition decode_lookup_response (name : bytes) (lookup : EndpointLookup) (source : Source)
    (headers : HeaderMap) (body : bytes)
  : may_panic (Result (LookupAnswer Source) LookupSemanticError) :=
  decoded ← decode_candidate_groups extract name body;
  match decoded with
  | Err e => Some (Err (Decode e))
  | Ok (gs, rejected) =>
      let gs := select_group_pairs
                  (filter_endpoint_candidate_groups dquic_addr gs (family lookup))
                  (sequences lookup) in
      let '(cs, ttl) := candidate_loop (record_limit lookup) source gs [] None in
      match cs with
      | [] => Some (Err (if rejected =? 0 then NoRecordFound else NoUsableRecord))
      | _ => Some (Ok (mkLookupAnswer (mkEndpointCandidates cs)
                         (freshness (from_secs (default 0 ttl)) headers)))
      end
  end.
End Response.

(** ** Facts about deduplication and the candidate loop *)
Section LoopFacts.
Context `{C : Certificates}.

(** [unseen] keeps the first occurrences. *)
Lemma unseen_firsts {T} (l : list (T * Dquic.EndpointAddr)) : forall seen,
  map snd (unseen seen l)
  = List.filter (fun e => negb (bool_decide (e ∈ seen))) (firsts (map snd l)).
Proof.
  induction l as [|[t e] l IH]; intros seen; [done|]. cbn [unseen map snd firsts List.filter].
  rewrite filter_filter. case_bool_decide as He; cbn [negb map snd]; rewrite IH; [|f_equal];
    apply List.filter_ext; intros y; repeat case_bool_decide; set_solver.
Qed.

Lemma unseen_sub {T} (l : list (T * Dquic.EndpointAddr)) x : forall seen,
  x ∈ unseen seen l -> x ∈ l.
Proof.
  induction l as [|[t e] l IH]; intros seen; cbn [unseen]; [done|].
  case_bool_decide; rewrite ?elem_of_cons; naive_solver.
Qed.

Lemma take_limit_sub {A} limit (l : list A) x : x ∈ take_limit limit l -> x ∈ l.
Proof. destruct limit; cbn [take_limit]; [|done]. intros (? & ? & _)%elem_of_take. by eapply list_elem_of_lookup_2. Qed.

Definition kept (limit : option Z) (records : list (Z * Dquic.EndpointAddr)) :=
  take_limit limit (unseen [] records).

Lemma kept_endpoints limit records :
  map snd (kept limit records) = take_limit limit (firsts (map snd records)).
Proof.
  unfold kept. transitivity (take_limit limit (map snd (unseen [] records))).
  { destruct limit; cbn [take_limit]; [by rewrite firstn_map|done]. }
  rewrite unseen_firsts. f_equal. apply filter_none. intros x _. cbn.
  by rewrite bool_decide_false by apply not_elem_of_nil.
Qed.

(** The candidates of a group. *)
Definition candidate_of {Source} (limit : option Z) (source : Source)
    (g : CertificateChainKey * list (Z * Dquic.EndpointAddr))
  : option (EndpointCandidateGroup Source) :=
  match map snd (kept limit g.2) with
  | [] => None
  | es => Some (mkEndpointCandidateGroup g.1 es [source])
  end.

Lemma candidate_loop_spec {Source} limit (source : Source) gs : forall cs ttl,
  candidate_loop limit source gs cs ttl
  = (cs ++ omap (candidate_of limit source) gs,
     fold_left min_ttl (List.concat (map (fun g => map fst (kept limit g.2)) gs)) ttl).
Proof.
  induction gs as [|[k rs] gs IH]; intros cs ttl;
    cbn [candidate_loop map List.concat omap list_omap]; [by rewrite app_nil_r|].
  fold (kept limit rs). rewrite fold_left_app. unfold candidate_of at 1. cbn [fst snd].
  destruct (map snd (kept limit rs)) as [|e es]; rewrite IH; [done|]. by rewrite <- app_assoc.
Qed.

Lemma min_ttl_le l : forall ttl t,
  t ∈ l \/ ttl = Some t -> exists m, fold_left min_ttl l ttl = Some m /\ m <= t.
Proof.
  induction l as [|x l IH]; intros ttl t; cbn [fold_left].
  { intros [Hin| ->]; [by apply not_elem_of_nil in Hin|]. exists t. split; [done|lia]. }
  intros [[->|Hin]%elem_of_cons| ->].
  - destruct ttl as [c|]; cbn [min_ttl].
    + destruct (IH (Some (Z.min c x)) (Z.min c x)) as (m & E & Hm); [by right|].
      exists m. split; [done|lia].
    + apply IH. by right.
  - apply IH. by left.
  - cbn [min_ttl]. destruct (IH (Some (Z.min t x)) (Z.min t x)) as (m & E & Hm); [by right|].
    exists m. split; [done|lia].
Qed.
End LoopFacts.

(** ** Facts about the decoder *)
Section DecodeFacts.
Context `{CS : CertificatesSpec} `{NS : NomSpec} `{K : Crypto} `{P : CertificateParsers}.
Context `{S : Sha256} (extract : bytes -> option CertificateChainKey).

(** A response record counts unless it carries a signature that does not verify. *)
Definition accepted (r : ResponseRecord) : bool :=
  SignatureFields_is_empty (signature_fields r) || verifies r.

Definition contribution (name : bytes) (r : ResponseRecord) : list (TaggedEndpointCandidate Z) :=
  match be_packet (dns r) with
  | Ok (_, p) => tagged_answers name (publisher_certificate_chain_key extract r) p
  | Err _ => []
  end.

Lemma decode_responses_ok name rs : forall rejected eps eps' rejected',
  decode_responses extract name rs rejected eps = Ok (eps', rejected') ->
  Forall (fun r => exists p, be_packet (dns r) = Ok ([], p)) (List.filter accepted rs)
  /\ eps' = eps ++ List.concat (map (contribution name) (List.filter accepted rs))
  /\ rejected' = rejected + blen (List.filter (fun r => negb (accepted r)) rs).
Proof.
  induction rs as [|r rs IH]; intros rejected eps eps' rejected'; cbn [decode_responses List.filter].
  { intros [= <- <-]. rewrite app_nil_r. split; [constructor|]. split; [done|].
    autorewrite with blen. lia. }
  rewrite <- negb_orb. fold (accepted r). destruct (accepted r) eqn:Ha; cbn [negb].
  - destruct (be_packet (dns r)) as [[remain p]|] eqn:Hp; [|done].
    destruct remain; cbn [is_empty_bytes negb]; [|done].
    intros (IH1 & -> & ->)%IH. split; [constructor; eauto|]. split; [|done].
    cbn [map List.concat]. unfold contribution at 2. rewrite Hp. by rewrite <- app_assoc.
  - intros (IH1 & -> & ->)%IH. split; [done|]. split; [done|]. autorewrite with blen. lia.
Qed.

Lemma decode_responses_err name rs : forall rejected eps e,
  Forall (fun r => bytes_ok (dns r)) rs ->
  decode_responses extract name rs rejected eps = Err e ->
  match e with LookupDecodeError.ParseRecords source => err_ok source | _ => True end.
Proof.
  induction rs as [|r rs IH]; intros rejected eps e Hrs; cbn [decode_responses]; [done|].
  apply Forall_cons_1 in Hrs as [Hr Hrs]. case_match; [by apply IH|].
  pose proof (be_packet_cases (dns r) Hr) as Hc.
  destruct (be_packet (dns r)) as [[remain p]|e0].
  - case_match; [by intros [= <-]|by apply IH].
  - intros [= <-]. destruct e0 as [| | ? []|]; try done. destruct Hc as (h & Hh & _). cbn.
    pose proof (be_header_yields (dns r) Hr) as Hy. rewrite Hh in Hy. destruct Hy as (l & Hl & _).
    rewrite Hl in Hr. by apply bytes_ok_app in Hr as [_ ?].
Qed.

Lemma response_dns_ok r : bytes_ok (response_bytes r) -> Forall (fun r => bytes_ok (dns r)) (records r).
Proof.
  unfold response_bytes. intros [_ H]%bytes_ok_app. induction (records r) as [|x rs IH]; [constructor|].
  cbn [map List.concat] in H. apply bytes_ok_app in H as [H1 H2]. constructor; [|by apply IH].
  unfold record_bytes, field_bytes in H1. rewrite !bytes_ok_app in H1. tauto.
Qed.

Lemma tagged_answers_elem name fallback p c :
  c ∈ tagged_answers name fallback p ->
  exists a, a ∈ answers p /\ rr_name a = name /\ rr_data a = RData.E (record c)
    /\ tag c = rr_ttl a /\ fallback_chain_key c = fallback.
Proof.
  unfold tagged_answers. intros (a & Ha & Hc)%list_elem_of_omap. exists a.
  destruct (rr_data a) eqn:Hd; try done. case_bool_decide; [|done]. by injection Hc as <-.
Qed.
End DecodeFacts.

(** ** Facts about the selection and the lifetime *)
Section SelectionFacts.
Context `{C : Certificates} (dquic_addr : Dquic.EndpointAddr -> SocketAddr).

Lemma filter_sublist {A} (f : A -> bool) l : List.filter f l `sublist_of` l.
Proof.
  induction l as [|x l IH]; cbn [List.filter]; [constructor|].
  destruct (f x); by constructor.
Qed.

Lemma select_sublist {T} (gs : list (CertificateChainKey * T)) query :
  select_group_pairs gs query `sublist_of` gs.
Proof.
  destruct query; cbn [select_group_pairs]; [apply sublist_take|apply filter_sublist|
    apply sublist_take|done].
Qed.

(** Filtering by family keeps some groups, each with some of its endpoints. *)
Lemma filter_groups_spec {T} (gs : list (CertificateChainKey * list (T * Dquic.EndpointAddr))) f :
  map fst (filter_endpoint_candidate_groups dquic_addr gs f) `sublist_of` map fst gs
  /\ forall k es, (k, es) ∈ filter_endpoint_candidate_groups dquic_addr gs f ->
       exists es0, (k, es0) ∈ gs
         /\ es = List.filter (fun x => endpoint_matches_family dquic_addr x.2 f) es0.
Proof.
  destruct f as [f|]; cbn [filter_endpoint_candidate_groups].
  - split.
    + transitivity (map fst (map (fun '(k, es) => (k, List.filter (fun '(_, e) =>
        endpoint_matches_family dquic_addr e (Some f)) es)) gs)).
      * apply (fmap_sublist fst), filter_sublist.
      * rewrite map_map. erewrite map_ext; [reflexivity|]. by intros [? ?].
    + intros k es [Hin _]%list_elem_of_In%List.filter_In.
      apply in_map_iff in Hin as ([k' es0] & [= -> <-] & Hin%list_elem_of_In).
      exists es0. split; [done|]. apply List.filter_ext. by intros [].
  - split; [done|]. intros k es Hin. exists es. split; [done|]. symmetry. by apply filter_none.
Qed.

Lemma parse_digits_nonneg max l : forall acc n,
  0 <= acc -> parse_digits max acc l = Some n -> 0 <= n.
Proof.
  induction l as [|b l IH]; intros acc n Ha; cbn [parse_digits]; [by intros [= <-]|].
  destruct (is_ascii_digit b) eqn:Hb; [|done]. apply andb_true_iff in Hb as [?%Z.leb_le _].
  repeat case_match; try done. apply IH. lia.
Qed.

Lemma parse_u64_nonneg l n : parse_u64 l = Some n -> 0 <= n.
Proof.
  unfold parse_u64, parse_uint. repeat case_match; try done; apply parse_digits_nonneg; lia.
Qed.

Lemma freshness_le `{HeaderApi} ttl headers : 0 <= freshness ttl headers <= Z.max 0 ttl.
Proof.
  unfold freshness. case_match; [lia|].
  assert (0 <= match v ← header_get headers AGE; v ← header_to_str v; parse_u64 v with
               | Some s => from_secs s | None => 0 end) as Hage.
  { case_match eqn:E; [|done]. apply bind_Some in E as (v & _ & (w & _ & E)%bind_Some).
    apply parse_u64_nonneg in E. unfold from_secs. lia. }
  repeat case_match; lia.
Qed.
End SelectionFacts.

Section AnswerFacts.
Context `{CS : CertificatesSpec} `{NS : NomSpec} `{K : Crypto} `{P : CertificateParsers}.
Context `{S : Sha256} (extract : bytes -> option CertificateChainKey).

(** The candidates of all the accepted records of a response. *)
Definition offered (name : bytes) (rs : list ResponseRecord) : list (TaggedEndpointCandidate Z) :=
  List.concat (map (contribution extract name) (List.filter accepted rs)).

(** An accepted record has an answer for the name, of that chain, endpoint and lifetime. *)
Definition offers (name : bytes) (rs : list ResponseRecord) (k : CertificateChainKey)
    (e : Dquic.EndpointAddr) (ttl : Z) : Prop :=
  exists r p a rec, r ∈ rs /\ accepted r = true /\ be_packet (dns r) = Ok ([], p)
    /\ a ∈ answers p /\ rr_name a = name /\ rr_data a = RData.E rec /\ rr_ttl a = ttl
    /\ chain_of (mkTagged ttl rec (publisher_certificate_chain_key extract r)) = k
    /\ dquic_try_from_endpoint rec = Ok e.

Lemma decode_groups_cases name body :
  bytes_ok body ->
  match decode_candidate_groups extract name body with
  | Some (Ok (gs, rejected)) => exists multi,
      be_multi_response body = Ok ([], multi) /\ blen (records multi) <= MAX_RESPONSE_RECORDS
      /\ Forall (fun r => exists p, be_packet (dns r) = Ok ([], p))
           (List.filter accepted (records multi))
      /\ gs = grouped_spec (offered name (records multi))
      /\ rejected = blen (List.filter (fun r => negb (accepted r)) (records multi))
  | Some (Err (LookupDecodeError.ParseRecords source)) => err_ok source
  | Some (Err _) => True
  | None => False
  end.
Proof.
  intros Hok. unfold decode_candidate_groups. destruct (blen body <? 4); [done|].
  destruct (Z.ltb_spec MAX_RESPONSE_RECORDS (of_be (take 4 body))) as [|Hc]; [done|].
  pose proof (be_multi_response_yields body Hok) as Hy.
  destruct (be_multi_response body) as [[remain multi]|] eqn:Hm; [|done].
  destruct Hy as (l & -> & -> & Hlen & Hrok).
  destruct remain as [|b remain]; cbn [is_empty_bytes negb]; [|done].
  rewrite app_nil_r in *.
  destruct (decode_responses extract name (records multi) 0 []) as [[eps rejected]|e] eqn:Hd.
  - apply decode_responses_ok in Hd as (Hp & -> & ->). cbn [app]. rewrite grouped_refines.
    cbn [mbind option_bind]. exists multi. split; [done|]. split_and!; try done.
    assert (take 4 (response_bytes multi) = to_be 4 (blen (records multi))) as E.
    { unfold response_bytes. rewrite take_app_length'; [done|]. by rewrite length_to_be. }
    rewrite E, of_be_to_be_id in Hc; [lia|]. split; [apply blen_nonneg|exact Hlen].
  - apply (decode_responses_err _ _ _ _ _ _ (response_dns_ok _ Hok)) in Hd. by destruct e.
Qed.

Lemma offered_offers name rs c k e :
  Forall (fun r => exists p, be_packet (dns r) = Ok ([], p)) (List.filter accepted rs) ->
  c ∈ offered name rs -> chain_of c = k -> dquic_try_from_endpoint (record c) = Ok e ->
  offers name rs k e (tag c).
Proof.
  intros Hp Hc Hk He. apply list_elem_of_In, in_concat in Hc as (cs & Hcs & Hc).
  apply in_map_iff in Hcs as (r & <- & Hr). rewrite Forall_forall in Hp.
  destruct (Hp r) as [p Hpr]; [by apply list_elem_of_In|]. apply List.filter_In in Hr as [Hr Ha].
  unfold contribution in Hc. rewrite Hpr in Hc.
  apply list_elem_of_In, tagged_answers_elem in Hc as (a & Hin & Hn & Hd & Ht & Hf).
  exists r, p, a, (record c). destruct c as [t rec fb]. cbn in *. subst.
  split_and!; try done. by apply list_elem_of_In.
Qed.
End AnswerFacts.

Section ResponseFacts.
Context `{CS : CertificatesSpec} `{NS : NomSpec} `{K : Crypto} `{P : CertificateParsers}.
Context `{S : Sha256} `{H : HeaderApi} {Source : Type}.
Context (extract : bytes -> option CertificateChainKey).
Context (dquic_addr : Dquic.EndpointAddr -> SocketAddr).

(** What is promised of a group of candidates of a response. *)
Definition group_sound (name : bytes) (lookup : EndpointLookup) (source : Source)
    (rs : list ResponseRecord) (ttl : Z) (g : EndpointCandidateGroup Source) : Prop :=
  is_primary_chain_key (chain g) = true /\ sources g = [source]
  /\ endpoints g <> [] /\ NoDup (endpoints g)
  /\ (forall n, record_limit lookup = Some n -> blen (endpoints g) <= Z.max 0 n)
  /\ Forall (fun e => endpoint_matches_family dquic_addr e (family lookup) = true
       /\ exists t, offers extract name rs (chain g) e t /\ ttl <= Z.max 0 (from_secs t))
       (endpoints g).

(** The groups that remain after filtering by family and selecting sequences. *)
Definition remaining (name : bytes) (lookup : EndpointLookup) (rs : list ResponseRecord) :=
  select_group_pairs (filter_endpoint_candidate_groups dquic_addr
    (grouped_spec (offered extract name rs)) (family lookup)) (sequences lookup).

Lemma remaining_elem name lookup rs k es t e :
  Forall (fun r => exists p, be_packet (dns r) = Ok ([], p)) (List.filter accepted rs) ->
  (k, es) ∈ remaining name lookup rs -> (t, e) ∈ es ->
  is_primary_chain_key k = true /\ endpoint_matches_family dquic_addr e (family lookup) = true
  /\ offers extract name rs k e t.
Proof.
  intros Hp Hk He. eapply elem_of_sublist in Hk; [|apply select_sublist].
  apply (proj2 (filter_groups_spec dquic_addr _ _)) in Hk as (es0 & Hin & ->).
  apply list_elem_of_In, List.filter_In in He as [He%list_elem_of_In Hf].
  apply grouped_spec_elem in Hin as [_ Hes].
  destruct (Hes _ He) as (c & Hc & Hprim & Hch & Ht & Hd). cbn in Ht, Hd, Hf.
  split; [done|]. split; [done|]. subst t. by eapply offered_offers.
Qed.

Lemma remaining_nodup name lookup rs : NoDup (map fst (remaining name lookup rs)).
Proof.
  eapply sublist_NoDup; [apply (grouped_chains_nodup (offered extract name rs))|].
  etransitivity; [|apply (proj1 (filter_groups_spec dquic_addr _ (family lookup)))].
  apply (fmap_sublist fst), select_sublist.
Qed.

Lemma candidates_sublist limit (source : Source) gs :
  map chain (omap (candidate_of limit source) gs) `sublist_of` map fst gs.
Proof.
  induction gs as [|[k rs] gs IH]; cbn [omap list_omap map fst]; [constructor|].
  unfold candidate_of at 1. cbn [fst snd]. destruct (map snd (kept limit rs));
    cbn [map chain]; by constructor.
Qed.

Lemma candidate_sound name lookup source rs ttl0 g headers :
  Forall (fun r => exists p, be_packet (dns r) = Ok ([], p)) (List.filter accepted rs) ->
  let gs := remaining name lookup rs in
  let limit := record_limit lookup in
  fold_left min_ttl (List.concat (map (fun g => map fst (kept limit g.2)) gs)) None = ttl0 ->
  g ∈ omap (candidate_of limit source) gs ->
  group_sound name lookup source rs (freshness (from_secs (default 0 ttl0)) headers) g.
Proof.
  intros Hp gs limit Httl (g0 & Hg0 & Hg)%list_elem_of_omap. destruct g0 as [k es].
  unfold candidate_of in Hg. cbn [fst snd] in Hg.
  destruct (map snd (kept limit es)) as [|e0 es0] eqn:Hk; [done|]. injection Hg as <-.
  rewrite <- Hk. unfold group_sound. cbn [chain endpoints sources].
  assert (forall t e, (t, e) ∈ kept limit es -> (t, e) ∈ es) as Hsub.
  { intros t e Hin. eapply unseen_sub, take_limit_sub, Hin. }
  assert (exists t e, (t, e) ∈ kept limit es) as (t1 & e1 & H1).
  { destruct (kept limit es) as [|[t e] l]; [done|]. exists t, e. left. }
  split; [by apply (remaining_elem _ _ _ _ _ _ _ Hp Hg0 (Hsub _ _ H1))|].
  split; [done|]. split; [by rewrite Hk|]. split.
  { rewrite kept_endpoints. destruct limit; cbn [take_limit]; [|apply firsts_nodup].
    eapply sublist_NoDup; [apply firsts_nodup|apply sublist_take]. }
  split.
  { intros n Hn. subst limit. rewrite Hn, kept_endpoints. unfold blen. cbn [take_limit].
    rewrite length_take. lia. }
  apply Forall_forall. intros e He.
  apply list_elem_of_In, in_map_iff in He as ([t e'] & <- & Hin%list_elem_of_In). cbn [snd].
  destruct (remaining_elem _ _ _ _ _ _ _ Hp Hg0 (Hsub _ _ Hin)) as (_ & Hf & Ho).
  split; [done|]. exists t. split; [done|].
  destruct (min_ttl_le (List.concat (map (fun g => map fst (kept limit g.2)) gs)) None t)
    as (m & Em & Hm).
  { left. apply list_elem_of_In, in_concat. exists (map fst (kept limit es)).
    rewrite list_elem_of_In in Hg0. rewrite list_elem_of_In in Hin.
    split; apply in_map_iff; [by exists (k, es)|by exists (t, e')]. }
  rewrite Em in Httl. subst ttl0. change (default 0 (Some m)) with m.
  pose proof (freshness_le (from_secs m) headers). unfold from_secs in *. lia.
Qed.
End ResponseFacts.

(** ** A published packet in a response *)
Section PublishedFacts.
Context `{CS : CertificatesSpec} `{NS : NomSpec} `{K : Crypto} `{P : CertificateParsers}.
Context `{S : Sha256} (extract : bytes -> option CertificateChainKey).
Context (dquic_addr : Dquic.EndpointAddr -> SocketAddr).

Lemma group_by_const {V} (k : CertificateChainKey) (l : list V) :
  l <> [] -> group_by (map (fun v => (k, v)) l) = [(k, l)].
Proof.
  intros Hl. assert (firsts (map fst (map (fun v => (k, v)) l)) = [k]) as E.
  { rewrite map_map. cbn [fst]. destruct l as [|v l]; [done|]. cbn [map firsts]. f_equal. clear.
    induction l as [|w l IH]; [done|]. cbn [map firsts List.filter]. rewrite IH.
    by rewrite bool_decide_false by tauto. }
  unfold group_by. rewrite E. cbn [map]. do 2 f_equal. unfold values_of. clear.
  induction l as [|v l IH]; [done|]. cbn [map List.filter]. rewrite bool_decide_true by done.
  cbn [map snd]. by rewrite IH.
Qed.

(** The answers of a published packet, as the decoder tags them. *)
Lemma published_tagged chain name ds es fb p :
  name_ok name -> canonical_name name = name ->
  Forall2 (fun d e => endpoint_ok e /\ wire_endpoint e = e
    /\ dquic_try_from_endpoint e = Ok d /\ load e = None /\ signature e = None) ds es ->
  answers p = map canonical_record (answer_records [(name, map (published chain) es)]) ->
  omap eligible (tagged_answers name fb p)
  = map (fun d => (primary_key (chain_sequence chain), (300, d))) ds.
Proof.
  intros Hn Hc Hall Hans. unfold tagged_answers. rewrite Hans. unfold answer_records.
  cbn [map List.concat]. rewrite app_nil_r. clear Hans.
  induction Hall as [|d e ds es (He & Hw & Hd & Hl & Hs) Hall IH]; [done|].
  destruct (published_spec chain e d He Hw Hd Hl Hs) as (_ & Hw' & Hd' & Hm & Hq & _).
  cbn [map omap list_omap]. cbn. rewrite Hc, bool_decide_true, Hw' by done. cbn.
  unfold eligible at 1, chain_of. cbn [record tag]. rewrite Hm, Hq, Hd'. cbn [orb].
  fold (primary_key (chain_sequence chain)). unfold primary_key at 1.
  rewrite is_primary_primary. cbn. f_equal. exact IH.
Qed.

(** The decoder on a response with one accepted record. *)
Lemma decode_single name r p :
  response_record_ok r -> accepted r = true -> be_packet (dns r) = Ok ([], p) ->
  decode_candidate_groups extract name (response_bytes (mkMultiResponse [r]))
  = Some (Ok (grouped_spec
      (tagged_answers name (publisher_certificate_chain_key extract r) p), 0)).
Proof.
  intros Hr Ha Hp. unfold decode_candidate_groups.
  set (body := response_bytes (mkMultiResponse [r])).
  assert (be_multi_response body = Ok ([], mkMultiResponse [r])) as Hm.
  { rewrite <- (app_nil_r body). apply be_multi_response_bytes. split; [done|]. by constructor. }
  assert (take 4 body = to_be 4 1) as Ht by reflexivity.
  assert (4 <= blen body) as Hl.
  { unfold body, response_bytes. rewrite blen_app, blen_to_be.
    pose proof (blen_nonneg (List.concat (map record_bytes [r]))). cbn [records]. lia. }
  rewrite (proj2 (Z.ltb_ge _ _) Hl), Ht. change (MAX_RESPONSE_RECORDS <? of_be (to_be 4 1)) with false.
  cbv iota. rewrite Hm. cbn [is_empty_bytes negb records decode_responses].
  rewrite <- negb_orb. fold (accepted r). rewrite Ha, Hp. cbn [negb is_empty_bytes app].
  by rewrite grouped_refines.
Qed.

Lemma min_ttl_const (l : list (Z * Dquic.EndpointAddr)) t :
  l <> [] -> Forall (fun x => x.1 = t) l -> fold_left min_ttl (map fst l) None = Some t.
Proof.
  intros Hne Hl. destruct Hl as [|[x e] l Hx Hl]; [done|].
  cbn [map fold_left]. cbn in Hx. subst x. cbn [fst]. unfold min_ttl at 2. clear Hne.
  induction Hl as [|[y e'] l Hy Hl IH]; [done|]. cbn in Hy. subst y. cbn [map fst fold_left].
  unfold min_ttl at 2. by rewrite Z.min_id.
Qed.
End PublishedFacts.

(** The group of a published packet survives the selection of sequences. *)
Definition selects `{Certificates} (query : SequenceQuery) (s : CertificateSequence) : Prop :=
  match query with
  | Exact s' => s' = s
  | Limit n => 0 < n
  | DefaultSequences | All => True
  end.

Lemma select_single `{CertificatesSpec} {T} (k : CertificateChainKey) (x : T) query :
  selects query (chain_sequence k) -> select_group_pairs [(k, x)] query = [(k, x)].
Proof.
  destruct query as [|s|n|]; cbn [selects select_group_pairs]; try done.
  - intros ->. cbn [List.filter]. by rewrite bool_decide_true.
  - intros Hn. destruct (Z.to_nat n) eqn:E; [lia|]. cbn [take]. by rewrite take_nil.
Qed.

Lemma filter_single `{Certificates} {T} dquic_addr (k : CertificateChainKey)
    (es : list (T * Dquic.EndpointAddr)) f :
  es <> [] ->
  filter_endpoint_candidate_groups dquic_addr [(k, es)] f
  = match List.filter (fun x => endpoint_matches_family dquic_addr x.2 f) es with
    | [] => []
    | es => [(k, es)]
    end.
Proof.
  intros Hne. destruct f as [f|]; cbn [filter_endpoint_candidate_groups map List.filter].
  - rewrite (List.filter_ext _ (fun x => endpoint_matches_family dquic_addr x.2 (Some f)))
      by (by intros []).
    by destruct (List.filter _ es).
  - rewrite filter_none by done. by destruct es.
Qed.

(** The answer made of one group of records with the same lifetime. *)
Lemma single_group_answer `{CertificatesSpec} `{HeaderApi} {Source} dquic_addr k
    (ds : list Dquic.EndpointAddr) t lookup (source : Source) headers :
  ds <> [] -> selects (sequences lookup) (chain_sequence k) ->
  (let gs := select_group_pairs (filter_endpoint_candidate_groups dquic_addr
               (group_by (map (fun d => (k, (t, d))) ds)) (family lookup)) (sequences lookup) in
   let '(cs, ttl) := candidate_loop (record_limit lookup) source gs [] None in
   match cs with
   | [] => Some (Err (if 0 =? 0 then NoRecordFound else NoUsableRecord))
   | _ => Some (Ok (mkLookupAnswer (mkEndpointCandidates cs)
                      (freshness (from_secs (default 0 ttl)) headers)))
   end)
  = Some (match take_limit (record_limit lookup) (firsts (List.filter (fun d =>
            endpoint_matches_family dquic_addr d (family lookup)) ds)) with
          | [] => Err NoRecordFound
          | es => Ok (mkLookupAnswer
                        (mkEndpointCandidates [mkEndpointCandidateGroup k es [source]])
                        (freshness (from_secs t) headers))
          end).
Proof.
  intros Hne Hsel. rewrite <- (map_map (fun d => (t, d)) (fun v => (k, v))).
  rewrite group_by_const, filter_single by (by destruct ds).
  rewrite filter_map_swap. cbn [snd].
  set (fs := List.filter _ ds). cbv zeta.
  destruct fs as [|f fs'] eqn:Hfs; cbn [map].
  { destruct (sequences lookup) as [| |n|]; cbn [select_group_pairs take List.filter];
      rewrite ?take_nil; by destruct (record_limit lookup) as [m|]; cbn [take_limit firsts];
      rewrite ?take_nil. }
  change ((t, f) :: map (fun d => (t, d)) fs') with (map (fun d => (t, d)) (f :: fs')).
  rewrite <- Hfs, select_single, candidate_loop_spec by done.
  cbn [omap list_omap app map List.concat snd]. rewrite app_nil_r. unfold candidate_of. cbn [fst snd].
  assert (map snd (kept (record_limit lookup) (map (fun d => (t, d)) fs))
    = take_limit (record_limit lookup) (firsts fs)) as Hk.
  { rewrite kept_endpoints, map_map. cbn [snd]. by rewrite map_id. }
  rewrite Hk. destruct (take_limit _ (firsts fs)) as [|e es] eqn:He; [done|].
  rewrite (min_ttl_const _ t); [done| |].
  - intros E. by rewrite E in Hk.
  - apply Forall_forall. intros x Hx%take_limit_sub%unseen_sub.
    by apply list_elem_of_In, in_map_iff in Hx as (d & <- & _).
Qed.

(** The outcome of decoding any body. *)
Lemma decode_response_cases `{CertificatesSpec} `{NomSpec} `{Crypto} `{CertificateParsers}
    `{Sha256} `{HeaderApi} {Source} (extract : bytes -> option CertificateChainKey)
    (dquic_addr : Dquic.EndpointAddr -> SocketAddr) (name : bytes) (lookup : EndpointLookup)
    (source : Source) (headers : HeaderMap) (body : bytes) :
  bytes_ok body ->
  match decode_lookup_response extract dquic_addr name lookup source headers body with
  | None => False
  | Some (Ok ans) => exists multi,
      be_multi_response body = Ok ([], multi) /\ blen (records multi) <= 256
      /\ groups (answer_candidates ans) <> [] /\ NoDup (map chain (groups (answer_candidates ans)))
      /\ Forall (group_sound extract dquic_addr name lookup source (records multi)
                   (answer_ttl ans)) (groups (answer_candidates ans))
  | Some (Err (Decode (LookupDecodeError.ParseRecords source))) => err_ok source
  | Some (Err (Decode _)) => True
  | Some (Err NoRecordFound) => exists multi, be_multi_response body = Ok ([], multi)
      /\ Forall (fun r => accepted r = true) (records multi)
  | Some (Err NoUsableRecord) => exists multi, be_multi_response body = Ok ([], multi)
      /\ Exists (fun r => accepted r = false) (records multi)
  end.
Proof.
  intros Hok. unfold decode_lookup_response. pose proof (decode_groups_cases extract name body Hok) as Hc.
  destruct (decode_candidate_groups extract name body) as [[[gs rejected]|[]]|]; [|done..].
  destruct Hc as (multi & Hm & Hlen & Hp & -> & ->). cbn [mbind option_bind].
  fold (remaining extract dquic_addr name lookup (records multi)).
  rewrite candidate_loop_spec. cbn [app].
  set (rs := records multi) in *. set (cs := omap _ _).
  destruct cs as [|g cs'] eqn:Hcs; subst cs.
  - pose proof (blen_nonneg (List.filter (fun r => negb (accepted r)) rs)).
    destruct (Z.eqb_spec (blen (List.filter (fun r => negb (accepted r)) rs)) 0) as [E|E];
      exists multi; (split; [done|]).
    + apply Forall_forall. intros r Hr. destruct (accepted r) eqn:Ha; [done|].
      destruct (List.filter (fun r => negb (accepted r)) rs) eqn:Ef; [|unfold blen in E; cbn in E; lia].
      assert (In r []) as []. rewrite <- Ef. apply List.filter_In. rewrite Ha. split; [|done].
      by apply list_elem_of_In.
    + destruct (List.filter (fun r => negb (accepted r)) rs) as [|r l] eqn:Ef; [done|].
      assert (In r (r :: l)) as Hin by (by left). rewrite <- Ef in Hin.
      apply List.filter_In in Hin as [Hin Ha]. apply Exists_exists. exists r.
      split; [by apply list_elem_of_In|]. by destruct (accepted r).
  - rewrite <- Hcs. exists multi. cbn [answer_candidates answer_ttl groups].
    split; [done|]. split; [done|]. split; [by rewrite Hcs|]. split.
    + eapply sublist_NoDup; [apply remaining_nodup|apply candidates_sublist].
    + apply Forall_forall. intros x Hx. eapply candidate_sound; [done|reflexivity|done].
Qed.

(** ** Properties *)

(** C6: the decoder of lookup responses is total and sound.  Whatever bytes a
    server sends, it returns without panicking.  When it returns candidates, the
    body was a complete response of at most 256 records; the chains are distinct
    and primary, no group is empty, repeats an endpoint or exceeds the limit, and
    every endpoint has the requested family and comes from an answer for exactly
    the requested name, in a packet whose signature verified or which carries
    none; the answer is not kept longer than the lifetime of any of its records.
    An error tells whether a record was rejected. *)
Theorem lookup_response_sound `{CertificatesSpec} `{NomSpec} `{Crypto} `{CertificateParsers}
    `{Sha256} `{HeaderApi} {Source} (extract : bytes -> option CertificateChainKey)
    (dquic_addr : Dquic.EndpointAddr -> SocketAddr) (name : bytes) (lookup : EndpointLookup)
    (source : Source) (headers : HeaderMap) (body : bytes) :
  bytes_ok body ->
  match decode_lookup_response extract dquic_addr name lookup source headers body with
  | None => False
  | Some (Ok ans) => exists multi,
      be_multi_response body = Ok ([], multi) /\ blen (records multi) <= 256
      /\ groups (answer_candidates ans) <> [] /\ NoDup (map chain (groups (answer_candidates ans)))
      /\ Forall (group_sound extract dquic_addr name lookup source (records multi)
                   (answer_ttl ans)) (groups (answer_candidates ans))
  | Some (Err (Decode (LookupDecodeError.ParseRecords source))) => err_ok source
  | Some (Err (Decode _)) => True
  | Some (Err NoRecordFound) => exists multi, be_multi_response body = Ok ([], multi)
      /\ Forall (fun r => accepted r = true) (records multi)
  | Some (Err NoUsableRecord) => exists multi, be_multi_response body = Ok ([], multi)
      /\ Exists (fun r => accepted r = false) (records multi)
  end.
Proof. apply decode_response_cases. Qed.

(** Headers as a list of fields. *)
Module HeaderModel.
#[export] Instance headers : HeaderApi := {|
  HeaderMap := list (bytes * bytes);
  HeaderValue := bytes;
  header_get_all h name := map snd (List.filter (fun '(k, _) => bool_decide (k = name)) h);
  header_to_str v := if forallb (fun b => (32 <=? b) && (b <? 127)) v then Some v else None;
  header_from_bytes v :=
    if forallb (fun b => (b =? 9) || (32 <=? b) && negb (b =? 127)) v then Some v else None;
|}.
End HeaderModel.

Example lookup_response_sound_witness :
  let body := [0; 0; 0; 0] in
  bytes_ok body /\
  match decode_lookup_response (C := CertModel.certificates) (N := NomModel.nom)
    (K := CryptoModel.crypto) (P := TextModel.parsers) (S := TextModel.digest)
    (H := HeaderModel.headers) (fun _ => None)
    (fun e => match e with Dquic.Direct a => a | Dquic.Mediate _ a => a end) (str "a") lookup_all tt [] body with
  | Some (Err NoRecordFound) => exists multi, be_multi_response (N := NomModel.nom) body = Ok ([], multi)
      /\ Forall (fun r => accepted (K := CryptoModel.crypto) (P := TextModel.parsers)
                            (S := TextModel.digest) r = true) (records multi)
  | _ => False
  end.
Proof.
  split; [decide_now|].
  exact (lookup_response_sound (H := CertModel.certificates_spec) (H0 := NomModel.nom_spec)
    (H1 := CryptoModel.crypto) (H2 := TextModel.parsers) (H3 := TextModel.digest)
    (H4 := HeaderModel.headers) (fun _ => None)
    (fun e => match e with Dquic.Direct a => a | Dquic.Mediate _ a => a end) (str "a") lookup_all tt []
    [0; 0; 0; 0] ltac:(decide_now)).
Defined.

(** C5: a published record travels from the publisher to a client.  The packet of a
    primary authority, signed by it and stored by a server together with its
    certificate, is decoded from the response of the server to exactly one group:
    the chain of the authority, with the published endpoints of the requested
    family in order, without repetitions and up to the limit of the lookup; it is
    kept for the 300 seconds of the records, shortened by the response headers. *)
Theorem publish_lookup `{CertificatesSpec} `{NomSpec} `{BufMutSpec} `{BitfieldSpec} `{CryptoSpec}
    `{TextSpec} `{HeaderApi} {Source} (authority_name : LocalAuthority -> bytes)
    (extract_chain : list bytes -> Result CertificateChainKey bytes)
    (extract : bytes -> option CertificateChainKey)
    (dquic_addr : Dquic.EndpointAddr -> SocketAddr)
    (authority : LocalAuthority) (name cert : bytes) (chain : CertificateChainKey)
    (ds : list Dquic.EndpointAddr) (since_epoch : option Z) (packet : bytes)
    (fields : SignatureFields) (lookup : EndpointLookup) (source : Source) (headers : HeaderMap) :
  authority_name authority = name ->
  extract_chain (authority_certificates authority) = Ok chain ->
  is_primary_chain_key chain = true ->
  name_ok name -> canonical_name name = name ->
  Forall wire_dquic ds -> ds <> [] -> blen ds < 2 ^ 16 ->
  authority_for authority ->
  head (authority_certificates authority) = Some cert ->
  parse_x509_certificate cert = Ok (authority_public_key authority) ->
  u_ok 64 (unix_now_secs since_epoch) ->
  dns_packet_for_authority authority_name extract_chain authority name ds = Ok (Some packet) ->
  SignatureFields_sign since_epoch packet authority = Ok fields ->
  let stored := ResponseRecord_new fields packet cert in
  response_record_ok stored ->
  selects (sequences lookup) (chain_sequence chain) ->
  decode_lookup_response extract dquic_addr name lookup source headers
    (encode (MultiResponse_new [stored]))
  = Some (match take_limit (record_limit lookup) (firsts (List.filter (fun d =>
            endpoint_matches_family dquic_addr d (family lookup)) ds)) with
          | [] => Err NoRecordFound
          | es => Ok (mkLookupAnswer
                        (mkEndpointCandidates
                           [mkEndpointCandidateGroup (primary_key (chain_sequence chain)) es [source]])
                        (freshness (from_secs 300) headers))
          end).
Proof.
  intros Ha Hx Hp Hn Hc Hds Hne Hlen Hauth Hcert Hx509 Hnow Henc Hsign stored Hst Hsel.
  destruct (published_packet _ _ _ _ _ _ Ha Hx Hp Hn Hc Hds Hlen)
    as (es & enc & p & Hall & Henc' & Hdec & _ & Hans).
  rewrite Henc in Henc'. injection Henc' as <-.
  assert (accepted stored = true) as Hacc.
  { unfold accepted, verifies. cbn.
    rewrite (sign_verifies since_epoch packet authority fields cert) by done. apply orb_true_r. }
  unfold decode_lookup_response. rewrite encode_bytes, (decode_single extract name stored p) by done.
  cbn [mbind option_bind]. unfold grouped_spec.
  rewrite (published_tagged chain name ds es _ p Hn Hc Hall Hans).
  apply single_group_answer; [done|]. unfold primary_key. by rewrite chain_sequence_new.
Qed.

(** A publisher of two endpoints, one of them twice. *)
Definition sample_endpoints : list Dquic.EndpointAddr :=
  [Dquic.Direct (V4 (mkSocketAddrV4 0x7F000001 443));
   Dquic.Mediate (V6 (mkSocketAddrV6 5 53 0 0)) (V6 (mkSocketAddrV6 9 443 0 0));
   Dquic.Direct (V4 (mkSocketAddrV4 0x7F000001 443))].
Definition sample_name : bytes := str "demo.dhttp.net".
Definition sample_chain : CertificateChainKey (Certificates := CertModel.certificates) :=
  primary_key (seq_from_u8 7).
Definition sample_published :=
  dns_packet_for_authority (C := CertModel.certificates) (B := NomModel.buf_mut)
    (F := BitfieldModel.bitfield) (fun _ => sample_name) (fun _ => Ok sample_chain)
    fields_authority sample_name sample_endpoints.
Definition sample_packet_bytes : bytes := default [] (unwrap_or sample_published None).
Definition sample_packet_fields : SignatureFields :=
  unwrap_or (SignatureFields_sign (K := CryptoModel.crypto) (P := TextModel.parsers)
    (S := TextModel.digest) (Some 1700000000) sample_packet_bytes fields_authority)
    SignatureFields_empty.

Lemma sample_published_ok : sample_published = Ok (Some sample_packet_bytes).
Proof. unfold sample_packet_bytes. apply ok_some_unwrap. vm_compute. reflexivity. Qed.

Lemma sample_fields_ok :
  SignatureFields_sign (K := CryptoModel.crypto) (P := TextModel.parsers) (S := TextModel.digest)
    (Some 1700000000) sample_packet_bytes fields_authority = Ok sample_packet_fields.
Proof. unfold sample_packet_fields. apply is_ok_unwrap. vm_compute. reflexivity. Qed.

Lemma sample_record_ok :
  response_record_ok (ResponseRecord_new sample_packet_fields sample_packet_bytes [1; 9; 9]).
Proof. repeat split; unfold field_ok; apply Z.ltb_lt; vm_compute; reflexivity. Qed.

Example publish_lookup_witness :
  let addr_of e := match e with Dquic.Direct a => a | Dquic.Mediate _ a => a end in
  let lookup := with_family lookup_all (Some FamilyV4) in
  sample_published = Ok (Some sample_packet_bytes)
  /\ SignatureFields_sign (K := CryptoModel.crypto) (P := TextModel.parsers)
       (S := TextModel.digest) (Some 1700000000) sample_packet_bytes fields_authority
     = Ok sample_packet_fields
  /\ decode_lookup_response (C := CertModel.certificates) (N := NomModel.nom)
       (K := CryptoModel.crypto) (P := TextModel.parsers) (S := TextModel.digest)
       (H := HeaderModel.headers) (fun _ => None) addr_of sample_name lookup tt []
       (encode (B := NomModel.buf_mut)
          (MultiResponse_new [ResponseRecord_new sample_packet_fields sample_packet_bytes [1; 9; 9]]))
     = Some (match take_limit (record_limit lookup) (firsts (List.filter (fun d =>
               endpoint_matches_family addr_of d (family lookup)) sample_endpoints)) with
             | [] => Err NoRecordFound
             | es => Ok (mkLookupAnswer
                           (mkEndpointCandidates [mkEndpointCandidateGroup
                              (primary_key (chain_sequence sample_chain)) es [tt]])
                           (freshness (H := HeaderModel.headers) (from_secs 300) []))
             end).
Proof.
  intros addr_of lookup.
  split; [exact sample_published_ok|]. split; [exact sample_fields_ok|].
  apply (publish_lookup (H := CertModel.certificates_spec) (H0 := NomModel.nom_spec)
    (H1 := NomModel.buf_mut_spec) (H2 := BitfieldModel.bitfield_spec)
    (H3 := CryptoModel.crypto_spec) (H4 := TextModel.text_spec) (H5 := HeaderModel.headers)
    (fun _ => sample_name) (fun _ => Ok sample_chain) (fun _ => None) addr_of fields_authority
    sample_name [1; 9; 9] sample_chain sample_endpoints (Some 1700000000));
    [reflexivity|reflexivity|reflexivity|decide_now|reflexivity| |done|reflexivity
    |exact fields_authority_for|reflexivity|reflexivity|decide_now
    |exact sample_published_ok|exact sample_fields_ok|exact sample_record_ok|exact I].
  repeat constructor; cbn; unfold u_ok; lia.
Defined.
