(* ===== verification/H3Client.v ===== *)
(** * The HTTP/3 resolver: src/h3.rs, src/h3/lookup.rs and src/h3/publish.rs

    A resolver has a fixed origin, an optional identity and a cache.  What the
    network does is an argument of the operations: the outcome of every request
    that is sent, in order.  The operations return the requests they sent, their
    result and the resolver with its new cache.  Errors of other crates are
    opaque values. *)

From stdpp Require Import base list numbers option sets.
From S2P Require Import Prelude Nom RustString DnsName DnsHeader Sigin Certificate Endpoint Records Packet Signature Wire Candidates Publish Cache Lookup.

Definition LOOKUP_REQUEST_TIMEOUT : Z := from_secs 3.
Definition LOOKUP_REQUEST_ATTEMPTS : Z := 3.
Definition STATUS_BODY_LIMIT : Z := 4096.
Definition DNS_PACKET_LIMIT : Z := 0xFFFF.

(** ** Bodies *)

(** [http_body::Frame]: data or trailers. *)
Inductive Frame := FrameData (data : bytes) | FrameTrailers.

Inductive ReadBodyError := BodyFailed (source : bytes) | BodyTooLarge.

(** A body is the sequence of its frames; [limit.saturating_sub(bytes.len())]. *)
Fixpoint read_body_limited (body : list (Result Frame bytes)) (limit : Z) (acc : bytes)
  : Result bytes ReadBodyError :=
  match body with
  | [] => Ok acc
  | Err e :: _ => Err (BodyFailed e)
  | Ok FrameTrailers :: body => read_body_limited body limit acc
  | Ok (FrameData data) :: body =>
      if Z.max 0 (limit - blen acc) <? blen data then Err BodyTooLarge
      else read_body_limited body limit (acc ++ data)
  end.

(** ** Errors *)
Module H3LookupError.
Inductive t :=
| InvalidName
| Request (source : bytes)
| Body (source : bytes)
| Timeout (timeout attempts : Z)
| ResponseTooLarge (limit : Z)
| Status (status : Z)
| Decode (source : LookupDecodeError.t)
| NoRecordFound
| NoUsableRecord.
End H3LookupError.

Definition map_semantic_error (error : LookupSemanticError) : H3LookupError.t :=
  match error with
  | Decode source => H3LookupError.Decode source
  | NoRecordFound => H3LookupError.NoRecordFound
  | NoUsableRecord => H3LookupError.NoUsableRecord
  end.

(** ** Requests *)
Record Response `{H : HeaderApi} := mkResponse {
  status : Z;
  response_headers : HeaderMap;
  body : list (Result Frame bytes);
}.

Arguments mkResponse {H}.

(** The outcome of a request within its time limit. *)
Inductive Attempt `{H : HeaderApi} := TimedOut | Completed (r : Result Response bytes).

Section LookupRequest.
Context `{H : HeaderApi}.

Definition lookup_response (r : Result Response bytes) : Result (HeaderMap * bytes) H3LookupError.t :=
  let? response := result_map_err H3LookupError.Request r in
  if status response =? 200 then
    let? b := result_map_err (fun e => match e with
                | BodyFailed source => H3LookupError.Body source
                | BodyTooLarge => H3LookupError.ResponseTooLarge MAX_LOOKUP_RESPONSE_BYTES
                end) (read_body_limited (body response) MAX_LOOKUP_RESPONSE_BYTES []) in
    Ok (response_headers response, b)
  else if status response =? 404 then Err H3LookupError.NoRecordFound
  else Err (H3LookupError.Status (status response)).

Definition is_request_or_body (e : H3LookupError.t) : bool :=
  match e with H3LookupError.Request _ | H3LookupError.Body _ => true | _ => false end.

(** [net] tells what happens to the request of an attempt.  The result comes with
    the attempts that were made; [None] is the [unreachable!] after the loop. *)
Fixpoint retry_loop (attempts : list Z) (net : Z -> Attempt)
  : list Z * may_panic (Result (HeaderMap * bytes) H3LookupError.t) :=
  match attempts with
  | [] => ([], None)
  | attempt :: attempts =>
      let '(made, r) :=
        match net attempt with
        | Completed r =>
            match lookup_response r with
            | Ok response => ([], Some (Ok response))
            | Err error =>
                if is_request_or_body error && (attempt <? LOOKUP_REQUEST_ATTEMPTS)
                then retry_loop attempts net
                else ([], Some (Err error))
            end
        | TimedOut =>
            if attempt <? LOOKUP_REQUEST_ATTEMPTS then retry_loop attempts net
            else ([], Some (Err (H3LookupError.Timeout LOOKUP_REQUEST_TIMEOUT
                                   LOOKUP_REQUEST_ATTEMPTS)))
        end in
      (attempt :: made, r)
  end.

Definition lookup_response_with_retry (net : Z -> Attempt) :=
  retry_loop (map Z.of_nat (seq 1 (Z.to_nat LOOKUP_REQUEST_ATTEMPTS))) net.
End LookupRequest.

(** [dhttp::Endpoint]. *)
Class DhttpEndpoint := {
  Endpoint : Type;
  endpoint_name : Endpoint -> bytes;
  local_authority : Endpoint -> Result LocalAuthority bytes;
}.

(** ** The resolver *)
Section Resolver.
Context `{C : Certificates} `{N : Nom} `{K : Crypto} `{P : CertificateParsers} `{S : Sha256}.
Context `{H : HeaderApi} `{U : UrlApi} `{D : DhttpEndpoint} {Source : Type}.
Context (extract : bytes -> option CertificateChainKey).
Context (dquic_addr : Dquic.EndpointAddr -> SocketAddr).
Context (dns_name_ok : bytes -> bool) (h3_source : Url -> Source).

Record H3Resolver := mkH3Resolver {
  server_origin : Url;
  h3_endpoint : option Endpoint;
  cache : LookupCache Source;
}.

Definition H3Resolver_new (origin : Url) (endpoint : Endpoint) : Result H3Resolver InvalidServerOrigin :=
  let? _ := validate_server_origin origin true in
  Ok (mkH3Resolver origin (Some endpoint) cache_default).

Definition H3Resolver_anonymous (origin : Url) : Result H3Resolver InvalidServerOrigin :=
  let? _ := validate_server_origin origin true in
  Ok (mkH3Resolver origin None cache_default).

Definition with_cache (self : H3Resolver) (c : LookupCache Source) : H3Resolver :=
  mkH3Resolver (server_origin self) (h3_endpoint self) c.

Definition clear_cache (self : H3Resolver) : H3Resolver := with_cache self (clear (cache self)).

(** The name is the host of the origin, up to case and trailing dots. *)
Definition is_own_origin (self : H3Resolver) (name : bytes) : bool :=
  match url_host_str (server_origin self) with
  | Some host => eq_ignore_ascii_case (trim_end_matches dot host) (trim_end_matches dot name)
  | None => false
  end.

(** [now] is the time of the cache lookup and [later] that of the insertion. *)
Definition lookup_candidates (self : H3Resolver) (name : bytes) (requested : EndpointLookup)
    (now later : Z) (net : Url -> Z -> Attempt)
  : list (Url * Z) * H3Resolver * may_panic (Result (EndpointCandidates Source) H3LookupError.t) :=
  match endpoint_lookup_name_and_sequence dns_name_ok name with
  | None => ([], self, Some (Err H3LookupError.InvalidName))
  | Some (name, legacy_sequence) =>
      if is_own_origin self name then ([], self, Some (Err H3LookupError.NoRecordFound))
      else
        let lookup := exact_override requested legacy_sequence in
        let key := LookupKey_new name lookup in
        let '(c, hit) := get now (cache self) key in
        let self := with_cache self c in
        match hit with
        | Some cached => ([], self, Some (Ok cached))
        | None =>
            match lookup_url (server_origin self) name lookup with
            | None => ([], self, None)
            | Some url =>
                let '(made, response) := lookup_response_with_retry (net url) in
                let made := map (fun attempt => (url, attempt)) made in
                match response with
                | None => (made, self, None)
                | Some (Err error) => (made, self, Some (Err error))
                | Some (Ok (headers, body)) =>
                    match decode_lookup_response extract dquic_addr name lookup
                            (h3_source (server_origin self)) headers body with
                    | None => (made, self, None)
                    | Some (Err error) => (made, self, Some (Err (map_semantic_error error)))
                    | Some (Ok answer) =>
                        let c := insert later (cache self) key (answer_candidates answer)
                                   (answer_ttl answer) in
                        (made, with_cache self c, Some (Ok (answer_candidates answer)))
                    end
                end
            end
        end
  end.

(** The host of a [host:port] without colons, in lower case and without trailing dots. *)
Definition normalized_host (hostname : bytes) : bytes :=
  let host :=
    match rsplit_once colon hostname with
    | Some (host, suffix) =>
        if negb (bool_decide (colon ∈ host)) && is_number suffix then host else hostname
    | None => hostname
    end in
  to_ascii_lowercase (trim_end_matches dot host).

(** [H3Resolver::lookup]: the stream of the endpoints of all the groups. *)
Definition h3_lookup (self : H3Resolver) (hostname : bytes) (f : option Family)
    (now later : Z) (net : Url -> Z -> Attempt)
  : list (Url * Z) * H3Resolver
    * may_panic (Result (list (Source * Dquic.EndpointAddr)) H3LookupError.t) :=
  if negb (is_dhttp_host (normalized_host hostname))
  then ([], self, Some (Err H3LookupError.NoRecordFound))
  else
    let '(made, self, r) :=
      lookup_candidates self hostname
        (with_family (mkEndpointLookup DefaultSequences None None) f) now later net in
    (made, self,
     candidates ← r;
     match candidates with
     | Err e => Some (Err e)
     | Ok cs => Some (Ok (List.concat (map (fun g =>
                  map (fun e => (h3_source (server_origin self), e)) (endpoints g)) (groups cs))))
     end).
End Resolver.

(** ** Publishing *)
Module H3PublishError.
Inductive t :=
| IdentityRequired
| InvalidLease
| Credentials (source : bytes)
| InvalidName
| IdentityNameMismatch
| EncodePacket (source : EncodeAuthorityDnsPacketError)
| PacketTooLarge (limit : Z)
| SignRequest `{Crypto} (source : SignatureFieldsError)
| Request (source : bytes)
| Upload (source : bytes)
| Body (source : bytes)
| ResponseTooLarge (limit : Z)
| Status (status : Z) (message : bytes).
End H3PublishError.

Section PublishRequest.
Context `{H : HeaderApi}.

Definition LEASE_HEADER : bytes := str "dhttp-dns-lease-millis".
Definition from_millis (ms : Z) : Z := ms * 1000000.

(** [instant_ok] is [Instant::now().checked_add(lease).is_some()]. *)
Definition publish_lease (instant_ok : Z -> bool) (headers : HeaderMap) (empty : bool)
  : Result Z H3PublishError.t :=
  match header_get_all headers LEASE_HEADER with
  | [] => Ok (if empty then 0 else from_secs 300)
  | [value] =>
      match header_to_str value with
      | None => Err H3PublishError.InvalidLease
      | Some value =>
          if is_empty_bytes value || negb (forallb is_ascii_digit value)
          then Err H3PublishError.InvalidLease
          else
            match parse_u64 value with
            | None => Err H3PublishError.InvalidLease
            | Some millis =>
                if negb (bool_decide (empty = (millis =? 0))) then Err H3PublishError.InvalidLease
                else if negb (instant_ok (from_millis millis)) then Err H3PublishError.InvalidLease
                else Ok (from_millis millis)
            end
      end
  | _ => Err H3PublishError.InvalidLease
  end.

(** The outcome of the request: it cannot be written, the upload or the response
    fails, or the server answers. *)
Inductive Exchange :=
| WriteFailed (source : bytes)
| UploadFailed (source : bytes)
| ResponseFailed (source : bytes)
| Answered (r : Response).
End PublishRequest.

Section Publisher.
Context `{C : Certificates} `{B : BufMut} `{F : Bitfield} `{K : Crypto} `{P : CertificateParsers}.
Context `{S : Sha256} `{H : HeaderApi} `{U : UrlApi} `{D : DhttpEndpoint} {Source : Type}.
Context (authority_name : LocalAuthority -> bytes).
Context (extract_chain : list bytes -> Result CertificateChainKey bytes).
Context (valid_name : bytes -> bool) (instant_ok : Z -> bool).

Definition PUBLISH_API_PATH : bytes := str "/api/v2/publish".

Definition publish_url (origin : Url) (name : bytes) : may_panic Url :=
  url ← url_join origin PUBLISH_API_PATH;
  Some (url_append_pair url (str "host") name).

(** What is sent: the URL, the signature fields and the packet. *)
Record PublishRequest := mkPublishRequest {
  request_url : Url;
  request_fields : SignatureFields;
  request_packet : bytes;
}.

(** The part after the request was answered. *)
Definition publish_answer (self : H3Resolver (Source := Source)) (name : bytes) (empty : bool)
    (r : Response) : H3Resolver (Source := Source) * Result Z H3PublishError.t :=
  if negb (status r =? 200) then
    match read_body_limited (body r) STATUS_BODY_LIMIT [] with
    | Err (BodyFailed source) => (self, Err (H3PublishError.Body source))
    | Err BodyTooLarge => (self, Err (H3PublishError.ResponseTooLarge STATUS_BODY_LIMIT))
    | Ok b => (self, Err (H3PublishError.Status (status r) (trim (from_utf8_lossy b))))
    end
  else
    match publish_lease instant_ok (response_headers r) empty with
    | Err e => (self, Err e)
    | Ok lease => (with_cache self (invalidate_name (cache self) name), Ok lease)
    end.

(** [publish_endpoints]: what was sent, the resolver and the lease. *)
Definition publish_endpoints (self : H3Resolver (Source := Source)) (name : bytes)
    (eps : list Dquic.EndpointAddr) (since_epoch : option Z) (net : PublishRequest -> Exchange)
  : option PublishRequest * H3Resolver (Source := Source) * may_panic (Result Z H3PublishError.t) :=
  let fail e := (None, self, Some (Err e)) in
  if negb (valid_name name) then fail H3PublishError.InvalidName
  else match h3_endpoint self with
  | None => fail H3PublishError.IdentityRequired
  | Some endpoint =>
      if negb (bool_decide (endpoint_name endpoint = name))
      then fail H3PublishError.IdentityNameMismatch
      else match local_authority endpoint with
      | Err source => fail (H3PublishError.Credentials source)
      | Ok identity =>
          let empty := match eps with [] => true | _ => false end in
          match dns_packet_for_authority authority_name extract_chain identity name eps with
          | Err source => fail (H3PublishError.EncodePacket source)
          | Ok None => (None, self, None)
          | Ok (Some packet) =>
              if DNS_PACKET_LIMIT <? blen packet
              then fail (H3PublishError.PacketTooLarge DNS_PACKET_LIMIT)
              else match SignatureFields_sign since_epoch packet identity with
              | Err source => fail (H3PublishError.SignRequest source)
              | Ok fields =>
                  match publish_url (server_origin self) name,
                        header_from_bytes (content_digest fields),
                        header_from_bytes (signature_input fields),
                        header_from_bytes (fields_signature fields) with
                  | Some url, Some _, Some _, Some _ =>
                      let request := mkPublishRequest url fields packet in
                      let sent_fail e := (Some request, self, Some (Err e)) in
                      match net request with
                      | WriteFailed source | ResponseFailed source =>
                          sent_fail (H3PublishError.Request source)
                      | UploadFailed source => sent_fail (H3PublishError.Upload source)
                      | Answered r =>
                          let '(self, result) := publish_answer self name empty r in
                          (Some request, self, Some result)
                      end
                  | _, _, _, _ => (None, self, None)
                  end
              end
          end
      end
  end.

(** [Publish for H3Resolver]; [other] is [io::Error::other]. *)
Definition h3_publish (other : H3PublishError.t -> bytes) (self : H3Resolver (Source := Source))
    (name : bytes) (eps : list Dquic.EndpointAddr) (since_epoch : option Z)
    (net : PublishRequest -> Exchange)
  : H3Resolver (Source := Source) * may_panic (Result unit bytes) :=
  let '(_, self, r) := publish_endpoints self name eps since_epoch net in
  (self, option_map (fun r => let? _ := result_map_err other r in Ok tt) r).
End Publisher.

(** ** Facts *)
Definition frame_data (f : Result Frame bytes) : bytes :=
  match f with Ok (FrameData d) => d | _ => [] end.

(** A body that is read is complete and within the limit. *)
Lemma read_body_ok frames limit : forall acc b,
  blen acc <= limit -> read_body_limited frames limit acc = Ok b ->
  b = acc ++ List.concat (map frame_data frames) /\ blen b <= limit
  /\ Forall (fun f => is_ok f = true) frames.
Proof.
  induction frames as [|[[d|]|e] frames IH]; intros acc b Hacc; cbn [read_body_limited].
  - intros [= <-]. rewrite app_nil_r. by split_and!.
  - destruct (Z.ltb_spec (Z.max 0 (limit - blen acc)) (blen d)); [done|].
    intros (-> & Hlen & Hok)%IH; [|autorewrite with blen; lia].
    rewrite <- app_assoc in *. split_and!; [done|done|by constructor].
  - intros (-> & Hlen & Hok)%IH; [|done]. split_and!; [done|done|by constructor].
  - done.
Qed.

Section LookupFacts.
Context `{H : HeaderApi}.

(** An attempt that is repeated when it is not the last one. *)
Definition transient (a : Attempt) : bool :=
  match a with
  | TimedOut => true
  | Completed r => match lookup_response r with Err e => is_request_or_body e | Ok _ => false end
  end.

Definition outcome (a : Attempt) : Result (HeaderMap * bytes) H3LookupError.t :=
  match a with
  | TimedOut => Err (H3LookupError.Timeout LOOKUP_REQUEST_TIMEOUT LOOKUP_REQUEST_ATTEMPTS)
  | Completed r => lookup_response r
  end.

Lemma retry_step a l net :
  retry_loop (a :: l) net
  = if transient (net a) && (a <? LOOKUP_REQUEST_ATTEMPTS)
    then let '(made, r) := retry_loop l net in (a :: made, r)
    else ([a], Some (outcome (net a))).
Proof.
  cbn [retry_loop]. unfold transient, outcome.
  destruct (net a) as [|r]; [cbn [andb]; by destruct (a <? _)|].
  destruct (lookup_response r) as [v|e]; [done|]. by destruct (is_request_or_body e && _).
Qed.

Lemma retry_spec net :
  let n := if transient (net 1) then if transient (net 2) then 3 else 2 else 1 in
  lookup_response_with_retry net
  = (map Z.of_nat (seq 1 (Z.to_nat n)), Some (outcome (net n))).
Proof.
  unfold lookup_response_with_retry. change (map Z.of_nat (seq 1 (Z.to_nat LOOKUP_REQUEST_ATTEMPTS))) with [1; 2; 3].
  rewrite !retry_step. change (1 <? LOOKUP_REQUEST_ATTEMPTS) with true.
  change (2 <? LOOKUP_REQUEST_ATTEMPTS) with true. change (3 <? LOOKUP_REQUEST_ATTEMPTS) with false.
  rewrite !andb_true_r, andb_false_r. by destruct (transient (net 1)), (transient (net 2)).
Qed.

Lemma lookup_response_accepts response headers b :
  lookup_response (Ok response) = Ok (headers, b) ->
  status response = 200 /\ headers = response_headers response
  /\ b = List.concat (map frame_data (body response))
  /\ blen b <= MAX_LOOKUP_RESPONSE_BYTES /\ Forall (fun f => is_ok f = true) (body response).
Proof.
  unfold lookup_response. cbn [result_map_err].
  destruct (Z.eqb_spec (status response) 200); [|by destruct (status response =? 404)].
  destruct (read_body_limited (body response) MAX_LOOKUP_RESPONSE_BYTES []) as [b'|] eqn:E; [|done].
  cbn [result_map_err]. intros [= <- <-]. apply read_body_ok in E as (-> & Hb & Hf); [|done].
  by split_and!.
Qed.

Lemma lookup_response_body r headers b :
  lookup_response r = Ok (headers, b) -> blen b <= MAX_LOOKUP_RESPONSE_BYTES.
Proof.
  unfold lookup_response. destruct r as [r|]; [|done]. cbn [result_map_err].
  destruct (status r =? 200); [|by destruct (status r =? 404)].
  destruct (read_body_limited (body r) MAX_LOOKUP_RESPONSE_BYTES []) as [b'|] eqn:E; [|done].
  cbn [result_map_err]. intros [= <- <-]. by apply read_body_ok in E as (_ & ? & _).
Qed.
End LookupFacts.

Section ResolverFacts.
Context `{C : Certificates} `{N : Nom} `{K : Crypto} `{P : CertificateParsers} `{S : Sha256}.
Context `{H : HeaderApi} `{U : UrlApi} `{D : DhttpEndpoint} {Source : Type}.
Context (extract : bytes -> option CertificateChainKey).
Context (dquic_addr : Dquic.EndpointAddr -> SocketAddr).
Context (dns_name_ok : bytes -> bool) (h3_source : Url -> Source).

(** The candidates are those of a response, within the size limit, to a lookup
    with this key: for this name, up to case and trailing dots. *)
Definition answered (origin : Url) (key : LookupKey) (cs : EndpointCandidates Source) : Prop :=
  exists name headers b answer,
    LookupKey_new name (key_lookup key) = key /\ blen b <= MAX_LOOKUP_RESPONSE_BYTES
    /\ decode_lookup_response extract dquic_addr name (key_lookup key) (h3_source origin) headers b
       = Some (Ok answer)
    /\ answer_candidates answer = cs.

(** The responses that the requests of a lookup received, with their URLs. *)
Definition received (made : list (Url * Z)) (net : Url -> Z -> Attempt) : list (Url * Response) :=
  omap (fun '(url, attempt) =>
    match net url attempt with Completed (Ok response) => Some (url, response) | _ => None end) made.

(** The candidates were decoded from one of the responses [history]: a successful one, to
    the request that a lookup with this key sends, whose body was read to its end. *)
Definition served (history : list (Url * Response)) (origin : Url) (key : LookupKey)
    (cs : EndpointCandidates Source) : Prop :=
  exists name url response answer,
    LookupKey_new name (key_lookup key) = key
    /\ lookup_url origin name (key_lookup key) = Some url
    /\ (url, response) ∈ history /\ status response = 200
    /\ Forall (fun f => is_ok f = true) (body response)
    /\ blen (List.concat (map frame_data (body response))) <= MAX_LOOKUP_RESPONSE_BYTES
    /\ decode_lookup_response extract dquic_addr name (key_lookup key) (h3_source origin)
         (response_headers response) (List.concat (map frame_data (body response)))
       = Some (Ok answer)
    /\ answer_candidates answer = cs.

Lemma served_mono history more origin key cs :
  served history origin key cs -> served (history ++ more) origin key cs.
Proof.
  intros (name & url & response & answer & H1 & H2 & Hin & H3). exists name, url, response, answer.
  split; [done|]. split; [done|]. split; [set_solver|done].
Qed.

(** The answers in a cache satisfy [Q]. *)
Definition cached (Q : LookupKey -> EndpointCandidates Source -> Prop)
    (self : H3Resolver (Source := Source)) : Prop :=
  forall key a, map_get (positive (cache self)) key = Some a -> Q key (candidates a).

Lemma cached_get Q self now key :
  cached Q self -> cached Q (with_cache self (get now (cache self) key).1)
  /\ forall cs, (get now (cache self) key).2 = Some cs -> Q key cs.
Proof.
  intros Hs. unfold get. destruct (map_get (positive (cache self)) key) as [a|] eqn:E.
  - destruct (now <? expires_at a); split.
    + exact Hs.
    + intros cs [= <-]. by apply Hs.
    + intros k b. cbn [with_cache cache positive fst]. rewrite map_get_remove.
      case_bool_decide; [done|]. apply Hs.
    + done.
  - split; [exact Hs|done].
Qed.

Lemma cached_insert (Q : LookupKey -> EndpointCandidates Source -> Prop) self later key cs ttl :
  cached Q self -> Q key cs -> cached Q (with_cache self (insert later (cache self) key cs ttl)).
Proof.
  intros Hs Ha k a. unfold insert. destruct (negb (ttl =? 0)); [|apply Hs].
  cbn [with_cache cache positive]. rewrite map_get_insert. case_bool_decide as Hk; [|apply Hs].
  intros [= <-]. by subst k.
Qed.

Lemma cached_invalidate Q self name :
  cached Q self -> cached Q (with_cache self (invalidate_name (cache self) name)).
Proof.
  intros Hs k a. unfold invalidate_name. cbn [with_cache cache positive].
  rewrite (map_get_filter _ (fun key => negb (eq_ignore_ascii_case (key_name key) _))).
  destruct (negb _); [|done]. apply Hs.
Qed.

Lemma cached_served_mono history more self :
  cached (served history (server_origin self)) self ->
  cached (served (history ++ more) (server_origin self)) self.
Proof. intros Hs k a Ha. by apply served_mono, Hs. Qed.

(** A response that was accepted is one of those that were received. *)
Lemma retry_received url net headers b made :
  lookup_response_with_retry (net url) = (made, Some (Ok (headers, b))) ->
  exists response, (url, response) ∈ received (map (fun attempt => (url, attempt)) made) net
    /\ status response = 200 /\ headers = response_headers response
    /\ b = List.concat (map frame_data (body response))
    /\ blen b <= MAX_LOOKUP_RESPONSE_BYTES /\ Forall (fun f => is_ok f = true) (body response).
Proof.
  rewrite retry_spec. cbv zeta. set (n := if transient (net url 1) then _ else _). intros [= <- Ho].
  assert (n = 1 \/ n = 2 \/ n = 3) as Hn by (unfold n; repeat case_match; auto).
  destruct (net url n) as [|[response|]] eqn:Ea; [done| |done]. exists response.
  apply lookup_response_accepts in Ho as (Hst & -> & -> & Hb & Hf). split_and!; try done.
  apply list_elem_of_omap. exists (url, n). split; [|by rewrite Ea].
  apply list_elem_of_fmap. exists n. split; [done|]. by destruct Hn as [-> | [-> | ->]]; cbn; set_solver.
Qed.

(** One lookup of a sound resolver. *)
Lemma lookup_candidates_sound history self name requested now later net made self' r :
  cached (served history (server_origin self)) self ->
  lookup_candidates extract dquic_addr dns_name_ok h3_source self name requested now later net
  = (made, self', r) ->
  cached (served (history ++ received made net) (server_origin self)) self'
  /\ server_origin self' = server_origin self
  /\ forall cs, r = Some (Ok cs) -> exists host seq,
       endpoint_lookup_name_and_sequence dns_name_ok name = Some (host, seq)
       /\ served (history ++ received made net) (server_origin self)
            (LookupKey_new host (exact_override requested seq)) cs.
Proof.
  intros Hs. unfold lookup_candidates.
  assert (cached (served (history ++ received [] net) (server_origin self)) self) as Hs0
    by (by apply cached_served_mono).
  destruct (endpoint_lookup_name_and_sequence dns_name_ok name) as [[host seq]|];
    [|by intros [= <- <- <-]].
  destruct (is_own_origin self host); [by intros [= <- <- <-]|].
  set (lookup := exact_override requested seq). set (key := LookupKey_new host lookup).
  pose proof (fun H => cached_get _ self now key (H : cached (served history (server_origin self)) self))
    as Hget. destruct (Hget Hs) as [Hs1 Hhit]. clear Hget.
  destruct (get now (cache self) key) as [c hit]. cbn [fst snd] in *.
  pose proof (fun more => cached_served_mono history more (with_cache self c) Hs1) as Hmore.
  cbn [with_cache server_origin] in Hmore.
  destruct hit as [found|].
  { intros [= <- <- <-]. split; [apply Hmore|]. split; [done|]. intros cs [= <-].
    exists host, seq. split; [done|]. by apply served_mono, Hhit. }
  cbn [with_cache server_origin cache].
  destruct (lookup_url _ host lookup) as [url|] eqn:Hurl; [|by intros [= <- <- <-]].
  destruct (lookup_response_with_retry (net url)) as [made0 [[[headers b]|e]|]] eqn:Hretry;
    [|by intros [= <- <- <-]..].
  destruct (decode_lookup_response _ _ host lookup _ headers b) as [[answer|]|] eqn:Hd;
    [|by intros [= <- <- <-]..].
  apply retry_received in Hretry as (response & Hin & Hst & -> & -> & Hb & Hf).
  intros [= <- <- <-].
  assert (served (history ++ received (map (fun attempt => (url, attempt)) made0) net)
    (server_origin self) key (answer_candidates answer)) as Ha.
  { exists host, url, response, answer. split_and!; try done. apply elem_of_app. by right. }
  split; [apply (cached_insert _ (with_cache self c)); [apply Hmore|done]|]. split; [done|].
  intros cs [= <-]. eauto.
Qed.
End ResolverFacts.

Section PublishFacts.
Context `{C : Certificates} `{B : BufMut} `{F : Bitfield} `{K : Crypto} `{P : CertificateParsers}.
Context `{S : Sha256} `{H : HeaderApi} `{U : UrlApi} `{D : DhttpEndpoint} {Source : Type}.
Context (authority_name : LocalAuthority -> bytes).
Context (extract_chain : list bytes -> Result CertificateChainKey bytes).
Context (valid_name : bytes -> bool) (instant_ok : Z -> bool).

(** What may be sent for a name: a packet of the resolver's own identity, signed
    by it and within the limit. *)
Definition own_request (self : H3Resolver (Source := Source)) (name : bytes)
    (eps : list Dquic.EndpointAddr) (since_epoch : option Z) (req : PublishRequest) : Prop :=
  valid_name name = true /\ exists endpoint identity,
    h3_endpoint self = Some endpoint /\ endpoint_name endpoint = name
    /\ local_authority endpoint = Ok identity
    /\ dns_packet_for_authority authority_name extract_chain identity name eps
       = Ok (Some (request_packet req))
    /\ blen (request_packet req) <= 0xFFFF
    /\ SignatureFields_sign since_epoch (request_packet req) identity = Ok (request_fields req).

Lemma publish_endpoints_cases self name eps since_epoch net sent self' r :
  publish_endpoints authority_name extract_chain valid_name instant_ok self name eps since_epoch net
  = (sent, self', r) ->
  (forall req, sent = Some req -> own_request self name eps since_epoch req)
  /\ match r with
     | Some (Ok lease) => exists req resp, sent = Some req /\ net req = Answered resp
         /\ status resp = 200
         /\ publish_lease instant_ok (response_headers resp) (match eps with [] => true | _ => false end)
            = Ok lease
         /\ self' = with_cache self (invalidate_name (cache self) name)
     | _ => self' = self
     end.
Proof.
  unfold publish_endpoints. destruct (valid_name name) eqn:Hv; cbn [negb]; [|by intros [= <- <- <-]].
  destruct (h3_endpoint self) as [endpoint|] eqn:He; [|by intros [= <- <- <-]].
  case_bool_decide as Hn; cbn [negb]; [|by intros [= <- <- <-]].
  destruct (local_authority endpoint) as [identity|] eqn:Hi; [|by intros [= <- <- <-]].
  destruct (dns_packet_for_authority _ _ identity name eps) as [[packet|]|] eqn:Hp;
    [|by intros [= <- <- <-]..].
  destruct (Z.ltb_spec DNS_PACKET_LIMIT (blen packet)) as [|Hl]; [by intros [= <- <- <-]|].
  destruct (SignatureFields_sign since_epoch packet identity) as [fields|] eqn:Hs;
    [|by intros [= <- <- <-]].
  destruct (publish_url _ name) as [url|], (header_from_bytes (content_digest fields)),
    (header_from_bytes (signature_input fields)), (header_from_bytes (fields_signature fields));
    try (by intros [= <- <- <-]).
  set (req := mkPublishRequest url fields packet).
  assert (own_request self name eps since_epoch req) as Hown.
  { split; [done|]. exists endpoint, identity. by split_and!. }
  clearbody req. destruct (net req) as [| | |resp] eqn:Hnet;
    try (intros [= <- <- <-]; split; [by intros ? [= <-]|done]).
  unfold publish_answer. destruct (Z.eqb_spec (status resp) 200) as [Hst|]; cbn [negb].
  - destruct (publish_lease _ _ _) as [lease|] eqn:Hlease; intros [= <- <- <-];
      (split; [by intros ? [= <-]|]); [|done]. by exists req, resp.
  - destruct (read_body_limited _ _ _) as [|[]]; intros [= <- <- <-];
      (split; [by intros ? [= <-]|done]).
Qed.

Lemma publish_lease_empty headers empty lease :
  publish_lease instant_ok headers empty = Ok lease -> 0 <= lease /\ (lease = 0 <-> empty = true).
Proof.
  unfold publish_lease. destruct (header_get_all headers LEASE_HEADER) as [|v [|]]; [| |done].
  { intros [= <-]. destruct empty; [done|]. split; [done|]. split; [done|]. by intros. }
  destruct (header_to_str v) as [s|]; [|done]. destruct (_ || _); [done|].
  destruct (parse_u64 s) as [ms|] eqn:Hms; [|done]. apply parse_u64_nonneg in Hms.
  case_bool_decide as He; cbn [negb]; [|done]. destruct (instant_ok _); cbn [negb]; [|done].
  intros [= <-]. unfold from_millis. rewrite He. split; [lia|].
  destruct (Z.eqb_spec ms 0); split; try done; lia.
Qed.
End PublishFacts.

(** ** Histories of a resolver *)
Section Reachable.
Context `{C : Certificates} `{N : Nom} `{B : BufMut} `{F : Bitfield} `{K : Crypto}.
Context `{P : CertificateParsers} `{S : Sha256} `{H : HeaderApi} `{U : UrlApi}.
Context `{D : DhttpEndpoint} {Source : Type}.
Context (extract : bytes -> option CertificateChainKey).
Context (dquic_addr : Dquic.EndpointAddr -> SocketAddr).
Context (dns_name_ok : bytes -> bool) (h3_source : Url -> Source).
Context (authority_name : LocalAuthority -> bytes).
Context (extract_chain : list bytes -> Result CertificateChainKey bytes).
Context (valid_name : bytes -> bool) (instant_ok : Z -> bool).

(** The resolver after a history of lookups, publications and clearings, with the responses
    its lookups have received. *)
Inductive h3_reachable : list (Url * Response) -> H3Resolver (Source := Source) -> Prop :=
| h3_new origin endpoint self : H3Resolver_new origin endpoint = Ok self -> h3_reachable [] self
| h3_anonymous origin self : H3Resolver_anonymous origin = Ok self -> h3_reachable [] self
| h3_after_lookup history self name requested now later net made self' r :
    h3_reachable history self ->
    lookup_candidates extract dquic_addr dns_name_ok h3_source self name requested now later net
    = (made, self', r) -> h3_reachable (history ++ received made net) self'
| h3_after_publish history self name eps since_epoch net sent self' r :
    h3_reachable history self ->
    publish_endpoints authority_name extract_chain valid_name instant_ok self name eps since_epoch
      net = (sent, self', r) -> h3_reachable history self'
| h3_after_clear history self : h3_reachable history self -> h3_reachable history (clear_cache self).

Lemma h3_reachable_sound history self :
  h3_reachable history self ->
  cached (served extract dquic_addr h3_source history (server_origin self)) self
  /\ validate_server_origin (server_origin self) true = Ok tt.
Proof.
  induction 1 as [origin endpoint self Hn|origin self Hn|history self name requested now later net made
    self' r _ [IH1 IH2] Hl|history self name eps since_epoch net sent self' r _ [IH1 IH2] Hp
    |history self _ [IH1 IH2]].
  - unfold H3Resolver_new in Hn. destruct (validate_server_origin origin true) as [[]|] eqn:E; [|done].
    by injection Hn as <-.
  - unfold H3Resolver_anonymous in Hn.
    destruct (validate_server_origin origin true) as [[]|] eqn:E; [|done]. by injection Hn as <-.
  - eapply lookup_candidates_sound in Hl as (? & -> & _); done.
  - apply publish_endpoints_cases in Hp as [_ Hr].
    destruct r as [[|]|]; [|by subst self'..].
    destruct Hr as (_ & _ & _ & _ & _ & _ & ->). split; [by apply cached_invalidate|done].
  - done.
Qed.
End Reachable.

(** ** A concrete resolver *)
Module ClientModel.
(** A URL is its host and its query. *)
#[export] Instance url : UrlApi := {|
  Url := bytes * list (bytes * bytes);
  url_scheme _ := str "https";
  url_host_str u := Some u.1;
  url_username _ := [];
  url_password _ := None;
  url_path _ := str "/";
  url_query _ := None;
  url_fragment _ := None;
  url_join u _ := Some u;
  url_append_pair u k v := (u.1, u.2 ++ [(k, v)]);
|}.

#[export] Instance endpoint : DhttpEndpoint := {|
  Endpoint := unit;
  endpoint_name _ := sample_name;
  local_authority _ := Ok fields_authority;
|}.

Definition addr_of (e : Dquic.EndpointAddr) : SocketAddr :=
  match e with Dquic.Direct a => a | Dquic.Mediate _ a => a end.

Definition origin : Url := (str "dns.example", []).
Definition identity : Endpoint := tt.

Definition resolver : H3Resolver (C := CertModel.certificates) (Source := unit) :=
  mkH3Resolver origin (Some identity) cache_default.

(** A server that answers with the sample record. *)
Definition server (_ : Url) (_ : Z) : Attempt (H := HeaderModel.headers) :=
  Completed (Ok (@mkResponse HeaderModel.headers 200 []
    [Ok (FrameData (encode (B := NomModel.buf_mut) (MultiResponse_new
       [ResponseRecord_new sample_packet_fields sample_packet_bytes [1; 9; 9]])))])).

Abbreviation looked_up :=
  (lookup_candidates (N := NomModel.nom) (K := CryptoModel.crypto) (P := TextModel.parsers)
    (S := TextModel.digest) (fun _ => None) addr_of (fun _ => true) (fun _ => tt) resolver
    sample_name lookup_all 0 1 server).

Definition publisher (_ : PublishRequest) : Exchange (H := HeaderModel.headers) :=
  Answered (@mkResponse HeaderModel.headers 200 [] []).

Abbreviation published_to :=
  (publish_endpoints (B := NomModel.buf_mut) (F := BitfieldModel.bitfield) (K := CryptoModel.crypto)
    (P := TextModel.parsers) (S := TextModel.digest) (fun _ => sample_name)
    (fun _ => Ok sample_chain) (fun _ => true) (fun _ => true) resolver sample_name
    sample_endpoints (Some 1700000000) publisher).
End ClientModel.

Lemma triple_ok {A B T E} (x : A * B * may_panic (Result T E)) :
  match x.2 with Some (Ok _) => true | _ => false end = true ->
  exists a b v, x = (a, b, Some (Ok v)).
Proof. destruct x as [[a b] [[v|]|]]; [|done..]. by exists a, b, v. Qed.

Lemma looked_up_ok : exists made self' cs, ClientModel.looked_up = (made, self', Some (Ok cs)).
Proof. apply triple_ok. vm_compute. reflexivity. Qed.

Lemma published_to_ok : exists sent self' lease,
  ClientModel.published_to = (sent, self', Some (Ok lease)).
Proof. apply triple_ok. vm_compute. reflexivity. Qed.

(** ** Properties *)

(** A lookup is retried exactly as long as that can help.  The resolver sends at
    most three requests; every request before the last one timed out or failed in
    transport, the result is the outcome of the last one, and that was the third
    or one that a retry would not change. *)
Theorem retry_correct `{HeaderApi} (net : Z -> Attempt) :
  exists n, 1 <= n <= 3
    /\ lookup_response_with_retry net
       = (map Z.of_nat (seq 1 (Z.to_nat n)), Some (outcome (net n)))
    /\ (forall k, 1 <= k < n -> transient (net k) = true)
    /\ (n = 3 \/ transient (net n) = false).
Proof.
  rewrite retry_spec. eexists. split; [|split; [reflexivity|]];
    destruct (transient (net 1)) eqn:E1; [destruct (transient (net 2)) eqn:E2|
      |destruct (transient (net 2)) eqn:E2|]; try lia; (split; [|tauto]); intros k Hk.
  - assert (k = 1 \/ k = 2) as [-> | ->] by lia; done.
  - by assert (k = 1) as -> by lia.
  - lia.
Qed.

(** C15: the HTTP/3 resolver only returns what its server answered.  In every state that
    lookups, publications and cache clearing can reach, the candidates of a lookup, cached
    or not, were decoded from a response of status 200 that this or an earlier lookup
    received from the network.  The request was for the lookup URL of the resolver's
    origin with the same lookup parameters and the same host, up to case and trailing
    dots, and the decoded bytes are the whole body of the response, at most 1 MiB. *)
Theorem h3_lookup_sound `{Certificates} `{Nom} `{BufMut} `{Bitfield} `{Crypto}
    `{CertificateParsers} `{Sha256} `{HeaderApi} `{UrlApi} `{DhttpEndpoint} {Source}
    (extract : bytes -> option CertificateChainKey)
    (dquic_addr : Dquic.EndpointAddr -> SocketAddr)
    (dns_name_ok : bytes -> bool) (h3_source : Url -> Source)
    (authority_name : LocalAuthority -> bytes)
    (extract_chain : list bytes -> Result CertificateChainKey bytes)
    (valid_name : bytes -> bool) (instant_ok : Z -> bool) (history : list (Url * Response))
    (self self' : H3Resolver) (name : bytes) (requested : EndpointLookup) (now later : Z)
    (net : Url -> Z -> Attempt) (made : list (Url * Z)) (cs : EndpointCandidates Source) :
  h3_reachable extract dquic_addr dns_name_ok h3_source authority_name extract_chain valid_name
    instant_ok history self ->
  lookup_candidates extract dquic_addr dns_name_ok h3_source self name requested now later net
  = (made, self', Some (Ok cs)) ->
  exists host seq host' url response answer,
    endpoint_lookup_name_and_sequence dns_name_ok name = Some (host, seq)
    /\ to_ascii_lowercase (trim_end_matches dot host') = to_ascii_lowercase (trim_end_matches dot host)
    /\ lookup_url (server_origin self) host' (exact_override requested seq) = Some url
    /\ (url, response) ∈ history ++ received made net
    /\ status response = 200 /\ Forall (fun f => is_ok f = true) (body response)
    /\ blen (List.concat (map frame_data (body response))) <= 1024 * 1024
    /\ decode_lookup_response extract dquic_addr host' (exact_override requested seq)
         (h3_source (server_origin self)) (response_headers response)
         (List.concat (map frame_data (body response))) = Some (Ok answer)
    /\ answer_candidates answer = cs.
Proof.
  intros [Hs _]%h3_reachable_sound Hl.
  eapply lookup_candidates_sound in Hl as (_ & _ & Hr); [|exact Hs].
  destruct (Hr cs eq_refl) as (host & seq & Hn & host' & url & response & answer & Hk & Hrest).
  injection Hk as Hk. exists host, seq, host', url, response, answer. by split_and!; try apply Hrest.
Qed.

(** The response of the server, to the lookup URL of the host. *)
Example h3_lookup_sound_witness :
  exists made self' cs, ClientModel.looked_up = (made, self', Some (Ok cs))
    /\ exists host seq host' url response answer,
         endpoint_lookup_name_and_sequence (fun _ => true) sample_name = Some (host, seq)
         /\ to_ascii_lowercase (trim_end_matches dot host')
            = to_ascii_lowercase (trim_end_matches dot host)
         /\ lookup_url ClientModel.origin host' (exact_override lookup_all seq) = Some url
         /\ (url, response) ∈ received made ClientModel.server
         /\ decode_lookup_response (N := NomModel.nom) (K := CryptoModel.crypto)
              (P := TextModel.parsers) (S := TextModel.digest) (H := HeaderModel.headers)
              (fun _ => None) ClientModel.addr_of host' (exact_override lookup_all seq) tt
              (response_headers response) (List.concat (map frame_data (body response)))
            = Some (Ok answer)
         /\ answer_candidates answer = cs.
Proof.
  destruct looked_up_ok as (made & self' & cs & Hl). exists made, self', cs. split; [exact Hl|].
  edestruct (h3_lookup_sound (H0 := NomModel.nom) (H1 := NomModel.buf_mut) (H2 := BitfieldModel.bitfield)
    (H3 := CryptoModel.crypto) (H4 := TextModel.parsers) (H5 := TextModel.digest) (H6 := HeaderModel.headers)
    (fun _ => None) ClientModel.addr_of (fun _ => true) (fun _ => tt) (fun _ => sample_name)
    (fun _ => Ok sample_chain) (fun _ => true) (fun _ => true) [] ClientModel.resolver)
    as (host & seq & host' & url & response & answer & H1 & H2 & H3 & H4 & _ & _ & _ & H5 & H6);
    [by eapply (h3_new _ _ _ _ _ _ _ _ ClientModel.origin ClientModel.identity)|exact Hl|].
  exists host, seq, host', url, response, answer. split_and!; assumption.
Defined.

(** C28: the resolver never recurses into itself.  Neither constructor accepts an origin
    whose host is dhttp.net or below it, whatever its case or trailing dots, so the
    origin of a resolver in any reachable state is outside; and in every state it
    refuses, without sending a request, the lookup of any name outside dhttp.net and,
    through the candidate interface too, the lookup of the host of its own origin,
    whatever its case, port or trailing dots. *)
Theorem no_self_recursion `{Certificates} `{Nom} `{BufMut} `{Bitfield} `{Crypto}
    `{CertificateParsers} `{Sha256} `{HeaderApi} `{UrlApi} `{DhttpEndpoint} {Source}
    (extract : bytes -> option CertificateChainKey)
    (dquic_addr : Dquic.EndpointAddr -> SocketAddr)
    (dns_name_ok : bytes -> bool) (h3_source : Url -> Source)
    (authority_name : LocalAuthority -> bytes)
    (extract_chain : list bytes -> Result CertificateChainKey bytes)
    (valid_name : bytes -> bool) (instant_ok : Z -> bool) (history : list (Url * Response))
    (self : H3Resolver) (host : bytes) (f : option Family) (requested : EndpointLookup)
    (now later : Z) (net : Url -> Z -> Attempt) :
  h3_reachable extract dquic_addr dns_name_ok h3_source authority_name extract_chain valid_name
    instant_ok history self ->
  url_host_str (server_origin self) = Some host ->
  (forall origin h, url_host_str origin = Some h ->
     is_dhttp_host (to_ascii_lowercase (trim_end_matches dot h)) = true ->
     (forall endpoint, is_ok (H3Resolver_new (Source := Source) origin endpoint) = false)
     /\ is_ok (H3Resolver_anonymous (Source := Source) origin) = false)
  /\ is_dhttp_host (to_ascii_lowercase (trim_end_matches dot host)) = false
  /\ (forall hostname, is_dhttp_host (normalized_host hostname) = false
     \/ normalized_host hostname = to_ascii_lowercase (trim_end_matches dot host) ->
     h3_lookup extract dquic_addr dns_name_ok h3_source self hostname f now later net
     = ([], self, Some (Err H3LookupError.NoRecordFound)))
  /\ (forall name n seq, endpoint_lookup_name_and_sequence dns_name_ok name = Some (n, seq) ->
        to_ascii_lowercase (trim_end_matches dot n) = to_ascii_lowercase (trim_end_matches dot host) ->
        lookup_candidates extract dquic_addr dns_name_ok h3_source self name requested now later net
        = ([], self, Some (Err H3LookupError.NoRecordFound))).
Proof.
  intros [_ Ho]%h3_reachable_sound Hh. pose proof (valid_origin_host _ _ Ho Hh) as Hout.
  split; [|split; [exact Hout|split]].
  - intros origin h Horigin Hd. unfold H3Resolver_new, H3Resolver_anonymous.
    destruct (validate_server_origin origin true) as [[]|] eqn:E; [|done].
    by rewrite (valid_origin_host _ _ E Horigin) in Hd.
  - intros hostname Hn. unfold h3_lookup.
    assert (is_dhttp_host (normalized_host hostname) = false) as ->; [|done].
    destruct Hn as [|Hn]; [done|]. by rewrite Hn.
  - intros name n seq Hn Hlow. unfold lookup_candidates. rewrite Hn.
    assert (is_own_origin self n = true) as ->; [|done].
    unfold is_own_origin, eq_ignore_ascii_case. rewrite Hh. by apply bool_decide_eq_true.
Qed.

Example no_self_recursion_witness :
  lookup_candidates (N := NomModel.nom) (K := CryptoModel.crypto) (P := TextModel.parsers)
    (S := TextModel.digest) (fun _ => None) ClientModel.addr_of (fun _ => true) (fun _ => tt)
    ClientModel.resolver (str "DNS.example.:4433") lookup_all 0 1 ClientModel.server
  = ([], ClientModel.resolver, Some (Err H3LookupError.NoRecordFound)).
Proof.
  destruct (no_self_recursion (H1 := NomModel.buf_mut) (H2 := BitfieldModel.bitfield)
    (H0 := NomModel.nom) (H3 := CryptoModel.crypto) (H4 := TextModel.parsers)
    (H5 := TextModel.digest) (H6 := HeaderModel.headers)
    (fun _ => None) ClientModel.addr_of (fun _ => true) (fun _ => tt) (fun _ => sample_name)
    (fun _ => Ok sample_chain) (fun _ => true) (fun _ => true) [] ClientModel.resolver
    (str "dns.example") None lookup_all 0 1 ClientModel.server) as (_ & _ & _ & Hc);
    [by eapply (h3_new _ _ _ _ _ _ _ _ ClientModel.origin ClientModel.identity)|reflexivity|].
  eapply Hc; reflexivity.
Defined.

(** C17: publishing sends only what the identity may publish and keeps the cache
    coherent.  A request is only sent for a valid name that is the name of the
    resolver's identity, and carries the packet of that identity, of at most
    65535 bytes, with its signature.  After a success the lease is zero exactly
    when nothing was published, and no lookup of the name, however it is spelled,
    is answered from the cache; after any error the resolver is unchanged. *)
Theorem publish_effects `{Certificates} `{BufMut} `{Bitfield} `{Crypto} `{CertificateParsers}
    `{Sha256} `{HeaderApi} `{UrlApi} `{DhttpEndpoint} {Source}
    (authority_name : LocalAuthority -> bytes)
    (extract_chain : list bytes -> Result CertificateChainKey bytes)
    (valid_name : bytes -> bool) (instant_ok : Z -> bool)
    (self self' : H3Resolver (Source := Source)) (name : bytes) (eps : list Dquic.EndpointAddr)
    (since_epoch : option Z) (net : PublishRequest -> Exchange) (sent : option PublishRequest)
    (r : may_panic (Result Z H3PublishError.t)) :
  publish_endpoints authority_name extract_chain valid_name instant_ok self name eps since_epoch net
  = (sent, self', r) ->
  (forall req, sent = Some req ->
     own_request authority_name extract_chain valid_name self name eps since_epoch req)
  /\ match r with
     | Some (Ok lease) => sent <> None /\ 0 <= lease /\ (lease = 0 <-> eps = [])
         /\ forall name' lookup now,
              to_ascii_lowercase (trim_end_matches dot name')
              = to_ascii_lowercase (trim_end_matches dot name) ->
              (get now (cache self') (LookupKey_new name' lookup)).2 = None
     | _ => self' = self
     end.
Proof.
  intros [Hs Hr]%publish_endpoints_cases. split; [done|].
  destruct r as [[lease|]|]; [|done..].
  destruct Hr as (req & resp & -> & _ & _ & Hl & ->). apply publish_lease_empty in Hl as [Hpos Hl].
  split; [done|]. split; [done|]. split; [by destruct eps; naive_solver|].
  intros name' lookup now Hn. cbn [with_cache cache]. rewrite get_invalidated.
  unfold eq_ignore_ascii_case. by rewrite bool_decide_true.
Qed.

Example publish_effects_witness :
  exists sent self' lease, ClientModel.published_to = (sent, self', Some (Ok lease))
    /\ sent <> None /\ 0 <= lease /\ lease <> 0
    /\ (get 0 (cache self') (LookupKey_new (str "Demo.dhttp.net.") lookup_all)).2 = None.
Proof.
  destruct published_to_ok as (sent & self' & lease & Hl). exists sent, self', lease.
  split; [exact Hl|].
  destruct (publish_effects _ _ _ _ _ _ _ _ _ _ _ _ Hl) as [_ (H1 & H2 & H3 & H4)].
  split_and!; [exact H1|exact H2| |by apply H4]. intros E0%H3. discriminate.
Defined.

(** C18: the limit of 65535 bytes keeps publications whole.  However many endpoints are
    given, a packet that is sent announces exactly as many answers as there are endpoints,
    is decoded to its end, and the selection for the sequence of the chain of the
    certificates of the resolver's own identity, which is a primary chain unless there
    are no endpoints, returns exactly these endpoints, in order; in particular the 16-bit
    counter of the answers has not wrapped around. *)
Theorem sent_packet_whole `{CertificatesSpec} `{NomSpec} `{BufMutSpec} `{BitfieldSpec} `{Crypto}
    `{CertificateParsers} `{Sha256} `{HeaderApi} `{UrlApi} `{DhttpEndpoint} {Source}
    (authority_name : LocalAuthority -> bytes)
    (extract_chain : list bytes -> Result CertificateChainKey bytes)
    (valid_name : bytes -> bool) (instant_ok : Z -> bool)
    (self self' : H3Resolver (Source := Source)) (name : bytes) (eps : list Dquic.EndpointAddr)
    (since_epoch : option Z) (net : PublishRequest -> Exchange) (req : PublishRequest)
    (r : may_panic (Result Z H3PublishError.t)) :
  publish_endpoints authority_name extract_chain valid_name instant_ok self name eps since_epoch net
  = (Some req, self', r) ->
  name_ok name -> canonical_name name = name -> Forall wire_dquic eps ->
  exists endpoint identity chain p,
    h3_endpoint self = Some endpoint /\ local_authority endpoint = Ok identity
    /\ extract_chain (authority_certificates identity) = Ok chain
    /\ (is_primary_chain_key chain = true \/ eps = [])
    /\ be_packet (request_packet req) = Ok ([], p) /\ is_query p = true
    /\ answers_count (header p) = blen eps /\ blen (answers p) = blen eps
    /\ selected_endpoint_addrs_for_sequence (omap (endpoint_of_answer name) (answers p))
         (Some (chain_sequence chain)) = Some eps.
Proof.
  intros [Hs _]%publish_endpoints_cases Hn Hc Heps.
  destruct (Hs req eq_refl) as (_ & endpoint & identity & He & _ & Hi & Hp & Hlim & _).
  destruct (packet_guards _ _ _ _ _ _ Hp) as (Ha & chain & Hx & Hpr).
  pose proof (packet_room _ _ _ _ _ _ _ Ha Hx Hpr Hn Heps Hp) as Hroom.
  destruct (packet_decoded _ _ _ _ _ _ Ha Hx Hpr Hn Heps ltac:(lia))
    as (es & enc & p & Hall & Henc & Hdec & Hq & Hcount & Hans).
  rewrite Hp in Henc. injection Henc as <-. exists endpoint, identity, chain, p.
  destruct (published_writable chain name eps es Hn Hall) as (_ & Hwire & Hl).
  split_and!; [done..| |].
  - rewrite Hans. unfold answer_records, blen. cbn [map List.concat].
    by rewrite app_nil_r, !length_map, Hl.
  - rewrite Hans, answer_endpoints by done. by apply published_selected.
Qed.

Example sent_packet_whole_witness : exists req self' r p,
  ClientModel.published_to = (Some req, self', r)
  /\ be_packet (C := CertModel.certificates) (N := NomModel.nom) (request_packet req) = Ok ([], p)
  /\ answers_count (header p) = blen sample_endpoints
  /\ selected_endpoint_addrs_for_sequence (omap (endpoint_of_answer sample_name) (answers p))
       (Some (chain_sequence sample_chain)) = Some sample_endpoints.
Proof.
  destruct published_to_ok as (sent & self' & lease & Hl).
  destruct (publish_endpoints_cases _ _ _ _ _ _ _ _ _ _ _ _ Hl) as [_ (req & _ & Hreq & _)].
  rewrite Hreq in Hl. exists req, self', (Some (Ok lease)).
  destruct (sent_packet_whole (H := CertModel.certificates_spec) (H0 := NomModel.nom_spec)
    (H1 := NomModel.buf_mut_spec) (H2 := BitfieldModel.bitfield_spec) _ _ _ _ _ _ _ _ _ _ _ _ Hl)
    as (endpoint & identity & chain & p & _ & _ & Hx & _ & H1 & _ & H2 & _ & H3).
  - decide_now.
  - reflexivity.
  - repeat constructor; split_and?; decide_now || reflexivity.
  - injection Hx as <-. exists p. split; [exact Hl|]. split; [exact H1|]. split; [exact H2|exact H3].
Defined.
