(* ===== verification/H3Tasks.v ===== *)
(** * Concurrent use of an HTTP/3 resolver: src/h3/lookup.rs, src/h3/publish.rs and
    src/h3/cache.rs

    All the methods of the resolver take [&self]: lookups, publications and clearing run
    concurrently and share the cache.  Their tasks are split where they wait for the
    network and where they access the cache; each access to the map is atomic.  The
    log records what happened, the newest event first.  The main result says which
    answer a lookup gets from the cache; a run shows that a publication does not keep
    an older answer from being cached after it. *)

From stdpp Require Import base list numbers option sets relations.
From S2P Require Import Prelude Nom RustString DnsName DnsHeader Sigin Certificate Endpoint Records Packet Signature Wire Candidates Publish Cache Lookup H3Client.

Section Concurrent.
Context `{C : Certificates} `{N : Nom} `{B : BufMut} `{F : Bitfield} `{K : Crypto}.
Context `{P : CertificateParsers} `{S : Sha256} `{H : HeaderApi} `{U : UrlApi}.
Context `{D : DhttpEndpoint} {Source : Type}.
Context (extract : bytes -> option CertificateChainKey).
Context (dquic_addr : Dquic.EndpointAddr -> SocketAddr).
Context (dns_name_ok : bytes -> bool) (h3_source : Url -> Source).
Context (authority_name : LocalAuthority -> bytes).
Context (extract_chain : list bytes -> Result CertificateChainKey bytes).
Context (valid_name : bytes -> bool) (instant_ok : Z -> bool).

Abbreviation Resolver := (H3Resolver (Source := Source)).
Abbreviation Answer := (LookupAnswer Source).

(** What a task waits for: a lookup that has to remove an expired entry, whose request
    is under way, or that has an answer to store; a publication whose request is
    under way. *)
Inductive Task :=
| Evict (id : nat) (host : bytes) (lookup : EndpointLookup)
| Fetch (id : nat) (host : bytes) (lookup : EndpointLookup) (url : Url)
| Store (id : nat) (host : bytes) (lookup : EndpointLookup) (answer : Answer)
| Publishing (name : bytes) (empty : bool).

Inductive Event :=
| Sent (id : nat) (key : LookupKey)
| Received (id : nat) (answer : Answer)
| Inserted (id : nat) (key : LookupKey) (answer : Answer) (time : Z)
| Hit (key : LookupKey) (cs : EndpointCandidates Source) (time : Z)
| Posted (name : bytes)
| Invalidated (name : bytes)
| Cleared.

Record Shared := mkShared {
  shared_self : Resolver;
  shared_now : Z;
  shared_next : nat;
  shared_tasks : list Task;
  shared_log : list Event;
}.

Definition Shared_new (self : Resolver) (now : Z) : Shared := mkShared self now 0 [] [].

Definition with_cache_of (s : Shared) (c : LookupCache Source) (tasks : list Task) (log : list Event)
  : Shared :=
  mkShared (with_cache (shared_self s) c) (shared_now s) (shared_next s) tasks log.
Definition with_task_log (s : Shared) (tasks : list Task) (log : list Event) : Shared :=
  with_cache_of s (cache (shared_self s)) tasks log.

(** ** Lookups *)
Inductive lookup_step (s : Shared) : Shared -> Prop :=
(* [lookup_candidates] up to the access of the cache *)
| lookup_hit name requested host seq a :
    endpoint_lookup_name_and_sequence dns_name_ok name = Some (host, seq) ->
    is_own_origin (shared_self s) host = false ->
    let key := LookupKey_new host (exact_override requested seq) in
    map_get (positive (cache (shared_self s))) key = Some a -> shared_now s < expires_at a ->
    lookup_step s (with_task_log s (shared_tasks s)
                     (Hit key (candidates a) (shared_now s) :: shared_log s))
| lookup_expired name requested host seq a :
    endpoint_lookup_name_and_sequence dns_name_ok name = Some (host, seq) ->
    is_own_origin (shared_self s) host = false ->
    let lookup := exact_override requested seq in
    map_get (positive (cache (shared_self s))) (LookupKey_new host lookup) = Some a ->
    expires_at a <= shared_now s ->
    lookup_step s (mkShared (shared_self s) (shared_now s) (Datatypes.S (shared_next s))
                     (Evict (shared_next s) host lookup :: shared_tasks s) (shared_log s))
| lookup_miss name requested host seq url :
    endpoint_lookup_name_and_sequence dns_name_ok name = Some (host, seq) ->
    is_own_origin (shared_self s) host = false ->
    let lookup := exact_override requested seq in
    map_get (positive (cache (shared_self s))) (LookupKey_new host lookup) = None ->
    lookup_url (server_origin (shared_self s)) host lookup = Some url ->
    lookup_step s (mkShared (shared_self s) (shared_now s) (Datatypes.S (shared_next s))
                     (Fetch (shared_next s) host lookup url :: shared_tasks s)
                     (Sent (shared_next s) (LookupKey_new host lookup) :: shared_log s))
(* the removal after the expired entry was released *)
| lookup_evict id host lookup url t1 t2 :
    shared_tasks s = t1 ++ Evict id host lookup :: t2 ->
    lookup_url (server_origin (shared_self s)) host lookup = Some url ->
    let key := LookupKey_new host lookup in
    lookup_step s (with_cache_of s (mkLookupCache (map_remove (positive (cache (shared_self s))) key))
                     (t1 ++ Fetch id host lookup url :: t2) (Sent id key :: shared_log s))
(* the response arrives and is decoded *)
| lookup_received id host lookup url t1 t2 net made headers body answer :
    shared_tasks s = t1 ++ Fetch id host lookup url :: t2 ->
    lookup_response_with_retry (net url) = (made, Some (Ok (headers, body))) ->
    decode_lookup_response extract dquic_addr host lookup
      (h3_source (server_origin (shared_self s))) headers body = Some (Ok answer) ->
    lookup_step s (with_task_log s (t1 ++ Store id host lookup answer :: t2)
                     (Received id answer :: shared_log s))
(* the answer is inserted and returned *)
| lookup_store id host lookup answer t1 t2 :
    shared_tasks s = t1 ++ Store id host lookup answer :: t2 ->
    let key := LookupKey_new host lookup in
    lookup_step s (with_cache_of s
      (insert (shared_now s) (cache (shared_self s)) key (answer_candidates answer) (answer_ttl answer))
      (t1 ++ t2) (Inserted id key answer (shared_now s) :: shared_log s)).

(** ** Publications *)
Inductive publish_step (s : Shared) : Shared -> Prop :=
| publish_send name eps since_epoch net request self' r :
    publish_endpoints authority_name extract_chain valid_name instant_ok (shared_self s) name eps
      since_epoch net = (Some request, self', r) ->
    publish_step s (with_task_log s
      (Publishing name (match eps with [] => true | _ => false end) :: shared_tasks s)
      (Posted name :: shared_log s))
| publish_done name empty t1 t2 response self' lease :
    shared_tasks s = t1 ++ Publishing name empty :: t2 ->
    publish_answer instant_ok (shared_self s) name empty response = (self', Ok lease) ->
    publish_step s (mkShared self' (shared_now s) (shared_next s) (t1 ++ t2)
                      (Invalidated name :: shared_log s)).

(** ** All the steps; a task that fails or is cancelled has no other effect *)
Inductive shared_step (s : Shared) : Shared -> Prop :=
| shared_lookup s' : lookup_step s s' -> shared_step s s'
| shared_publish s' : publish_step s s' -> shared_step s s'
| shared_clear : shared_step s (mkShared (clear_cache (shared_self s)) (shared_now s) (shared_next s)
                                  (shared_tasks s) (Cleared :: shared_log s))
| shared_drop t t1 t2 :
    shared_tasks s = t1 ++ t :: t2 -> shared_step s (with_task_log s (t1 ++ t2) (shared_log s))
| shared_time now : shared_now s <= now ->
    shared_step s (mkShared (shared_self s) now (shared_next s) (shared_tasks s) (shared_log s)).

(** Runs of a resolver whose cache is empty. *)
Definition shared_reachable (s : Shared) : Prop :=
  exists self now, cache self = cache_default /\ rtc shared_step (Shared_new self now) s.

(** ** What justifies an answer of the cache *)

(** The event does not end the life of an entry of the key. *)
Definition keeps (key : LookupKey) (e : Event) : Prop :=
  match e with
  | Inserted _ k a _ => k = key -> answer_ttl a = 0
  | Invalidated name => eq_ignore_ascii_case (key_name key) (trim_end_matches dot name) = false
  | Cleared => False
  | _ => True
  end.

(** [a] was stored at [time] by a lookup for this key, which sent its request
    before, and nothing ended its life since. *)
Definition justified (origin : Url) (log : list Event) (key : LookupKey) (answer : Answer) (time : Z)
  : Prop :=
  exists id later earlier, log = later ++ Inserted id key answer time :: earlier
    /\ Sent id key ∈ earlier /\ Received id answer ∈ earlier
    /\ Forall (keeps key) later
    /\ answered extract dquic_addr h3_source origin key (answer_candidates answer).

Definition hit_ok (origin : Url) (log : list Event) (key : LookupKey) (cs : EndpointCandidates Source)
    (now : Z) : Prop :=
  exists answer time, justified origin log key answer time
    /\ answer_candidates answer = cs /\ time <= now < time + answer_ttl answer.

Fixpoint hits_ok (origin : Url) (log : list Event) : Prop :=
  match log with
  | [] => True
  | Hit key cs now :: log => hit_ok origin log key cs now /\ hits_ok origin log
  | _ :: log => hits_ok origin log
  end.

(** ** The invariant *)
Definition task_ok (s : Shared) (t : Task) : Prop :=
  match t with
  | Fetch id host lookup _ => Sent id (LookupKey_new host lookup) ∈ shared_log s
  | Store id host lookup answer =>
      Sent id (LookupKey_new host lookup) ∈ shared_log s /\ Received id answer ∈ shared_log s
      /\ answered extract dquic_addr h3_source (server_origin (shared_self s))
           (LookupKey_new host lookup) (answer_candidates answer)
  | _ => True
  end.

Definition entry_justified (s : Shared) (key : LookupKey) (a : CachedAnswer Source) : Prop :=
  exists answer time, justified (server_origin (shared_self s)) (shared_log s) key answer time
    /\ a = mkCachedAnswer (answer_candidates answer) (time + answer_ttl answer)
    /\ time <= shared_now s.

Record shared_ok (s : Shared) : Prop := mkSharedOk {
  ok_entries : forall key a,
    map_get (positive (cache (shared_self s))) key = Some a -> entry_justified s key a;
  ok_tasks : Forall (task_ok s) (shared_tasks s);
  ok_hits : hits_ok (server_origin (shared_self s)) (shared_log s);
}.

(** ** Preservation *)
Lemma justified_app origin es log key answer time :
  justified origin log key answer time -> Forall (keeps key) es ->
  justified origin (es ++ log) key answer time.
Proof.
  intros (id & later & earlier & -> & Hs & Hr & Hk & Ha) He. exists id, (es ++ later), earlier.
  split; [by rewrite (assoc_L (++))|]. split_and!; [done|done|by apply Forall_app|done].
Qed.

(** A step that extends the log, keeps or justifies entries and keeps or justifies
    tasks. *)
Lemma extend_ok s s' es :
  shared_log s' = es ++ shared_log s ->
  server_origin (shared_self s') = server_origin (shared_self s) -> shared_now s <= shared_now s' ->
  (forall key a, map_get (positive (cache (shared_self s'))) key = Some a ->
     map_get (positive (cache (shared_self s))) key = Some a /\ Forall (keeps key) es
     \/ entry_justified s' key a) ->
  (forall t, t ∈ shared_tasks s' -> t ∈ shared_tasks s \/ task_ok s' t) ->
  (hits_ok (server_origin (shared_self s)) (shared_log s) ->
   hits_ok (server_origin (shared_self s)) (es ++ shared_log s)) ->
  shared_ok s -> shared_ok s'.
Proof.
  intros Hlog Ho Hnow He Ht Hh [H1 H2 H3]. split.
  - intros key a Ha. destruct (He key a Ha) as [[Hold Hk]|]; [|done].
    destruct (H1 key a Hold) as (answer & time & Hj & -> & Hle). exists answer, time.
    rewrite Hlog, Ho. split; [by apply justified_app|]. split; [done|lia].
  - rewrite Forall_forall in H2 |- *. intros t [Hold|]%Ht; [|done]. specialize (H2 t Hold).
    unfold task_ok in *. rewrite Hlog, Ho. destruct t; [done| | |done]; set_solver.
  - rewrite Hlog, Ho. by apply Hh.
Qed.

(** The cache does not change. *)
Lemma same_cache_keeps s s' es :
  cache (shared_self s') = cache (shared_self s) -> (forall key, Forall (keeps key) es) ->
  forall key a, map_get (positive (cache (shared_self s'))) key = Some a ->
  map_get (positive (cache (shared_self s))) key = Some a /\ Forall (keeps key) es
  \/ entry_justified s' key a.
Proof. intros -> He key a Ha. left. by split. Qed.

Lemma fetched_answered origin host lookup (net : Url -> Z -> Attempt) url made headers body answer :
  lookup_response_with_retry (net url) = (made, Some (Ok (headers, body))) ->
  decode_lookup_response extract dquic_addr host lookup (h3_source origin) headers body
  = Some (Ok answer) ->
  answered extract dquic_addr h3_source origin (LookupKey_new host lookup) (answer_candidates answer).
Proof.
  intros Hr Hd. exists host, headers, body, answer. split; [done|]. split; [|done].
  rewrite retry_spec in Hr. cbv zeta in Hr. injection Hr as _ Hr.
  destruct (net url _) as [|r]; [done|]. by apply lookup_response_body in Hr.
Qed.

Lemma replaced_task {A} (t1 t2 : list A) t t' x :
  x ∈ t1 ++ t' :: t2 -> x ∈ t1 ++ t :: t2 \/ x = t'.
Proof. set_solver. Qed.

Lemma dropped_task {A} (t1 t2 : list A) t x : x ∈ t1 ++ t2 -> x ∈ t1 ++ t :: t2.
Proof. set_solver. Qed.

Lemma lookup_step_ok s s' : lookup_step s s' -> shared_ok s -> shared_ok s'.
Proof.
  intros Hstep Hok. pose proof Hok as [H1 H2 H3].
  destruct Hstep as [name requested host seq a _ _ key Ha Hfresh|name requested host seq a _ _ lookup _ _
    |name requested host seq url _ _ lookup _ _|id host lookup url t1 t2 Ht _ key
    |id host lookup url t1 t2 net made headers body answer Ht Hr Hd|id host lookup answer t1 t2 Ht key].
  - eapply (extend_ok s _ [Hit key (candidates a) (shared_now s)]); try done; [|by auto|].
    + apply same_cache_keeps; [done|]. by repeat constructor.
    + intros Hh. split; [|done]. destruct (H1 key a Ha) as (answer & time & Hj & -> & Hle).
      exists answer, time. split; [done|]. split; [done|]. cbn in Hfresh. lia.
  - eapply (extend_ok s _ []); try done.
    + by apply same_cache_keeps.
    + intros t [->|]%elem_of_cons; [by right|by left].
  - eapply (extend_ok s _ [Sent _ _]); try done.
    + apply same_cache_keeps; [done|]. by repeat constructor.
    + intros t [->|]%elem_of_cons; [right; left|by left].
  - eapply (extend_ok s _ [Sent id key]); try done.
    + intros k a. cbn [with_cache_of shared_self with_cache cache positive]. rewrite map_get_remove.
      case_bool_decide; [done|]. left. split; [done|]. by repeat constructor.
    + cbn [with_cache_of shared_tasks]. rewrite Ht.
      intros t [Hx| ->]%(replaced_task _ _ (Evict id host lookup)); [by left|right; left].
  - eapply (extend_ok s _ [Received id answer]); try done.
    + apply same_cache_keeps; [done|]. by repeat constructor.
    + cbn [with_task_log with_cache_of shared_tasks]. rewrite Ht.
      intros t [Hx| ->]%(replaced_task _ _ (Fetch id host lookup url)); [by left|right].
      split_and!; [|left|by eapply fetched_answered]. right. rewrite Forall_forall in H2.
      apply (H2 (Fetch id host lookup url)). rewrite Ht. set_solver.
  - assert (task_ok s (Store id host lookup answer)) as (Hs & Hrec & Han).
    { rewrite Forall_forall in H2. apply H2. rewrite Ht. set_solver. }
    eapply (extend_ok s _ [Inserted id key answer (shared_now s)]); try done.
    + intros k a. cbn [with_cache_of shared_self with_cache cache positive]. unfold insert.
      destruct (Z.eqb_spec (answer_ttl answer) 0) as [Hz|Hz]; cbn [negb].
      * left. split; [done|]. constructor; [by intros _|done].
      * cbn [positive]. rewrite map_get_insert. case_bool_decide as Hk.
        -- intros [= <-]. right. subst k. exists answer, (shared_now s). split; [|by split].
           exists id, [], (shared_log s). by split_and!.
        -- left. split; [done|]. constructor; [|done]. by intros <-.
    + cbn [with_cache_of shared_tasks]. rewrite Ht. intros t Hin%(dropped_task _ _ (Store id host lookup answer)).
      by left.
Qed.

Lemma publish_answer_ok self name empty response self' lease :
  publish_answer (Source := Source) instant_ok self name empty response = (self', Ok lease) ->
  self' = with_cache self (invalidate_name (cache self) name).
Proof.
  unfold publish_answer. destruct (negb _); [by destruct (read_body_limited _ _ _) as [|[]]|].
  destruct (publish_lease _ _ _); [|done]. by intros [= <- _].
Qed.

Lemma publish_step_ok s s' : publish_step s s' -> shared_ok s -> shared_ok s'.
Proof.
  intros [name eps since net request self' r _|name empty t1 t2 response self' lease Ht Hp].
  - apply (extend_ok s _ [Posted name]); try done.
    + apply same_cache_keeps; [done|]. by repeat constructor.
    + intros t [->|]%elem_of_cons; [by right|by left].
  - apply publish_answer_ok in Hp as ->. apply (extend_ok s _ [Invalidated name]); try done.
    + intros key a. cbn [shared_self with_cache cache invalidate_name positive].
      rewrite (map_get_filter _ (fun key => negb (eq_ignore_ascii_case (key_name key) _))).
      destruct (eq_ignore_ascii_case _ _) eqn:E; cbn [negb]; [done|]. left. split; [done|].
      by repeat constructor.
    + cbn [shared_tasks]. rewrite Ht. intros t Hin%(dropped_task _ _ (Publishing name empty)). by left.
Qed.

Lemma shared_step_ok s s' : shared_step s s' -> shared_ok s -> shared_ok s'.
Proof.
  intros [s1 Hl|s1 Hp| |t t1 t2 Ht|now Hnow]; [by apply lookup_step_ok|by apply publish_step_ok|..].
  - apply (extend_ok s _ [Cleared]); try done. by left.
  - apply (extend_ok s _ []); try done; [by apply same_cache_keeps|].
    cbn [with_task_log with_cache_of shared_tasks]. rewrite Ht. intros x Hin%(dropped_task _ _ t). by left.
  - apply (extend_ok s _ []); try done; [by apply same_cache_keeps|by left].
Qed.

Lemma shared_reachable_ok s : shared_reachable s -> shared_ok s.
Proof.
  intros (self & now & Hc & Hr).
  assert (shared_ok (Shared_new self now)) as Hok.
  { split; [|constructor|done]. cbn [Shared_new shared_self]. by rewrite Hc. }
  induction Hr as [|s1 s2 s3 Hs _ IH]; [done|]. apply IH. by eapply shared_step_ok.
Qed.

Lemma hits_ok_at origin log : forall later key cs now earlier,
  log = later ++ Hit key cs now :: earlier -> hits_ok origin log -> hit_ok origin earlier key cs now.
Proof.
  induction log as [|e log IH]; intros later key cs now earlier Hl Hh; [by destruct later|].
  destruct later as [|e' later]; injection Hl as -> Hl.
  - subst log. apply Hh.
  - eapply IH; [exact Hl|]. by destruct e'; try exact Hh; destruct Hh.
Qed.

(** What is served after an invalidation was stored after it. *)
Lemma justified_after origin key answer time name l1 : forall l2,
  justified origin (l1 ++ Invalidated name :: l2) key answer time ->
  eq_ignore_ascii_case (key_name key) (trim_end_matches dot name) = true ->
  exists id, Inserted id key answer time ∈ l1.
Proof.
  intros l2 (id & later & earlier & Hl & _ & _ & Hk & _) Hn. exists id. revert l1 Hl.
  induction Hk as [|e later He Hk IH]; intros [|e1 l1] Hl; try done.
  - injection Hl as <- _. left.
  - injection Hl as <- _. cbn in He. congruence.
  - injection Hl as <- Hl. right. by apply IH.
Qed.

(** ** Operations that run alone *)
Lemma with_same_cache (self : Resolver) : with_cache self (cache self) = self.
Proof. by destruct self. Qed.

Lemma step_then s1 s2 s3 : shared_step s1 s2 -> rtc shared_step s2 s3 -> rtc shared_step s1 s3.
Proof. apply rtc_l. Qed.

(** A lookup whose request is under way, until it returns: the rest of
    [lookup_candidates]. *)
Lemma request_run s id host lookup url t later net made self' r :
  shared_tasks s = Fetch id host lookup url :: t -> shared_now s <= later ->
  (let '(made, response) := lookup_response_with_retry (net url) in
   let made := map (fun attempt => (url, attempt)) made in
   match response with
   | None => (made, shared_self s, None)
   | Some (Err error) => (made, shared_self s, Some (Err error))
   | Some (Ok (headers, body)) =>
       match decode_lookup_response extract dquic_addr host lookup
               (h3_source (server_origin (shared_self s))) headers body with
       | None => (made, shared_self s, None)
       | Some (Err error) => (made, shared_self s, Some (Err (map_semantic_error error)))
       | Some (Ok answer) =>
           let c := insert later (cache (shared_self s)) (LookupKey_new host lookup)
                      (answer_candidates answer) (answer_ttl answer) in
           (made, with_cache (shared_self s) c, Some (Ok (answer_candidates answer)))
       end
   end) = (made, self', Some r) ->
  exists s', rtc shared_step s s' /\ shared_self s' = self' /\ shared_tasks s' = t.
Proof.
  intros Ht Hnow.
  assert (exists s', rtc shared_step s s' /\ shared_self s' = shared_self s /\ shared_tasks s' = t) as Hdrop.
  { eexists. split; [eapply step_then; [by eapply shared_drop with (t1 := [])|reflexivity]|].
    by destruct s as [[]]. }
  destruct (lookup_response_with_retry (net url)) as [made' [[[headers body]|]|]] eqn:Hr;
    [|by intros [= _ <- _]|done].
  destruct (decode_lookup_response _ _ host lookup _ headers body) as [[answer|]|] eqn:Hd;
    [|by intros [= _ <- _]|done].
  intros [= _ <- _]. eexists. split; [|split].
  - eapply step_then; [eapply shared_lookup, (lookup_received s id host lookup url [] t net); eassumption|].
    eapply step_then; [apply (shared_time _ later), Hnow|].
    eapply step_then; [by eapply shared_lookup, (lookup_store _ id host lookup answer [] t)|]. reflexivity.
  - by destruct s as [[]].
  - done.
Qed.

(** [lookup_candidates], when it returns, is a sequence of steps. *)
Lemma lookup_run s name requested later net made self' r :
  shared_now s <= later ->
  lookup_candidates extract dquic_addr dns_name_ok h3_source (shared_self s) name requested
    (shared_now s) later net = (made, self', Some r) ->
  exists s', rtc shared_step s s' /\ shared_self s' = self' /\ shared_tasks s' = shared_tasks s.
Proof.
  intros Hnow. unfold lookup_candidates.
  destruct (endpoint_lookup_name_and_sequence dns_name_ok name) as [[host seq]|] eqn:Hn;
    [|intros [= _ <- _]; by exists s].
  destruct (is_own_origin (shared_self s) host) eqn:Ho; [intros [= _ <- _]; by exists s|].
  set (lookup := exact_override requested seq). set (key := LookupKey_new host lookup). unfold get.
  destruct (map_get (positive (cache (shared_self s))) key) as [a|] eqn:Hg.
  - destruct (Z.ltb_spec (shared_now s) (expires_at a)) as [Hf|Hf].
    { intros [= _ <- _]. eexists. split.
      - eapply step_then; [by eapply shared_lookup, (lookup_hit s name requested host seq a)|reflexivity].
      - by split. }
    cbn [with_cache server_origin]. destruct (lookup_url _ host lookup) as [url|] eqn:Hu; [|done].
    set (s1 := mkShared (shared_self s) (shared_now s) (Datatypes.S (shared_next s))
                 (Evict (shared_next s) host lookup :: shared_tasks s) (shared_log s)).
    assert (shared_step s s1) as S1 by (by eapply shared_lookup, lookup_expired).
    pose proof (shared_lookup _ _ (lookup_evict s1 (shared_next s) host lookup url [] (shared_tasks s)
      eq_refl Hu)) as S2.
    intros Hl. match type of S2 with shared_step _ ?s2 =>
      destruct (request_run s2 (shared_next s) host lookup url (shared_tasks s) later net made self' r
        eq_refl Hnow Hl) as (s' & R & Hs) end. exists s'.
    split; [|done]. eapply step_then; [exact S1|]. by eapply step_then.
  - rewrite with_same_cache. destruct (lookup_url _ host lookup) as [url|] eqn:Hu; [|done].
    pose proof (shared_lookup _ _ (lookup_miss s name requested host seq url Hn Ho Hg Hu)) as S1.
    intros Hl. match type of S1 with shared_step _ ?s1 =>
      destruct (request_run s1 (shared_next s) host lookup url (shared_tasks s) later net made self' r
        eq_refl Hnow Hl) as (s' & R & Hs) end. exists s'.
    split; [|done]. by eapply step_then.
Qed.
End Concurrent.

(** ** A run *)
Module RaceModel.
Import ClientModel.

Abbreviation step := (shared_step (N := NomModel.nom) (B := NomModel.buf_mut)
  (F := BitfieldModel.bitfield) (K := CryptoModel.crypto) (P := TextModel.parsers)
  (S := TextModel.digest) (H := HeaderModel.headers) (fun _ => None) addr_of (fun _ => true) (fun _ => tt)
  (fun _ => sample_name) (fun _ => Ok sample_chain) (fun _ => true) (fun _ => true)).

Abbreviation reachable_state := (shared_reachable (N := NomModel.nom) (B := NomModel.buf_mut)
  (F := BitfieldModel.bitfield) (K := CryptoModel.crypto) (P := TextModel.parsers)
  (S := TextModel.digest) (H := HeaderModel.headers) (fun _ => None) addr_of (fun _ => true) (fun _ => tt)
  (fun _ => sample_name) (fun _ => Ok sample_chain) (fun _ => true) (fun _ => true)).

Definition key : LookupKey (C := CertModel.certificates) := LookupKey_new sample_name lookup_all.

Abbreviation State := (Shared (C := CertModel.certificates) (U := ClientModel.url)
  (D := ClientModel.endpoint) (Source := unit)).
Abbreviation Log := (list (Event (C := CertModel.certificates) (Source := unit))).

Abbreviation Answer := (LookupAnswer (H := CertModel.certificates) unit).

(** The decoded response of the server. *)
Abbreviation decoded headers body := (decode_lookup_response (C := CertModel.certificates)
  (N := NomModel.nom) (K := CryptoModel.crypto) (P := TextModel.parsers) (S := TextModel.digest)
  (H := HeaderModel.headers) (fun _ => None) addr_of sample_name lookup_all tt headers body).

Lemma exchange_ok : exists url made headers body (answer : Answer),
  lookup_url (C := CertModel.certificates) origin sample_name lookup_all = Some url
  /\ lookup_response_with_retry (server url) = (made, Some (Ok (headers, body)))
  /\ decoded headers body = Some (Ok answer) /\ 0 < answer_ttl answer.
Proof.
  assert (match lookup_url (C := CertModel.certificates) origin sample_name lookup_all with
          | Some url =>
              match lookup_response_with_retry (server url) with
              | (_, Some (Ok (headers, body))) =>
                  match decoded headers body with
                  | Some (Ok answer) => 0 <? answer_ttl answer
                  | _ => false
                  end
              | _ => false
              end
          | None => false
          end = true) as Hb by (vm_compute; reflexivity).
  destruct (lookup_url _ sample_name lookup_all) as [u|]; [|done].
  destruct (lookup_response_with_retry (server u)) as [made [[[headers body]|]|]] eqn:Hr; [|done..].
  destruct (decoded headers body) as [[answer|]|] eqn:Hd; [|done..].
  exists u, made, headers, body, answer. split_and!; [done..|]. by apply Z.ltb_lt.
Qed.

(** The log of a lookup that races with a publication, and of a lookup after both. *)
Definition race_log (answer : Answer) : Log :=
  [Hit key (answer_candidates answer) 0; Inserted 0 key answer 0; Invalidated sample_name;
   Posted sample_name; Received 0 answer; Sent 0 key].

Lemma race_run : exists s answer,
  reachable_state s /\ shared_log s = race_log answer /\ shared_tasks s = [].
Proof.
  destruct exchange_ok as (u & made & headers & body & answer & Hu & Hr & Hd & Httl).
  destruct published_to_ok as (sent & self' & lease & Hp).
  pose proof (publish_endpoints_cases _ _ _ _ _ _ _ _ _ _ _ _ Hp) as [_ (req & resp & -> & _)].
  eexists _, answer. split; [exists resolver, 0; split; [done|]|].
  - (* the lookup sends its request and receives the response *)
    eapply step_then; [apply shared_lookup, (lookup_miss _ _ _ _ _ sample_name lookup_all sample_name
      None u); [reflexivity|reflexivity|reflexivity|exact Hu]|].
    eapply step_then; [apply shared_lookup;
      apply (lookup_received _ _ _ _ _ 0 sample_name lookup_all u [] [] server made headers body answer);
      [reflexivity|exact Hr|exact Hd]|].
    (* a publication of the name runs from beginning to end *)
    eapply step_then; [apply shared_publish; eapply publish_send; exact Hp|].
    eapply step_then; [apply shared_publish; eapply (publish_done _ _ _ _ _ sample_name false []
      [Store 0 sample_name lookup_all answer] (@mkResponse HeaderModel.headers 200 [] [])); reflexivity|].
    (* the answer is stored and served to another lookup *)
    eapply step_then; [apply shared_lookup, (lookup_store _ _ _ _ _ 0 sample_name lookup_all answer [] []);
      reflexivity|].
    eapply step_then; [apply shared_lookup, (lookup_hit _ _ _ _ _ sample_name lookup_all sample_name None
      (mkCachedAnswer (answer_candidates answer) (0 + answer_ttl answer)));
      [reflexivity|reflexivity| |exact Httl]|reflexivity].
    cbn. unfold insert. rewrite (proj2 (Z.eqb_neq _ _)) by lia. cbn [negb positive].
    rewrite map_get_insert. by rewrite bool_decide_true.
  - split; reflexivity.
Qed.
End RaceModel.

(** ** Properties *)

(** C16: the cache of a resolver that is used concurrently only serves live answers.
    However lookups, publications, clearing, expiry and cancellation interleave, an
    answer served from the cache was decoded from the response to a request for the
    same key, was stored less than its lifetime ago, and is the last one that was
    stored for the key since; if the name was published in between, it was stored
    after the publication returned.  A lookup that runs alone is such an
    interleaving. *)
Theorem concurrent_hits `{Certificates} `{Nom} `{BufMut} `{Bitfield} `{Crypto}
    `{CertificateParsers} `{Sha256} `{HeaderApi} `{UrlApi} `{DhttpEndpoint} {Source}
    (extract : bytes -> option CertificateChainKey)
    (dquic_addr : Dquic.EndpointAddr -> SocketAddr)
    (dns_name_ok : bytes -> bool) (h3_source : Url -> Source)
    (authority_name : LocalAuthority -> bytes)
    (extract_chain : list bytes -> Result CertificateChainKey bytes)
    (valid_name : bytes -> bool) (instant_ok : Z -> bool)
    (s : Shared) (later earlier : list Event) (key : LookupKey) (cs : EndpointCandidates Source) (now : Z) :
  shared_reachable extract dquic_addr dns_name_ok h3_source authority_name extract_chain valid_name
    instant_ok s ->
  shared_log s = later ++ Hit key cs now :: earlier ->
  (exists id answer time l1 l2, earlier = l1 ++ Inserted id key answer time :: l2
     /\ Sent id key ∈ l2 /\ Received id answer ∈ l2
     /\ answered extract dquic_addr h3_source (server_origin (shared_self s)) key cs
     /\ answer_candidates answer = cs /\ time <= now < time + answer_ttl answer
     /\ (forall id' answer' time', Inserted id' key answer' time' ∈ l1 -> answer_ttl answer' = 0)
     /\ forall name l3 l4, earlier = l3 ++ Invalidated name :: l4 ->
          eq_ignore_ascii_case (key_name key) (trim_end_matches dot name) = true ->
          exists id', Inserted id' key answer time ∈ l3)
  /\ forall name requested until net made self' r, shared_now s <= until ->
       lookup_candidates extract dquic_addr dns_name_ok h3_source (shared_self s) name requested
         (shared_now s) until net = (made, self', Some r) ->
       exists s', rtc (shared_step extract dquic_addr dns_name_ok h3_source authority_name
                         extract_chain valid_name instant_ok) s s' /\ shared_self s' = self'.
Proof.
  intros Hr Hlog. split.
  - apply shared_reachable_ok in Hr as [_ _ Hh].
    eapply hits_ok_at in Hh as (answer & time & Hj & <- & Ht); [|exact Hlog].
    pose proof Hj as (id & l1 & l2 & He & Hs & Hrec & Hk & Ha).
    exists id, answer, time, l1, l2. split_and!; [done|done|done|done|done|apply Ht|apply Ht| |].
    + intros id' answer' time' Hin. rewrite Forall_forall in Hk. by apply (Hk _ Hin).
    + intros name l3 l4 -> Hn. by eapply justified_after.
  - intros name requested until net made self' r Hu Hl.
    eapply lookup_run in Hl as (s' & R & Hs & _); [|exact Hu]. by exists s'.
Qed.

Example concurrent_hits_witness : exists (s : RaceModel.State) answer,
  RaceModel.reachable_state s /\ shared_log s = RaceModel.race_log answer
  /\ exists id, Inserted id RaceModel.key answer 0 ∈ ([Inserted 0 RaceModel.key answer 0] : RaceModel.Log).
Proof.
  destruct RaceModel.race_run as (s & answer & Hr & Hlog & _). exists s, answer.
  split; [exact Hr|]. split; [exact Hlog|].
  destruct (concurrent_hits _ _ _ _ _ _ _ _ s [] _ RaceModel.key _ _ Hr Hlog)
    as [(id & answer' & time & l1 & l2 & He & _ & _ & _ & _ & _ & _ & Hp) _].
  destruct (Hp sample_name [Inserted 0 RaceModel.key answer 0] _ eq_refl eq_refl) as [id' Hin].
  apply list_elem_of_singleton in Hin as [= -> -> ->]. exists 0%nat. left.
Defined.

(** C38: a publication does not keep an older answer from being cached.  A lookup whose
    response arrives before a publication of the name is sent may store its answer
    after the publication has returned and invalidated the name; a lookup that
    starts then is served the older answer from the cache, until it expires. *)
Theorem stale_after_publish : exists (s : RaceModel.State) answer,
  RaceModel.reachable_state s /\ shared_tasks s = []
  /\ shared_log s
     = [Hit RaceModel.key (answer_candidates answer) 0; Inserted 0 RaceModel.key answer 0;
        Invalidated sample_name; Posted sample_name; Received 0 answer; Sent 0 RaceModel.key]
  /\ eq_ignore_ascii_case (key_name RaceModel.key) (trim_end_matches dot sample_name) = true.
Proof.
  destruct RaceModel.race_run as (s & answer & Hr & Hlog & Ht). exists s, answer. by split_and!.
Qed.
