(* ===== verification/HttpClient.v ===== *)
(** * The HTTP resolver: src/http.rs

    The same lookups over an ordinary HTTP client: one request within nine
    seconds and a cache of its own.  The main result relates it to the HTTP/3
    resolver: both give the same answer to the same response. *)

From stdpp Require Import base list numbers option sets.
From S2P Require Import Prelude Nom RustString Sigin Certificate Endpoint Signature Wire Candidates Publish Cache Lookup H3Client.

Definition REQUEST_TIMEOUT : Z := from_secs 9.

Module HttpLookupError.
Inductive t :=
| Request (source : bytes)
| Timeout (timeout : Z)
| ResponseTooLarge (limit : Z)
| Status (status : Z)
| Decode (source : LookupDecodeError.t)
| NoRecordFound
| NoUsableRecord.
End HttpLookupError.

Definition http_map_semantic_error (error : LookupSemanticError) : HttpLookupError.t :=
  match error with
  | Decode source => HttpLookupError.Decode source
  | NoRecordFound => HttpLookupError.NoRecordFound
  | NoUsableRecord => HttpLookupError.NoUsableRecord
  end.

Record HttpResponse `{H : HeaderApi} := mkHttpResponse {
  http_status : Z;
  http_headers : HeaderMap;
  http_chunks : list (Result bytes bytes);
}.

(** The loop over the chunks of the body. *)
Fixpoint read_chunks (chunks : list (Result bytes bytes)) (acc : bytes)
  : Result bytes HttpLookupError.t :=
  match chunks with
  | [] => Ok acc
  | Err source :: _ => Err (HttpLookupError.Request source)
  | Ok chunk :: chunks =>
      if Z.max 0 (MAX_LOOKUP_RESPONSE_BYTES - blen acc) <? blen chunk
      then Err (HttpLookupError.ResponseTooLarge MAX_LOOKUP_RESPONSE_BYTES)
      else read_chunks chunks (acc ++ chunk)
  end.

(** [fetch]; the argument is the outcome of sending the request. *)
Definition fetch `{HeaderApi} (r : Result HttpResponse bytes)
  : Result (HeaderMap * bytes) HttpLookupError.t :=
  let? response := result_map_err HttpLookupError.Request r in
  if http_status response =? 200 then
    let? body := read_chunks (http_chunks response) [] in
    Ok (http_headers response, body)
  else if http_status response =? 404 then Err HttpLookupError.NoRecordFound
  else Err (HttpLookupError.Status (http_status response)).

Section Resolver.
Context `{C : Certificates} `{N : Nom} `{K : Crypto} `{P : CertificateParsers} `{S : Sha256}.
Context `{H : HeaderApi} `{U : UrlApi} {Source : Type}.
Context (extract : bytes -> option CertificateChainKey).
Context (dquic_addr : Dquic.EndpointAddr -> SocketAddr).
Context (dns_name_ok : bytes -> bool) (http_source : Url -> Source).

(** The keys and entries of the cache have the fields of those of the HTTP/3 cache. *)
Record HttpResolver := mkHttpResolver {
  http_origin : Url;
  http_cache : list (LookupKey * CachedAnswer Source);
}.

Inductive BuildHttpResolverError :=
| InvalidOrigin (source : InvalidServerOrigin)
| NoUsableTrustRoots
| BuildClient (source : bytes).

(** [build_http_client]: [valid] is the number of native root certificates that could
    be parsed, [build] the outcome of building the client with them. *)
Definition build_http_client (valid : Z) (build : Result unit bytes)
  : Result unit BuildHttpResolverError :=
  if valid =? 0 then Err NoUsableTrustRoots else result_map_err BuildClient build.

Definition HttpResolver_new (origin : Url) (valid : Z) (build : Result unit bytes)
  : Result HttpResolver BuildHttpResolverError :=
  let? _ := result_map_err InvalidOrigin (validate_server_origin origin false) in
  let? _ := build_http_client valid build in
  Ok (mkHttpResolver origin []).

Definition http_clear_cache (self : HttpResolver) : HttpResolver :=
  mkHttpResolver (http_origin self) [].

(** [net] is the outcome of the request, or [None] when it takes too long. *)
Definition http_lookup_candidates (self : HttpResolver) (name : bytes) (requested : EndpointLookup)
    (now later : Z) (net : Url -> option (Result HttpResponse bytes))
  : list Url * HttpResolver * may_panic (Result (EndpointCandidates Source) HttpLookupError.t) :=
  match endpoint_lookup_name_and_sequence dns_name_ok name with
  | None => ([], self, Some (Err HttpLookupError.NoRecordFound))
  | Some (name, legacy_sequence) =>
      let lookup := exact_override requested legacy_sequence in
      let key := mkLookupKey (to_ascii_lowercase (trim_end_matches dot name)) lookup in
      let found := map_get (http_cache self) key in
      let fresh := match found with
                   | Some answer => if now <? expires_at answer then Some answer else None
                   | None => None
                   end in
      match fresh with
      | Some answer => ([], self, Some (Ok (candidates answer)))
      | None =>
          let self := match found with
                      | Some _ => mkHttpResolver (http_origin self) (map_remove (http_cache self) key)
                      | None => self
                      end in
          match lookup_url (http_origin self) name lookup with
          | None => ([], self, None)
          | Some url =>
              match net url with
              | None => ([url], self, Some (Err (HttpLookupError.Timeout REQUEST_TIMEOUT)))
              | Some sent =>
                  match fetch sent with
                  | Err error => ([url], self, Some (Err error))
                  | Ok (headers, body) =>
                      match decode_lookup_response extract dquic_addr name lookup
                              (http_source (http_origin self)) headers body with
                      | None => ([url], self, None)
                      | Some (Err error) =>
                          ([url], self, Some (Err (http_map_semantic_error error)))
                      | Some (Ok answer) =>
                          let cs := answer_candidates answer in
                          let self :=
                            if negb (answer_ttl answer =? 0)
                            then mkHttpResolver (http_origin self)
                                   (map_insert (http_cache self) key
                                      (mkCachedAnswer cs (later + answer_ttl answer)))
                            else self in
                          ([url], self, Some (Ok cs))
                      end
                  end
              end
          end
      end
  end.

(** [HttpResolver::lookup]. *)
Definition http_lookup (self : HttpResolver) (hostname : bytes) (f : option Family)
    (now later : Z) (net : Url -> option (Result HttpResponse bytes))
  : list Url * HttpResolver
    * may_panic (Result (list (Source * Dquic.EndpointAddr)) HttpLookupError.t) :=
  let '(made, self, r) :=
    http_lookup_candidates self hostname
      (with_family (mkEndpointLookup DefaultSequences None None) f) now later net in
  (made, self,
   cs ← r;
   match cs with
   | Err e => Some (Err e)
   | Ok cs => Some (Ok (List.concat (map (fun g =>
                map (fun e => (http_source (http_origin self), e)) (endpoints g)) (groups cs))))
   end).
End Resolver.

(** ** Comparison with the HTTP/3 resolver *)

(** The same response over HTTP/3. *)
Definition h3_response `{H : HeaderApi} (r : HttpResponse) : Response :=
  mkResponse (http_status r) (http_headers r)
    (map (fun c => match c with Ok d => Ok (FrameData d) | Err e => Err e end) (http_chunks r)).

(** The error of the HTTP resolver that corresponds to one of the HTTP/3 resolver. *)
Definition to_http (e : H3LookupError.t) : HttpLookupError.t :=
  match e with
  | H3LookupError.InvalidName | H3LookupError.NoRecordFound => HttpLookupError.NoRecordFound
  | H3LookupError.Request source | H3LookupError.Body source => HttpLookupError.Request source
  | H3LookupError.Timeout _ _ => HttpLookupError.Timeout REQUEST_TIMEOUT
  | H3LookupError.ResponseTooLarge limit => HttpLookupError.ResponseTooLarge limit
  | H3LookupError.Status status => HttpLookupError.Status status
  | H3LookupError.Decode source => HttpLookupError.Decode source
  | H3LookupError.NoUsableRecord => HttpLookupError.NoUsableRecord
  end.

Lemma read_chunks_frames `{HeaderApi} chunks : forall acc,
  read_chunks chunks acc
  = result_map_err (fun e => match e with
      | BodyFailed source => HttpLookupError.Request source
      | BodyTooLarge => HttpLookupError.ResponseTooLarge MAX_LOOKUP_RESPONSE_BYTES
      end)
      (read_body_limited (map (fun c => match c with Ok d => Ok (FrameData d) | Err e => Err e end)
         chunks) MAX_LOOKUP_RESPONSE_BYTES acc).
Proof.
  induction chunks as [|[d|e] chunks IH]; intros acc; cbn [read_chunks map read_body_limited]; [done| |done].
  destruct (_ <? blen d); [done|apply IH].
Qed.

Lemma fetch_lookup_response `{H : HeaderApi} (r : HttpResponse) :
  fetch (Ok r) = result_map_err to_http (lookup_response (Ok (h3_response r))).
Proof.
  unfold fetch, lookup_response. cbn [result_map_err h3_response status body response_headers].
  destruct (http_status r =? 200); [|by destruct (http_status r =? 404)].
  rewrite read_chunks_frames. by destruct (read_body_limited _ _ _) as [|[]].
Qed.

(** ** Properties *)

(** C27: both HTTP resolvers implement the same lookup.  With the same origin, cache
    and time, and the same response whose transport succeeds, the HTTP resolver
    and the HTTP/3 resolver return the same candidates or corresponding errors
    and leave the same cache, unless the name is the host of the origin, which
    only the HTTP/3 resolver refuses. *)
Theorem http_h3_agree `{Certificates} `{Nom} `{Crypto} `{CertificateParsers} `{Sha256}
    `{HeaderApi} `{UrlApi} `{DhttpEndpoint} {Source}
    (extract : bytes -> option CertificateChainKey)
    (dquic_addr : Dquic.EndpointAddr -> SocketAddr)
    (dns_name_ok : bytes -> bool) (source : Url -> Source) (origin : Url)
    (endpoint : option Endpoint) (entries : list (LookupKey * CachedAnswer Source))
    (name : bytes) (requested : EndpointLookup) (now later : Z) (r : HttpResponse) :
  let http := mkHttpResolver origin entries in
  let h3 := mkH3Resolver origin endpoint (mkLookupCache entries) in
  (forall host seq, endpoint_lookup_name_and_sequence dns_name_ok name = Some (host, seq) ->
     is_own_origin h3 host = false) ->
  transient (Completed (Ok (h3_response r))) = false ->
  let '(_, http', result) := http_lookup_candidates extract dquic_addr dns_name_ok source http name
                               requested now later (fun _ => Some (Ok r)) in
  let '(_, h3', result') := lookup_candidates extract dquic_addr dns_name_ok source h3 name
                              requested now later (fun _ _ => Completed (Ok (h3_response r))) in
  result = option_map (result_map_err to_http) result'
  /\ http_cache http' = positive (cache h3').
Proof.
  intros http h3 Hown Htr. unfold http_lookup_candidates, lookup_candidates.
  destruct (endpoint_lookup_name_and_sequence dns_name_ok name) as [[host seq]|]; [|done].
  rewrite (Hown host seq eq_refl). subst http h3. unfold get.
  cbn [http_cache cache positive http_origin].
  fold (LookupKey_new host (exact_override requested seq)).
  set (lookup := exact_override requested seq). set (key := LookupKey_new host lookup).
  destruct (map_get entries key) as [a|]; [destruct (now <? expires_at a); [done|]|].
  all: cbn [with_cache server_origin cache positive http_origin http_cache].
  all: destruct (lookup_url origin host lookup) as [url|]; [|done].
  all: rewrite retry_spec, Htr; cbv zeta beta iota; cbn [outcome].
  all: rewrite fetch_lookup_response.
  all: destruct (lookup_response _) as [[headers b]|e]; cbn [result_map_err]; [|done].
  all: destruct (decode_lookup_response _ _ host lookup _ headers b) as [[answer|[]]|]; [|done..].
  all: unfold insert; by destruct (answer_ttl answer =? 0).
Qed.

Example http_h3_agree_witness :
  let http := mkHttpResolver (C := CertModel.certificates) (U := ClientModel.url) (Source := unit)
                ClientModel.origin [] in
  let r := mkHttpResponse HeaderModel.headers 404 [] [] in
  let '(_, http', result) :=
    http_lookup_candidates (N := NomModel.nom) (K := CryptoModel.crypto) (P := TextModel.parsers)
      (S := TextModel.digest) (fun _ => None) ClientModel.addr_of (fun _ => true) (fun _ => tt) http
      sample_name lookup_all 0 1 (fun _ => Some (Ok r)) in
  let '(_, h3', result') :=
    lookup_candidates (N := NomModel.nom) (K := CryptoModel.crypto) (P := TextModel.parsers)
      (S := TextModel.digest) (fun _ => None) ClientModel.addr_of (fun _ => true) (fun _ => tt)
      ClientModel.resolver sample_name lookup_all 0 1 (fun _ _ => Completed (Ok (h3_response r))) in
  result = option_map (result_map_err to_http) result'
  /\ http_cache http' = positive (cache h3').
Proof.
  intros http r.
  apply (http_h3_agree (fun _ => None) ClientModel.addr_of (fun _ => true) (fun _ => tt)
    ClientModel.origin (Some ClientModel.identity) [] sample_name lookup_all 0 1 r); [|reflexivity].
  intros host seq Hh. injection Hh as <- _. reflexivity.
Defined.
