(* ===== verification/MdnsService.v ===== *)
(** * The mDNS resolver of one interface: src/mdns/service.rs and the socket and query
    operations of src/mdns/protocol.rs

    A resolver keeps the endpoints of its hosts, answers queries about them and
    queries its peers.  Datagrams, the three rounds of a query and the order in
    which the [HashMap] of hosts is traversed are arguments. *)

From stdpp Require Import base list gmap numbers option sets.
From S2P Require Import Prelude Nom RustString DnsName DnsHeader Question Certificate Endpoint Records Packet MdnsRouter.

Definition MULTICAST_PORT : Z := 5353.
Definition MULTICAST_ADDR_V4 : Z := 0xE00000FB.
Definition MULTICAST_ADDR_V6 : Z := 0xff0200000000000000000000000000fb.

(** [str::contains] with a string. *)
Fixpoint contains (needle l : bytes) : bool :=
  starts_with needle l || match l with [] => false | _ :: l => contains needle l end.

Definition socket_ip (a : SocketAddr) : IpAddr :=
  match a with V4 a => IpV4 (v4_ip a) | V6 a => IpV6 (v6_ip a) end.

Global Instance IpAddr_eq_dec : EqDecision IpAddr.
Proof. solve_decision. Defined.

(** ** The socket *)

(** What [recv_from] returns: a datagram and its source, or an error. *)
Abbreviation Datagram := (Result (SocketAddr * bytes) bytes).

Section Socket.
Context `{C : Certificates} `{N : Nom} `{B : BufMut}.

(** [MdnsSocket::receive] on what the socket returns, in order: a datagram is cut
    to the buffer of one byte more than the limit, and skipped when it fills it or
    does not parse; an error is returned.  The result is the first packet or error
    with what comes after it, and [None] as long as the loop waits. *)
Fixpoint receive (datagrams : list Datagram)
  : option (Result (SocketAddr * Packet) bytes * list Datagram) :=
  match datagrams with
  | [] => None
  | Err error :: datagrams => Some (Err error, datagrams)
  | Ok (source, data) :: datagrams =>
      let recv_buffer := take (Z.to_nat (MAX_MDNS_DNS_MESSAGE_LEN + 1)) data in
      if MAX_MDNS_DNS_MESSAGE_LEN <? blen recv_buffer then receive datagrams
      else match be_packet recv_buffer with
           | Err _ => receive datagrams
           | Ok (_, packet) => Some (Ok (source, packet), datagrams)
           end
  end.

(** [broadcast_packet]: the datagram that is handed to [send_to] and the result;
    [local_addr] and [send_to] are what the socket returns. *)
Definition broadcast_packet (local_addr : Result IpAddr bytes)
    (send_to : bytes -> SocketAddr -> Result unit bytes) (packet : Packet)
  : may_panic (option (bytes * SocketAddr) * Result unit bytes) :=
  buf ← to_bytes packet;
  match local_addr with
  | Err error => Some (None, Err error)
  | Ok local =>
      let target := match local with
                    | IpV4 _ => V4 (mkSocketAddrV4 MULTICAST_ADDR_V4 MULTICAST_PORT)
                    | IpV6 _ => V6 (mkSocketAddrV6 MULTICAST_ADDR_V6 MULTICAST_PORT 0 0)
                    end in
      Some (Some (buf, target), send_to buf target)
  end.
End Socket.

(** ** Queries *)
(** The errors of a query, kinds of [io::Error] in the source. *)
Inductive query_error := Disconnected | InvalidInput_id | TimedOut_query | ShutDown | EmptyResult.

Section Query.
Context `{C : Certificates} `{F : Bitfield}.

(** The endpoints of a response for the queried name. *)
Definition response_endpoints (local_name : bytes) (packet : Packet) : list EndpointAddr :=
  omap (fun answer => match rr_data answer with RData.E e => Some e | _ => None end)
    (List.filter (fun answer => bool_decide (rr_name answer = local_name)) (answers packet)).

(** A round of 300 ms: it times out, the stream ends, or a response arrives. *)
Inductive Round := RoundTimeout | RoundEnded | RoundResponse (source : SocketAddr) (p : Packet).

Fixpoint query_rounds (local_name : bytes) (rounds : list Round)
  : Result (SocketAddr * list EndpointAddr) query_error :=
  match rounds with
  | [] => Err TimedOut_query
  | RoundResponse source p :: rounds =>
      match response_endpoints local_name p with
      | [] => query_rounds local_name rounds
      | eps => Ok (source, eps)
      end
  | _ :: rounds => query_rounds local_name rounds
  end.

(** [MdnsProtocol::query]: the rounds are those of [for _ in 0..3]. *)
Definition protocol_query (router_alive : bool) (rand_id : Z) (local_name : bytes)
    (rounds : list Round) : Result (SocketAddr * list EndpointAddr) query_error :=
  if negb router_alive then Err Disconnected
  else
    let packet := query_with_id rand_id local_name in
    if packet_id packet =? 0 then Err InvalidInput_id
    else query_rounds local_name (take 3 rounds).
End Query.

(** ** The resolver; [DHTTP_SUFFIX] is a constant of [dhttp_home] *)
Section Service.
Context `{C : Certificates} `{F : Bitfield} (DHTTP_SUFFIX : bytes).

Record MdnsResolver := mkMdnsResolver {
  service_name : bytes;
  device : bytes;
  ip : IpAddr;
  hosts : gmap (list Z) (list EndpointAddr);
  proto : bool;
}.

Definition local_name (service name : bytes) : bytes :=
  match strip_suffix DHTTP_SUFFIX name with
  | Some prefix => prefix ++ [dot] ++ service
  | None => name
  end.

Definition with_hosts (self : MdnsResolver) (h : gmap (list Z) (list EndpointAddr)) : MdnsResolver :=
  mkMdnsResolver (service_name self) (device self) (ip self) h (proto self).

Definition insert_host (self : MdnsResolver) (host_name : bytes) (eps : list EndpointAddr)
  : MdnsResolver :=
  with_hosts self (<[local_name (service_name self) host_name := eps]> (hosts self)).

Definition remove_host (self : MdnsResolver) (host_name : bytes) : MdnsResolver :=
  with_hosts self (delete (local_name (service_name self) host_name) (hosts self)).

(** [slice.swap(0, index)]. *)
Definition swap_first {A} (l : list A) (index : nat) : list A :=
  match l !! 0%nat, l !! index with
  | Some x, Some y => <[index := x]> (<[0%nat := y]> l)
  | _, _ => l
  end.

Fixpoint position {A} (f : A -> bool) (l : list A) : option nat :=
  match l with
  | [] => None
  | x :: l => if f x then Some 0%nat else option_map S (position f l)
  end.

(** [MdnsResolver::query]; [rounds] is what the network does for the local name. *)
Definition mdns_query (self : MdnsResolver) (router_alive : bool) (rand_id : Z) (domain : bytes)
    (rounds : bytes -> list Round) : Result (list EndpointAddr) query_error :=
  if negb (proto self) then Err ShutDown
  else
    let domain := to_ascii_lowercase (trim_end_matches dot domain) in
    let local := local_name (service_name self) domain in
    let? (source, eps) := protocol_query router_alive rand_id local (rounds local) in
    let eps := match position (fun e => bool_decide (socket_ip (addr e) = socket_ip source)) eps with
               | Some index => swap_first eps index
               | None => eps
               end in
    match eps with [] => Err EmptyResult | _ => Ok eps end.

(** The responder: [order] is the table of hosts as it is traversed. *)
Definition respond (service : bytes) (order : list (bytes * list EndpointAddr)) (query : Packet)
  : option Packet :=
  let local_names := map (fun '(name, _) => local_name service name) order in
  if existsb (fun question => existsb (contains (q_name question)) local_names) (questions query)
  then Some (answer (packet_id query) order) else None.

(** [MdnsResolver::new]; [proto_new] is the outcome of [MdnsProtocol::new]. *)
Definition MdnsResolver_new (service device : bytes) (ip : IpAddr)
    (proto_new : bytes -> IpAddr -> Result unit bytes) : Result MdnsResolver bytes :=
  let? _ := proto_new device ip in
  Ok (mkMdnsResolver service device ip ∅ true).

(** What [join_next] returns for a task that was aborted. *)
Inductive JoinResult := Finished | Cancelled | Panicked (error : bytes).

Fixpoint join_all (results : list JoinResult) : Result unit bytes :=
  match results with
  | [] => Ok tt
  | Panicked error :: _ => Err error
  | _ :: results => join_all results
  end.

(** [shutdown_tasks]: the protocol is taken, so that only the first call joins the
    tasks; [results] is what they return. *)
Definition shutdown_tasks (self : MdnsResolver) (results : list JoinResult)
  : MdnsResolver * Result unit bytes :=
  if negb (proto self) then (self, Ok tt)
  else (mkMdnsResolver (service_name self) (device self) (ip self) (hosts self) false,
        join_all results).
End Service.

(** ** Facts *)
Lemma starts_with_refl l : starts_with l l = true.
Proof. rewrite <- (app_nil_r l) at 2. apply starts_with_app. Qed.

Lemma contains_refl l : contains l l = true.
Proof. destruct l; cbn [contains]; by rewrite starts_with_refl. Qed.

Section SocketFacts.
Context `{C : Certificates} `{N : Nom}.

(** A datagram within the limit that parses is received. *)
Lemma receive_ok source data rest packet datagrams :
  blen data <= MAX_MDNS_DNS_MESSAGE_LEN -> be_packet data = Ok (rest, packet) ->
  receive (Ok (source, data) :: datagrams) = Some (Ok (source, packet), datagrams).
Proof.
  intros Hl Hp. cbn [receive]. rewrite take_ge by (unfold blen, MAX_MDNS_DNS_MESSAGE_LEN in *; lia).
  by rewrite (proj2 (Z.ltb_ge _ _) Hl), Hp.
Qed.

(** The packet of a datagram, when it is received. *)
Definition accepted_packet (d : Datagram) : option (SocketAddr * Packet) :=
  match d with
  | Err _ => None
  | Ok (source, data) =>
      if MAX_MDNS_DNS_MESSAGE_LEN <? blen data then None
      else '(_, packet) ← result_ok (be_packet data); Some (source, packet)
  end.

Lemma receive_cons d datagrams :
  receive (d :: datagrams)
  = match d with
    | Err error => Some (Err error, datagrams)
    | Ok _ => match accepted_packet d with
              | Some m => Some (Ok m, datagrams)
              | None => receive datagrams
              end
    end.
Proof.
  destruct d as [[source data]|error]; [|done]. cbn [receive accepted_packet].
  set (buf := take _ data). destruct (Z.ltb_spec MAX_MDNS_DNS_MESSAGE_LEN (blen data)) as [Hl|Hl].
  - rewrite (proj2 (Z.ltb_lt _ _)); [done|]. unfold buf, blen, MAX_MDNS_DNS_MESSAGE_LEN in *.
    rewrite length_take. lia.
  - assert (buf = data) as -> by (apply take_ge; unfold blen, MAX_MDNS_DNS_MESSAGE_LEN in *; lia).
    rewrite (proj2 (Z.ltb_ge _ _) Hl). by destruct (be_packet data) as [[r p]|].
Qed.
End SocketFacts.

Section QueryFacts.
Context `{C : Certificates}.

Lemma position_spec {A} (f : A -> bool) l :
  match position f l with
  | Some i => exists x, l !! i = Some x /\ f x = true
  | None => Forall (fun x => f x = false) l
  end.
Proof.
  induction l as [|x l IH]; cbn [position]; [constructor|]. destruct (f x) eqn:Hf; [by exists x|].
  destruct (position f l); cbn [option_map]; [done|by constructor].
Qed.

Lemma swap_first_spec {A} (l : list A) i y :
  l !! i = Some y -> swap_first l i ≡ₚ l /\ head (swap_first l i) = Some y.
Proof.
  destruct l as [|x l]; [done|]. unfold swap_first. cbn [lookup list_lookup].
  destruct i as [|i]; cbn [lookup list_lookup]; [by intros [= ->]|]. intros Hi.
  rewrite Hi. change (<[S i := x]> (<[0%nat := y]> (x :: l))) with (y :: <[i := x]> l).
  split; [|done].
  rewrite <- (take_drop_middle l i y Hi) at 2.
  rewrite insert_take_drop by (by eapply lookup_lt_Some).
  rewrite <- !Permutation_middle. apply perm_swap.
Qed.

Lemma query_rounds_ok local rounds source eps :
  query_rounds local rounds = Ok (source, eps) ->
  exists p, RoundResponse source p ∈ rounds /\ eps = response_endpoints local p /\ eps <> [].
Proof.
  induction rounds as [|[| |src p] rounds IH]; cbn [query_rounds]; try done.
  - intros (p & Hp & H)%IH. exists p. split; [by right|done].
  - intros (p & Hp & H)%IH. exists p. split; [by right|done].
  - destruct (response_endpoints local p) as [|e es] eqn:E.
    + intros (q & Hq & H)%IH. exists q. split; [by right|done].
    + intros [= <- <-]. exists p. rewrite E. split; [by left|done].
Qed.
End QueryFacts.

Section ExchangeFacts.
Context `{C : Certificates}.

Lemma filter_all_false {A} (f : A -> bool) l : (forall x, x ∈ l -> f x = false) -> List.filter f l = [].
Proof.
  induction l as [|x l IH]; intros Hf; [done|]. cbn [List.filter]. rewrite Hf by left.
  apply IH. intros y Hy. apply Hf. by right.
Qed.

(** The endpoints of the records of one host. *)
Lemma host_endpoints local n es :
  omap (fun a => match rr_data a with RData.E e => Some e | _ => None end)
    (List.filter (fun a => bool_decide (rr_name a = local))
       (map canonical_record (map (answer_record n) es)))
  = if bool_decide (canonical_name n = local) then map wire_endpoint es else [].
Proof.
  rewrite map_map. case_bool_decide as Hl.
  - rewrite filter_none.
    + induction es as [|e es IH]; [done|]. cbn [map omap list_omap] in *. cbn. by rewrite <- IH.
    + intros a Ha. apply list_elem_of_In, in_map_iff in Ha as (e & <- & _). cbn.
      by rewrite bool_decide_true.
  - rewrite filter_all_false; [done|].
    intros a Ha. apply list_elem_of_In, in_map_iff in Ha as (e & <- & _). cbn.
    by rewrite bool_decide_false.
Qed.

(** The endpoints for a name in the answer for some hosts. *)
Definition endpoints_in (local : bytes) (order : list (bytes * list EndpointAddr)) :=
  omap (fun a => match rr_data a with RData.E e => Some e | _ => None end)
    (List.filter (fun a => bool_decide (rr_name a = local))
       (map canonical_record (answer_records order))).

Lemma endpoints_in_cons local n es order :
  canonical_name n = n ->
  endpoints_in local ((n, es) :: order)
  = (if bool_decide (n = local) then map wire_endpoint es else []) ++ endpoints_in local order.
Proof.
  intros Hn. unfold endpoints_in, answer_records. cbn [map List.concat].
  by rewrite map_app, List.filter_app, omap_app, host_endpoints, Hn.
Qed.

(** The endpoints of the hosts whose name is read back as [local]. *)
Definition hosted_as (local : bytes) (order : list (bytes * list EndpointAddr)) : list EndpointAddr :=
  flat_map (fun '(n, es) => if bool_decide (canonical_name n = local) then es else []) order.

Lemma endpoints_hosted local order :
  endpoints_in local order = map wire_endpoint (hosted_as local order).
Proof.
  induction order as [|[n es] order IH]; [done|]. unfold endpoints_in, answer_records in *.
  cbn [map List.concat hosted_as flat_map]. rewrite !map_app, List.filter_app, omap_app, host_endpoints, IH.
  f_equal. by case_bool_decide.
Qed.

Lemma hosted_as_perm local order order' : order ≡ₚ order' -> hosted_as local order ≡ₚ hosted_as local order'.
Proof. intros Hp. unfold hosted_as. by rewrite Hp. Qed.

Lemma hosted_as_elem local n es order :
  (n, es) ∈ order -> canonical_name n = local -> es ⊆ hosted_as local order.
Proof.
  intros Hin Hn e He. apply list_elem_of_In, in_flat_map. exists (n, es).
  split; [by apply list_elem_of_In|]. rewrite bool_decide_true by done. by apply list_elem_of_In.
Qed.

Lemma endpoints_in_absent local order :
  Forall (fun '(n, _) => canonical_name n = n) order -> local ∉ map fst order ->
  endpoints_in local order = [].
Proof.
  induction 1 as [|[n es] order Hn _ IH]; intros Hout; [done|].
  cbn [map fst] in Hout. apply not_elem_of_cons in Hout as [Hne Hout].
  by rewrite endpoints_in_cons, bool_decide_false, IH.
Qed.

Lemma endpoints_in_present local eps order :
  NoDup (map fst order) -> Forall (fun '(n, _) => canonical_name n = n) order ->
  (local, eps) ∈ order -> endpoints_in local order = map wire_endpoint eps.
Proof.
  intros Hnd Hcan. induction Hcan as [|[n es] order Hn Hcan IH]; intros Hin;
    [by apply not_elem_of_nil in Hin|].
  cbn [map fst] in Hnd. apply list.NoDup_cons in Hnd as [Hout Hnd].
  rewrite endpoints_in_cons by done. apply elem_of_cons in Hin as [[= <- <-]|Hin].
  - rewrite bool_decide_true, endpoints_in_absent by done. apply app_nil_r.
  - rewrite bool_decide_false; [by apply IH|]. intros ->. apply Hout.
    apply list_elem_of_In, in_map_iff. exists (local, eps). split; [done|]. by apply list_elem_of_In.
Qed.
End ExchangeFacts.

Section TableFacts.
Context `{C : Certificates}.

(** The names and endpoints of a table can be written to a message. *)
Definition host_ok (n : bytes) (es : list EndpointAddr) : Prop :=
  name_ok n /\ Forall (fun e => endpoint_ok e /\ blen (endpoint_bytes e) < 0x10000) es.

Definition host_table_ok (table : gmap (list Z) (list EndpointAddr)) : Prop :=
  map_Forall (fun n es => host_ok n es /\ canonical_name n = n) table.

Lemma table_order_ok (table : gmap (list Z) (list EndpointAddr)) order n es :
  order ≡ₚ map_to_list table -> host_table_ok table -> table !! n = Some es ->
  (n, es) ∈ order /\ NoDup (map fst order)
  /\ Forall (fun '(n, _) => canonical_name n = n) order
  /\ Forall (fun '(n, es) => host_ok n es) order.
Proof.
  intros Hord Htab Hn. split; [rewrite Hord; by apply elem_of_map_to_list|]. split.
  { change (map fst order) with (order.*1). rewrite Hord. apply NoDup_fst_map_to_list. }
  split; apply Forall_forall; intros [k v]; rewrite Hord; intros Hk%elem_of_map_to_list%Htab;
    apply Hk.
Qed.

Lemma order_ok_elem order n es :
  Forall (fun '(n, es) => host_ok n es) order ->
  Forall (fun '(n, _) => canonical_name n = n) order -> (n, es) ∈ order ->
  name_ok n /\ canonical_name n = n.
Proof.
  rewrite !Forall_forall. intros H1 H2 Hin. specialize (H1 _ Hin). specialize (H2 _ Hin).
  split; [apply H1|apply H2].
Qed.
End TableFacts.

(** The result of a query comes from one response. *)
Lemma mdns_query_ok `{Certificates} `{Bitfield} (DHTTP_SUFFIX : bytes) (self : MdnsResolver)
    (router_alive : bool) (rand_id : Z) (domain : bytes) (rounds : bytes -> list Round)
    (eps : list EndpointAddr) :
  mdns_query DHTTP_SUFFIX self router_alive rand_id domain rounds = Ok eps ->
  let local := local_name DHTTP_SUFFIX (service_name self)
                 (to_ascii_lowercase (trim_end_matches dot domain)) in
  proto self = true /\ router_alive = true /\ rand_id <> 0 /\ eps <> []
  /\ exists source p, RoundResponse source p ∈ take 3 (rounds local)
       /\ eps ≡ₚ response_endpoints local p
       /\ (Exists (fun e => socket_ip (addr e) = socket_ip source) eps ->
           exists e, head eps = Some e /\ socket_ip (addr e) = socket_ip source).
Proof.
  unfold mdns_query. destruct (proto self); cbn [negb]; [|done].
  set (local := local_name _ _ _). unfold protocol_query.
  destruct router_alive; cbn [negb]; [|done].
  destruct (Z.eqb_spec (packet_id (query_with_id rand_id local)) 0) as [|Hid]; [done|].
  destruct (query_rounds local (take 3 (rounds local))) as [[source es]|] eqn:Hq; [|done].
  apply query_rounds_ok in Hq as (p & Hp & -> & Hne).
  set (f := fun e => bool_decide (socket_ip (addr e) = socket_ip source)).
  pose proof (position_spec f (response_endpoints local p)) as Hpos.
  destruct (position f _) as [i|].
  - destruct Hpos as (x & Hx & Hfx). destruct (swap_first_spec _ _ _ Hx) as [Hperm Hhead].
    destruct (swap_first _ i) as [|e es] eqn:Hs; [done|]. intros [= <-].
    split; [done|]. split; [done|]. split; [exact Hid|]. split; [done|].
    exists source, p. split; [done|]. split; [done|]. intros _. exists e. split; [done|].
    injection Hhead as ->. by apply bool_decide_eq_true in Hfx.
  - destruct (response_endpoints local p) as [|e es] eqn:Hr; [done|]. intros [= <-].
    split; [done|]. split; [done|]. split; [exact Hid|]. split; [done|].
    exists source, p. rewrite Hr. split; [done|]. split; [done|]. intros Hex. exfalso.
    apply Exists_exists in Hex as (y & Hy & Hip). rewrite Forall_forall in Hpos.
    specialize (Hpos y Hy). subst f. cbn in Hpos. by rewrite bool_decide_true in Hpos.
Qed.

(** ** Properties *)

(** The result of an mDNS query is a permutation of the endpoints that one
    response, received in one of three rounds, carries for exactly the queried
    name; it is not empty, and an endpoint with the address of the responder
    comes first if there is one.  A resolver that was shut down does not query. *)
Theorem mdns_query_result `{Certificates} `{Bitfield} (DHTTP_SUFFIX : bytes) (self : MdnsResolver)
    (router_alive : bool) (rand_id : Z) (domain : bytes) (rounds : bytes -> list Round)
    (eps : list EndpointAddr) :
  mdns_query DHTTP_SUFFIX self router_alive rand_id domain rounds = Ok eps ->
  let local := local_name DHTTP_SUFFIX (service_name self)
                 (to_ascii_lowercase (trim_end_matches dot domain)) in
  proto self = true /\ router_alive = true /\ rand_id <> 0 /\ eps <> []
  /\ exists source p, RoundResponse source p ∈ take 3 (rounds local)
       /\ eps ≡ₚ response_endpoints local p
       /\ (Exists (fun e => socket_ip (addr e) = socket_ip source) eps ->
           exists e, head eps = Some e /\ socket_ip (addr e) = socket_ip source).
Proof. apply mdns_query_ok. Qed.

Example mdns_query_result_witness :
  let p := mkPacket Header_default [] [answer_record (C := CertModel.certificates)
             (str "a._x.local") sample_endpoint] [] [] in
  let self := mkMdnsResolver (str "_x.local") (str "eth0") (IpV4 1) ∅ true in
  let eps := [sample_endpoint] in
  mdns_query (F := BitfieldModel.bitfield) (str ".dhttp.net") self true 7 (str "A.dhttp.net.")
    (fun _ => [RoundTimeout; RoundResponse (V4 (mkSocketAddrV4 2 5353)) p]) = Ok eps
  /\ proto self = true /\ eps <> [].
Proof.
  intros p self eps.
  assert (mdns_query (F := BitfieldModel.bitfield) (str ".dhttp.net") self true 7 (str "A.dhttp.net.")
    (fun _ => [RoundTimeout; RoundResponse (V4 (mkSocketAddrV4 2 5353)) p]) = Ok eps) as Hq
    by reflexivity.
  split; [exact Hq|]. pose proof (mdns_query_result _ _ _ _ _ _ _ Hq) as (H1 & _ & _ & H2 & _).
  split; [exact H1|exact H2].
Defined.

(** An mDNS exchange delivers what was published.  When a host of a peer is
    queried, the query is received by the peer and queued for its responder,
    whatever the state of the peer's router; the responder answers; and when the
    answer fits a datagram, the querying side receives it, its router hands it to
    the stream of the query, and the query returns exactly the endpoints of the
    host, among those of all the other hosts in the answer and in whatever order
    the table is traversed. *)
Theorem mdns_exchange `{CertificatesSpec} `{NomSpec} `{BufMutSpec} `{BitfieldSpec}
    (DHTTP_SUFFIX : bytes) (peer : MdnsResolver) (host : bytes) (eps : list EndpointAddr)
    (order : list (bytes * list EndpointAddr)) (id : Z) (router peer_router : PacketRouter)
    (source peer_source : SocketAddr) :
  let local := local_name DHTTP_SUFFIX (service_name peer) host in
  let table := hosts (insert_host DHTTP_SUFFIX peer host eps) in
  order ≡ₚ map_to_list table -> host_table_ok table -> eps <> [] ->
  strip_suffix DHTTP_SUFFIX local = None ->
  u_ok 16 id -> id <> 0 -> blen (answer_records order) < 2 ^ 16 -> reachable peer_router ->
  exists query query' reply, to_bytes (query_with_id id local) = Some query
    /\ be_packet query = Ok ([], query')
    /\ last (requests (deliver peer_router source query')) = Some (source, query')
    /\ respond DHTTP_SUFFIX (service_name peer) order query' = Some reply
    /\ exists datagram, to_bytes reply = Some datagram
    /\ (blen datagram <= 9000 -> exists reply' router',
          receive [Ok (peer_source, datagram)] = Some (Ok (peer_source, reply'), [])
          /\ let '(c, r) := register_query router id in
             poll_next (deliver r peer_source reply') c
             = Some (Ready (Some (peer_source, reply')), router')
          /\ protocol_query true id local [RoundResponse peer_source reply']
             = Ok (peer_source, map wire_endpoint eps)).
Proof.
  intros local table Hord Htab Hne Hsuf Hid Hid0 Hlen Hreach.
  destruct (table_order_ok table order local eps Hord Htab) as (Hin & Hnd & Hcan & Hok);
    [apply lookup_insert_eq|].
  destruct (order_ok_elem order local eps Hok Hcan Hin) as [Hname Hcl].
  destruct (proj1 (query_received id local Hid Hname)) as (query & query' & Eq & Ep & Ei & Eq' & Es).
  destruct (answer_received id order Hid Hlen Hok) as (datagram & reply' & Ea & Er & Ei' & Eq2 & Ean & _).
  rewrite Hcl in Es. exists query, query', (answer id order). split; [done|]. split; [done|].
  apply reachable_ok in Hreach as [Hq _]. split.
  { rewrite deliver_request by done. cbn [requests]. apply last_snoc. }
  split.
  { unfold respond. rewrite Es, Ei. cbn [existsb q_name]. rewrite orb_false_r.
    rewrite (proj2 (existsb_exists _ _)); [done|]. exists local. split; [|apply contains_refl].
    apply in_map_iff. exists (local, eps). split; [|by apply list_elem_of_In].
    unfold local_name. by rewrite Hsuf. }
  exists datagram. split; [done|]. intros Hsize.
  assert (response_endpoints local reply' = map wire_endpoint eps) as Heps.
  { transitivity (endpoints_in local order); [|by apply endpoints_in_present].
    unfold response_endpoints, endpoints_in. by rewrite Ean. }
  destruct (deliver_registered router id peer_source reply') as [r2 Hpoll]; [done..|].
  exists reply', r2. split; [by eapply receive_ok|]. cbn [register_query]. split; [exact Hpoll|].
  unfold protocol_query. cbn [negb]. change (packet_id (query_with_id id local)) with id.
  rewrite (proj2 (Z.eqb_neq _ _) Hid0). cbn [take query_rounds]. rewrite Heps.
  by destruct eps.
Qed.

(** A peer with one host. *)
Definition sample_peer : MdnsResolver (C := CertModel.certificates) :=
  mkMdnsResolver (str "_x.local") (str "eth0") (IpV4 1) ∅ true.

Example mdns_exchange_witness :
  let local := str "a._x.local" in
  let order := [(local, [sample_endpoint])] in
  exists query query' reply,
    to_bytes (C := CertModel.certificates) (B := NomModel.buf_mut)
      (query_with_id (F := BitfieldModel.bitfield) 7 local) = Some query
    /\ be_packet (N := NomModel.nom) query = Ok ([], query')
    /\ respond (F := BitfieldModel.bitfield) (str ".dhttp.net") (str "_x.local") order query'
       = Some reply.
Proof.
  intros local order.
  destruct (mdns_exchange (H := CertModel.certificates_spec) (H0 := NomModel.nom_spec)
    (H1 := NomModel.buf_mut_spec) (H2 := BitfieldModel.bitfield_spec) (str ".dhttp.net") sample_peer
    (str "a.dhttp.net") [sample_endpoint] order 7 PacketRouter_new PacketRouter_new
    (V4 (mkSocketAddrV4 1 5353)) (V4 (mkSocketAddrV4 2 5353)))
    as (query & query' & reply & H1 & H2 & _ & H3 & _).
  - cbn [insert_host with_hosts hosts sample_peer]. by rewrite insert_empty, map_to_list_singleton.
  - cbn [insert_host with_hosts hosts sample_peer]. rewrite insert_empty.
    apply map_Forall_singleton. split; [split; [decide_now|]|reflexivity].
    constructor; [split; decide_now|constructor].
  - done.
  - reflexivity.
  - decide_now.
  - done.
  - vm_compute. reflexivity.
  - apply reachable_new.
  - by exists query, query', reply.
Defined.
