(* ===== verification/MdnsSocket.v ===== *)
(** * The mDNS socket and its receiving task: src/mdns/protocol.rs and
    src/mdns/if_nametoindex.rs

    [MdnsSocket::new] configures a socket of the operating system with a sequence
    of calls, of which the first that fails ends it; the calls and their order are
    recorded.  [MdnsProtocol::new] starts the task that hands every received packet
    to the router.  The calls are those of a Linux build. *)

From stdpp Require Import base list numbers option sets.
From S2P Require Import Prelude Nom RustString DnsName DnsHeader Question Certificate Endpoint Records Packet MdnsRouter MdnsService.

(** ** Interface indices; [raw] is [libc::if_nametoindex] *)
Inductive socket_error := NameContainsNul | ZeroIndex | OsError (source : bytes).

Definition if_nametoindex (raw : bytes -> Z) (last_os_error : bytes) (name : bytes)
  : Result Z socket_error :=
  if existsb (Z.eqb 0) name then Err NameContainsNul
  else
    let idx := raw name in
    if idx =? 0 then Err (OsError last_os_error) else Ok idx.

(** ** [MdnsSocket::new] *)
Inductive SocketCall :=
| CreateSocket (ipv6 : bool)
| SetNonblocking
| SetReuseAddress
| SetReusePort
| Bind (addr : SocketAddr)
| BindDevice (device : bytes)
| SetMulticastLoop (ipv6 : bool)
| JoinMulticastV4 (group interface : Z)
| SetMulticastIfV4 (interface : Z)
| JoinMulticastV6 (group interface : Z)
| SetMulticastIfV6 (interface : Z)
| RegisterUdp.

Record MdnsSocket := mkMdnsSocket { socket_addr_ip : IpAddr; nic : bytes }.

Section Socket.
(** The outcome of a call of the operating system. *)
Context (os : SocketCall -> option bytes) (raw : bytes -> Z) (last_os_error : bytes).

(** The calls that were made, and the error of the last one. *)
Fixpoint run_calls (calls : list SocketCall) : list SocketCall * option bytes :=
  match calls with
  | [] => ([], None)
  | call :: calls =>
      match os call with
      | Some error => ([call], Some error)
      | None => let '(made, error) := run_calls calls in (call :: made, error)
      end
  end.

(** What both families do first. *)
Definition open_calls (device : bytes) (ipv6 : bool) : list SocketCall :=
  [CreateSocket ipv6; SetNonblocking; SetReuseAddress; SetReusePort;
   Bind (if ipv6 then V6 (mkSocketAddrV6 0 MULTICAST_PORT 0 0)
         else V4 (mkSocketAddrV4 0 MULTICAST_PORT));
   BindDevice device; SetMulticastLoop ipv6].

Definition MdnsSocket_new (device : bytes) (ip : IpAddr)
  : list SocketCall * Result MdnsSocket socket_error :=
  match ip with
  | IpV4 a =>
      let '(made, error) := run_calls (open_calls device false
        ++ [JoinMulticastV4 MULTICAST_ADDR_V4 a; SetMulticastIfV4 a; RegisterUdp]) in
      (made, match error with
             | Some error => Err (OsError error)
             | None => Ok (mkMdnsSocket ip device)
             end)
  | IpV6 _ =>
      match run_calls (open_calls device true) with
      | (made, Some error) => (made, Err (OsError error))
      | (made, None) =>
          match (let? ifindex := if_nametoindex raw last_os_error device in
                 if ifindex =? 0 then Err ZeroIndex else Ok ifindex) with
          | Err error => (made, Err error)
          | Ok ifindex =>
              let '(made', error) := run_calls
                [JoinMulticastV6 MULTICAST_ADDR_V6 ifindex; SetMulticastIfV6 ifindex; RegisterUdp] in
              (made ++ made', match error with
                              | Some error => Err (OsError error)
                              | None => Ok (mkMdnsSocket ip device)
                              end)
          end
      end
  end.
End Socket.

(** ** The receiving task of [MdnsProtocol::new] *)
Section Route.
Context `{C : Certificates} `{N : Nom} `{F : Bitfield}.

(** The loop [while let Ok((source, packet)) = socket.receive().await]; every
    iteration uses up at least one of the [datagrams] the socket returns. *)
Fixpoint route_loop (fuel : nat) (router : PacketRouter) (datagrams : list Datagram) : PacketRouter :=
  match fuel with
  | O => router
  | S fuel =>
      match receive datagrams with
      | Some (Ok (source, packet), datagrams) =>
          route_loop fuel (deliver router source packet) datagrams
      | _ => router
      end
  end.

Definition route (router : PacketRouter) (datagrams : list Datagram) : PacketRouter :=
  route_loop (length datagrams) router datagrams.

(** ** Specification: the accepted packets before the first error, one by one *)
Fixpoint before_error (datagrams : list Datagram) : list Datagram :=
  match datagrams with
  | Ok d :: datagrams => Ok d :: before_error datagrams
  | _ => []
  end.

Definition deliver_all (router : PacketRouter) (packets : list (SocketAddr * Packet)) : PacketRouter :=
  fold_left (fun router '(source, packet) => deliver router source packet) packets router.

Lemma route_loop_spec datagrams : forall fuel router, (length datagrams <= fuel)%nat ->
  route_loop fuel router datagrams
  = deliver_all router (omap accepted_packet (before_error datagrams)).
Proof.
  induction datagrams as [|d datagrams IH]; intros fuel router Hf; [by destruct fuel|].
  destruct fuel as [|fuel]; cbn [length] in Hf; [lia|]. cbn [route_loop]. rewrite receive_cons.
  destruct d as [[source data]|error]; [|done]. cbn [before_error omap list_omap].
  destruct (accepted_packet (Ok (source, data))) as [[src p]|] eqn:Ha.
  - rewrite IH by lia. done.
  - specialize (IH (S fuel) router ltac:(lia)). cbn [route_loop] in IH. exact IH.
Qed.

Lemma deliver_all_reachable packets : forall router,
  reachable router -> reachable (deliver_all router packets).
Proof.
  induction packets as [|[source p] packets IH]; intros router Hr; [done|].
  apply (IH (deliver router source p)). eapply reachable_step; [done|]. apply step_deliver.
Qed.

Lemma before_error_app ds1 ds2 :
  Forall (fun d => is_ok d = true) ds1 -> before_error (ds1 ++ ds2) = ds1 ++ before_error ds2.
Proof. induction 1 as [|[d|] ds1 Hd _ IH]; cbn [app before_error]; [done|by rewrite IH|done]. Qed.
End Route.

(** ** Facts about the calls *)
Lemma run_calls_spec os calls :
  let '(made, error) := run_calls os calls in
  made `prefix_of` calls
  /\ match error with
     | None => made = calls /\ Forall (fun call => os call = None) calls
     | Some error => exists made' call, made = made' ++ [call] /\ os call = Some error
         /\ Forall (fun call => os call = None) made'
     end.
Proof.
  induction calls as [|call calls IH]; cbn [run_calls]; [split; [done|]; by split|].
  destruct (os call) as [error|] eqn:Ho.
  { split; [apply prefix_cons, prefix_nil|]. by exists [], call. }
  destruct (run_calls os calls) as [made [error|]]; destruct IH as [Hp IH];
    (split; [by apply prefix_cons|]).
  - destruct IH as (made' & c & -> & Hc & Hall). exists (call :: made'), c. split; [done|].
    split; [done|by constructor].
  - destruct IH as [-> Hall]. split; [done|by constructor].
Qed.

Lemma if_nametoindex_spec raw last_os_error name :
  match if_nametoindex raw last_os_error name with
  | Ok idx => idx = raw name /\ idx <> 0 /\ 0 ∉ name
  | Err NameContainsNul => 0 ∈ name
  | Err ZeroIndex => False
  | Err (OsError e) => e = last_os_error /\ raw name = 0 /\ 0 ∉ name
  end.
Proof.
  unfold if_nametoindex. destruct (existsb (Z.eqb 0) name) eqn:E.
  - apply existsb_exists in E as (x & Hx%list_elem_of_In & <-%Z.eqb_eq). done.
  - assert (0 ∉ name) as Hn.
    { intros Hin%list_elem_of_In. assert (existsb (Z.eqb 0) name = true) as Ht; [|by rewrite E in Ht].
      apply existsb_exists. by exists 0. }
    destruct (Z.eqb_spec (raw name) 0); done.
Qed.

(** ** Properties *)

(** C29: the receiving task is robust.  Whatever the socket returns, the router ends up
    as if exactly the packets of the datagrams that are within the size limit and
    parse had been delivered, in order and up to the first error of the socket;
    dropping any other datagram changes nothing; and the task keeps the router
    within its reachable states. *)
Theorem route_exact `{Certificates} `{Nom} `{Bitfield} (router : PacketRouter)
    (datagrams : list Datagram) :
  route router datagrams = deliver_all router (omap accepted_packet (before_error datagrams))
  /\ (forall ds1 d ds2, datagrams = ds1 ++ Ok d :: ds2 -> Forall (fun d => is_ok d = true) ds1 ->
        accepted_packet (Ok d) = None -> route router datagrams = route router (ds1 ++ ds2))
  /\ (reachable router -> reachable (route router datagrams)).
Proof.
  assert (forall ds, route router ds = deliver_all router (omap accepted_packet (before_error ds))) as Hr
    by (intros ds; by apply route_loop_spec).
  split; [apply Hr|]. split.
  - intros ds1 d ds2 -> Hok Hd. rewrite !Hr, !before_error_app by done. cbn [before_error].
    rewrite !omap_app. cbn [omap list_omap]. by rewrite Hd.
  - rewrite Hr. apply deliver_all_reachable.
Qed.

(** An mDNS socket is complete or refused.  When it is created, every call
    succeeded and it is bound to the mDNS port and the device, with loopback, a
    member of the group of its family on the given interface.  Otherwise the error
    is that of the last call that was made, after which nothing else was done, or
    of the lookup of the interface of an IPv6 address; the check for a zero index
    never fails. *)
Theorem socket_complete (os : SocketCall -> option bytes) (raw : bytes -> Z) (last_os_error : bytes)
    (device : bytes) (ip : IpAddr) :
  let '(made, r) := MdnsSocket_new os raw last_os_error device ip in
  match r with
  | Ok socket => socket = mkMdnsSocket ip device /\ Forall (fun call => os call = None) made
      /\ made = match ip with
                | IpV4 a => open_calls device false
                    ++ [JoinMulticastV4 MULTICAST_ADDR_V4 a; SetMulticastIfV4 a; RegisterUdp]
                | IpV6 _ => open_calls device true
                    ++ [JoinMulticastV6 MULTICAST_ADDR_V6 (raw device); SetMulticastIfV6 (raw device);
                        RegisterUdp]
                end
  | Err (OsError e) =>
      (exists made' call, made = made' ++ [call] /\ os call = Some e
         /\ Forall (fun call => os call = None) made')
      \/ (made = open_calls device true /\ raw device = 0 /\ e = last_os_error)
  | Err NameContainsNul => made = open_calls device true /\ 0 ∈ device
  | Err ZeroIndex => False
  end.
Proof.
  unfold MdnsSocket_new. destruct ip as [a|a].
  - set (calls := _ ++ _). pose proof (run_calls_spec os calls) as Hc.
    destruct (run_calls os calls) as [made [error|]]; destruct Hc as [_ Hc]; [by left|].
    by destruct Hc as [-> Hall].
  - pose proof (run_calls_spec os (open_calls device true)) as Hc.
    destruct (run_calls os (open_calls device true)) as [made [error|]]; destruct Hc as [_ Hc];
      [by left|]. destruct Hc as [-> Hall].
    pose proof (if_nametoindex_spec raw last_os_error device) as Hi.
    destruct (if_nametoindex raw last_os_error device) as [idx|[| |e]]; [|done|done|].
    2:{ right. tauto. }
    destruct Hi as (-> & Hne & _). rewrite (proj2 (Z.eqb_neq _ _) Hne).
    set (calls := [_; _; _]). pose proof (run_calls_spec os calls) as Hj.
    destruct (run_calls os calls) as [made [error|]]; destruct Hj as [_ Hj].
    + destruct Hj as (made' & call & -> & Ho & Hall'). left. exists (open_calls device true ++ made'), call.
      split; [by rewrite app_assoc|]. split; [done|]. by apply Forall_app.
    + destruct Hj as [-> Hall']. split; [done|]. split; [by apply Forall_app|done].
Qed.
