(* ===== verification/MdnsNet.v ===== *)
(** * A network of mDNS resolvers: src/mdns/service.rs over src/mdns/protocol.rs

    The components of mDNS put together.  Nodes, each a resolver with its router,
    its receiving task, its responder and its running queries, exchange datagrams
    over a network that may lose, reorder, repeat and delay them.  The components
    act in any order; each step is the operation of the source.  The main result is
    that a query only returns what some node published under the queried name. *)

From stdpp Require Import base list gmap numbers option sets relations.
From S2P Require Import Prelude Nom RustString DnsName DnsHeader Question Certificate Endpoint Records Packet MdnsRouter MdnsService.

Section Network.
Context `{C : Certificates} `{N : Nom} `{B : BufMut} `{F : Bitfield} (DHTTP_SUFFIX : bytes).

(** A query that has not returned: the resolver as it was when the query started,
    its domain, id and stream, the rounds that are over, and how many of the broadcast
    tasks that its rounds spawned have not run yet. *)
Record Running := mkRunning {
  run_resolver : MdnsResolver;
  run_domain : bytes;
  run_id : Z;
  run_channel : nat;
  run_rounds : list Round;
  run_unsent : nat;
}.

Definition run_local (q : Running) : bytes :=
  local_name DHTTP_SUFFIX (service_name (run_resolver q))
    (to_ascii_lowercase (trim_end_matches dot (run_domain q))).

(** A round ended without endpoints and there is another one. *)
Definition undecided (q : Running) : Prop :=
  query_rounds (run_local q) (run_rounds q) = Err TimedOut_query
  /\ (length (run_rounds q) < 3)%nat.

(** The loop of [query] enters another round, which spawns a broadcast. *)
Definition next_round (local : bytes) (rounds : list Round) : bool :=
  match query_rounds local rounds with Ok _ => false | Err _ => (length rounds <? 3)%nat end.

Definition add_round (q : Running) (r : Round) : Running :=
  let rounds := run_rounds q ++ [r] in
  mkRunning (run_resolver q) (run_domain q) (run_id q) (run_channel q) rounds
    (run_unsent q + if next_round (run_local q) rounds then 1 else 0).

(** One of the broadcast tasks has run. *)
Definition task_done (q : Running) : Running :=
  mkRunning (run_resolver q) (run_domain q) (run_id q) (run_channel q) (run_rounds q)
    (pred (run_unsent q)).

(** The datagram of a call that succeeded. *)
Definition transmitted (datagram : option (bytes * SocketAddr)) (result : Result unit bytes)
  : option (bytes * SocketAddr) :=
  match result with Ok _ => datagram | Err _ => None end.

(** A node; [node_results] are the local names of its finished queries with what
    they returned. *)
Record Node := mkNode {
  node_addr : SocketAddr;
  node_resolver : MdnsResolver;
  node_router : PacketRouter;
  node_running : list Running;
  node_results : list (bytes * Result (list EndpointAddr) query_error);
}.

(** The datagrams that were sent, and the hosts that were ever published. *)
Record Net := mkNet {
  nodes : gmap nat Node;
  sent : list (SocketAddr * bytes);
  published : list (bytes * list EndpointAddr);
}.

Definition Net_new : Net := mkNet ∅ [] [].

Definition set_node (n : nat) (node : Node) (s : Net) : Net :=
  mkNet (<[n := node]> (nodes s)) (sent s) (published s).
Definition send (source : SocketAddr) (datagram : option (bytes * SocketAddr)) (s : Net) : Net :=
  match datagram with
  | Some (data, _) => mkNet (nodes s) ((source, data) :: sent s) (published s)
  | None => s
  end.
Definition publish (name : bytes) (eps : list EndpointAddr) (s : Net) : Net :=
  mkNet (nodes s) (sent s) ((name, eps) :: published s).

Definition with_resolver (node : Node) (self : MdnsResolver) : Node :=
  mkNode (node_addr node) self (node_router node) (node_running node) (node_results node).
Definition with_router (node : Node) (router : PacketRouter) : Node :=
  mkNode (node_addr node) (node_resolver node) router (node_running node) (node_results node).
Definition with_running (node : Node) (running : list Running) : Node :=
  mkNode (node_addr node) (node_resolver node) (node_router node) running (node_results node).
Definition with_result (node : Node) (local : bytes) (r : Result (list EndpointAddr) query_error)
  : Node :=
  mkNode (node_addr node) (node_resolver node) (node_router node) (node_running node)
    ((local, r) :: node_results node).

(** ** Steps of a node *)
Inductive node_step (n : nat) (node : Node) (s : Net) : Net -> Prop :=
(* [insert_host] with a name and endpoints that can be written, which the code leaves to
   its callers; [remove_host] *)
| node_publish name eps :
    host_ok (local_name DHTTP_SUFFIX (service_name (node_resolver node)) name) eps ->
    node_step n node s
      (publish (local_name DHTTP_SUFFIX (service_name (node_resolver node)) name) eps
         (set_node n (with_resolver node (insert_host DHTTP_SUFFIX (node_resolver node) name eps)) s))
| node_unpublish name :
    node_step n node s
      (set_node n (with_resolver node (remove_host DHTTP_SUFFIX (node_resolver node) name)) s)
(* [MdnsResolver::query] begins: the protocol exists, the query is registered, and the
   first round has spawned its broadcast; the local name can be written *)
| node_query domain id c router :
    proto (node_resolver node) = true -> u_ok 16 id -> id <> 0 ->
    register_query (node_router node) id = (c, router) ->
    let q := mkRunning (node_resolver node) domain id c [] 1 in
    name_ok (run_local q) ->
    node_step n node s (set_node n (with_running (with_router node router) (q :: node_running node)) s)
(* a broadcast task runs, once: it sends the query, or fails and is not repeated *)
| node_broadcast q1 q q2 local_addr send_to datagram result :
    node_running node = q1 ++ q :: q2 -> run_unsent q <> 0%nat ->
    broadcast_packet local_addr send_to (query_with_id (run_id q) (run_local q))
    = Some (datagram, result) ->
    node_step n node s
      (send (node_addr node) (transmitted datagram result)
         (set_node n (with_running node (q1 ++ task_done q :: q2)) s))
(* the receiving task, while the resolver is not shut down *)
| node_receive source data packet :
    proto (node_resolver node) = true -> (source, data) ∈ sent s ->
    receive [Ok (source, data)] = Some (Ok (source, packet), []) ->
    node_step n node s (set_node n (with_router node (deliver (node_router node) source packet)) s)
(* the responder, while the resolver is not shut down *)
| node_ignore source query router order :
    proto (node_resolver node) = true ->
    receive_query (node_router node) = Some ((source, query), router) ->
    order ≡ₚ map_to_list (hosts (node_resolver node)) ->
    respond DHTTP_SUFFIX (service_name (node_resolver node)) order query = None ->
    node_step n node s (set_node n (with_router node router) s)
| node_respond source query router order reply local_addr send_to datagram result :
    proto (node_resolver node) = true ->
    receive_query (node_router node) = Some ((source, query), router) ->
    order ≡ₚ map_to_list (hosts (node_resolver node)) ->
    respond DHTTP_SUFFIX (service_name (node_resolver node)) order query = Some reply ->
    broadcast_packet local_addr send_to reply = Some (datagram, result) ->
    node_step n node s
      (send (node_addr node) (transmitted datagram result) (set_node n (with_router node router) s))
(* a round ends: a packet of the stream, the end of the stream or the timeout; the next
   round, if there is one, spawns its broadcast *)
| node_poll q1 q q2 m router :
    node_running node = q1 ++ q :: q2 -> undecided q ->
    poll_next (node_router node) (run_channel q) = Some (Ready m, router) ->
    let round := match m with Some (source, p) => RoundResponse source p | None => RoundEnded end in
    node_step n node s
      (set_node n (with_running (with_router node router) (q1 ++ add_round q round :: q2)) s)
| node_timeout q1 q q2 :
    node_running node = q1 ++ q :: q2 -> undecided q ->
    node_step n node s (set_node n (with_running node (q1 ++ add_round q RoundTimeout :: q2)) s)
(* the query returns; its stream is dropped and the broadcasts that have not run are aborted *)
| node_finish q1 q q2 :
    node_running node = q1 ++ q :: q2 -> ~ undecided q ->
    let r := mdns_query DHTTP_SUFFIX (run_resolver q) true (run_id q) (run_domain q)
               (fun _ => run_rounds q) in
    node_step n node s
      (set_node n (with_result (with_running (with_router node
         (drop_responses (node_router node) (run_channel q))) (q1 ++ q2)) (run_local q) r) s)
(* [shutdown_tasks] *)
| node_shutdown results :
    node_step n node s
      (set_node n (with_resolver node (shutdown_tasks (node_resolver node) results).1) s).

Inductive net_step (s : Net) : Net -> Prop :=
| net_join n addr service device ip proto_new self :
    nodes s !! n = None -> MdnsResolver_new service device ip proto_new = Ok self ->
    net_step s (set_node n (mkNode addr self PacketRouter_new [] []) s)
| net_node n node s' : nodes s !! n = Some node -> node_step n node s s' -> net_step s s'.

Inductive net_reachable : Net -> Prop :=
| net_initial : net_reachable Net_new
| net_next s s' : net_reachable s -> net_step s s' -> net_reachable s'.

(** ** The invariant *)

(** A record that a publication gives rise to. *)
Definition from_published (pub : list (bytes * list EndpointAddr)) (a : ResourceRecord) : Prop :=
  exists n es e, (n, es) ∈ pub /\ e ∈ es /\ a = canonical_record (answer_record n e).

(** A packet that only answers with published records. *)
Definition packet_honest (pub : list (bytes * list EndpointAddr)) (p : Packet) : Prop :=
  u_ok 16 (packet_id p) /\ (is_query p = true -> Forall (from_published pub) (answers p)).

Definition datagram_honest (pub : list (bytes * list EndpointAddr)) (data : bytes) : Prop :=
  blen data <= MAX_MDNS_DNS_MESSAGE_LEN -> exists p, be_packet data = Ok ([], p) /\ packet_honest pub p.

(** All the packets in the queues of a router. *)
Definition queues_honest (pub : list (bytes * list EndpointAddr)) (r : PacketRouter) : Prop :=
  Forall (fun m => packet_honest pub m.2) (requests r)
  /\ forall c s, responses r !! c = Some s -> Forall (fun m => packet_honest pub m.2) (recver s).

Definition rounds_honest (pub : list (bytes * list EndpointAddr)) (rs : list Round) : Prop :=
  forall source p, RoundResponse source p ∈ rs -> Forall (from_published pub) (answers p).

(** An endpoint that was published under a name. *)
Definition published_as (pub : list (bytes * list EndpointAddr)) (local : bytes) (e : EndpointAddr)
  : Prop :=
  exists n es e0, (n, es) ∈ pub /\ canonical_name n = local /\ e0 ∈ es /\ e = wire_endpoint e0.

Definition result_honest (pub : list (bytes * list EndpointAddr))
    (x : bytes * Result (list EndpointAddr) query_error) : Prop :=
  match x.2 with Ok eps => Forall (published_as pub x.1) eps | Err _ => True end.

Record node_ok (pub : list (bytes * list EndpointAddr)) (node : Node) : Prop := mkNodeOk {
  node_hosts_ok : map_Forall (fun n es => (n, es) ∈ pub /\ host_ok n es) (hosts (node_resolver node));
  node_router_ok : reachable (node_router node);
  node_queues_ok : queues_honest pub (node_router node);
  node_running_ok : Forall (fun q => rounds_honest pub (run_rounds q) /\ u_ok 16 (run_id q)
                              /\ name_ok (run_local q)) (node_running node);
  node_results_ok : Forall (result_honest pub) (node_results node);
}.

Definition net_ok (s : Net) : Prop :=
  (forall n node, nodes s !! n = Some node -> node_ok (published s) node)
  /\ Forall (fun d => datagram_honest (published s) d.2) (sent s).
End Network.

(** ** Queues *)
Section QueueFacts.
Context `{C : Certificates} `{F : Bitfield}.
Implicit Types (pub : list (bytes * list EndpointAddr)) (r : PacketRouter).

Lemma deliver_honest pub r source p :
  packet_honest pub p -> queues_honest pub r -> queues_honest pub (deliver r source p).
Proof.
  intros Hp [Hreq Hres]. unfold deliver.
  assert (forall q q', try_send q (source, p) = Some q' ->
    Forall (fun m => packet_honest pub m.2) q -> Forall (fun m => packet_honest pub m.2) q') as Hsend.
  { intros q q' Ht Hq. pose proof (try_send_spec q (source, p)) as Hs. rewrite Ht in Hs.
    destruct Hs as [-> _]. apply Forall_app. split; [done|by constructor]. }
  assert (forall c s q, responses r !! c = Some s -> try_send (recver s) (source, p) = Some q ->
    queues_honest pub (mkPacketRouter (requests r) (queries r)
      (<[c := mkResponses (query_id s) q]> (responses r)) (next_channel r))) as Hgen.
  { intros c s q Hs Ht. split; [done|]. cbn.
    intros c' s' [[<- <-]|[_ Hs']]%lookup_insert_Some; [|by eapply Hres].
    eapply Hsend; [done|]. by eapply Hres. }
  destruct (is_query p).
  - destruct (packet_id p) as [|i|i]; [done| |];
      (destruct (queries r !! _) as [c|]; [|done]; destruct (responses r !! c) as [s|] eqn:Hs; [|done];
       destruct (try_send (recver s) _) as [q|] eqn:Ht; [|done]; by eapply Hgen).
  - destruct (try_send (requests r) _) as [q|] eqn:Ht; (split; [|done]); cbn [requests].
    + by eapply Hsend.
    + assert (Forall (fun m => packet_honest pub m.2) (List.tl (requests r))) as Htl by (by destruct Hreq).
      destruct (try_send (List.tl (requests r)) _) as [q|] eqn:Ht'; [|done]. by eapply Hsend.
Qed.

Lemma receive_query_honest pub r m r' :
  receive_query r = Some (m, r') -> queues_honest pub r ->
  packet_honest pub m.2 /\ queues_honest pub r'.
Proof.
  unfold receive_query. intros E [Hreq Hres]. destruct (requests r) as [|m' ms] eqn:Hm; [done|].
  injection E as -> <-. apply Forall_cons_1 in Hreq as [Hm0 Hms]. split; [done|]. split; done.
Qed.

Lemma register_honest pub r i c r' :
  register_query r i = (c, r') -> queues_honest pub r -> queues_honest pub r'.
Proof.
  intros [= <- <-] [Hreq Hres]. split; [done|]. cbn.
  intros c' s' [[<- <-]|[_ Hs']]%lookup_insert_Some; [constructor|by eapply Hres].
Qed.

Lemma poll_honest pub r c m r' :
  reachable r -> poll_next r c = Some (Ready m, r') -> queues_honest pub r ->
  queues_honest pub r'
  /\ forall source p, m = Some (source, p) -> Forall (from_published pub) (answers p).
Proof.
  intros (_ & _ & Hok & _)%reachable_ok E [Hreq Hres]. unfold poll_next in E.
  destruct (responses r !! c) as [s|] eqn:Hs; [|done].
  destruct (recver s) as [|m' ms] eqn:Hm.
  { case_bool_decide; [done|]. injection E as <- <-. done. }
  injection E as <- <-. destruct (Hok c s Hs) as [_ [_ Hall]]. rewrite Hm in Hall.
  apply Forall_cons_1 in Hall as [[Hq _] _].
  pose proof (Hres c s Hs) as Hhon. rewrite Hm in Hhon. apply Forall_cons_1 in Hhon as [Hm' Hms].
  split; [|by intros source p [= ->]; apply Hm'].
  split; [done|]. cbn. intros c' s' [[<- <-]|[_ Hs']]%lookup_insert_Some; [done|by eapply Hres].
Qed.

Lemma drop_honest pub r c : queues_honest pub r -> queues_honest pub (drop_responses r c).
Proof.
  intros [Hreq Hres]. unfold drop_responses. destruct (responses r !! c); [|done].
  split; [done|]. cbn. intros c' s' [_ Hs']%lookup_delete_Some. by eapply Hres.
Qed.
End QueueFacts.

(** ** More publications *)
Section Monotone.
Context `{C : Certificates} `{N : Nom} `{F : Bitfield} (DHTTP_SUFFIX : bytes).
Context (pub pub' : list (bytes * list EndpointAddr)) (Hsub : pub ⊆ pub').

Lemma from_published_mono a : from_published pub a -> from_published pub' a.
Proof using Hsub. intros (n & es & e & Hin & He & ->). exists n, es, e. split; [by apply Hsub|done]. Qed.

Lemma packet_honest_mono p : packet_honest pub p -> packet_honest pub' p.
Proof using Hsub.
  intros [Hid Ha]. split; [done|]. intros Hq. eapply Forall_impl; [by apply Ha|].
  apply from_published_mono.
Qed.

Lemma datagram_honest_mono data : datagram_honest pub data -> datagram_honest pub' data.
Proof using Hsub.
  intros Hd Hl. destruct (Hd Hl) as (p & Hp & Hh). exists p. split; [done|].
  by apply packet_honest_mono.
Qed.

Lemma queues_honest_mono r : queues_honest pub r -> queues_honest pub' r.
Proof using Hsub.
  intros [Hreq Hres]. split.
  - eapply Forall_impl; [done|]. intros m. apply packet_honest_mono.
  - intros c s Hs. eapply Forall_impl; [by eapply Hres|]. intros m. apply packet_honest_mono.
Qed.

Lemma result_honest_mono x : result_honest pub x -> result_honest pub' x.
Proof using Hsub.
  unfold result_honest. destruct x.2; [|done]. intros Hr. eapply Forall_impl; [done|].
  intros e (n & es & e0 & Hin & H). exists n, es, e0. split; [by apply Hsub|done].
Qed.

Lemma node_ok_mono node : node_ok DHTTP_SUFFIX pub node -> node_ok DHTTP_SUFFIX pub' node.
Proof using Hsub.
  intros [H1 H2 H3 H4 H5]. split; [|done| | |].
  - intros n es Hn. destruct (H1 n es Hn). split; [by apply Hsub|done].
  - by apply queues_honest_mono.
  - eapply Forall_impl; [exact H4|]. intros q (Hr & Hi & Hn). split; [|done]. intros source p Hin.
    eapply Forall_impl; [by eapply Hr|]. apply from_published_mono.
  - eapply Forall_impl; [exact H5|]. apply result_honest_mono.
Qed.
End Monotone.

(** ** Datagrams *)
Section DatagramFacts.
Context `{CS : CertificatesSpec} `{NS : NomSpec} `{BS : BufMutSpec} `{FS : BitfieldSpec}.
Implicit Type pub : list (bytes * list EndpointAddr).

Lemma transmitted_some datagram result x : transmitted datagram result = Some x -> datagram = Some x.
Proof. by destruct result. Qed.

Lemma broadcast_bytes local send_to p data target result :
  broadcast_packet local send_to p = Some (Some (data, target), result) -> to_bytes p = Some data.
Proof.
  unfold broadcast_packet. destruct (to_bytes p); cbn; [|done].
  destruct local; [|done]. by intros [= ->].
Qed.

Lemma query_honest pub i local data :
  u_ok 16 i -> name_ok local -> to_bytes (query_with_id i local) = Some data -> datagram_honest pub data.
Proof.
  intros Hi Hn Hd _. destruct (proj1 (query_received i local Hi Hn)) as (enc & p & E & Hp & Hid & Hq & _).
  rewrite Hd in E. injection E as <-. exists p. split; [done|]. split; [by rewrite Hid|]. by rewrite Hq.
Qed.

Lemma answer_honest pub i order data :
  u_ok 16 i -> Forall (fun '(n, es) => (n, es) ∈ pub /\ host_ok n es) order ->
  to_bytes (answer i order) = Some data -> datagram_honest pub data.
Proof.
  intros Hi Hord Hd Hl.
  assert (Forall (fun '(n, es) => host_ok n es) order) as Hok.
  { eapply Forall_impl; [exact Hord|]. by intros [n es] [_ ?]. }
  pose proof (answer_size i order data (hosts_writable order Hok) Hd) as Hsize.
  destruct (answer_received i order Hi) as (enc & p & E & Hp & Hid & Hq & Ha & _).
  { unfold MAX_MDNS_DNS_MESSAGE_LEN in *. lia. }
  { exact Hok. }
  rewrite Hd in E. injection E as <-. exists p. split; [done|]. split; [by rewrite Hid|]. intros _.
  rewrite Ha. apply Forall_fmap, List.Forall_concat, Forall_fmap.
  eapply Forall_impl; [exact Hord|]. intros [n es] [Hin _]. apply Forall_fmap, Forall_forall.
  intros e He. by exists n, es, e.
Qed.

Lemma receive_honest pub source data source' packet rest :
  datagram_honest pub data -> receive [Ok (source, data)] = Some (Ok (source', packet), rest) ->
  packet_honest pub packet.
Proof.
  intros Hd. rewrite receive_cons. cbn [accepted_packet].
  destruct (Z.ltb_spec MAX_MDNS_DNS_MESSAGE_LEN (blen data)) as [|Hl]; [done|].
  destruct (Hd Hl) as (p & -> & Hp). cbn. by intros [= _ -> _].
Qed.
End DatagramFacts.

(** ** Preservation *)
Lemma Forall_middle {A} (P : A -> Prop) l1 x y l2 :
  Forall P (l1 ++ x :: l2) -> (P x -> P y) -> Forall P (l1 ++ y :: l2).
Proof. rewrite !Forall_app, !Forall_cons. tauto. Qed.

Section StepFacts.
Context `{CS : CertificatesSpec} `{NS : NomSpec} `{BS : BufMutSpec} `{FS : BitfieldSpec}.
Context (DHTTP_SUFFIX : bytes).
Implicit Type (s : Net) (node : Node).

Lemma set_node_ok n node s :
  net_ok DHTTP_SUFFIX s -> node_ok DHTTP_SUFFIX (published s) node ->
  net_ok DHTTP_SUFFIX (set_node n node s).
Proof.
  intros [Hn Hs] Hnode. split; [|done]. cbn.
  intros n' node' [[<- <-]|[_ Hn']]%lookup_insert_Some; [done|by eapply Hn].
Qed.

Lemma send_ok source datagram s :
  net_ok DHTTP_SUFFIX s ->
  (forall data target, datagram = Some (data, target) -> datagram_honest (published s) data) ->
  net_ok DHTTP_SUFFIX (send source datagram s).
Proof.
  intros Hok Hd. destruct datagram as [[data target]|]; [|done]. destruct Hok as [Hn Hs].
  split; [done|]. constructor; [by eapply Hd|done].
Qed.

Lemma publish_ok name eps s : net_ok DHTTP_SUFFIX s -> net_ok DHTTP_SUFFIX (publish name eps s).
Proof.
  intros [Hn Hs]. assert (published s ⊆ (name, eps) :: published s) as Hsub by set_solver. split; cbn.
  - intros n node Hnode. eapply node_ok_mono; [exact Hsub|]. by eapply Hn.
  - eapply Forall_impl; [exact Hs|]. intros d. by apply datagram_honest_mono.
Qed.

(** The endpoints for a name in an honest packet were published under it. *)
Lemma response_published pub local p :
  Forall (from_published pub) (answers p) -> Forall (published_as pub local) (response_endpoints local p).
Proof.
  rewrite !Forall_forall. intros Ha e (a & Hin & He)%list_elem_of_omap.
  apply list_elem_of_In, List.filter_In in Hin as [Hin Hname]. apply bool_decide_eq_true in Hname.
  apply list_elem_of_In in Hin. destruct (Ha a Hin) as (n & es & e0 & Hpub & He0 & ->).
  cbn in Hname, He. injection He as <-. by exists n, es, e0.
Qed.

Lemma finish_honest pub (q : Running) :
  rounds_honest pub (run_rounds q) ->
  result_honest pub (run_local DHTTP_SUFFIX q,
    mdns_query DHTTP_SUFFIX (run_resolver q) true (run_id q) (run_domain q) (fun _ => run_rounds q)).
Proof.
  intros Hr. unfold result_honest. cbn [fst snd].
  destruct (mdns_query _ _ _ _ _ _) as [eps|] eqn:Hq; [|done].
  apply mdns_query_ok in Hq as (_ & _ & _ & _ & source & p & Hin & Hperm & _).
  rewrite Hperm. apply response_published, (Hr source).
  by eapply elem_of_sublist; [|apply sublist_take].
Qed.

Lemma add_round_honest pub (q : Running) r :
  rounds_honest pub (run_rounds q) ->
  (forall source p, r = RoundResponse source p -> Forall (from_published pub) (answers p)) ->
  rounds_honest pub (run_rounds (add_round DHTTP_SUFFIX q r)).
Proof.
  intros Hq Hr source p [Hin|Hin]%elem_of_app; [by eapply Hq|].
  apply list_elem_of_singleton in Hin as <-. by eapply Hr.
Qed.

(** A round of one of the running queries is over. *)
Lemma running_round_ok pub q1 q q2 r :
  Forall (fun q => rounds_honest pub (run_rounds q) /\ u_ok 16 (run_id q)
            /\ name_ok (run_local DHTTP_SUFFIX q)) (q1 ++ q :: q2) ->
  (forall source p, r = RoundResponse source p -> Forall (from_published pub) (answers p)) ->
  Forall (fun q => rounds_honest pub (run_rounds q) /\ u_ok 16 (run_id q)
            /\ name_ok (run_local DHTTP_SUFFIX q)) (q1 ++ add_round DHTTP_SUFFIX q r :: q2).
Proof.
  rewrite !Forall_app, !Forall_cons. intros (H1 & (Hq & Hi & Hn) & H2) Hr.
  split; [done|]. split; [|done]. split; [by apply add_round_honest|done].
Qed.

Lemma respond_reply service order query reply :
  respond DHTTP_SUFFIX service order query = Some reply -> reply = answer (packet_id query) order.
Proof. unfold respond. destruct (existsb _ _); [|done]. by intros [= <-]. Qed.

(** The parts of a node change one at a time. *)
Lemma with_router_ok pub node (r : PacketRouter) :
  node_ok DHTTP_SUFFIX pub node -> step (node_router node) r -> queues_honest pub r ->
  node_ok DHTTP_SUFFIX pub (with_router node r).
Proof. intros [] Hs Hq. split; [done| |done..]. by eapply reachable_step. Qed.

Lemma with_running_ok pub node qs :
  node_ok DHTTP_SUFFIX pub node ->
  Forall (fun q => rounds_honest pub (run_rounds q) /\ u_ok 16 (run_id q)
            /\ name_ok (run_local DHTTP_SUFFIX q)) qs ->
  node_ok DHTTP_SUFFIX pub (with_running node qs).
Proof. intros [] Hq. by split. Qed.

Lemma with_hosts_ok pub node self :
  node_ok DHTTP_SUFFIX pub node ->
  map_Forall (fun n es => (n, es) ∈ pub /\ host_ok n es) (hosts self) ->
  node_ok DHTTP_SUFFIX pub (with_resolver node self).
Proof. intros [] Hh. by split. Qed.

(** The responder sends what its node published. *)
Lemma reply_honest pub node order query reply local_addr send_to data target result :
  node_ok DHTTP_SUFFIX pub node -> packet_honest pub query ->
  order ≡ₚ map_to_list (hosts (node_resolver node)) ->
  respond DHTTP_SUFFIX (service_name (node_resolver node)) order query = Some reply ->
  broadcast_packet local_addr send_to reply = Some (Some (data, target), result) ->
  datagram_honest pub data.
Proof.
  intros [H1 _ _ _ _] [Hid _] Hord Hrep Hb. apply broadcast_bytes in Hb.
  apply respond_reply in Hrep as ->. eapply answer_honest; [exact Hid| |exact Hb].
  apply Forall_forall. intros [k es]. rewrite Hord. intros Hk%elem_of_map_to_list. exact (H1 k es Hk).
Qed.

Lemma node_step_ok n node s s' :
  nodes s !! n = Some node -> node_step DHTTP_SUFFIX n node s s' ->
  net_ok DHTTP_SUFFIX s -> net_ok DHTTP_SUFFIX s'.
Proof.
  intros Hnode Hstep Hok. pose proof Hok as [Hnodes Hsent].
  pose proof (Hnodes n node Hnode) as Hn. pose proof Hn as [H1 H2 H3 H4 H5].
  destruct Hstep as [name eps Hh|name|domain id c router Hp Hi Hne Hreg q Hname|q1 q q2 la out d res Hrun Hun Hb
    |source data packet Hp Hin Hr|source query router order Hp Hr Hord Hrep
    |source query router order reply la out d res Hp Hr Hord Hrep Hb|q1 q q2 m router Hrun Hu Hpoll round|q1 q q2 Hrun Hu|q1 q q2 Hrun Hu r|results].
  - apply (set_node_ok n _ (publish _ eps s)); [by apply publish_ok|].
    apply (node_ok_mono DHTTP_SUFFIX (published s) (published (publish (local_name DHTTP_SUFFIX
      (service_name (node_resolver node)) name) eps s)) ltac:(set_solver)) in Hn.
    apply with_hosts_ok; [done|]. apply map_Forall_insert_2; [split; [left|done]|apply Hn].
  - apply set_node_ok, with_hosts_ok; [done..|]. by apply map_Forall_delete.
  - apply set_node_ok, with_running_ok; [done| |].
    + apply with_router_ok; [done| |by eapply register_honest].
      replace router with (register_query (node_router node) id).2 by (by rewrite Hreg).
      by apply step_register.
    + constructor; [|done]. split; [|done]. intros source p Hin. by apply not_elem_of_nil in Hin.
  - rewrite Hrun in H4. pose proof H4 as Hall. rewrite Forall_app, Forall_cons in Hall.
    destruct Hall as (_ & (_ & Hi & Hname) & _). apply send_ok.
    + apply set_node_ok, with_running_ok; [done..|]. by eapply Forall_middle; [exact H4|].
    + intros data target ->%transmitted_some.
      eapply query_honest; [exact Hi|exact Hname|by eapply broadcast_bytes].
  - apply set_node_ok, with_router_ok; [done|done|apply step_deliver|].
    apply deliver_honest; [|done]. eapply receive_honest; [|exact Hr].
    rewrite Forall_forall in Hsent. exact (Hsent _ Hin).
  - destruct (receive_query_honest _ _ _ _ Hr H3) as [_ Hq].
    apply set_node_ok, with_router_ok; [done|done|by eapply step_request|done].
  - destruct (receive_query_honest _ _ _ _ Hr H3) as [Hq Hq']. apply send_ok.
    + apply set_node_ok, with_router_ok; [done|done|by eapply step_request|done].
    + intros data target ->%transmitted_some. by eapply reply_honest.
  - destruct (poll_honest _ _ _ _ _ H2 Hpoll H3) as [Hq Hm]. rewrite Hrun in H4.
    apply set_node_ok, with_running_ok; [done| |].
    + apply with_router_ok; [done|by eapply step_poll|done].
    + apply running_round_ok; [done|]. intros source p. subst round. destruct m as [[src p']|]; [|done].
      intros [= -> ->]. by eapply Hm.
  - rewrite Hrun in H4. apply set_node_ok, with_running_ok; [done|done|by apply running_round_ok].
  - rewrite Hrun in H4. pose proof H4 as Hall. apply Forall_app in Hall as [Hq1 Hall].
    apply Forall_cons_1 in Hall as [(Hq & _) Hq2]. apply set_node_ok; [done|].
    destruct (with_running_ok _ _ (q1 ++ q2) (with_router_ok _ _ (drop_responses (node_router node)
      (run_channel q)) Hn (step_drop _ _) (drop_honest _ _ _ H3)) ltac:(by apply Forall_app)) as [].
    split; try done. constructor; [by apply finish_honest|done].
  - apply set_node_ok, with_hosts_ok; [done..|]. unfold shutdown_tasks.
    by destruct (proto (node_resolver node)).
Qed.

Lemma net_reachable_ok s : net_reachable DHTTP_SUFFIX s -> net_ok DHTTP_SUFFIX s.
Proof.
  induction 1 as [|s s' _ IH Hstep]; [split; [set_solver|constructor]|].
  destruct Hstep as [n addr service device ip pn self Hn Hnew|n node s' Hn Hstep].
  - unfold MdnsResolver_new in Hnew. destruct (pn device ip); [|done]. injection Hnew as <-.
    apply set_node_ok; [done|]. split; cbn; [apply map_Forall_empty|apply reachable_new| |constructor|
      constructor]. split; [constructor|set_solver].
  - by eapply node_step_ok.
Qed.
End StepFacts.

(** ** Progress *)

(** A query that received endpoints returns them, in some order. *)
Lemma mdns_query_returns `{Certificates} `{Bitfield} (DHTTP_SUFFIX : bytes) (self : MdnsResolver) (i : Z)
    (domain : bytes) (rounds : bytes -> list Round) (source : SocketAddr) (eps : list EndpointAddr) :
  let local := local_name DHTTP_SUFFIX (service_name self)
                 (to_ascii_lowercase (trim_end_matches dot domain)) in
  proto self = true -> i <> 0 -> query_rounds local (take 3 (rounds local)) = Ok (source, eps) ->
  exists es, mdns_query DHTTP_SUFFIX self true i domain rounds = Ok es /\ es ≡ₚ eps.
Proof.
  intros local Hp Hi Hq. unfold mdns_query. fold local. rewrite Hp. cbn [negb]. unfold protocol_query.
  cbn [negb]. change (packet_id (query_with_id i local)) with i. rewrite (proj2 (Z.eqb_neq _ _) Hi), Hq.
  apply query_rounds_ok in Hq as (p & _ & _ & Hne).
  pose proof (position_spec (fun e => bool_decide (socket_ip (addr e) = socket_ip source)) eps) as Hpos.
  destruct (position _ eps) as [k|]; [|destruct eps; [done|by eexists]].
  destruct Hpos as (x & Hx & _). destruct (swap_first_spec _ _ _ Hx) as [Hperm Hhead].
  destruct (swap_first eps k) eqn:E; [done|]. eexists. split; [reflexivity|]. by rewrite <- Hperm.
Qed.

Lemma query_rounds_more `{Certificates} local rs more :
  query_rounds local rs = Err TimedOut_query ->
  query_rounds local (rs ++ more) = query_rounds local more.
Proof.
  induction rs as [|[| |source p] rs IH]; cbn [query_rounds app]; [done|done|done|].
  by destruct (response_endpoints local p).
Qed.

Section Progress.
Context `{CS : CertificatesSpec} `{NS : NomSpec} `{BS : BufMutSpec} `{FS : BitfieldSpec}.
Context (DHTTP_SUFFIX : bytes).
Implicit Type (s : Net) (node : Node) (q : Running).

(** The stream of the query [q] of the node [b] is registered and empty, and the
    receiving task of the node runs. *)
Definition asking s (b : nat) q : Prop :=
  exists node (q1 q2 : list Running), nodes s !! b = Some node /\ proto (node_resolver node) = true
    /\ node_running node = q1 ++ q :: q2
    /\ queries (node_router node) !! run_id q = Some (run_channel q)
    /\ responses (node_router node) !! run_channel q = Some (mkResponses (run_id q) []).

(** The responder of the node [a] runs, with its table of hosts and its queue. *)
Definition answering s (a : nat) (service : bytes) (table : gmap (list Z) (list EndpointAddr))
    (reqs : list (SocketAddr * Packet)) : Prop :=
  exists node, nodes s !! a = Some node /\ proto (node_resolver node) = true
    /\ service_name (node_resolver node) = service /\ hosts (node_resolver node) = table
    /\ requests (node_router node) = reqs.

Lemma asking_send s b q source d : asking s b q -> asking (send source d s) b q.
Proof. by destruct d as [[]|]. Qed.

(** The query itself goes on, its stream as before. *)
Lemma asking_goes_on s (b : nat) q q' node (q1 q2 : list Running) :
  proto (node_resolver node) = true ->
  queries (node_router node) !! run_id q = Some (run_channel q) ->
  responses (node_router node) !! run_channel q = Some (mkResponses (run_id q) []) ->
  run_id q' = run_id q -> run_channel q' = run_channel q ->
  asking (set_node b (with_running node (q1 ++ q' :: q2)) s) b q'.
Proof.
  intros Hp Hreg Hs Hi Hc. exists (with_running node (q1 ++ q' :: q2)), q1, q2.
  rewrite Hi, Hc. split; [apply lookup_insert_eq|by split_and!].
Qed.

Lemma answering_goes_on s a service table reqs b node (qs : list Running) :
  nodes s !! b = Some node -> answering s a service table reqs ->
  answering (set_node b (with_running node qs) s) a service table reqs.
Proof.
  intros Hb (x & Hx & Hrest). destruct (decide (b = a)) as [->|Hne].
  - rewrite Hb in Hx. injection Hx as <-. exists (with_running node qs).
    split; [apply lookup_insert_eq|done].
  - exists x. split; [by cbn; rewrite lookup_insert_ne|done].
Qed.

Lemma answering_send s a service table reqs source d :
  answering s a service table reqs -> answering (send source d s) a service table reqs.
Proof. by destruct d as [[]|]. Qed.

(** The queue of a responder does not matter to a query, also of the same node. *)
Lemma asking_requests s b q a node r :
  nodes s !! a = Some node -> queries r = queries (node_router node) ->
  responses r = responses (node_router node) -> asking s b q ->
  asking (set_node a (with_router node r) s) b q.
Proof.
  intros Ha Hq Hr (x & q1 & q2 & Hx & Hp & Hrun & Hreg & Hs). destruct (decide (a = b)) as [->|Hne].
  - rewrite Ha in Hx. injection Hx as <-. exists (with_router node r), q1, q2.
    split; [apply lookup_insert_eq|]. split_and!; [done|done| |]; cbn; congruence.
  - exists x, q1, q2. split; [by cbn; rewrite lookup_insert_ne|by split_and!].
Qed.

Lemma one_step s n node s' s'' :
  nodes s !! n = Some node -> node_step DHTTP_SUFFIX n node s s' ->
  rtc (net_step DHTTP_SUFFIX) s' s'' -> rtc (net_step DHTTP_SUFFIX) s s''.
Proof. intros Hn Hs Hr. eapply rtc_l; [by eapply net_node|done]. Qed.

Lemma net_steps_reachable s s' :
  rtc (net_step DHTTP_SUFFIX) s s' -> net_reachable DHTTP_SUFFIX s -> net_reachable DHTTP_SUFFIX s'.
Proof. induction 1; [done|]. intros Hr. apply IHrtc. by eapply net_next. Qed.

Lemma broadcast_ok a p data : to_bytes p = Some data ->
  exists t, broadcast_packet (Ok a) (fun _ _ => Ok tt) p = Some (Some (data, t), Ok tt).
Proof. intros E. unfold broadcast_packet. rewrite E. by eexists. Qed.

Lemma send_nodes source d s : nodes (send source d s) = nodes s.
Proof. by destruct d as [[]|]. Qed.

Lemma unsent_add_round q r :
  (run_unsent q <= S (length (run_rounds q)) /\ run_unsent q <= 3 ->
   run_unsent (add_round DHTTP_SUFFIX q r) <= S (length (run_rounds (add_round DHTTP_SUFFIX q r)))
   /\ run_unsent (add_round DHTTP_SUFFIX q r) <= 3)%nat.
Proof.
  unfold add_round. cbn [run_unsent run_rounds]. unfold next_round. rewrite length_app. cbn [length].
  destruct (query_rounds _ _); [lia|].
  destruct (Nat.ltb_spec (length (run_rounds q) + 1) 3); lia.
Qed.

(** Queries are started with an id, by a resolver that is not shut down, and a query sends
    its packet at most once per round and three times in all. *)
Lemma running_started s n node :
  net_reachable DHTTP_SUFFIX s -> nodes s !! n = Some node ->
  Forall (fun q => run_id q <> 0 /\ proto (run_resolver q) = true
            /\ (run_unsent q <= S (length (run_rounds q)) /\ run_unsent q <= 3)%nat) (node_running node).
Proof.
  intros Hr. revert n node. induction Hr as [|s s' _ IH Hstep]; intros n node Hn; [set_solver|].
  destruct Hstep as [n' addr service device ip pn self Hn' _|n' x s' Hx Hstep].
  { cbn [set_node nodes] in Hn.
    apply lookup_insert_Some in Hn as [[<- <-]|[_ Hn]]; [constructor|by eapply IH]. }
  pose proof (IH n' x Hx) as Hall.
  destruct Hstep; rewrite ?send_nodes in Hn; cbn [set_node publish nodes] in Hn;
    apply lookup_insert_Some in Hn as [[<- <-]|[_ Hn]]; try (by eapply IH);
    cbn [with_resolver with_router with_running with_result node_running]; try done.
  { constructor; [split_and!; [done|done|cbn; lia..]|done]. }
  all: match goal with Hrun : node_running _ = _ ++ _ |- _ => rewrite Hrun in Hall end.
  1: { eapply Forall_middle; [exact Hall|]. cbn. intros (? & ? & ?). split_and!; [done..|lia|lia]. }
  1-2: eapply Forall_middle; [exact Hall|]; intros (? & ? & Hq); split_and!; [done..| |];
    by apply unsent_add_round.
  rewrite Forall_app, Forall_cons in Hall. apply Forall_app. tauto.
Qed.
(** The responder works off its queue until a request is the next one. *)
Lemma drain_requests b q a service table order m : forall ms s,
  Forall (fun '(n, es) => host_ok n es) order -> order ≡ₚ map_to_list table ->
  blen (answer_records order) < 2 ^ 16 ->
  net_reachable DHTTP_SUFFIX s -> answering s a service table (ms ++ [m]) -> asking s b q ->
  exists s', rtc (net_step DHTTP_SUFFIX) s s' /\ answering s' a service table [m] /\ asking s' b q.
Proof.
  induction ms as [|[src p] ms IH]; intros s Hok Hord Hlen Hr Ha Hb; [by exists s|].
  destruct Ha as (node & Hn & Hp & Hsv & Hh & Hreq).
  set (router := mkPacketRouter (ms ++ [m]) (queries (node_router node)) (responses (node_router node))
                   (next_channel (node_router node))).
  assert (receive_query (node_router node) = Some ((src, p), router)) as Hrq
    by (unfold receive_query; by rewrite Hreq).
  rewrite <- Hh in Hord. set (s1 := set_node a (with_router node router) s).
  assert (asking s1 b q) as Hb1 by (by apply asking_requests).
  assert (answering s1 a service table (ms ++ [m])) as Ha1
    by (exists (with_router node router); split; [apply lookup_insert_eq|by split_and!]).
  assert (exists s2, node_step DHTTP_SUFFIX a node s s2 /\ nodes s2 = nodes s1) as (s2 & Hstep & Hs2).
  { destruct (respond DHTTP_SUFFIX (service_name (node_resolver node)) order p) as [reply|] eqn:Hrep.
    - destruct (net_reachable_ok _ _ Hr) as [Hok' _]. pose proof (node_queues_ok _ _ _ (Hok' a node Hn)) as [Hq _].
      rewrite Hreq in Hq. apply Forall_cons_1 in Hq as [[Hid _] _].
      apply respond_reply in Hrep as Hr'. subst reply.
      destruct (answer_received _ order Hid Hlen Hok) as (enc & _ & E & _).
      destruct (broadcast_ok (ip (node_resolver node)) _ _ E) as [t Ht].
      eexists. split; [by eapply node_respond|done].
    - eexists. split; [by eapply node_ignore|done]. }
  destruct (IH s2) as (s' & Hs' & Ha' & Hb').
  { done. } { by rewrite <- Hh. } { done. }
  { eapply net_next; [exact Hr|]. by eapply net_node. }
  { unfold answering. rewrite Hs2. exact Ha1. }
  { unfold asking. rewrite Hs2. exact Hb1. }
  exists s'. split; [by eapply one_step|done].
Qed.

(** A broadcast that has not run sends the query, which waits in the queue of the responder. *)
Lemma ask s b q a service table reqs :
  net_reachable DHTTP_SUFFIX s -> asking s b q -> answering s a service table reqs ->
  run_unsent q <> 0%nat ->
  (forall data, to_bytes (query_with_id (run_id q) (run_local DHTTP_SUFFIX q)) = Some data ->
     blen data <= 9000) ->
  exists s' source query ms, rtc (net_step DHTTP_SUFFIX) s s' /\ asking s' b (task_done q)
    /\ answering s' a service table (ms ++ [(source, query)]) /\ packet_id query = run_id q
    /\ questions query = [mkQuestion (canonical_name (run_local DHTTP_SUFFIX q)) false QueryType.A
                            QueryClass.IN].
Proof.
  intros Hr (x & q1 & q2 & Hx & Hpx & Hrun & Hreg & Hst) Ha Hun Hfits.
  destruct (net_reachable_ok _ _ Hr) as [Hok _]. pose proof (node_running_ok _ _ _ (Hok b x Hx)) as Hall.
  rewrite Hrun in Hall. apply Forall_app in Hall as [_ Hall]. apply Forall_cons_1 in Hall as [(_ & Hid & Hname) _].
  destruct (proj1 (query_received (run_id q) _ Hid Hname)) as (data & query & E & Hp & Hi & Hq & Hqs).
  destruct (broadcast_ok (ip (node_resolver x)) _ _ E) as [t Ht].
  set (s1 := send (node_addr x) (Some (data, t)) (set_node b (with_running x (q1 ++ task_done q :: q2)) s)).
  pose proof (node_broadcast DHTTP_SUFFIX b x s q1 q q2 _ _ _ _ Hrun Hun Ht : node_step DHTTP_SUFFIX b x s s1) as S1.
  assert (asking s1 b (task_done q)) as Hb1 by (by apply asking_send, (asking_goes_on _ _ q)).
  assert (answering s1 a service table reqs) as Ha1 by (by apply answering_send, answering_goes_on).
  pose proof (net_next _ _ _ Hr (net_node _ _ b x _ Hx S1)) as Hr1.
  destruct Ha1 as (node & Hn & Hpr & Hsv & Hh & Hreq).
  assert (node_step DHTTP_SUFFIX a node s1 (set_node a (with_router node
    (deliver (node_router node) (node_addr x) query)) s1)) as S2.
  { eapply node_receive; [done|left|]. by apply (receive_ok _ _ []); [apply Hfits|]. }
  destruct (net_reachable_ok _ _ Hr1) as [Hok1 _].
  pose proof (node_router_ok _ _ _ (Hok1 a node Hn)) as [Hlen _]%reachable_ok.
  rewrite deliver_request in S2 by done.
  eexists _, (node_addr x), query, _. split; [|split; [|split]].
  - eapply one_step; [exact Hx|exact S1|]. eapply one_step; [exact Hn|exact S2|]. reflexivity.
  - by apply asking_requests.
  - eexists. split; [apply lookup_insert_eq|]. by split_and!.
  - done.
Qed.

(** A round without an answer is over, and the next one spawns its broadcast. *)
Lemma retry s b q a service table reqs :
  net_reachable DHTTP_SUFFIX s -> asking s b q -> answering s a service table reqs ->
  undecided DHTTP_SUFFIX q -> (length (run_rounds q) < 2)%nat ->
  let q' := add_round DHTTP_SUFFIX q RoundTimeout in
  exists s', rtc (net_step DHTTP_SUFFIX) s s' /\ asking s' b q' /\ answering s' a service table reqs
    /\ undecided DHTTP_SUFFIX q' /\ run_unsent q' <> 0%nat.
Proof.
  intros Hr (x & q1 & q2 & Hx & Hpx & Hrun & Hreg & Hst) Ha Hu Hl q'.
  pose proof (node_timeout DHTTP_SUFFIX b x s q1 q q2 Hrun Hu) as S1. destruct Hu as [Hu _].
  assert (query_rounds (run_local DHTTP_SUFFIX q) (run_rounds q ++ [RoundTimeout]) = Err TimedOut_query) as Hq'
    by (by rewrite query_rounds_more).
  exists (set_node b (with_running x (q1 ++ q' :: q2)) s).
  split; [by eapply one_step; [exact Hx|exact S1|]|]. split; [by apply (asking_goes_on _ _ q)|].
  split; [by apply answering_goes_on|].
  assert (length (run_rounds q ++ [RoundTimeout : Round]) < 3)%nat as Hl3 by (rewrite length_app; cbn; lia).
  split; [split; [exact Hq'|exact Hl3]|]. unfold q', add_round. cbn [run_unsent]. unfold next_round.
  rewrite Hq', (proj2 (Nat.ltb_lt _ _) Hl3). lia.
Qed.

(** A response that arrives while the query waits ends it. *)
Lemma collect_response s b q source data reply :
  net_reachable DHTTP_SUFFIX s -> asking s b q -> undecided DHTTP_SUFFIX q ->
  (source, data) ∈ sent s -> receive [Ok (source, data)] = Some (Ok (source, reply), []) ->
  is_query reply = true -> packet_id reply = run_id q ->
  response_endpoints (run_local DHTTP_SUFFIX q) reply <> [] ->
  exists s' node es, rtc (net_step DHTTP_SUFFIX) s s' /\ nodes s' !! b = Some node
    /\ (run_local DHTTP_SUFFIX q, Ok es) ∈ node_results node
    /\ es ≡ₚ response_endpoints (run_local DHTTP_SUFFIX q) reply.
Proof.
  intros Hr (x & q1 & q2 & Hx & Hp & Hrun & Hreg & Hs) [Hu Hl3] Hsent Hrec Hq Hid Hne.
  assert (run_id q <> 0 /\ proto (run_resolver q) = true) as [Hi0 Hpr].
  { pose proof (running_started _ _ _ Hr Hx) as Hall. rewrite Hrun in Hall.
    apply Forall_app in Hall as [_ Hall]. by apply Forall_cons in Hall as [(? & ? & _) _]. }
  assert (node_step DHTTP_SUFFIX b x s (set_node b (with_router x (deliver (node_router x) source reply)) s))
    as S1 by (by eapply node_receive).
  set (x1 := with_router x (deliver (node_router x) source reply)) in S1.
  destruct (deliver_waiting (node_router x) (run_id q) (run_channel q) source reply Hq Hid Hi0 Hreg Hs)
    as [router Hpoll].
  set (s1 := set_node b x1 s) in S1.
  pose proof (node_poll DHTTP_SUFFIX b x1 s1 q1 q q2 _ router Hrun (conj Hu Hl3) Hpoll) as S2.
  set (q' := add_round DHTTP_SUFFIX q (RoundResponse source reply)).
  set (x2 := with_running (with_router x1 router) (q1 ++ q' :: q2)).
  assert (query_rounds (run_local DHTTP_SUFFIX q') (run_rounds q')
    = Ok (source, response_endpoints (run_local DHTTP_SUFFIX q) reply)) as Hqr.
  { cbn [q' add_round run_rounds]. change (run_local DHTTP_SUFFIX q') with (run_local DHTTP_SUFFIX q).
    rewrite query_rounds_more by done. cbn [query_rounds]. by destruct (response_endpoints _ reply). }
  assert (~ undecided DHTTP_SUFFIX q') as Hd by (intros [Hu' _]; by rewrite Hqr in Hu').
  pose proof (node_finish DHTTP_SUFFIX b x2 (set_node b x2 s1) q1 q' q2 eq_refl Hd) as S3.
  destruct (mdns_query_returns DHTTP_SUFFIX (run_resolver q') (run_id q') (run_domain q')
    (fun _ => run_rounds q') source (response_endpoints (run_local DHTTP_SUFFIX q) reply) Hpr Hi0)
    as (es & Hes & Hperm).
  { rewrite take_ge; [exact Hqr|]. cbn. rewrite length_app. cbn. lia. }
  eexists _, _, es. split; [|split; [|split]].
  - eapply one_step; [exact Hx|exact S1|].
    eapply (one_step _ b x1); [apply lookup_insert_eq|exact S2|].
    eapply (one_step _ b x2); [apply lookup_insert_eq|exact S3|]. reflexivity.
  - apply lookup_insert_eq.
  - cbn [with_result node_results]. rewrite Hes. left.
  - exact Hperm.
Qed.

(** The responder answers a question for one of its hosts. *)
Lemma responds_to node order query q eps :
  questions query = [mkQuestion (canonical_name (run_local DHTTP_SUFFIX q)) false QueryType.A QueryClass.IN] ->
  packet_id query = run_id q -> (run_local DHTTP_SUFFIX q, eps) ∈ order ->
  canonical_name (run_local DHTTP_SUFFIX q) = run_local DHTTP_SUFFIX q ->
  strip_suffix DHTTP_SUFFIX (run_local DHTTP_SUFFIX q) = None ->
  respond DHTTP_SUFFIX (service_name (node_resolver node)) order query = Some (answer (run_id q) order).
Proof.
  intros Hqs Hid Hin Hcl Hstrip. set (local := run_local DHTTP_SUFFIX q) in *.
  unfold respond. rewrite Hqs, Hid. cbn [existsb q_name]. rewrite orb_false_r.
  rewrite (proj2 (existsb_exists _ _)); [done|]. exists local.
  split; [|rewrite Hcl; apply contains_refl]. apply in_map_iff.
  exists (local, eps). split; [unfold local_name; by rewrite Hstrip|by apply list_elem_of_In].
Qed.

(** The hosts of a reachable node can be written to a message. *)
Lemma answering_hosts s a service table reqs order :
  net_reachable DHTTP_SUFFIX s -> answering s a service table reqs -> order ≡ₚ map_to_list table ->
  Forall (fun '(n, es) => host_ok n es) order.
Proof.
  intros [Hok _]%net_reachable_ok (node & Hn & _ & _ & <- & _) Hord.
  pose proof (node_hosts_ok _ _ _ (Hok a node Hn)) as Hh. apply Forall_forall. intros [k es].
  rewrite Hord. intros Hk%elem_of_map_to_list. apply (Hh k es Hk).
Qed.

(** While a broadcast has not run: what the responder publishes reaches the query. *)
Lemma broadcast_delivers s a b q service table reqs order eps data :
  let local := run_local DHTTP_SUFFIX q in
  net_reachable DHTTP_SUFFIX s -> asking s b q -> undecided DHTTP_SUFFIX q -> run_unsent q <> 0%nat ->
  answering s a service table reqs ->
  table !! local = Some eps -> eps <> [] -> canonical_name local = local ->
  strip_suffix DHTTP_SUFFIX local = None -> order ≡ₚ map_to_list table ->
  (forall data, to_bytes (query_with_id (run_id q) local) = Some data -> blen data <= 9000) ->
  to_bytes (answer (run_id q) order) = Some data -> blen data <= 9000 ->
  exists s' node es, rtc (net_step DHTTP_SUFFIX) s s' /\ nodes s' !! b = Some node
    /\ (local, Ok es) ∈ node_results node /\ es ≡ₚ map wire_endpoint (hosted_as local order).
Proof.
  intros local Hr Hb Hu Hun Ha Hl Hne Hcl Hstrip Hord Hquery Hans Hfits.
  pose proof (answering_hosts _ _ _ _ _ _ Hr Ha Hord) as Hok.
  assert ((local, eps) ∈ order) as Hin by (rewrite Hord; by apply elem_of_map_to_list).
  pose proof (answer_size _ _ _ (hosts_writable order Hok) Hans) as Hsize.
  assert (blen (answer_records order) < 2 ^ 16) as Hlen by lia.
  destruct (ask s b q a service table reqs Hr Hb Ha Hun Hquery)
    as (s1 & source & query & ms & R1 & Hb1 & Ha1 & Hid & Hqs).
  pose proof (net_steps_reachable _ _ R1 Hr) as Hr1.
  destruct (drain_requests b (task_done q) a service table order (source, query) ms s1 Hok Hord Hlen Hr1 Ha1 Hb1)
    as (s2 & R2 & (node & Hn & Hp & Hsv & Hh & Hreq) & Hb2).
  pose proof (net_steps_reachable _ _ R2 Hr1) as Hr2.
  assert (u_ok 16 (run_id q)) as Hu16.
  { destruct (net_reachable_ok _ _ Hr2) as [Hok' _].
    pose proof (node_queues_ok _ _ _ (Hok' a node Hn)) as [Hq _]. rewrite Hreq in Hq.
    apply Forall_cons_1 in Hq as [[Hq _] _]. by rewrite <- Hid. }
  destruct (answer_received _ order Hu16 Hlen Hok) as (enc & reply & Ea & Er & Ei & Eq & Ean & _).
  rewrite Ea in Hans. injection Hans as ->.
  pose proof (responds_to node order query q eps Hqs Hid Hin Hcl Hstrip) as Hresp.
  destruct (broadcast_ok (ip (node_resolver node)) _ _ Ea) as [t Ht]. rewrite <- Hh in Hord.
  pose proof (node_respond DHTTP_SUFFIX a node s2 source query (mkPacketRouter [] (queries (node_router node))
    (responses (node_router node)) (next_channel (node_router node))) order _ _ _ _ _ Hp
    ltac:(unfold receive_query; by rewrite Hreq) Hord Hresp Ht) as S3. cbn [transmitted] in S3.
  assert (response_endpoints local reply = map wire_endpoint (hosted_as local order)) as Heps.
  { rewrite <- endpoints_hosted. unfold response_endpoints, endpoints_in. by rewrite Ean. }
  destruct (collect_response _ b (task_done q) (node_addr node) data reply
    (net_next _ _ _ Hr2 (net_node _ _ a node _ Hn S3))) as (s' & x & es & R4 & Hx & Hes & Hperm).
  { by apply asking_send, asking_requests. }
  { done. } { left. } { by apply (receive_ok _ _ []). } { done. } { done. }
  { change (run_local DHTTP_SUFFIX (task_done q)) with local. rewrite Heps.
    destruct eps as [|e eps]; [done|]. pose proof (hosted_as_elem local _ _ order Hin Hcl e ltac:(left)) as He.
    by destruct (hosted_as local order); [apply not_elem_of_nil in He|]. }
  exists s', x, es. change (run_local DHTTP_SUFFIX (task_done q)) with local in *. rewrite Heps in Hperm.
  split; [|by split_and!]. etransitivity; [exact R1|]. etransitivity; [exact R2|]. by eapply one_step.
Qed.

(** The same from any state in which a broadcast is still to come. *)
Lemma network_delivers s a b q service table reqs order eps data :
  let local := run_local DHTTP_SUFFIX q in
  net_reachable DHTTP_SUFFIX s -> asking s b q -> undecided DHTTP_SUFFIX q ->
  run_unsent q <> 0%nat \/ (length (run_rounds q) < 2)%nat ->
  answering s a service table reqs ->
  table !! local = Some eps -> eps <> [] -> canonical_name local = local ->
  strip_suffix DHTTP_SUFFIX local = None -> order ≡ₚ map_to_list table ->
  (forall data, to_bytes (query_with_id (run_id q) local) = Some data -> blen data <= 9000) ->
  to_bytes (answer (run_id q) order) = Some data -> blen data <= 9000 ->
  exists s' node es, rtc (net_step DHTTP_SUFFIX) s s' /\ nodes s' !! b = Some node
    /\ (local, Ok es) ∈ node_results node /\ es ≡ₚ map wire_endpoint (hosted_as local order).
Proof.
  intros local Hr Hb Hu Hleft Ha Hl Hne Hcl Hstrip Hord Hquery Hans Hfits.
  destruct (decide (run_unsent q = 0%nat)) as [H0|Hun]; [|by eapply broadcast_delivers].
  destruct Hleft as [|Hlen]; [done|].
  destruct (retry s b q a service table reqs Hr Hb Ha Hu Hlen) as (s1 & R1 & Hb1 & Ha1 & Hu1 & Hun1).
  destruct (broadcast_delivers s1 a b (add_round DHTTP_SUFFIX q RoundTimeout) service table reqs order eps data
    (net_steps_reachable _ _ R1 Hr) Hb1 Hu1 Hun1 Ha1 Hl Hne Hcl Hstrip Hord Hquery Hans Hfits)
    as (s' & x & es & R2 & Hres).
  exists s', x, es. split; [by etransitivity|exact Hres].
Qed.
End Progress.

(** ** Properties *)

(** C9: mDNS only returns what was published.  In a network of resolvers that join,
    publish, withdraw, query and shut down in any order, over a medium that may
    lose, reorder, repeat and delay datagrams, every endpoint a finished query
    returned for a local name is the wire form of one that some resolver published
    under that name.  Answers too large for a datagram, with their wrapped record
    counts, are included: they are never accepted. *)
Theorem mdns_network_sound `{CertificatesSpec} `{NomSpec} `{BufMutSpec} `{BitfieldSpec}
    (DHTTP_SUFFIX : bytes) (s : Net) (n : nat) (node : Node) (local : bytes) (eps : list EndpointAddr)
    (e : EndpointAddr) :
  net_reachable DHTTP_SUFFIX s -> nodes s !! n = Some node ->
  (local, Ok eps) ∈ node_results node -> e ∈ eps ->
  exists name es e0, (name, es) ∈ published s /\ canonical_name name = local
    /\ e0 ∈ es /\ e = wire_endpoint e0.
Proof.
  intros [Hn _]%net_reachable_ok Hnode Hr He. destruct (Hn n node Hnode) as [_ _ _ _ H5].
  rewrite Forall_forall in H5. specialize (H5 _ Hr). cbn in H5. rewrite Forall_forall in H5.
  exact (H5 e He).
Qed.

(** A node that finds a host it published itself, over the multicast loopback. *)
Section Loopback.
Context `{CS : CertificatesSpec} `{NS : NomSpec} `{BS : BufMutSpec} `{FS : BitfieldSpec}.
Context (DHTTP_SUFFIX service device host : bytes) (addr : SocketAddr) (address : IpAddr).
Context (eps : list EndpointAddr) (i : Z).

Let local := local_name DHTTP_SUFFIX service host.
Let self0 : MdnsResolver := mkMdnsResolver service device address ∅ true.
Let self := insert_host DHTTP_SUFFIX self0 host eps.
Let router : PacketRouter := (register_query PacketRouter_new i).2.
Let q rounds := mkRunning self host i 0 rounds 1.
Let node r running results := mkNode addr self r running results.

Context (Hhost : host_ok local eps).
Context (Hlocal : local_name DHTTP_SUFFIX service (to_ascii_lowercase (trim_end_matches dot host)) = local).
Context (Hi : u_ok 16 i) (Hi0 : i <> 0).

Lemma step_at s n x s' :
  net_reachable DHTTP_SUFFIX s -> nodes s !! n = Some x -> node_step DHTTP_SUFFIX n x s s' ->
  net_reachable DHTTP_SUFFIX s'.
Proof. intros Hs Hx Hstep. eapply net_next; [exact Hs|]. by eapply net_node. Qed.

(** The state of the only node, with what was sent and published. *)
Definition at_node (s : Net) x d : Prop :=
  net_reachable DHTTP_SUFFIX s /\ nodes s !! 0%nat = Some x /\ sent s = d /\ published s = [(local, eps)].

Lemma loopback_registered : exists s, at_node s (node router [q []] []) [].
Proof using All.
  pose proof (net_next _ _ _ (net_initial DHTTP_SUFFIX)
    (net_join _ Net_new 0 addr service device address (fun _ _ => Ok tt) self0 (lookup_empty _) eq_refl))
    as R1.
  pose proof (step_at _ 0 _ _ R1 (lookup_insert_eq _ _ _)
    (node_publish _ 0 (mkNode addr self0 PacketRouter_new [] []) _ host eps Hhost)) as R2.
  assert (name_ok (run_local DHTTP_SUFFIX (q []))) as Hname.
  { rewrite (Hlocal : run_local DHTTP_SUFFIX (q []) = local). apply Hhost. }
  pose proof (step_at _ 0 _ _ R2 (lookup_insert_eq _ _ _)
    (node_query _ 0 (node PacketRouter_new [] []) _ host i 0 router eq_refl Hi Hi0 eq_refl Hname)) as R3.
  eexists. split; [exact R3|]. split; [apply lookup_insert_eq|done].
Qed.

Lemma loopback_waiting : exists s, net_reachable DHTTP_SUFFIX s /\ asking s 0 (q [])
  /\ answering s 0 service {[local := eps]} [].
Proof using All.
  destruct loopback_registered as (s & R & Hn & Hs & Hp). exists s. split; [done|]. split.
  - exists (node router [q []] []), [], []. split_and!; [done|done|done|apply lookup_insert_eq..].
  - exists (node router [q []] []). split_and!; [done|done|done| |done]. cbn. by rewrite insert_empty.
Qed.
End Loopback.

(** A concrete resolver that queries its own host. *)
Abbreviation sample_query := (mkRunning (C := CertModel.certificates)
  (insert_host (str ".dhttp.net") (mkMdnsResolver (str "_x.local") (str "eth0") (IpV4 1) ∅ true)
     (str "a.dhttp.net") [sample_endpoint]) (str "a.dhttp.net") 7 0 [] 1).
Abbreviation sample_local := (str "a._x.local").

Lemma sample_waiting : exists s,
  net_reachable (C := CertModel.certificates) (N := NomModel.nom) (B := NomModel.buf_mut)
    (F := BitfieldModel.bitfield) (str ".dhttp.net") s
  /\ asking s 0 sample_query
  /\ answering s 0 (str "_x.local") {[sample_local := [sample_endpoint]]} [].
Proof.
  apply (loopback_waiting (CS := CertModel.certificates_spec) (NS := NomModel.nom_spec)
    (BS := NomModel.buf_mut_spec) (FS := BitfieldModel.bitfield_spec) (str ".dhttp.net") (str "_x.local")
    (str "eth0") (str "a.dhttp.net") (V4 (mkSocketAddrV4 1 5353)) (IpV4 1) [sample_endpoint] 7).
  - split; [decide_now|]. constructor; [split; decide_now|constructor].
  - reflexivity.
  - decide_now.
  - done.
Qed.

Lemma to_bytes_within `{Certificates} `{BufMut} (p : Packet) :
  match to_bytes p with Some d => blen d <=? 9000 | None => false end = true ->
  exists data, to_bytes p = Some data /\ blen data <= 9000.
Proof. destruct (to_bytes p) as [d|]; [|done]. intros Hb. exists d. by apply Z.leb_le in Hb. Qed.

(** The query and the answer fit a datagram. *)
Lemma sample_sizes :
  (forall data, to_bytes (C := CertModel.certificates) (B := NomModel.buf_mut)
     (query_with_id (F := BitfieldModel.bitfield) 7 sample_local) = Some data -> blen data <= 9000)
  /\ exists data, to_bytes (C := CertModel.certificates) (B := NomModel.buf_mut)
       (answer (F := BitfieldModel.bitfield) 7 [(sample_local, [sample_endpoint])]) = Some data
       /\ blen data <= 9000.
Proof.
  split.
  - destruct (to_bytes_within (H := CertModel.certificates) (H0 := NomModel.buf_mut)
      (query_with_id (F := BitfieldModel.bitfield) 7 sample_local)) as (d & E & Hd); [vm_compute; reflexivity|].
    rewrite E. by intros data [= <-].
  - apply to_bytes_within. vm_compute. reflexivity.
Qed.

Lemma sample_network : exists s x es,
  net_reachable (C := CertModel.certificates) (N := NomModel.nom) (B := NomModel.buf_mut)
    (F := BitfieldModel.bitfield) (str ".dhttp.net") s
  /\ nodes s !! 0%nat = Some x /\ (sample_local, Ok es) ∈ node_results x
  /\ es ≡ₚ map wire_endpoint [sample_endpoint].
Proof.
  destruct sample_waiting as (s & R & Hb & Ha). destruct sample_sizes as (Hq & data & Ed & Hd).
  destruct (network_delivers (CS := CertModel.certificates_spec) (NS := NomModel.nom_spec)
    (BS := NomModel.buf_mut_spec) (FS := BitfieldModel.bitfield_spec) (str ".dhttp.net") s 0 0 sample_query
    (str "_x.local") {[sample_local := [sample_endpoint]]} [] [(sample_local, [sample_endpoint])]
    [sample_endpoint] data R Hb) as (s' & x & es & R' & Hx & Hes & Hperm);
    [split; [done|cbn; lia]|by left|exact Ha|apply lookup_singleton_eq|done|reflexivity|reflexivity| |exact Hq
    |exact Ed|exact Hd|].
  - by rewrite map_to_list_singleton.
  - exists s', x, es. split_and!; [by eapply net_steps_reachable|exact Hx|exact Hes|exact Hperm].
Qed.

Example mdns_network_sound_witness : exists s x,
  net_reachable (C := CertModel.certificates) (N := NomModel.nom) (B := NomModel.buf_mut)
    (F := BitfieldModel.bitfield) (str ".dhttp.net") s
  /\ nodes s !! 0%nat = Some x /\ node_results x <> []
  /\ forall es e, (str "a._x.local", Ok es) ∈ node_results x -> e ∈ es ->
       exists name es' e0, (name, es') ∈ published s /\ e0 ∈ es' /\ e = wire_endpoint e0.
Proof.
  destruct sample_network as (s & x & es & Hr & Hx & Hin & _). exists s, x.
  split; [exact Hr|]. split; [exact Hx|]. split; [by intros E; rewrite E in Hin; apply not_elem_of_nil in Hin|].
  intros es' e Hin' He.
  destruct (mdns_network_sound (H := CertModel.certificates_spec) (H0 := NomModel.nom_spec)
    (H1 := NomModel.buf_mut_spec) (H2 := BitfieldModel.bitfield_spec) (str ".dhttp.net") s 0 x
    (str "a._x.local") es' e Hr Hx Hin' He) as (name & es0 & e0 & Hp & _ & He0 & Heq).
  by exists name, es0, e0.
Defined.

(** C10: mDNS delivers what is published, in every round.  Take any reachable state of the
    network, in which a query waits with an empty stream under its own registration and a
    broadcast of it is still to come: one that was spawned has not run, or the query is in
    its first or second round, whatever became of the broadcasts before; and a running
    resolver, possibly the same one, has endpoints for the queried name in its table.
    Then the network can go on, with one broadcast per round, so that the query returns
    exactly the endpoints of the resolver's hosts whose names are read back as that name,
    whatever requests are queued before it and whatever other hosts the resolver has,
    provided the query and the answer fit a datagram and the name, in canonical form, does
    not itself end in the suffix that is replaced. *)
Theorem mdns_network_live `{CertificatesSpec} `{NomSpec} `{BufMutSpec} `{BitfieldSpec}
    (DHTTP_SUFFIX : bytes) (s : Net) (a b : nat) (q : Running) (service : bytes)
    (table : gmap (list Z) (list EndpointAddr)) (reqs : list (SocketAddr * Packet))
    (order : list (bytes * list EndpointAddr)) (eps : list EndpointAddr) (data : bytes) :
  let local := run_local DHTTP_SUFFIX q in
  net_reachable DHTTP_SUFFIX s -> asking s b q -> undecided DHTTP_SUFFIX q ->
  run_unsent q <> 0%nat \/ (length (run_rounds q) < 2)%nat ->
  answering s a service table reqs ->
  table !! local = Some eps -> eps <> [] -> canonical_name local = local ->
  strip_suffix DHTTP_SUFFIX local = None -> order ≡ₚ map_to_list table ->
  (forall data, to_bytes (query_with_id (run_id q) local) = Some data -> blen data <= 9000) ->
  to_bytes (answer (run_id q) order) = Some data -> blen data <= 9000 ->
  exists s' node es, rtc (net_step DHTTP_SUFFIX) s s' /\ nodes s' !! b = Some node
    /\ (local, Ok es) ∈ node_results node
    /\ es ≡ₚ map wire_endpoint (hosted_as local (map_to_list table)).
Proof.
  intros local Hr Hb Hu Hleft Ha Hl Hne Hcl Hstrip Hord Hq Hd Hf.
  destruct (network_delivers _ s a b q service table reqs order eps data Hr Hb Hu Hleft Ha Hl Hne Hcl
    Hstrip Hord Hq Hd Hf) as (s' & x & es & R & Hx & Hin & Hp).
  exists s', x, es. split_and!; [done..|]. etransitivity; [exact Hp|].
  by apply Permutation_map, hosted_as_perm.
Qed.

(** The second round of a query whose first broadcast failed. *)
Lemma sample_second_round : exists s q,
  net_reachable (C := CertModel.certificates) (N := NomModel.nom) (B := NomModel.buf_mut)
    (F := BitfieldModel.bitfield) (str ".dhttp.net") s
  /\ asking s 0 q /\ undecided (str ".dhttp.net") q /\ run_rounds q = [RoundTimeout]
  /\ run_local (str ".dhttp.net") q = sample_local /\ run_id q = 7
  /\ answering s 0 (str "_x.local") {[sample_local := [sample_endpoint]]} [].
Proof.
  destruct sample_waiting as (s & R & Hb & Ha). pose proof Hb as (x & q1 & q2 & Hx & Hp & Hrun & Hreg & Hs).
  assert (exists d, broadcast_packet (B := NomModel.buf_mut) (Err []) (fun _ _ => Ok tt)
    (query_with_id (C := CertModel.certificates) (F := BitfieldModel.bitfield) 7 sample_local)
    = Some (None, d)) as [d Hd].
  { destruct (to_bytes_within (H := CertModel.certificates) (H0 := NomModel.buf_mut)
      (query_with_id (F := BitfieldModel.bitfield) 7 sample_local)) as (data & E & _);
      [vm_compute; reflexivity|]. unfold broadcast_packet. rewrite E. by eexists. }
  pose proof (node_broadcast (N := NomModel.nom) (str ".dhttp.net") 0 x s q1 sample_query q2 _ _ _ _ Hrun (Nat.neq_succ_0 0) Hd) as S1.
  assert (transmitted None d = None) as Et by (by destruct d). rewrite Et in S1. cbn [send] in S1.
  set (s1 := set_node 0 (with_running x (q1 ++ task_done sample_query :: q2)) s) in S1.
  pose proof (net_next _ _ _ R (net_node _ _ 0 x _ Hx S1)) as R1.
  assert (asking s1 0 (task_done sample_query)) as Hb1 by (by apply (asking_goes_on _ _ sample_query)).
  assert (answering s1 0 (str "_x.local") {[sample_local := [sample_endpoint]]} []) as Ha1
    by (by apply answering_goes_on).
  destruct (retry (N1 := NomModel.nom) (B := NomModel.buf_mut) (F := BitfieldModel.bitfield)
    (str ".dhttp.net") s1 0 (task_done sample_query) 0 _ _ _ R1 Hb1 Ha1) as (s2 & R2 & Hb2 & Ha2 & Hu2 & _);
    [split; [done|cbn; lia]|cbn; lia|].
  eexists s2, _. split; [by eapply net_steps_reachable|]. split; [exact Hb2|].
  split; [exact Hu2|]. by split_and!.
Qed.

Example mdns_network_live_witness : exists s q s' node es,
  asking (C := CertModel.certificates) s 0 q /\ run_rounds q = [RoundTimeout]
  /\ rtc (net_step (N := NomModel.nom) (B := NomModel.buf_mut) (F := BitfieldModel.bitfield)
           (str ".dhttp.net")) s s'
  /\ nodes s' !! 0%nat = Some node /\ (sample_local, Ok es) ∈ node_results node
  /\ es ≡ₚ map wire_endpoint [sample_endpoint].
Proof.
  destruct sample_second_round as (s & q & R & Hb & Hu & Hq2 & Hlocal & Hid & Ha).
  destruct sample_sizes as (Hq & data & Ed & Hd).
  destruct (mdns_network_live (H := CertModel.certificates_spec) (H0 := NomModel.nom_spec)
    (H1 := NomModel.buf_mut_spec) (H2 := BitfieldModel.bitfield_spec) (str ".dhttp.net") s 0 0 q
    (str "_x.local") {[sample_local := [sample_endpoint]]} [] [(sample_local, [sample_endpoint])]
    [sample_endpoint] data R Hb Hu) as (s' & x & es & Hl); rewrite ?Hlocal, ?Hid;
    [right; rewrite Hq2; cbn; lia|exact Ha|apply lookup_singleton_eq|done|reflexivity|reflexivity| |exact Hq
    |exact Ed|exact Hd|].
  - by rewrite map_to_list_singleton.
  - rewrite Hlocal in Hl. exists s, q, s', x, es. split; [exact Hb|]. split; [exact Hq2|].
    rewrite map_to_list_singleton in Hl. exact Hl.
Defined.
