(* ===== verification/ErrorReport.v ===== *)
(** * Errors of the aggregates and their text: src/publishers/aggregate.rs and src/resolvers.rs

    A [dyn std::error::Error] is the text its [Display] writes and its [source], the
    error that caused it.  Aggregates report the errors of their members with the
    whole chain of causes of each. *)

From stdpp Require Import base list numbers option sets.
From S2P Require Import Prelude RustString.

Inductive StdError := mkStdError (error_text : bytes) (error_source : option StdError).

Definition text (e : StdError) : bytes := let '(mkStdError t _) := e in t.
Definition source_of (e : StdError) : option StdError := let '(mkStdError _ s) := e in s.

(** [io::Error::other] shows and unwraps what it was made from. *)
Definition io_other (display : bytes) (cause : option StdError) : StdError := mkStdError display cause.

(** ** The report

    The [while let] over the causes: one numbered line for each. *)
Fixpoint format_sources (error : StdError) (index : Z) : bytes :=
  match error with
  | mkStdError _ None => []
  | mkStdError _ (Some source) =>
      10 :: str "    " ++ decimal index ++ str ". " ++ text source ++ format_sources source (index + 1)
  end.

Fixpoint format_failure_lines (failures : list (bytes * StdError)) : bytes :=
  match failures with
  | [] => []
  | (publisher, error) :: failures =>
      10 :: str "  - " ++ publisher ++ str ": " ++ text error ++ format_sources error 1
        ++ format_failure_lines failures
  end.

Definition format_failures (heading : bytes) (failures : list (bytes * StdError)) : bytes :=
  heading ++ format_failure_lines failures.

(** [Display] of [ResolversError] and [PublishersError]. *)
Definition display_resolvers_error (errors : list (bytes * StdError)) : bytes :=
  match errors with
  | [] => str "no DNS resolvers available"
  | _ => format_failures (str "all DNS resolvers failed") errors
  end.
Definition display_publishers_error (errors : list (bytes * StdError)) : bytes :=
  match errors with
  | [] => str "no DNS publishers available"
  | _ => format_failures (str "all DNS publishers failed") errors
  end.

(** [Error::source] of both: the error of the first member. *)
Definition first_error (errors : list (bytes * StdError)) : option StdError :=
  match errors with
  | [] => None
  | (_, error) :: _ => Some error
  end.

(** ** The lines of a report *)

(** The causes of an error, the nearest first. *)
Fixpoint causes (error : StdError) : list bytes :=
  match error with
  | mkStdError _ None => []
  | mkStdError _ (Some source) => text source :: causes source
  end.

Fixpoint cause_lines (index : Z) (l : list bytes) : list bytes :=
  match l with
  | [] => []
  | t :: l => (str "    " ++ decimal index ++ str ". " ++ t) :: cause_lines (index + 1) l
  end.

Definition failure_lines (failures : list (bytes * StdError)) : list bytes :=
  flat_map (fun '(l, e) => (str "  - " ++ l ++ str ": " ++ text e) :: cause_lines 1 (causes e)) failures.

(** No part of the report spans several lines. *)
Definition one_line (t : bytes) : Prop := 10 ∉ t.
Definition failure_one_line (x : bytes * StdError) : Prop :=
  one_line x.1 /\ one_line (text x.2) /\ Forall one_line (causes x.2).

Lemma StdError_ind' (P : StdError -> Prop) :
  (forall t, P (mkStdError t None)) -> (forall t e, P e -> P (mkStdError t (Some e))) -> forall e, P e.
Proof.
  intros Hn Hs. fix IH 1. intros [t [e|]]; [apply Hs, IH|apply Hn].
Qed.

Lemma decimal_one_line n : 0 <= n -> one_line (decimal n).
Proof.
  intros Hn Hin. pose proof (decimal_digits n Hn) as Hd. rewrite Forall_forall in Hd.
  by specialize (Hd 10 Hin).
Qed.

(** What follows a line is either the end or a new line. *)
Definition line_end (rest : bytes) : Prop := rest = [] \/ exists r, rest = 10 :: r.

Lemma split_line t rest : one_line t -> line_end rest ->
  split_on 10 (t ++ rest) = t :: tail (split_on 10 rest).
Proof.
  intros Ht [->|[r ->]]; [rewrite app_nil_r, split_on_none by done; done|].
  by rewrite split_on_app by done.
Qed.

Lemma one_line_app a b : one_line a -> one_line b -> one_line (a ++ b).
Proof. unfold one_line. set_solver. Qed.

Lemma sources_end e i rest : line_end rest -> line_end (format_sources e i ++ rest).
Proof. destruct e as [t [s|]]; [|done]. intros _. right. eexists. reflexivity. Qed.

Lemma failures_end fs : line_end (format_failure_lines fs).
Proof. destruct fs as [|[l e] fs]; [by left|right]. eexists. reflexivity. Qed.

Lemma format_sources_lines rest : line_end rest -> forall e i,
  0 <= i -> Forall one_line (causes e) ->
  tail (split_on 10 (format_sources e i ++ rest))
  = cause_lines i (causes e) ++ tail (split_on 10 rest).
Proof.
  intros Hrest e. induction e as [t|t e IH] using StdError_ind'; intros i Hi Hc; [done|].
  cbn [causes cause_lines] in *. apply Forall_cons in Hc as [Ht Hc].
  cbn [format_sources]. rewrite <- app_comm_cons. cbn [split_on]. rewrite Z.eqb_refl. cbn [tail].
  set (line := str "    " ++ decimal i ++ str ". " ++ text e).
  replace ((str "    " ++ decimal i ++ str ". " ++ text e ++ format_sources e (i + 1)) ++ rest)
    with (line ++ (format_sources e (i + 1) ++ rest)) by (unfold line; by rewrite <- !app_assoc).
  rewrite split_line; [|unfold line|by apply sources_end].
  - rewrite IH by (done || lia). by rewrite app_comm_cons.
  - apply one_line_app; [by vm_compute; set_solver|]. apply one_line_app; [by apply decimal_one_line|].
    apply one_line_app; [by vm_compute; set_solver|done].
Qed.

Lemma failure_lines_tail fs : Forall failure_one_line fs ->
  tail (split_on 10 (format_failure_lines fs)) = failure_lines fs.
Proof.
  induction 1 as [|[l e] fs (Hl & Ht & Hc) Hfs IH]; [done|]. cbn [fst snd] in *.
  cbn [format_failure_lines split_on]. rewrite Z.eqb_refl. cbn [tail].
  set (line := str "  - " ++ l ++ str ": " ++ text e).
  replace (str "  - " ++ l ++ str ": " ++ text e ++ format_sources e 1 ++ format_failure_lines fs)
    with (line ++ (format_sources e 1 ++ format_failure_lines fs))
    by (unfold line; by rewrite <- !app_assoc).
  rewrite split_line; [|unfold line|apply sources_end, failures_end].
  - rewrite format_sources_lines, IH by (apply failures_end || done || lia). done.
  - apply one_line_app; [by vm_compute; set_solver|]. apply one_line_app; [done|].
    apply one_line_app; [by vm_compute; set_solver|done].
Qed.

(** The text of a failed publication or lookup shows every member that failed, in
    order, and below it the numbered chain of its causes, each on a line of its
    own; nothing is left out or shown twice. *)
Theorem report_complete (heading : bytes) (failures : list (bytes * StdError)) :
  one_line heading -> Forall failure_one_line failures ->
  split_on 10 (format_failures heading failures) = heading :: failure_lines failures.
Proof.
  intros Hh Hf. unfold format_failures. rewrite split_line by (done || apply failures_end).
  by rewrite failure_lines_tail.
Qed.

Example report_complete_witness :
  split_on 10 (display_resolvers_error
    [(str "h3", mkStdError (str "request failed") (Some (mkStdError (str "timed out") None)));
     (str "mdns", mkStdError (str "no record") None)])
  = [str "all DNS resolvers failed"; str "  - h3: request failed"; str "    1. timed out";
     str "  - mdns: no record"].
Proof.
  cbn [display_resolvers_error]. rewrite report_complete; [reflexivity| |].
  - vm_compute. set_solver.
  - repeat constructor; vm_compute; set_solver.
Defined.
