(* ===== verification/Display.v ===== *)
(** * Text of messages and records: [Display] and [Debug] of src/core/parser

    Numbers, records and messages as the crate prints them.  A printed message has one
    line for each of its questions and records, under the heading of its section, as long
    as the names it prints unescaped have no line break. *)

From stdpp Require Import base list numbers option sets.
From S2P Require Import Prelude RustString RustFmt VarInt DnsName DnsHeader Question Certificate Endpoint Records Packet ErrorReport.

(** ** Variable-length integers: [{}], [{:x}] and the error *)
Definition varint_display (v : VarInt) : bytes := decimal (varint_value v).
Definition varint_lower_hex (v : VarInt) : bytes := hex (varint_value v).
Definition to_ascii_uppercase (l : bytes) : bytes :=
  map (fun b => if in_range 97 122 b then b - 32 else b) l.
Definition varint_upper_hex (v : VarInt) : bytes := to_ascii_uppercase (hex (varint_value v)).
Definition overflow_display (e : Overflow) : bytes :=
  str "Value(" ++ decimal (overflow_value e) ++ str ") too large for varint encoding".

(** [Display for StatusMessage] of src/h3.rs: the reason that follows a status. *)
Definition status_message_display (message : bytes) : bytes :=
  if bool_decide (message = []) then [] else str ": " ++ message.

(** ** Enumerations: their derived [Debug] *)
Definition reserved (value : Z) : bytes := str "Reserved(" ++ decimal value ++ str ")".

Definition opcode_debug (o : Opcode.t) : bytes :=
  match o with
  | Opcode.StandardQuery => str "StandardQuery"
  | Opcode.InverseQuery => str "InverseQuery"
  | Opcode.ServerStatusRequest => str "ServerStatusRequest"
  | Opcode.Reserved value => reserved value
  end.

Definition response_code_debug (r : ResponseCode.t) : bytes :=
  match r with
  | ResponseCode.NoError => str "NoError"
  | ResponseCode.FormatError => str "FormatError"
  | ResponseCode.ServerFailure => str "ServerFailure"
  | ResponseCode.NameError => str "NameError"
  | ResponseCode.NotImplemented => str "NotImplemented"
  | ResponseCode.Refused => str "Refused"
  | ResponseCode.Reserved value => reserved value
  end.

Definition query_type_debug (t : QueryType.t) : bytes :=
  match t with
  | QueryType.A => str "A"
  | QueryType.AAAA => str "AAAA"
  | QueryType.Cname => str "Cname"
  | QueryType.Txt => str "Txt"
  | QueryType.Srv => str "Srv"
  | QueryType.Ptr => str "Ptr"
  | QueryType.E => str "E"
  | QueryType.E6 => str "E6"
  | QueryType.EE => str "EE"
  | QueryType.EE6 => str "EE6"
  end.

Definition query_class_debug (c : QueryClass.t) : bytes :=
  match c with
  | QueryClass.IN => str "IN"
  | QueryClass.CS => str "CS"
  | QueryClass.CH => str "CH"
  | QueryClass.HS => str "HS"
  | QueryClass.Any => str "Any"
  end.

Definition class_debug (c : RClass.t) : bytes :=
  match c with
  | RClass.IN => str "IN"
  | RClass.CS => str "CS"
  | RClass.CH => str "CH"
  | RClass.HS => str "HS"
  end.

Definition type_debug (t : RType.t) : bytes :=
  match t with
  | RType.A => str "A"
  | RType.Ns => str "Ns"
  | RType.AAAA => str "AAAA"
  | RType.Cname => str "Cname"
  | RType.Txt => str "Txt"
  | RType.Srv => str "Srv"
  | RType.Ptr => str "Ptr"
  | RType.E => str "E"
  end.

Section Text.
Context `{C : Certificates} `{F : Bitfield}.
Context (printable : Z -> bool).

(** ** Records *)
Definition txt_debug (t : Txt) : bytes :=
  str "Txt { bytes: [" ++ join (str ", ") (map decimal (txt_bytes t)) ++ str "] }".
Definition srv_debug (s : Srv) : bytes :=
  str "Srv { priority: " ++ decimal (priority s) ++ str ", weight: " ++ decimal (weight s)
  ++ str ", port: " ++ decimal (port s) ++ str ", target: " ++ debug_str printable (target s) ++ str " }".
Definition ptr_debug (p : Ptr) : bytes := str "Ptr(" ++ debug_str printable (ptr_name p) ++ str ")".

(** [Display for RData]; the parenthesis after a text record is the code's. *)
Definition rdata_display (d : RData.t) : bytes :=
  match d with
  | RData.A ip => show_ipv4 ip
  | RData.AAAA ip => show_ipv6 ip
  | RData.CName name => str "CName(" ++ name ++ str ")"
  | RData.Txt txt => txt_debug txt ++ str ")"
  | RData.Srv srv => srv_debug srv
  | RData.Ptr ptr => ptr_debug ptr
  | RData.E e => endpoint_display show_socket e
  end.

(** ** Messages *)
Definition writeln (line : bytes) : bytes := line ++ [10].

(** The start of the line of a record, and its data. *)
Definition record_head (rr : ResourceRecord) : bytes :=
  str "    " ++ rr_name rr ++ str " " ++ decimal (rr_ttl rr) ++ str " " ++ class_debug (rr_cls rr)
  ++ str " " ++ type_debug (rr_typ rr).

Definition answer_data (d : RData.t) : bytes :=
  match d with
  | RData.A ip => str " A " ++ show_ipv4 ip
  | RData.AAAA ip => str " AAAA " ++ show_ipv6 ip
  | RData.CName name => str " CNAME " ++ name
  | RData.E ep => str " E " ++ endpoint_display show_socket ep
  | RData.Txt txt => str " Txt(" ++ txt_debug txt ++ str ")"
  | RData.Srv srv => str " Srv(" ++ srv_debug srv ++ str ")"
  | RData.Ptr ptr => str " Ptr(" ++ ptr_debug ptr ++ str ")"
  end.

Definition question_line (q : Question) : bytes :=
  str "    " ++ q_name q ++ str " " ++ query_class_debug (q_qclass q) ++ str " "
  ++ query_type_debug (q_qtype q).

(** A section is printed when it is not empty: its heading and a line for each item. *)
Definition section_display {T} (heading : bytes) (line : T -> bytes) (items : list T) : bytes :=
  match items with
  | [] => []
  | _ => writeln heading ++ flat_map (fun item => line item ++ [10]) items
  end.

Definition header_line (h : Header) : bytes :=
  str "  Header: ID=" ++ decimal (id h) ++ str ", QR=" ++ show_bool (DnsHeader.query (DnsHeader.flags h))
  ++ str ", AA=" ++ show_bool (authoritative (DnsHeader.flags h))
  ++ str ", RCODE=" ++ response_code_debug (response_code (DnsHeader.flags h)).

(** [Display for Packet]. *)
Definition packet_display (self : Packet) : bytes :=
  writeln (str "DNS Packet:") ++ writeln (header_line (header self))
  ++ section_display (str "  Questions:") question_line (questions self)
  ++ section_display (str "  Answers:") (fun rr => record_head rr ++ answer_data (rr_data rr)) (answers self)
  ++ section_display (str "  Nameservers:") record_head (nameservers self)
  ++ section_display (str "  Additional:") record_head (additional self).

(** [Debug for Packet]. *)
Definition packet_debug (self : Packet) : bytes :=
  str "Packet { id: " ++ decimal (id (header self)) ++ str ", qr: " ++ show_bool (DnsHeader.query (DnsHeader.flags (header self)))
  ++ str ", opcode: " ++ opcode_debug (opcode (DnsHeader.flags (header self)))
  ++ str ", rcode: " ++ response_code_debug (response_code (DnsHeader.flags (header self)))
  ++ str ", questions: " ++ decimal (Z.of_nat (length (questions self)))
  ++ str ", answers: " ++ decimal (Z.of_nat (length (answers self)))
  ++ str ", authorities: " ++ decimal (Z.of_nat (length (nameservers self)))
  ++ str ", additional: " ++ decimal (Z.of_nat (length (additional self))) ++ str " }".
End Text.

Example packet_text :
  split_on 10 (packet_display (C := CertModel.certificates) (F := BitfieldModel.bitfield) (fun _ => true)
    (mkPacket (mkHeader 7 (mkFlags 0x8400) 1 2 0 0)
       [mkQuestion (str "a.local") false QueryType.E QueryClass.IN]
       [mkResourceRecord (str "a.local") RType.A true RClass.IN 60 (RData.A 0x0A000001);
        mkResourceRecord (str "a.local") RType.Srv true RClass.IN 60 (RData.Srv (mkSrv 1 2 443 (str "b")))]
       [] []))
  = [str "DNS Packet:"; str "  Header: ID=7, QR=true, AA=true, RCODE=NoError"; str "  Questions:";
     str "    a.local IN E"; str "  Answers:"; str "    a.local 60 IN A A 10.0.0.1";
     str "    a.local 60 IN Srv Srv(Srv { priority: 1, weight: 2, port: 443, target: " ++ [34; 98; 34]
     ++ str " })"; []].
Proof. vm_compute. reflexivity. Qed.

(** ** Facts *)
Lemma literal_one_line l : forallb (fun b => negb (b =? 10)) l = true -> one_line l.
Proof. intros H Hin. rewrite forallb_forall in H. by apply list_elem_of_In, H in Hin. Qed.

Ltac literal_line := apply literal_one_line; reflexivity.

Ltac one_line_split := repeat match goal with |- one_line (_ ++ _) => apply one_line_app end.

Lemma join_one_line sep ls : one_line sep -> Forall one_line ls -> one_line (join sep ls).
Proof.
  intros Hs. induction 1 as [|l ls Hl Hls IH]; [literal_line|]. destruct ls; [done|].
  cbn [join]. by one_line_split.
Qed.

Lemma hex_fuel_one_line fuel : forall n, 0 <= n -> one_line (hex_fuel fuel n).
Proof.
  assert (forall d, 0 <= d < 16 -> one_line [hex_digit d]) as Hd.
  { intros d Hd. unfold one_line. rewrite list_elem_of_singleton. unfold hex_digit. case_match; lia. }
  induction fuel as [|fuel IH]; intros n Hn; cbn [hex_fuel]; [literal_line|].
  destruct (Z.ltb_spec n 16); [apply Hd; lia|].
  apply one_line_app; [apply IH, Z.div_pos; lia|apply Hd, Z.mod_pos_bound; lia].
Qed.

Lemma hex_one_line n : 0 <= n -> one_line (hex n).
Proof. apply hex_fuel_one_line. Qed.

(** The text of a line is put together from pieces that have no line break. *)
Ltac one_line_pieces :=
  one_line_split; try done; try apply decimal_one_line; try apply hex_one_line; try literal_line;
  try done.

Lemma escape_debug_one_line printable c :
  utf8_char c -> bytes_ok c -> one_line (escape_debug printable c).
Proof.
  intros Hc Hok. destruct (encode_code_point c Hc Hok) as [_ Hpos].
  assert (one_line (unicode_escape (code_point c))) as Hesc.
  { unfold unicode_escape. one_line_pieces. }
  unfold escape_debug. destruct (Z.eqb_spec (code_point c) 10); [repeat case_match; literal_line|].
  assert (one_line c) as Hline.
  { destruct (utf8_char_shape c Hc) as [(b & -> & _)|Hh]; [unfold one_line; set_solver|].
    rewrite Forall_forall in Hh. intros ?%Hh. lia. }
  destruct (Z.eqb_spec (code_point c) backslash) as [->|]; [repeat case_match; done || literal_line|].
  destruct (Z.eqb_spec (code_point c) double_quote) as [->|]; [repeat case_match; done || literal_line|].
  repeat case_match; done || literal_line.
Qed.

Lemma debug_str_one_line printable l : utf8 l -> bytes_ok l -> one_line (debug_str printable l).
Proof.
  intros Hu Hok. unfold debug_str. apply one_line_app; [literal_line|]. apply one_line_app; [|literal_line].
  generalize (length l) as n. revert Hok. induction Hu as [|c l Hc Hl IH]; intros Hok [|n]; [literal_line..|].
  apply bytes_ok_app in Hok as [Hc1 Hl1]. pose proof (utf8_char_nonempty c Hc).
  pose proof (utf8_step_app c l Hc) as Hs. destruct c as [|b c]; [done|].
  cbn [escape_chars app] in *. change (b :: c ++ l) with ((b :: c) ++ l) in *. rewrite Hs.
  cbn [snd]. rewrite take_app_length, drop_app_length.
  apply one_line_app; [by apply escape_debug_one_line|by apply IH].
Qed.

Lemma show_ipv4_one_line ip : one_line (show_ipv4 ip).
Proof.
  unfold show_ipv4. apply join_one_line; [literal_line|]. apply Forall_map.
  eapply Forall_impl; [apply to_be_ok|]. intros b [? _]. by apply decimal_one_line.
Qed.

Lemma segments_nonneg n ip : Forall (fun s => 0 <= s) (segments n ip).
Proof.
  induction n as [|n IH]; cbn [segments]; constructor; [|done]. unfold as_u. apply Z.mod_pos_bound. lia.
Qed.

Lemma show_segments_one_line l : Forall (fun s => 0 <= s) l -> one_line (show_segments l).
Proof.
  intros Hl. apply join_one_line; [literal_line|]. apply Forall_map.
  eapply Forall_impl; [exact Hl|]. intros s Hs. by apply hex_one_line.
Qed.

Lemma show_ipv6_one_line ip : one_line (show_ipv6 ip).
Proof.
  unfold show_ipv6. pose proof (segments_nonneg 8 ip) as Hs. cbv zeta.
  destruct (_ =? _); [apply one_line_app; [literal_line|apply show_ipv4_one_line]|].
  destruct (zero_runs _ _ _ _) as [start len]. destruct (1 <? len)%nat; [|by apply show_segments_one_line].
  one_line_split; try literal_line; apply show_segments_one_line.
  - by apply Forall_take.
  - by apply Forall_drop.
Qed.

Lemma show_socket_one_line a : addr_ok a -> strip_scope a = a -> one_line (show_socket a).
Proof.
  destruct a as [a|a]; intros [_ Hp] Hs; unfold u_ok in *; cbn [show_socket].
  - one_line_split; try apply show_ipv4_one_line; try literal_line. apply decimal_one_line. lia.
  - assert (v6_scope_id a = 0) as -> by (destruct a; cbn in *; congruence).
    one_line_split; try apply show_ipv6_one_line; try literal_line. apply decimal_one_line. lia.
Qed.

Section Lines.
Context `{CS : CertificatesSpec} `{FS : BitfieldSpec}.
Context (printable : Z -> bool).

(** A record as the parser yields it, with no line break in the names that are printed
    unescaped. *)
Definition prints (rr : ResourceRecord) : Prop :=
  record_ok rr /\ one_line (rr_name rr)
  /\ match rr_data rr with
     | RData.CName name => one_line name
     | RData.Srv srv => bytes_ok (target srv)
     | RData.Ptr ptr => bytes_ok (ptr_name ptr)
     | _ => True
     end.

Definition packet_prints (p : Packet) : Prop :=
  header_ok (header p) /\ Forall (fun q => one_line (q_name q)) (questions p)
  /\ Forall prints (answers p) /\ Forall prints (nameservers p) /\ Forall prints (additional p).

Lemma rdata_one_line d :
  rdata_ok d -> match d with
                | RData.CName name => one_line name
                | RData.Srv srv => bytes_ok (target srv)
                | RData.Ptr ptr => bytes_ok (ptr_name ptr)
                | _ => True
                end -> one_line (answer_data printable d).
Proof.
  destruct d as [ip|ip|name|txt|srv|ptr|e]; cbn [rdata_ok answer_data]; intros Hd Hn.
  - apply one_line_app; [literal_line|apply show_ipv4_one_line].
  - apply one_line_app; [literal_line|apply show_ipv6_one_line].
  - one_line_pieces.
  - unfold txt_debug. one_line_pieces. apply join_one_line; [literal_line|]. apply Forall_map.
    eapply Forall_impl; [exact Hd|]. intros b [? _]. by apply decimal_one_line.
  - destruct Hd as (? & ? & ? & ?). unfold srv_debug, u_ok in *.
    one_line_pieces; try lia. by apply debug_str_one_line.
  - unfold ptr_debug. one_line_pieces. by apply debug_str_one_line.
  - destruct Hd as (((_ & Hp & Ha & _) & _) & Hw). unfold endpoint_display.
    pose proof (f_equal primary Hw) as Hwp. pose proof (f_equal agent Hw) as Hwa. cbn in Hwp, Hwa.
    apply one_line_app; [literal_line|]. destruct (agent e) as [a|]; [|by apply show_socket_one_line].
    one_line_split; try literal_line; apply show_socket_one_line; try done. cbn in Hwa. congruence.
Qed.

Lemma record_head_one_line rr : prints rr -> one_line (record_head rr).
Proof.
  intros ((_ & Ht & _) & Hn & _). unfold record_head, u_ok in *.
  one_line_pieces; [lia|destruct (rr_cls rr); literal_line|destruct (rr_typ rr); literal_line].
Qed.

Lemma header_line_one_line h : header_ok h -> one_line (header_line h).
Proof.
  intros (Hi & Hf & _). unfold header_line, u_ok in *. one_line_pieces; [lia|..].
  - destruct (DnsHeader.query _); literal_line.
  - destruct (authoritative _); literal_line.
  - unfold response_code. rewrite bits_get_spec by lia.
    generalize (Z.mod_pos_bound (flags_bits (DnsHeader.flags h) / 2 ^ 0) (2 ^ 4) ltac:(lia)).
    generalize ((flags_bits (DnsHeader.flags h) / 2 ^ 0) mod 2 ^ 4). intros v Hv.
    unfold ResponseCode.from_bits. repeat case_match; try literal_line. 
    all: cbn [response_code_debug]; unfold reserved; one_line_pieces; lia.
Qed.

(** The lines of a section, and how they continue a text. *)
Definition section_lines {T} (heading : bytes) (line : T -> bytes) (items : list T) : list bytes :=
  match items with [] => [] | _ => heading :: map line items end.

Lemma split_lines {T} (line : T -> bytes) (items : list T) rest :
  Forall (fun x => one_line (line x)) items ->
  split_on 10 (flat_map (fun x => line x ++ [10]) items ++ rest) = map line items ++ split_on 10 rest.
Proof.
  induction 1 as [|x items Hx Hi IH]; cbn; [done|]. rewrite <- !app_assoc. cbn [app].
  by rewrite split_on_app, IH.
Qed.

Lemma split_section {T} heading (line : T -> bytes) (items : list T) rest :
  one_line heading -> Forall (fun x => one_line (line x)) items ->
  split_on 10 (section_display heading line items ++ rest)
  = section_lines heading line items ++ split_on 10 rest.
Proof.
  intros Hh Hi. unfold section_display, section_lines. destruct items as [|x items]; [done|].
  unfold writeln. rewrite <- !app_assoc. cbn [app]. rewrite split_on_app by done.
  by rewrite (split_lines line (x :: items)).
Qed.

(** A printed message is its heading, its header and, for each section that is not empty,
    the heading of the section and one line for each item, in order. *)
Theorem packet_display_lines p :
  packet_prints p ->
  split_on 10 (packet_display printable p)
  = str "DNS Packet:" :: header_line (header p)
    :: section_lines (str "  Questions:") question_line (questions p)
    ++ section_lines (str "  Answers:")
         (fun rr => record_head rr ++ answer_data printable (rr_data rr)) (answers p)
    ++ section_lines (str "  Nameservers:") record_head (nameservers p)
    ++ section_lines (str "  Additional:") record_head (additional p) ++ [[]].
Proof.
  intros (Hh & Hq & Ha & Hn & Hx). unfold packet_display, writeln.
  rewrite <- !app_assoc. cbn [app]. rewrite !split_on_app by (apply header_line_one_line, Hh || literal_line).
  do 2 f_equal. rewrite !split_section; try literal_line.
  - rewrite <- (app_nil_r (section_display (str "  Additional:") _ _)), split_section; [done|literal_line|].
    eapply Forall_impl; [exact Hx|]. apply record_head_one_line.
  - eapply Forall_impl; [exact Hn|]. apply record_head_one_line.
  - eapply Forall_impl; [exact Ha|]. intros rr Hr. pose proof (record_head_one_line rr Hr).
    destruct Hr as ((_ & _ & _ & Hd) & _ & Hc). apply one_line_app; [done|]. by apply rdata_one_line.
  - eapply Forall_impl; [exact Hq|]. intros q Hqn. unfold question_line.
    one_line_pieces; [destruct (q_qclass q); literal_line|destruct (q_qtype q); literal_line].
Qed.
End Lines.

(** The text of a text record closes a parenthesis that it does not open. *)
Example txt_display_unbalanced :
  rdata_display (C := CertModel.certificates) (fun _ => true) (RData.Txt (mkTxt [104; 105]))
  = str "Txt { bytes: [104, 105] })".
Proof. vm_compute. reflexivity. Qed.
