(* ===== verification/Aggregates.v ===== *)
(** * Several resolvers and publishers: src/resolvers.rs and src/publishers/aggregate.rs

    The operations fan out to all the members and combine what they return.
    Members finish in any order: the list of results in the order of completion
    is an argument, and the stream of records is a step relation. *)

From stdpp Require Import base list numbers option sets.
From S2P Require Import Prelude RustString Certificate Endpoint Candidates ErrorReport.

(** ** Merging groups of candidates *)
Section Merge.
Context `{C : Certificates} {Source : Type} `{EqDecision Source}.

Definition not_in {A} `{EqDecision A} (l : list A) (x : A) : bool := negb (bool_decide (x ∈ l)).

(** [existing] takes what it does not have from a group of the same chain. *)
Definition absorb (existing group : EndpointCandidateGroup Source) : EndpointCandidateGroup Source :=
  mkEndpointCandidateGroup (chain existing)
    (endpoints existing ++ List.filter (not_in (endpoints existing)) (endpoints group))
    (sources existing ++ List.filter (not_in (sources existing)) (sources group)).

Fixpoint merge_group (target : list (EndpointCandidateGroup Source))
    (group : EndpointCandidateGroup Source) : list (EndpointCandidateGroup Source) :=
  match target with
  | [] => [group]
  | existing :: target =>
      if bool_decide (chain existing = chain group) then absorb existing group :: target
      else existing :: merge_group target group
  end.

Definition merge_groups (target groups : list (EndpointCandidateGroup Source))
  : list (EndpointCandidateGroup Source) := fold_left merge_group groups target.

(** *** [Resolvers::lookup_endpoint_candidates] *)

(** A resolver: its label and, when it supports candidates, what its lookup returns. *)
Record ResolverEntry := mkResolverEntry {
  label : bytes;
  entry_candidates : option (Result (EndpointCandidates Source) StdError);
}.

Definition unsupported (entries : list ResolverEntry) : list (bytes * StdError) :=
  omap (fun e => match entry_candidates e with
                 | Some _ => None
                 | None => Some (label e, io_other (str "resolver does not support endpoint candidate lookup") None)
                 end) entries.

Definition pending (entries : list ResolverEntry)
  : list (bytes * Result (EndpointCandidates Source) StdError) :=
  omap (fun e => r ← entry_candidates e; Some (label e, r)) entries.

(** The loop over the results in the order of completion. *)
Fixpoint collect (completed : list (bytes * Result (EndpointCandidates Source) StdError))
    (gs : list (EndpointCandidateGroup Source)) (succeeded : bool) (errors : list (bytes * StdError))
  : Result (EndpointCandidates Source) (list (bytes * StdError)) :=
  match completed with
  | [] => if negb succeeded then Err errors else Ok (mkEndpointCandidates gs)
  | (_, Ok candidates) :: completed =>
      collect completed (merge_groups gs (groups candidates)) true errors
  | (label, Err error) :: completed => collect completed gs succeeded (errors ++ [(label, error)])
  end.

Definition lookup_endpoint_candidates (entries : list ResolverEntry)
    (completed : list (bytes * Result (EndpointCandidates Source) StdError))
  : Result (EndpointCandidates Source) (list (bytes * StdError)) :=
  collect completed [] false (unsupported entries).

End Merge.
Arguments ResolverEntry {C} Source.

(** ** [Resolvers::lookup]: the stream of unique records *)
Section Stream.
Context {Record : Type} `{EqDecision Record}.

(** The lookups that have not completed, the streams of those that have, and the
    records that were returned. *)
Record LookupState := mkLookupState {
  ls_pending : list (Result (list Record) StdError);
  ls_streams : list (list Record);
  ls_seen : list Record;
}.

(** One step of [next_unique_record]: a lookup completes, a stream ends or gives a
    record.  [Some record] is returned to the caller. *)
Inductive next_step : LookupState -> option Record -> LookupState -> Prop :=
| next_completed p1 p2 records streams seen :
    next_step (mkLookupState (p1 ++ Ok records :: p2) streams seen) None
      (mkLookupState (p1 ++ p2) (streams ++ [records]) seen)
| next_failed p1 p2 error streams seen :
    next_step (mkLookupState (p1 ++ Err error :: p2) streams seen) None
      (mkLookupState (p1 ++ p2) streams seen)
| next_ended s1 s2 p seen :
    next_step (mkLookupState p (s1 ++ [] :: s2) seen) None (mkLookupState p (s1 ++ s2) seen)
| next_new s1 s2 record records p seen :
    record ∉ seen ->
    next_step (mkLookupState p (s1 ++ (record :: records) :: s2) seen) (Some record)
      (mkLookupState p (s1 ++ records :: s2) (record :: seen))
| next_repeated s1 s2 record records p seen :
    record ∈ seen ->
    next_step (mkLookupState p (s1 ++ (record :: records) :: s2) seen) None
      (mkLookupState p (s1 ++ records :: s2) seen).

(** The records of a run, in order. *)
Inductive run : LookupState -> list Record -> LookupState -> Prop :=
| run_nil s : run s [] s
| run_silent s s' s'' out : next_step s None s' -> run s' out s'' -> run s out s''
| run_record s s' s'' r out : next_step s (Some r) s' -> run s' out s'' -> run s (r :: out) s''.

Definition finished (s : LookupState) : Prop := ls_pending s = [] /\ ls_streams s = [].

(** [Resolvers::lookup] waits for the first lookup that succeeds; the others stay
    pending.  [completed] are the results in the order of completion. *)
Fixpoint first_success (completed : list (bytes * Result (list Record) StdError))
    (errors : list (bytes * StdError)) : Result LookupState (list (bytes * StdError)) :=
  match completed with
  | [] => Err errors
  | (_, Ok records) :: completed => Ok (mkLookupState (map snd completed) [records] [])
  | (label, Err error) :: completed => first_success completed (errors ++ [(label, error)])
  end.
End Stream.
Arguments LookupState Record : clear implicits.

(** ** [Publishers::publish_all] *)
Record PublishReport := mkPublishReport {
  successes : list bytes;
  failures : list (bytes * StdError);
}.

Definition is_complete (r : PublishReport) : bool := match failures r with [] => true | _ => false end.
Definition is_partial (r : PublishReport) : bool :=
  negb (match successes r with [] => true | _ => false end)
  && negb (match failures r with [] => true | _ => false end).

Fixpoint report_loop (results : list (bytes * Result unit StdError)) (s : list bytes)
    (f : list (bytes * StdError)) : list bytes * list (bytes * StdError) :=
  match results with
  | [] => (s, f)
  | (label, Ok _) :: results => report_loop results (s ++ [label]) f
  | (label, Err error) :: results => report_loop results s (f ++ [(label, error)])
  end.

(** A publisher: its label and what its [Publish::publish] returns. *)
Record Publisher := mkPublisher {
  publisher_label : bytes;
  publisher_publish : bytes -> list Dquic.EndpointAddr -> Result unit StdError;
}.

Definition Publishers_new : list Publisher := [].
Definition push_publisher (self : list Publisher) (p : Publisher) : list Publisher := self ++ [p].

(** Every publisher is given the name and all the endpoints; [reorder] is the order
    of completion. *)
Definition publish_all (self : list Publisher) (name : bytes) (eps : list Dquic.EndpointAddr)
    (reorder : list (bytes * Result unit StdError) -> list (bytes * Result unit StdError))
  : Result PublishReport (list (bytes * StdError)) :=
  match self with
  | [] => Err []
  | _ =>
      let results := reorder (map (fun p => (publisher_label p, publisher_publish p name eps)) self) in
      let '(s, f) := report_loop results [] [] in
      match s with
      | [] => Err f
      | _ => Ok (mkPublishReport s f)
      end
  end.

(** [fmt::Display] of the aggregates: the members in parentheses. *)
Fixpoint display_members (index : nat) (members : list bytes) : bytes :=
  match members with
  | [] => []
  | member :: members =>
      (if (index =? 0)%nat then [] else str ", ") ++ member ++ display_members (S index) members
  end.
Definition display_aggregate (kind : bytes) (members : list bytes) : bytes :=
  kind ++ str "(" ++ display_members 0 members ++ str ")".

(** [Display] of a report. *)
Definition display_report (r : PublishReport) : bytes :=
  match failures r with
  | [] => decimal (blen (successes r)) ++ str " DNS publisher(s) succeeded"
  | _ => format_failures (str "some DNS publishers failed") (failures r)
  end.

(** [Publish for Publishers]: an aggregate is a publisher. *)
Definition publishers_error (errors : list (bytes * StdError)) : StdError :=
  io_other (display_publishers_error errors) (first_error errors).
Definition publishers_publish (self : list Publisher)
    (reorder : list (bytes * Result unit StdError) -> list (bytes * Result unit StdError)) : Publisher :=
  mkPublisher (display_aggregate (str "Publishers") (map publisher_label self))
    (fun name eps => let? _ := result_map_err publishers_error (publish_all self name eps reorder) in Ok tt).

(** ** Facts about merging *)
Section MergeFacts.
Context `{C : Certificates} {Source : Type} `{EqDecision Source}.
Implicit Types gs : list (EndpointCandidateGroup Source).

(** Some group of the chain has the endpoint. *)
Definition has gs (k : CertificateChainKey) (e : Dquic.EndpointAddr) : Prop :=
  exists g, g ∈ gs /\ chain g = k /\ e ∈ endpoints g.

Lemma not_in_filter {A} `{EqDecision A} (l k : list A) x :
  x ∈ l ++ List.filter (not_in l) k <-> x ∈ l \/ x ∈ k.
Proof.
  rewrite elem_of_app, (list_elem_of_In (List.filter _ _)), List.filter_In, <- list_elem_of_In.
  unfold not_in. rewrite negb_true_iff, bool_decide_eq_false. destruct (decide (x ∈ l)); tauto.
Qed.

Lemma not_in_nodup {A} `{EqDecision A} (l k : list A) :
  NoDup l -> NoDup k -> NoDup (l ++ List.filter (not_in l) k).
Proof.
  intros Hl Hk. apply NoDup_app. split; [done|]. split.
  - intros x Hx Hin. apply list_elem_of_In, List.filter_In in Hin as [_ Hin].
    unfold not_in in Hin. by rewrite bool_decide_true in Hin.
  - induction Hk as [|x k Hx Hk IH]; cbn [List.filter]; [constructor|].
    destruct (not_in l x); [|done]. constructor; [|done].
    intros Hin. apply Hx. by apply list_elem_of_In, List.filter_In, proj1, list_elem_of_In in Hin.
Qed.

Lemma has_cons g gs k e :
  has (g :: gs) k e <-> (chain g = k /\ e ∈ endpoints g) \/ has gs k e.
Proof. unfold has. setoid_rewrite elem_of_cons. naive_solver. Qed.

Lemma merge_group_has gs g k e :
  has (merge_group gs g) k e <-> has gs k e \/ (chain g = k /\ e ∈ endpoints g).
Proof.
  induction gs as [|x gs IH]; cbn [merge_group].
  { rewrite has_cons. unfold has. set_solver. }
  case_bool_decide as Hx; rewrite !has_cons.
  - cbn [absorb chain endpoints]. rewrite not_in_filter. naive_solver.
  - rewrite IH. naive_solver.
Qed.

Lemma merge_group_chains gs g :
  map chain (merge_group gs g)
  = if bool_decide (chain g ∈ map chain gs) then map chain gs else map chain gs ++ [chain g].
Proof.
  induction gs as [|x gs IH]; cbn [merge_group map]; [done|].
  destruct (decide (chain x = chain g)) as [E|E].
  - rewrite (bool_decide_true (chain x = chain g)), bool_decide_true by set_solver. done.
  - rewrite (bool_decide_false (chain x = chain g)) by done. cbn [map]. rewrite IH.
    destruct (decide (chain g ∈ map chain gs)).
    + by rewrite !bool_decide_true by set_solver.
    + by rewrite !bool_decide_false by set_solver.
Qed.

Definition groups_wf gs : Prop := NoDup (map chain gs) /\ Forall (fun g => NoDup (endpoints g)) gs.

Lemma merge_group_wf gs g : groups_wf gs -> NoDup (endpoints g) -> groups_wf (merge_group gs g).
Proof.
  intros [Hc He] Hg. split.
  - rewrite merge_group_chains. case_bool_decide; [done|]. apply NoDup_app.
    split; [done|]. split; [set_solver|]. apply NoDup_singleton.
  - clear Hc. induction He as [|x gs Hx Hgs IH]; cbn [merge_group]; [by repeat constructor|].
    case_bool_decide; constructor; try done. by apply not_in_nodup.
Qed.

Lemma merge_groups_spec gs' : forall gs,
  (forall k e, has (merge_groups gs gs') k e <-> has gs k e \/ has gs' k e)
  /\ (groups_wf gs -> Forall (fun g => NoDup (endpoints g)) gs' -> groups_wf (merge_groups gs gs')).
Proof.
  unfold merge_groups. induction gs' as [|g gs' IH]; intros gs; cbn [fold_left].
  { split; [|done]. intros. unfold has at 3. set_solver. }
  destruct (IH (merge_group gs g)) as [IH1 IH2]. split.
  - intros k e. rewrite IH1, merge_group_has, has_cons. tauto.
  - intros Hwf Hg. apply Forall_cons_1 in Hg as [Hg Hgs]. apply IH2; [|done].
    by apply merge_group_wf.
Qed.

(** What the loop over the results returns. *)
Lemma collect_spec completed : forall gs succeeded errors,
  match collect completed gs succeeded errors with
  | Ok cs =>
      (succeeded = true \/ exists l c, (l, Ok c) ∈ completed)
      /\ (forall k e, has (groups cs) k e <->
            has gs k e \/ exists l c, (l, Ok c) ∈ completed /\ has (groups c) k e)
      /\ (groups_wf gs ->
          (forall l c, (l, Ok c) ∈ completed -> Forall (fun g => NoDup (endpoints g)) (groups c)) ->
          groups_wf (groups cs))
  | Err errors' => succeeded = false
      /\ exists es, errors' = errors ++ es
           /\ completed = map (fun '(l, e) => (l, Err e)) es
  end.
Proof.
  induction completed as [|[l [c|e]] completed IH]; intros gs succeeded errors; cbn [collect].
  - destruct succeeded; cbn [negb].
    + split; [by left|]. split; [|done]. intros k e. cbn [groups]. set_solver.
    + split; [done|]. exists []. by rewrite app_nil_r.
  - specialize (IH (merge_groups gs (groups c)) true errors).
    destruct (merge_groups_spec (groups c) gs) as [Hh Hw].
    destruct (collect completed _ true errors) as [cs|]; [|by destruct IH].
    destruct IH as (_ & IH2 & IH3). split; [right; exists l, c; left|]. split.
    + intros k e. rewrite IH2, Hh. setoid_rewrite elem_of_cons. naive_solver.
    + intros Hgs Hall. apply IH3.
      * apply Hw; [done|]. apply (Hall l). left.
      * intros l' c' Hin. apply (Hall l'). by right.
  - specialize (IH gs succeeded (errors ++ [(l, e)])).
    destruct (collect completed gs succeeded (errors ++ [(l, e)])) as [cs|errors'].
    + destruct IH as (IH1 & IH2 & IH3). setoid_rewrite elem_of_cons. split; [naive_solver|].
      split; [intros k x; rewrite IH2; naive_solver|]. intros Hgs Hall. apply IH3; [done|].
      intros l' c' Hin. apply (Hall l'). by right.
    + destruct IH as [Hs (es & -> & ->)]. split; [done|]. exists ((l, e) :: es).
      by rewrite <- app_assoc.
Qed.
End MergeFacts.

(** ** Facts about the stream *)
Section StreamFacts.
Context {Record : Type} `{EqDecision Record}.
Implicit Types s : LookupState Record.

(** The records that are or will be seen. *)
Definition available s (r : Record) : Prop :=
  r ∈ ls_seen s \/ (exists p, p ∈ ls_pending s /\ r ∈ unwrap_or p [])
  \/ exists records, records ∈ ls_streams s /\ r ∈ records.

Lemma exists_middle {A} (P : A -> Prop) l y k :
  (exists x, x ∈ l ++ y :: k /\ P x) <-> P y \/ exists x, x ∈ l ++ k /\ P x.
Proof. setoid_rewrite elem_of_app. setoid_rewrite elem_of_cons. naive_solver. Qed.

Lemma step_available s o s' : next_step s o s' ->
  (forall r, available s' r <-> available s r)
  /\ match o with
     | None => ls_seen s' = ls_seen s
     | Some r => r ∉ ls_seen s /\ ls_seen s' = r :: ls_seen s
     end.
Proof.
  unfold available. destruct 1; cbn [ls_seen ls_pending ls_streams]; (split; [|done]); intros r;
    rewrite !exists_middle; cbn [unwrap_or]; rewrite ?app_nil_r, ?elem_of_cons, ?elem_of_nil;
    try tauto.
  - naive_solver.
Qed.

Lemma run_spec s out s' : run s out s' ->
  (forall r, available s' r <-> available s r) /\ NoDup out
  /\ (forall r, r ∈ out -> r ∉ ls_seen s)
  /\ (forall r, r ∈ ls_seen s' <-> r ∈ ls_seen s \/ r ∈ out).
Proof.
  induction 1 as [s|s s1 s2 out Hs Hr (IH1 & IH2 & IH3 & IH4)|s s1 s2 r out Hs Hr (IH1 & IH2 & IH3 & IH4)].
  - split; [done|]. split; [constructor|]. set_solver.
  - apply step_available in Hs as [Ha Hseen]. rewrite Hseen in *.
    split; [intros; by rewrite IH1, Ha|done].
  - apply step_available in Hs as [Ha [Hn Hseen]]. rewrite Hseen in *.
    split; [intros; by rewrite IH1, Ha|]. split; [|set_solver].
    constructor; [|done]. intros Hin. apply IH3 in Hin. set_solver.
Qed.

(** Every step consumes something. *)
Definition weight s : nat :=
  (sum_list_with (fun p => match p with Ok records => length records + 2 | Err _ => 1 end)
     (ls_pending s)
   + sum_list_with (fun records => length records + 1) (ls_streams s))%nat.

Lemma step_weight s o s' : next_step s o s' -> (weight s' < weight s)%nat.
Proof.
  unfold weight. destruct 1; cbn [ls_pending ls_streams]; rewrite ?sum_list_with_app;
    cbn [sum_list_with length]; lia.
Qed.

Lemma step_progress s : ~ finished s -> exists o s', next_step s o s'.
Proof.
  destruct s as [[|[records|error] p] [|[|r records'] streams] seen]; intros Hf;
    try (by destruct Hf).
  - eexists None, _. apply (next_ended []).
  - destruct (decide (r ∈ seen)).
    + eexists None, _. by apply (next_repeated []).
    + eexists (Some r), _. by apply (next_new []).
  - eexists None, _. apply (next_completed []).
  - eexists None, _. apply (next_completed []).
  - eexists None, _. apply (next_completed []).
  - eexists None, _. apply (next_failed []).
  - eexists None, _. apply (next_failed []).
  - eexists None, _. apply (next_failed []).
Qed.

(** A run can always be continued to the end of the stream. *)
Lemma run_to_end s : exists out s', run s out s' /\ finished s'.
Proof.
  remember (weight s) as n eqn:Hn. revert s Hn.
  induction n as [n IH] using lt_wf_ind. intros s ->.
  assert (finished s \/ ~ finished s) as [Hf|Hf].
  { destruct s as [[] [] ?]; unfold finished; cbn; [by left|right; naive_solver..]. }
  { exists [], s. split; [constructor|done]. }
  destruct (step_progress s Hf) as (o & s1 & Hs).
  destruct (IH (weight s1) (step_weight _ _ _ Hs) s1 eq_refl) as (out & s' & Hr & Hf').
  destruct o as [r|].
  - exists (r :: out), s'. split; [by eapply run_record|done].
  - exists out, s'. split; [by eapply run_silent|done].
Qed.

Lemma first_success_spec (completed : list (bytes * Result (list Record) StdError)) : forall errors,
  match first_success completed errors with
  | Ok s => (forall r, available s r <-> exists l records, (l, Ok records) ∈ completed /\ r ∈ records)
      /\ ls_seen s = []
  | Err errors' => exists es, errors' = errors ++ es
      /\ completed = map (fun '(l, e) => (l, Err e)) es
  end.
Proof.
  induction completed as [|[l [records|e]] completed IH]; intros errors; cbn [first_success].
  - exists []. by rewrite app_nil_r.
  - split; [|done]. intros r. unfold available. cbn [ls_seen ls_pending ls_streams].
    setoid_rewrite elem_of_cons. split.
    + intros [Hr|[(p & Hp & Hr)|(x & [->|Hx] & Hr)]]; [by apply not_elem_of_nil in Hr| | |].
      * apply list_elem_of_In, in_map_iff in Hp as ([l' q] & <- & Hp%list_elem_of_In).
        cbn in Hr. destruct q as [rs|]; cbn in Hr; [|by apply not_elem_of_nil in Hr].
        exists l', rs. auto.
      * exists l, records. auto.
      * by apply not_elem_of_nil in Hx.
    + intros (l' & rs & [[= -> ->]|Hin] & Hr).
      * right. right. exists records. auto.
      * right. left. exists (Ok rs). split; [|done]. apply list_elem_of_In, in_map_iff.
        exists (l', Ok rs). split; [done|]. by apply list_elem_of_In.
  - specialize (IH (errors ++ [(l, e)])). destruct (first_success completed _) as [s|].
    + destruct IH as [IH Hs]. split; [|done]. intros r. rewrite IH.
      setoid_rewrite elem_of_cons. naive_solver.
    + destruct IH as (es & -> & ->). exists ((l, e) :: es). by rewrite <- app_assoc.
Qed.
End StreamFacts.

Definition succeeded_label (x : bytes * Result unit StdError) : option bytes :=
  match x.2 with Ok _ => Some x.1 | Err _ => None end.
Definition failed_label (x : bytes * Result unit StdError) : option (bytes * StdError) :=
  match x.2 with Ok _ => None | Err e => Some (x.1, e) end.

Lemma report_loop_spec results : forall s f,
  report_loop results s f = (s ++ omap succeeded_label results, f ++ omap failed_label results).
Proof.
  induction results as [|[l [[]|e]] results IH]; intros s f;
    cbn [report_loop omap list_omap succeeded_label failed_label fst snd];
    [by rewrite !app_nil_r|rewrite IH; by rewrite <- app_assoc..].
Qed.

Lemma succeeded_elem (results : list (bytes * Result unit StdError)) l :
  l ∈ omap succeeded_label results <-> (l, Ok tt) ∈ results.
Proof.
  rewrite list_elem_of_omap. split.
  - intros ([? [[]|]] & Hx & Hl); cbn in Hl; [by injection Hl as <-|done].
  - intros Hx. by exists (l, Ok tt).
Qed.

Lemma failed_elem (results : list (bytes * Result unit StdError)) l e :
  (l, e) ∈ omap failed_label results <-> (l, Err e) ∈ results.
Proof.
  rewrite list_elem_of_omap. split.
  - intros ([? [[]|]] & Hx & Hl); cbn in Hl; [done|by injection Hl as <- <-].
  - intros Hx. by exists (l, Err e).
Qed.

Lemma report_length results :
  (length (omap succeeded_label results) + length (omap failed_label results) = length results)%nat.
Proof.
  induction results as [|[l [[]|e]] results IH]; cbn in *; lia.
Qed.

(** ** Properties *)

(** The combined candidates do not depend on the order in which the resolvers
    finish.  The lookup fails only when no resolver succeeded, and then reports
    one error per resolver; otherwise a chain offers an endpoint exactly when
    some successful resolver offered it, and every chain has one group, without
    repeated endpoints when no resolver repeated any. *)
Theorem candidates_combined `{Certificates} {Source} `{EqDecision Source}
    (entries : list (ResolverEntry Source))
    (completed : list (bytes * Result (EndpointCandidates Source) StdError)) :
  completed ≡ₚ pending entries ->
  match lookup_endpoint_candidates entries completed with
  | Ok cs =>
      (forall k e, has (groups cs) k e <->
         exists entry c, entry ∈ entries /\ entry_candidates entry = Some (Ok c)
           /\ has (groups c) k e)
      /\ ((forall entry c, entry ∈ entries -> entry_candidates entry = Some (Ok c) ->
            Forall (fun g => NoDup (endpoints g)) (groups c)) ->
          NoDup (map chain (groups cs)) /\ Forall (fun g => NoDup (endpoints g)) (groups cs))
  | Err errors => length errors = length entries
      /\ forall entry c, entry ∈ entries -> entry_candidates entry <> Some (Ok c)
  end.
Proof.
  intros Hperm.
  assert (forall l c, (l, Ok c) ∈ completed <-> exists entry, entry ∈ entries /\ label entry = l
    /\ entry_candidates entry = Some (Ok c)) as Hin.
  { intros l c. rewrite Hperm. unfold pending. rewrite list_elem_of_omap. split.
    - intros (entry & He & Hr). exists entry. destruct (entry_candidates entry); [|done].
      cbn in Hr. naive_solver.
    - intros (entry & He & <- & Hr). exists entry. by rewrite Hr. }
  unfold lookup_endpoint_candidates. pose proof (collect_spec completed [] false (unsupported entries)) as Hc.
  destruct (collect completed [] false _) as [cs|errors].
  - destruct Hc as (_ & Hh & Hw). split.
    + intros k e. rewrite Hh. split.
      * intros [(g & Hg & _)|(l & c & (entry & He & _ & Hr)%Hin & Hk)]; [by apply not_elem_of_nil in Hg|].
        by exists entry, c.
      * intros (entry & c & He & Hr & Hk). right. exists (label entry), c. split; [|done].
        apply Hin. by exists entry.
    + intros Hall. apply Hw; [split; constructor|]. intros l c (entry & He & _ & Hr)%Hin.
      by eapply Hall.
  - destruct Hc as [_ (es & -> & Hes)]. split.
    + rewrite length_app, <- (length_map (fun '(l, e) => (l, Err (T := EndpointCandidates Source) e)) es).
      rewrite <- Hes, Hperm. clear. unfold unsupported, pending.
      induction entries as [|[l [r|]] entries IH]; cbn [omap list_omap entry_candidates label] in *;
        cbn in *; lia.
    + intros entry c He Hr. assert ((label entry, Ok c) ∈ completed) as Hc.
      { apply Hin. by exists entry. }
      rewrite Hes in Hc. apply list_elem_of_In, in_map_iff in Hc as ([] & [=] & _).
Qed.

Example candidates_combined_witness :
  let g := mkEndpointCandidateGroup (C := CertModel.certificates) (primary_key (seq_from_u8 1))
             [Dquic.Direct (V4 (mkSocketAddrV4 1 443))] [tt] in
  let entries := [mkResolverEntry (str "h3") (Some (Ok (mkEndpointCandidates [g])));
                  mkResolverEntry (str "http") (Some (Err (mkStdError (str "timeout") None)));
                  mkResolverEntry (str "system") None;
                  mkResolverEntry (str "mdns") (Some (Ok (mkEndpointCandidates [g])))] in
  match lookup_endpoint_candidates entries (reverse (pending entries)) with
  | Ok cs => has (groups cs) (primary_key (seq_from_u8 1)) (Dquic.Direct (V4 (mkSocketAddrV4 1 443)))
  | Err _ => False
  end.
Proof.
  intros g entries.
  pose proof (candidates_combined entries (reverse (pending entries)) (reverse_Permutation _)) as Hc.
  destruct (lookup_endpoint_candidates entries (reverse (pending entries))) as [cs|errors].
  - destruct Hc as [Hc _]. apply Hc. exists (mkResolverEntry (str "h3") (Some (Ok (mkEndpointCandidates [g])))).
    eexists. split; [left|]. split; [reflexivity|]. exists g. split; [left|]. split; [done|left].
  - destruct Hc as [_ Hc]. eapply (Hc (mkResolverEntry (str "h3") _)); [left|reflexivity].
Defined.

(** The stream of a combined lookup is exact.  The lookup fails only when every
    resolver failed.  However the lookups and their streams interleave, every step
    makes progress, the stream can run to its end, and a run to the end returns
    every record of every successful resolver exactly once. *)
Theorem unique_records {Record} `{EqDecision Record}
    (completed : list (bytes * Result (list Record) StdError)) :
  match first_success completed [] with
  | Err errors => completed = map (fun '(l, e) => (l, Err e)) errors
  | Ok s =>
      (exists out s', run s out s' /\ finished s')
      /\ (forall (s1 : LookupState Record) o s2, next_step s1 o s2 -> (weight s2 < weight s1)%nat)
      /\ forall out s', run s out s' -> finished s' ->
           NoDup out
           /\ forall r, r ∈ out <-> exists l records, (l, Ok records) ∈ completed /\ r ∈ records
  end.
Proof.
  pose proof (first_success_spec completed []) as Hf.
  destruct (first_success completed []) as [s|errors].
  - destruct Hf as [Hav Hseen]. split; [apply run_to_end|]. split; [exact step_weight|].
    intros out s' (Ha & Hnd & _ & Hs)%run_spec [Hp Hst]. split; [done|]. intros r.
    rewrite <- Hav, <- Ha. unfold available. rewrite Hp, Hst, Hs, Hseen. set_solver.
  - destruct Hf as (es & -> & ->). done.
Qed.

(** C34: publishing to all publishers accounts for every one of them.  Each is asked to
    publish the same name and all the endpoints; whatever the order of completion,
    the report lists the publishers that succeeded and the errors of the others, as
    many as there are publishers; it is complete exactly when all succeeded and
    partial otherwise.  Publication fails, also through the interface of a single
    publisher, exactly when none succeeded. *)
Theorem publish_all_report (self : list Publisher) (name : bytes) (eps : list Dquic.EndpointAddr)
    (reorder : list (bytes * Result unit StdError) -> list (bytes * Result unit StdError)) :
  (forall l, reorder l ≡ₚ l) ->
  match publish_all self name eps reorder with
  | Ok report => successes report <> []
      /\ (forall l, l ∈ successes report <->
           exists p, p ∈ self /\ publisher_label p = l /\ publisher_publish p name eps = Ok tt)
      /\ (forall l e, (l, e) ∈ failures report <->
           exists p, p ∈ self /\ publisher_label p = l /\ publisher_publish p name eps = Err e)
      /\ (length (successes report) + length (failures report) = length self)%nat
      /\ (is_complete report = true <-> Forall (fun p => publisher_publish p name eps = Ok tt) self)
      /\ is_partial report = negb (is_complete report)
      /\ publisher_publish (publishers_publish self reorder) name eps = Ok tt
  | Err errors => length errors = length self
      /\ Forall (fun p => is_ok (publisher_publish p name eps) = false) self
      /\ publisher_publish (publishers_publish self reorder) name eps = Err (publishers_error errors)
  end.
Proof.
  intros Hre. set (results := reorder (map (fun p => (publisher_label p, publisher_publish p name eps)) self)).
  assert (length results = length self) as Hlen by (unfold results; by rewrite (Hre _), length_map).
  assert (forall l r, (l, r) ∈ results <->
    exists p, p ∈ self /\ publisher_label p = l /\ publisher_publish p name eps = r) as Hin.
  { intros l r. unfold results. rewrite (Hre _), list_elem_of_In, in_map_iff.
    setoid_rewrite list_elem_of_In. naive_solver. }
  pose proof (report_length results) as Hsum. cbn [publishers_publish publisher_publish].
  unfold publish_all. destruct self as [|p0 ps]; [by repeat split|]. fold results. clearbody results.
  set (self := p0 :: ps) in *. rewrite report_loop_spec. cbn [app].
  assert (forall p, p ∈ self -> (publisher_label p, publisher_publish p name eps) ∈ results) as Hres
    by (intros p Hp; apply Hin; by exists p).
  destruct (omap succeeded_label results) as [|l0 ls] eqn:Hs.
  - cbn [result_map_err]. split; [cbn in *; lia|]. split; [|done].
    apply Forall_forall. intros p Hp%Hres. destruct (publisher_publish p name eps) as [[]|]; [|done].
    apply succeeded_elem in Hp. rewrite Hs in Hp. by apply not_elem_of_nil in Hp.
  - cbn [successes failures result_map_err]. rewrite <- Hs. split; [by rewrite Hs|].
    split; [intros l; rewrite succeeded_elem; apply Hin|].
    split; [intros l e; rewrite failed_elem; apply Hin|]. split; [rewrite Hs; lia|].
    unfold is_partial, is_complete. cbn [successes failures]. rewrite Hs. cbn [negb andb].
    split; [|done]. destruct (omap failed_label results) as [|[l e] fs] eqn:Hf.
    + split; [|done]. intros _. apply Forall_forall. intros p Hp%Hres.
      destruct (publisher_publish p name eps) as [[]|e]; [done|].
      apply failed_elem in Hp. rewrite Hf in Hp. by apply not_elem_of_nil in Hp.
    + split; [done|]. rewrite Forall_forall. intros Hall.
      assert ((l, Err e) ∈ results) as Hx by (apply failed_elem; rewrite Hf; left).
      apply Hin in Hx as (p & Hp & _ & He). rewrite (Hall p Hp) in He. done.
Qed.

Example publish_all_report_witness :
  match publish_all [mkPublisher (str "h3") (fun _ _ => Ok tt);
                     mkPublisher (str "mdns") (fun _ _ => Err (mkStdError (str "down") None))] (str "a.dhttp.net") []
          reverse with
  | Ok report => is_partial report = negb (is_complete report) /\ is_partial report = true
  | Err _ => False
  end.
Proof.
  pose proof (publish_all_report [mkPublisher (str "h3") (fun _ _ => Ok tt);
    mkPublisher (str "mdns") (fun _ _ => Err (mkStdError (str "down") None))] (str "a.dhttp.net") [] reverse
    reverse_Permutation) as Hp.
  split; [apply Hp|reflexivity].
Defined.
