(* ===== verification/MdnsLookup.v ===== *)
(** * Lookups over mDNS: src/mdns.rs

    What one mDNS resolver does for its clients (binding, publication, the stream
    of records and the endpoint candidates of a name) and how a set of resolvers
    combines theirs.  The network appears as the result of [MdnsResolver::query];
    the order in which the resolvers of a set complete is an argument. *)

From stdpp Require Import base list gmap numbers option sets.
From S2P Require Import Prelude RustString DnsName DnsHeader Sigin Certificate Endpoint Records Packet Signature Candidates Publish Lookup MdnsService Aggregates.

(** ** Names *)
Definition DHTTP_DNS_SUFFIX : bytes := str "dhttp.net".
Definition LOCAL_MDNS_SUFFIX : bytes := str "local".

Definition is_ascii_alphanumeric (b : Z) : bool :=
  is_ascii_digit b || ((65 <=? b) && (b <=? 90)) || ((97 <=? b) && (b <=? 122)).

Definition valid_service_name (name : bytes) : bool :=
  (blen name <=? 253)
  && ends_with (str ".local") (to_ascii_lowercase name)
  && forallb (fun label =>
       negb (is_empty_bytes label) && (blen label <=? 63)
       && forallb (fun byte => is_ascii_alphanumeric byte || (byte =? 45) || (byte =? 95)) label)
       (split_on dot name).

Definition authority_host (name : bytes) : bytes :=
  match rsplit_once colon name with
  | Some (host, port) => if is_number port then host else name
  | None => name
  end.

Definition mdns_lookup_parts `{Certificates} (dns_name_ok : bytes -> bool) (name : bytes)
  : option (bytes * option CertificateSequence) :=
  let authority := authority_host name in
  let host := default authority (strip_suffix [dot] authority) in
  host ← resolvable_name dns_name_ok host;
  let dhttp := eq_ignore_ascii_case host DHTTP_DNS_SUFFIX
               || ends_with (str ".dhttp.net") (to_ascii_lowercase host) in
  if dhttp then endpoint_lookup_name_and_sequence dns_name_ok name
  else if ends_with (str ".local") (to_ascii_lowercase host) && (blen LOCAL_MDNS_SUFFIX <? blen host)
  then Some (host, None)
  else None.

(** ** Candidates of one resolver *)
Section Candidates.
Context `{C : Certificates} {Source : Type} `{EqDecision Source}.
Context (dquic_addr : Dquic.EndpointAddr -> SocketAddr).

(** The loop over the endpoints of a group; without a limit the source compares
    with [usize::MAX]. *)
Fixpoint group_entries (limit : option Z) (tagged : list (Source * Dquic.EndpointAddr))
    (sources : list Source) (endpoints : list Dquic.EndpointAddr)
  : list Source * list Dquic.EndpointAddr :=
  match tagged with
  | [] => (sources, endpoints)
  | (source, endpoint) :: tagged =>
      let sources := if bool_decide (source ∈ sources) then sources else sources ++ [source] in
      let room := match limit with Some n => blen endpoints <? n | None => true end in
      let endpoints := if negb (bool_decide (endpoint ∈ endpoints)) && room
                       then endpoints ++ [endpoint] else endpoints in
      group_entries limit tagged sources endpoints
  end.

Definition candidate_groups (records : list (TaggedEndpointCandidate Source)) (lookup : EndpointLookup)
  : may_panic (EndpointCandidates Source) :=
  gs ← grouped_endpoint_candidates records;
  let gs := select_group_pairs (filter_endpoint_candidate_groups dquic_addr gs (family lookup))
              (sequences lookup) in
  let gs := map (fun '(chain, tagged) =>
              let '(sources, endpoints) := group_entries (record_limit lookup) tagged [] [] in
              mkEndpointCandidateGroup chain endpoints sources) gs in
  Some (mkEndpointCandidates
          (List.filter (fun g => match endpoints g with [] => false | _ => true end) gs)).
End Candidates.

(** ** One resolver *)
Inductive MdnsBindError :=
| BindInvalidServiceName
| BindFailed (device : bytes) (ip : IpAddr) (source : bytes)
| BindClosed.

Inductive MdnsShutdownError := TaskFailed (source : bytes).

Inductive MdnsPublishError :=
| PublishInvalidName
| PublishIdentityMismatch
| PublishEncode (source : EncodeAuthorityDnsPacketError).

(** The errors of the lookups, messages and kinds of [io::Error] in the source. *)
Inductive mdns_error :=
| NoDnsRecord
| UnsupportedMdnsName
| NoMdnsResolvers
| QueryFailed (source : query_error).

(** What the network does for one query: whether the router exists, the random id
    and the rounds for a local name. *)
Record Network `{C : Certificates} := mkNetwork {
  net_alive : bool;
  net_id : Z;
  net_rounds : bytes -> list Round;
}.
Arguments mkNetwork {C}.

(** [MdnsResolver::bind]; [proto_new] is the outcome of [MdnsProtocol::new]. *)
Definition mdns_bind `{Certificates} (service device : bytes) (ip : IpAddr)
    (proto_new : bytes -> IpAddr -> Result unit bytes) : Result MdnsResolver MdnsBindError :=
  if negb (valid_service_name service) then Err BindInvalidServiceName
  else result_map_err (BindFailed device ip) (MdnsResolver_new service device ip proto_new).

Definition resolver_family `{Certificates} (self : MdnsResolver) : Family :=
  match ip self with IpV4 _ => FamilyV4 | IpV6 _ => FamilyV6 end.

(** [MdnsResolver::shutdown]. *)
Definition mdns_shutdown `{Certificates} (self : MdnsResolver) (results : list JoinResult)
  : MdnsResolver * Result unit MdnsShutdownError :=
  let '(self, r) := shutdown_tasks self results in (self, result_map_err TaskFailed r).

Section Publisher.
Context `{C : Certificates} (DHTTP_SUFFIX : bytes).
Context (authority_name : LocalAuthority -> bytes).
Context (extract_chain : list bytes -> Result CertificateChainKey bytes).
Context (valid_name : bytes -> bool).

Definition remove_name (self : MdnsResolver) (name : bytes) : MdnsResolver :=
  remove_host DHTTP_SUFFIX self name.

(** [MdnsResolver::publish_endpoints]. *)
Definition mdns_publish_endpoints (self : MdnsResolver) (identity : LocalAuthority) (name : bytes)
    (eps : list Dquic.EndpointAddr) : MdnsResolver * Result unit MdnsPublishError :=
  if negb (valid_name name) then (self, Err PublishInvalidName)
  else if negb (bool_decide (authority_name identity = name)) then (self, Err PublishIdentityMismatch)
  else
    match dns_endpoints_for_authority authority_name extract_chain identity name eps with
    | Err source => (self, Err (PublishEncode source))
    | Ok [] => (remove_name self name, Ok tt)
    | Ok records => (insert_host DHTTP_SUFFIX self name records, Ok tt)
    end.
End Publisher.

(** *** Lookups; [source_mdns] is [qresolve::Source::Mdns] *)
Section Resolve.
Context `{C : Certificates} `{F : Bitfield} (DHTTP_SUFFIX : bytes).
Context {Source : Type} `{EqDecision Source} (source_mdns : bytes -> Family -> Source).
Context (dquic_addr : Dquic.EndpointAddr -> SocketAddr) (dns_name_ok : bytes -> bool).

Definition mdns_source (self : MdnsResolver) : Source := source_mdns (device self) (resolver_family self).

Definition query_on (self : MdnsResolver) (net : Network) (domain : bytes)
  : Result (list EndpointAddr) query_error :=
  mdns_query DHTTP_SUFFIX self (net_alive net) (net_id net) domain (net_rounds net).

(** [Resolve::lookup] for one resolver: the items of the stream. *)
Definition mdns_lookup (self : MdnsResolver) (hostname : bytes) (f : option Family) (net : Network)
  : may_panic (Result (list (Source * Dquic.EndpointAddr)) mdns_error) :=
  if match f with Some f => negb (bool_decide (f = resolver_family self)) | None => false end
  then Some (Ok [])
  else match mdns_lookup_parts dns_name_ok hostname with
       | None => Some (Err NoDnsRecord)
       | Some (domain, seq) =>
           let source := mdns_source self in
           match query_on self net domain with
           | Err error => Some (Err (QueryFailed error))
           | Ok records =>
               endpoints ← selected_endpoint_addrs_for_sequence records seq;
               Some (Ok (map (fun endpoint => (source, endpoint))
                           (List.filter (fun endpoint =>
                              endpoint_matches_family dquic_addr endpoint f) endpoints)))
           end
       end.

(** [lookup_endpoint_candidates] for one resolver. *)
Definition mdns_endpoint_candidates (self : MdnsResolver) (name : bytes) (lookup : EndpointLookup)
    (net : Network) : may_panic (Result (EndpointCandidates Source) mdns_error) :=
  match mdns_lookup_parts dns_name_ok name with
  | None => Some (Err NoDnsRecord)
  | Some (domain, seq) =>
      let lookup := exact_override lookup seq in
      let source := mdns_source self in
      match query_on self net domain with
      | Err error => Some (Err (QueryFailed error))
      | Ok records =>
          let tagged := map (fun record => mkTagged source record None) records in
          candidates ← candidate_groups dquic_addr tagged lookup;
          Some (Ok candidates)
      end
  end.

(** ** A set of resolvers *)

(** The resolvers that are asked. *)
Definition family_resolvers (resolvers : list MdnsResolver) (f : option Family) : list MdnsResolver :=
  List.filter (fun r => match f with Some f => bool_decide (resolver_family r = f) | None => true end)
    resolvers.

(** The loop of [MdnsResolverSet::candidates] over the results in the order of
    completion. *)
Fixpoint collect_mdns (completed : list (Result (EndpointCandidates Source) mdns_error))
    (gs : list (EndpointCandidateGroup Source)) (last_error : option mdns_error)
  : Result (EndpointCandidates Source) mdns_error :=
  match completed with
  | [] => match gs with
          | [] => Err (default NoDnsRecord last_error)
          | _ => Ok (mkEndpointCandidates gs)
          end
  | Ok candidates :: completed =>
      collect_mdns completed (merge_groups gs (groups candidates)) last_error
  | Err error :: completed => collect_mdns completed gs (Some error)
  end.

Definition mdns_candidates (resolvers : list MdnsResolver) (lookup : EndpointLookup)
    (completed : list (Result (EndpointCandidates Source) mdns_error))
  : Result (EndpointCandidates Source) mdns_error :=
  match family_resolvers resolvers (family lookup) with
  | [] => Err NoMdnsResolvers
  | _ => collect_mdns completed [] None
  end.

(** The lookups of the resolvers and their combination; [reorder] is the order in
    which they complete. *)
Definition set_candidates (resolvers : list MdnsResolver) (name : bytes) (lookup : EndpointLookup)
    (net : MdnsResolver -> Network)
    (reorder : list (Result (EndpointCandidates Source) mdns_error) ->
               list (Result (EndpointCandidates Source) mdns_error))
  : may_panic (Result (EndpointCandidates Source) mdns_error) :=
  results ← mapM (fun r => mdns_endpoint_candidates r name lookup (net r))
              (family_resolvers resolvers (family lookup));
  Some (mdns_candidates resolvers lookup (reorder results)).

(** [Resolve::lookup] for a set: the first stream and the lookups that are pending
    when it is returned. *)
Fixpoint first_stream {Item} (completed : list (Result (list Item) mdns_error)) (error : mdns_error)
  : Result (list Item * list (Result (list Item) mdns_error)) mdns_error :=
  match completed with
  | [] => Err error
  | Ok first :: pending => Ok (first, pending)
  | Err failed :: completed => first_stream completed failed
  end.

Definition set_lookup {Item} (hostname : bytes) (completed : list (Result (list Item) mdns_error))
  : Result (list Item * list (Result (list Item) mdns_error)) mdns_error :=
  match mdns_lookup_parts dns_name_ok hostname with
  | None => Err UnsupportedMdnsName
  | Some _ => first_stream completed NoMdnsResolvers
  end.
End Resolve.

(** The stream of a set, [select(first, remaining)]: a pending lookup completes
    and its stream is added or, when it failed, dropped; a stream ends or gives an
    item.  [Some item] is returned to the caller. *)
Inductive select_step {Item : Type} :
  list (Result (list Item) mdns_error) * list (list Item) -> option Item ->
  list (Result (list Item) mdns_error) * list (list Item) -> Prop :=
| select_completed p1 p2 items streams :
    select_step (p1 ++ Ok items :: p2, streams) None (p1 ++ p2, streams ++ [items])
| select_failed p1 p2 error streams :
    select_step (p1 ++ Err error :: p2, streams) None (p1 ++ p2, streams)
| select_ended s1 s2 p : select_step (p, s1 ++ [] :: s2) None (p, s1 ++ s2)
| select_item s1 s2 item items p :
    select_step (p, s1 ++ (item :: items) :: s2) (Some item) (p, s1 ++ items :: s2).

Inductive select_run {Item : Type} :
  list (Result (list Item) mdns_error) * list (list Item) -> list Item -> Prop :=
| select_end : select_run ([], []) []
| select_more s o s' out :
    select_step s o s' -> select_run s' out ->
    select_run s (match o with Some item => item :: out | None => out end).

(** ** The candidates of a resolver *)
Section GroupFacts.
Context `{C : Certificates} {Source : Type} `{EqDecision Source}.

(** Adding the elements that are not there yet. *)
Definition add_new {A} `{EqDecision A} (acc : list A) (x : A) : list A :=
  if bool_decide (x ∈ acc) then acc else acc ++ [x].

Lemma add_new_firsts {A} `{EqDecision A} (l : list A) : forall acc,
  fold_left add_new l acc
  = acc ++ List.filter (fun x => negb (bool_decide (x ∈ acc))) (firsts l).
Proof.
  induction l as [|x l IH]; intros acc; cbn [fold_left firsts List.filter]; [by rewrite app_nil_r|].
  rewrite IH, filter_filter. unfold add_new. destruct (decide (x ∈ acc)) as [Hx|Hx].
  - rewrite (bool_decide_true (x ∈ acc)) by done. cbn [negb]. f_equal.
    apply List.filter_ext. intros y. repeat case_bool_decide; set_solver.
  - rewrite (bool_decide_false (x ∈ acc)) by done. cbn [negb]. rewrite <- app_assoc. cbn [app].
    do 2 f_equal. apply List.filter_ext. intros y. repeat case_bool_decide; set_solver.
Qed.

Lemma add_new_nil {A} `{EqDecision A} (l : list A) : fold_left add_new l [] = firsts l.
Proof.
  rewrite add_new_firsts. cbn [app]. apply filter_none. intros x _.
  by rewrite bool_decide_false by apply not_elem_of_nil.
Qed.

Lemma add_new_prefix {A} `{EqDecision A} (l acc : list A) :
  take (length acc) (fold_left add_new l acc) = acc.
Proof. rewrite add_new_firsts. apply take_app_length. Qed.

Lemma group_entries_spec limit (tagged : list (Source * Dquic.EndpointAddr)) : forall ss es,
  (forall n, limit = Some n -> blen es <= n) ->
  group_entries limit tagged ss es
  = (fold_left add_new (map fst tagged) ss,
     take_limit limit (fold_left add_new (map snd tagged) es)).
Proof.
  induction tagged as [|[x e] tagged IH]; intros ss es Hes; cbn [group_entries map fold_left fst snd].
  { f_equal. destruct limit as [n|]; cbn [take_limit]; [|done]. rewrite take_ge; [done|].
    specialize (Hes n eq_refl). unfold blen in Hes. lia. }
  fold (add_new ss x).
  change (add_new es e) with (if bool_decide (e ∈ es) then es else es ++ [e]). destruct (decide (e ∈ es)) as [He|He].
  { rewrite (bool_decide_true (e ∈ es)) by done. cbn [negb andb]. by apply IH. }
  rewrite (bool_decide_false (e ∈ es)) by done. cbn [negb andb].
  destruct limit as [n|]; [|by apply IH]. specialize (Hes n eq_refl).
  destruct (Z.ltb_spec (blen es) n).
  - apply IH. intros m [= <-]. autorewrite with blen. lia.
  - rewrite IH by (intros m [= <-]; done). f_equal. cbn [take_limit].
    assert (Z.to_nat n = length es) as -> by (unfold blen in *; lia).
    rewrite add_new_prefix. rewrite add_new_firsts, <- app_assoc. symmetry. apply take_app_length.
Qed.
End GroupFacts.

(** ** The stream of a set *)
Lemma last_default {A} (x : A) l d d' : List.last (x :: l) d = List.last (x :: l) d'.
Proof. revert x. induction l as [|y l IH]; intros x; [done|]. exact (IH y). Qed.

Section SelectFacts.
Context {Item : Type}.
Implicit Type s : list (Result (list Item) mdns_error) * list (list Item).

(** The items a state can still return. *)
Definition pool s : list Item := List.concat (omap result_ok s.1) ++ List.concat s.2.

Lemma select_step_pool s o s' :
  select_step s o s' -> pool s ≡ₚ match o with Some item => [item] | None => [] end ++ pool s'.
Proof.
  destruct 1 as [p1 p2 items streams|p1 p2 error streams|s1 s2 p|s1 s2 item items p];
    unfold pool; cbn [fst snd app]; rewrite ?omap_app, ?concat_app;
    cbn [omap list_omap result_ok List.concat]; rewrite ?concat_app; cbn [List.concat app];
    rewrite ?app_nil_r; try done.
  - rewrite <- !(assoc_L (++)). apply Permutation_app_head.
    rewrite (Permutation_app_comm items). by rewrite <- !(assoc_L (++)).
  - rewrite !(assoc_L (++)), <- Permutation_middle, <- !(assoc_L (++)). done.
Qed.

Lemma select_run_pool s out : select_run s out -> out ≡ₚ pool s.
Proof.
  induction 1 as [|s o s' out Hs _ IH]; [done|]. rewrite (select_step_pool _ _ _ Hs).
  destruct o; cbn [app]; by rewrite IH.
Qed.

Lemma select_run_streams (streams : list (list Item)) : exists out, select_run ([], streams) out.
Proof.
  induction streams as [|items streams [out IH]]; [exists []; constructor|].
  induction items as [|item items [out' IH']].
  - exists out. exact (select_more _ _ _ _ (select_ended [] streams []) IH).
  - exists (item :: out'). exact (select_more _ _ _ _ (select_item [] streams item items []) IH').
Qed.

Lemma select_run_exists pending : forall streams, exists out, select_run (Item := Item) (pending, streams) out.
Proof.
  induction pending as [|[items|error] pending IH]; intros streams; [apply select_run_streams| |].
  - destruct (IH (streams ++ [items])) as [out Hout]. exists out.
    exact (select_more _ _ _ _ (select_completed [] pending items streams) Hout).
  - destruct (IH streams) as [out Hout]. exists out.
    exact (select_more _ _ _ _ (select_failed [] pending error streams) Hout).
Qed.

Lemma first_stream_spec (completed : list (Result (list Item) mdns_error)) : forall error,
  match first_stream completed error with
  | Ok (first, pending) => pool (pending, [first]) ≡ₚ List.concat (omap result_ok completed)
  | Err error' => Forall (fun r => is_ok r = false) completed
      /\ Err error' = List.last completed (Err error)
  end.
Proof.
  induction completed as [|[first|failed] completed IH]; intros error; cbn [first_stream].
  - split; [constructor|done].
  - unfold pool. cbn [fst snd omap list_omap result_ok List.concat]. rewrite app_nil_r.
    apply Permutation_app_comm.
  - specialize (IH failed). destruct (first_stream completed failed) as [[first pending]|error'].
    + exact IH.
    + destruct IH as [Hall Hl]. split; [by constructor|].
      rewrite Hl. destruct completed as [|r completed]; [done|].
      exact (last_default r completed (Err failed) (Err error)).
Qed.
End SelectFacts.

(** mDNS and HTTP lookups shape candidates in the same way.  The groups of a
    resolver are those of its records after filtering and selection, each with
    its distinct endpoints in order up to the limit, its distinct sources, and no
    empty group; building them never panics. *)
Lemma candidate_groups_shape `{CertificatesSpec} {Source} `{EqDecision Source}
    (dquic_addr : Dquic.EndpointAddr -> SocketAddr)
    (records : list (TaggedEndpointCandidate Source)) (lookup : EndpointLookup) :
  (forall n, record_limit lookup = Some n -> 0 < n) ->
  candidate_groups dquic_addr records lookup
  = Some (mkEndpointCandidates
      (omap (fun '(k, tagged) =>
         match take_limit (record_limit lookup) (firsts (map snd tagged)) with
         | [] => None
         | es => Some (mkEndpointCandidateGroup k es (firsts (map fst tagged)))
         end)
         (select_group_pairs (filter_endpoint_candidate_groups dquic_addr (grouped_spec records)
            (family lookup)) (sequences lookup)))).
Proof.
  intros Hlim. unfold candidate_groups. rewrite grouped_refines. cbn [mbind option_bind].
  do 2 f_equal. set (gs := select_group_pairs _ _). clearbody gs.
  induction gs as [|[k tagged] gs IH]; [done|]. cbn [map List.filter omap list_omap].
  rewrite group_entries_spec by (intros n Hn; apply Hlim in Hn; autorewrite with blen; lia).
  rewrite !add_new_nil. cbn [endpoints].
  destruct (take_limit (record_limit lookup) (firsts (map snd tagged))); [apply IH|].
  by rewrite IH.
Qed.

(** ** The candidates of a set *)
Lemma override_shape `{Certificates} lookup (seq : option CertificateSequence) :
  record_limit (exact_override lookup seq) = record_limit lookup
  /\ family (exact_override lookup seq) = family lookup
  /\ forall s, seq = Some s -> sequences (exact_override lookup seq) = Exact s.
Proof. destruct seq; cbn; [|done]. destruct (record_limit lookup) eqn:E; cbn; naive_solver. Qed.

Section CandidateFacts.
Context `{CS : CertificatesSpec} `{F : Bitfield} (DHTTP_SUFFIX : bytes).
Context {Source : Type} `{EqDecision Source} (source_mdns : bytes -> Family -> Source).
Context (dquic_addr : Dquic.EndpointAddr -> SocketAddr) (dns_name_ok : bytes -> bool).

(** The local name a resolver asks for. *)
Definition local_query_name (self : MdnsResolver) (domain : bytes) : bytes :=
  local_name DHTTP_SUFFIX (service_name self) (to_ascii_lowercase (trim_end_matches dot domain)).

(** An endpoint of a chain that a response to the query of a resolver carries. *)
Definition answered_by (self : MdnsResolver) (net : Network) (domain : bytes)
    (k : CertificateChainKey) (e : Dquic.EndpointAddr) : Prop :=
  let local := local_query_name self domain in
  proto self = true /\ exists peer p record,
    RoundResponse peer p ∈ take 3 (net_rounds net local) /\ record ∈ response_endpoints local p
    /\ is_main record = true /\ k = primary_key (normalized_sequence record)
    /\ dquic_try_from_endpoint record = Ok e.

Lemma tagged_main (source : Source) record k :
  chain_of (mkTagged source record None) = k -> is_primary_chain_key k = true ->
  is_main record = true /\ k = primary_key (normalized_sequence record).
Proof.
  intros <- Hp. unfold chain_of in *. cbn in *. destruct (is_main record); [done|].
  cbn [orb] in Hp. destruct (is_some (sequence record)); by rewrite is_primary_secondary in Hp.
Qed.

(** The candidates of one resolver. *)
Lemma endpoint_candidates_ok self name lookup net c :
  (forall n, record_limit lookup = Some n -> 0 < n) ->
  mdns_endpoint_candidates DHTTP_SUFFIX source_mdns dquic_addr dns_name_ok self name lookup net
  = Some (Ok c) ->
  Forall (fun g => endpoints g <> [] /\ NoDup (endpoints g)) (groups c)
  /\ forall k e, has (groups c) k e ->
       exists domain seq, mdns_lookup_parts dns_name_ok name = Some (domain, seq)
         /\ answered_by self net domain k e
         /\ endpoint_matches_family dquic_addr e (family lookup) = true
         /\ forall s, seq = Some s -> chain_sequence k = s.
Proof.
  intros Hlim. unfold mdns_endpoint_candidates.
  destruct (mdns_lookup_parts dns_name_ok name) as [[domain seq]|]; [|done].
  destruct (override_shape lookup seq) as (Hl & Hf & Hs).
  destruct (query_on DHTTP_SUFFIX self net domain) as [records|] eqn:Hq; [|done].
  rewrite candidate_groups_shape by (by rewrite Hl). cbn [mbind option_bind]. intros [= <-].
  cbn [groups]. rewrite Hl, Hf. apply mdns_query_ok in Hq as (Hp & _ & _ & _ & peer & p & Hr & Hperm & _).
  set (tagged := map (fun record => mkTagged (mdns_source source_mdns self) record None) records).
  split.
  - apply Forall_forall. intros g ([k es] & _ & Hg)%list_elem_of_omap.
    destruct (take_limit (record_limit lookup) (firsts (map snd es))) eqn:E; [done|].
    injection Hg as <-. cbn [endpoints]. split; [done|]. rewrite <- E.
    destruct (record_limit lookup); cbn [take_limit]; [|apply firsts_nodup].
    eapply sublist_NoDup; [apply firsts_nodup|apply sublist_take].
  - intros k e (g & ([k' es] & Hin & Hg)%list_elem_of_omap & Hk & He).
    destruct (take_limit (record_limit lookup) (firsts (map snd es))) eqn:E; [done|].
    injection Hg as <-. cbn [chain endpoints] in Hk, He. subst k'. rewrite <- E in He.
    apply take_limit_sub in He. rewrite firsts_elem in He.
    apply list_elem_of_In, in_map_iff in He as ([t e'] & <- & He%list_elem_of_In). cbn [snd].
    assert (forall s, seq = Some s -> chain_sequence k = s) as Hseq.
    { intros s Hsome. rewrite (Hs s Hsome) in Hin. cbn [select_group_pairs] in Hin.
      apply list_elem_of_In, List.filter_In in Hin as [_ Hb]. by apply bool_decide_eq_true in Hb. }
    exists domain, seq. split; [done|].
    eapply elem_of_sublist in Hin; [|apply select_sublist].
    apply (proj2 (filter_groups_spec dquic_addr _ _)) in Hin as (es0 & Hin & ->).
    apply list_elem_of_In, List.filter_In in He as [He%list_elem_of_In Hfam].
    apply grouped_spec_elem in Hin as [_ Hes]. destruct (Hes _ He) as (r & Hr' & Hprim & Hch & _ & Hd).
    unfold tagged in Hr'. apply list_elem_of_In, in_map_iff in Hr' as (record & <- & Hrec).
    destruct (tagged_main _ _ _ Hch Hprim) as [Hm ->]. split; [|done].
    split; [done|]. exists peer, p, record. split; [done|]. split; [|done].
    rewrite <- Hperm. by apply list_elem_of_In.
Qed.

End CandidateFacts.

Section CollectFacts.
Context `{C : Certificates} {Source : Type} `{EqDecision Source}.

Lemma collect_mdns_spec (completed : list (Result (EndpointCandidates Source) mdns_error)) : forall gs last,
  match collect_mdns completed gs last with
  | Ok cs => groups cs <> []
      /\ (forall k e, has (groups cs) k e <->
            has gs k e \/ exists c, Ok c ∈ completed /\ has (groups c) k e)
      /\ (groups_wf gs -> (forall c, Ok c ∈ completed -> Forall (fun g => NoDup (endpoints g)) (groups c)) ->
          groups_wf (groups cs))
  | Err _ => gs = [] /\ forall c, Ok c ∈ completed -> groups c = []
  end.
Proof.
  induction completed as [|[c|e] completed IH]; intros gs last; cbn [collect_mdns].
  - destruct gs as [|g gs]; [split; [done|]; set_solver|]. cbn [groups].
    split; [done|]. split; [|done]. intros k e. set_solver.
  - specialize (IH (merge_groups gs (groups c)) last).
    destruct (merge_groups_spec (groups c) gs) as [Hh Hw].
    destruct (collect_mdns completed _ last) as [cs|].
    + destruct IH as (I1 & I2 & I3). split; [done|]. split.
      * intros k e. rewrite I2, Hh. setoid_rewrite elem_of_cons. naive_solver.
      * intros Hgs Hall. apply I3; [apply Hw; [done|]; apply Hall; left|].
        intros c' Hc. apply Hall. by right.
    + destruct IH as [Hm I2]. destruct (groups c) as [|g gs'] eqn:Hg.
      { split; [exact Hm|]. intros c' [[= ->]|Hc]%elem_of_cons; [done|by apply I2]. }
      exfalso. revert Hm. unfold merge_groups. cbn [fold_left].
      assert (forall l x xs, fold_left merge_group l (x :: xs) <> ([] : list (EndpointCandidateGroup Source))) as Hne.
      { induction l as [|y l IHl]; intros x xs; cbn [fold_left]; [done|]. cbn [merge_group].
        destruct (bool_decide _); apply IHl. }
      destruct gs; cbn [merge_group]; [apply Hne|]. destruct (bool_decide _); apply Hne.
  - specialize (IH gs (Some e)). destruct (collect_mdns completed gs (Some e)) as [cs|].
    + destruct IH as (I1 & I2 & I3). split; [done|]. split.
      * intros k e'. rewrite I2. setoid_rewrite elem_of_cons. naive_solver.
      * intros Hgs Hall. apply I3; [done|]. intros c' Hc. apply Hall. by right.
    + destruct IH as [I1 I2]. split; [done|]. intros c' [?|Hc]%elem_of_cons; [done|by apply I2].
Qed.
End CollectFacts.

(** ** Properties *)

(** The record stream of a set of mDNS resolvers is exact.  A name that is neither
    below dhttp.net nor a local name is rejected.  Otherwise the lookup fails only
    when no resolver of the family succeeded, with the error of the last one; and
    however the lookups and streams interleave, the stream can run to its end, and
    a run to the end returns the records of all successful resolvers, each as
    often as it was found. *)
Theorem set_stream_exact `{Certificates} {Item} (dns_name_ok : bytes -> bool) (hostname : bytes)
    (completed : list (Result (list Item) mdns_error)) :
  match set_lookup dns_name_ok hostname completed with
  | Err error =>
      (mdns_lookup_parts dns_name_ok hostname = None /\ error = UnsupportedMdnsName)
      \/ (Forall (fun r => is_ok r = false) completed
          /\ Err error = List.last completed (Err NoMdnsResolvers))
  | Ok (first, pending) =>
      (exists out, select_run (pending, [first]) out)
      /\ forall out, select_run (pending, [first]) out ->
           out ≡ₚ List.concat (omap result_ok completed)
  end.
Proof.
  unfold set_lookup. destruct (mdns_lookup_parts dns_name_ok hostname) as [parts|]; [|by left].
  pose proof (first_stream_spec completed NoMdnsResolvers) as Hf.
  destruct (first_stream completed NoMdnsResolvers) as [[first pending]|error]; [|by right].
  split; [apply select_run_exists|]. intros out Hout%select_run_pool. by rewrite Hout.
Qed.

(** C25: the candidates of a set of mDNS resolvers are sound and complete.  Whatever
    the order in which the resolvers of the requested family complete, every
    endpoint of the result was carried, for exactly the local name of the query, by
    a response to one of them, in a main record whose sequence is that of its
    chain, the one in the name if there is one, and is of the requested family;
    what a resolver found is in the result; chains and endpoints are not repeated;
    and the lookup fails only when no resolver found anything. *)
Theorem mdns_candidates_sound `{CertificatesSpec} `{Bitfield} (DHTTP_SUFFIX : bytes) {Source}
    `{EqDecision Source} (source_mdns : bytes -> Family -> Source)
    (dquic_addr : Dquic.EndpointAddr -> SocketAddr) (dns_name_ok : bytes -> bool)
    (resolvers : list MdnsResolver) (net : MdnsResolver -> Network) (name : bytes)
    (lookup : EndpointLookup) (completed : list (Result (EndpointCandidates Source) mdns_error)) :
  let asked := family_resolvers resolvers (family lookup) in
  let outcome r := mdns_endpoint_candidates DHTTP_SUFFIX source_mdns dquic_addr dns_name_ok r name
                     lookup (net r) in
  (forall n, record_limit lookup = Some n -> 0 < n) ->
  map Some completed ≡ₚ map outcome asked ->
  match mdns_candidates resolvers lookup completed with
  | Ok cs => groups cs <> [] /\ NoDup (map chain (groups cs))
      /\ Forall (fun g => NoDup (endpoints g)) (groups cs)
      /\ (forall r c k e, r ∈ asked -> outcome r = Some (Ok c) -> has (groups c) k e ->
            has (groups cs) k e)
      /\ (forall k e, has (groups cs) k e -> exists r domain seq, r ∈ asked
            /\ mdns_lookup_parts dns_name_ok name = Some (domain, seq)
            /\ answered_by DHTTP_SUFFIX r (net r) domain k e
            /\ endpoint_matches_family dquic_addr e (family lookup) = true
            /\ forall s, seq = Some s -> chain_sequence k = s)
  | Err _ => forall r c, r ∈ asked -> outcome r = Some (Ok c) -> groups c = []
  end.
Proof.
  intros asked outcome Hlim Hperm.
  assert (forall c, Ok c ∈ completed <-> exists r, r ∈ asked /\ outcome r = Some (Ok c)) as Hin.
  { intros c. transitivity (Some (Ok c) ∈ map Some completed).
    - change (map Some completed) with (Some <$> completed). symmetry. apply list_elem_of_fmap_inj, _.
    - rewrite Hperm. rewrite list_elem_of_In, in_map_iff. setoid_rewrite <- list_elem_of_In.
      naive_solver. }
  unfold mdns_candidates. fold asked. destruct asked as [|r0 rs] eqn:Hasked.
  { intros r c Hr. by apply not_elem_of_nil in Hr. }
  pose proof (collect_mdns_spec completed [] None) as Hc.
  destruct (collect_mdns completed [] None) as [cs|error].
  - destruct Hc as (Hne & Hhas & Hwf). split; [done|].
    destruct Hwf as [Hnd Hall]; [split; constructor| |].
    { intros c (r & Hr & Ho)%Hin. apply endpoint_candidates_ok in Ho as [Hg _]; [|done].
      eapply Forall_impl; [exact Hg|]. by intros g [_ Hg']. }
    split; [done|]. split; [done|]. split.
    + intros r c k e Hr Ho Hk. apply Hhas. right. exists c. split; [|done]. apply Hin. by exists r.
    + intros k e Hk. apply Hhas in Hk as [(g & Hg & _)|(c & (r & Hr & Ho)%Hin & Hk)];
        [by apply not_elem_of_nil in Hg|].
      apply endpoint_candidates_ok in Ho as [_ Ho]; [|done].
      destruct (Ho k e Hk) as (domain & seq & H1 & H2 & H3 & H4). by exists r, domain, seq.
  - destruct Hc as [_ Hc]. intros r c Hr Ho. apply Hc, Hin. by exists r.
Qed.

(** Two resolvers; the one of the IPv6 address finds an endpoint. *)
Definition sample_net : Network (C := CertModel.certificates) :=
  mkNetwork true 7 (fun _ => [RoundTimeout; RoundResponse (V4 (mkSocketAddrV4 2 5353))
    (mkPacket Header_default [] [answer_record (C := CertModel.certificates)
       (str "a._x.local") (set_main sample_endpoint true)] [] [])]).
Definition sample_resolver (ip : IpAddr) : MdnsResolver (C := CertModel.certificates) :=
  mkMdnsResolver (str "_x.local") (str "eth0") ip ∅ true.
Abbreviation sample_outcome ip := (mdns_endpoint_candidates (F := BitfieldModel.bitfield)
  (Source := unit) (str ".dhttp.net") (fun _ _ => tt)
  (fun e => match e with Dquic.Direct a => a | Dquic.Mediate _ a => a end) (fun _ => true)
  (sample_resolver ip) (str "a.dhttp.net") (with_family lookup_all (Some FamilyV6)) sample_net).

Lemma sample_outcome_ok : exists c, sample_outcome (IpV6 1) = Some (Ok c) /\ groups c <> [].
Proof.
  assert (match sample_outcome (IpV6 1) with
          | Some (Ok c) => match groups c with [] => false | _ => true end
          | _ => false
          end = true) as Ho by (vm_compute; reflexivity).
  destruct (sample_outcome (IpV6 1)) as [[c|]|]; [|done..]. exists c. split; [done|].
  by destruct (groups c).
Qed.

Example mdns_candidates_sound_witness :
  exists c, sample_outcome (IpV6 1) = Some (Ok c)
    /\ match mdns_candidates [sample_resolver (IpV4 1); sample_resolver (IpV6 1)]
               (with_family lookup_all (Some FamilyV6)) [Ok c] with
       | Ok cs => groups cs <> []
       | Err _ => False
       end.
Proof.
  destruct sample_outcome_ok as (c & Hc & Hne). exists c. split; [exact Hc|].
  pose proof (mdns_candidates_sound (H := CertModel.certificates_spec) (H0 := BitfieldModel.bitfield)
    (str ".dhttp.net") (Source := unit) (fun _ _ => tt)
    (fun e => match e with Dquic.Direct a => a | Dquic.Mediate _ a => a end) (fun _ => true)
    [sample_resolver (IpV4 1); sample_resolver (IpV6 1)] (fun _ => sample_net) (str "a.dhttp.net")
    (with_family lookup_all (Some FamilyV6)) [Ok c]) as Hs.
  cbv zeta in Hs.
  change (family_resolvers _ _) with [sample_resolver (IpV6 1)] in Hs. cbn [map] in Hs.
  rewrite Hc in Hs. specialize (Hs ltac:(done) (reflexivity _)).
  destruct (mdns_candidates _ _ [Ok c]) as [cs|error]; [by apply Hs|].
  apply Hne, (Hs (sample_resolver (IpV6 1)) c); [left|exact Hc].
Defined.
