(* ===== verification/MdnsSet.v ===== *)
(** * The set of mDNS resolvers: src/mdns.rs

    One resolver per binding of a device and an address.  Bindings are added,
    removed and shut down concurrently: the operations are split at their locks
    and [await] points into the steps of a transition system ([set_step]).  A
    resolver instance is a number; [live] are the instances whose sockets and
    tasks exist.  An operation that runs alone is a function on the same state,
    shown to be a sequence of those steps; [reconcile] and [maintain] are built
    from these functions. *)

From stdpp Require Import base list gmap numbers option sets relations.
From S2P Require Import Prelude RustString Endpoint Candidates MdnsService MdnsLookup.

(** ** The set *)
Record MdnsBinding := mkMdnsBinding { binding_device : bytes; binding_ip : IpAddr }.

Global Instance MdnsBinding_eq_dec : EqDecision MdnsBinding.
Proof. solve_decision. Defined.
Global Instance MdnsBinding_countable : Countable MdnsBinding.
Proof.
  refine (inj_countable'
    (fun b => (binding_device b, match binding_ip b with IpV4 i => inl i | IpV6 i => inr i end))
    (fun x => mkMdnsBinding x.1 (match x.2 with inl i => IpV4 i | inr i => IpV6 i end)) _).
  by intros [? []].
Defined.

(** [MdnsBinding::family]. *)
Definition binding_family (self : MdnsBinding) : Family :=
  match binding_ip self with IpV4 _ => FamilyV4 | IpV6 _ => FamilyV6 end.

(** What is left to do of an operation: an [upsert] that found the set open, one that
    also found no resolver for its binding, and one with its new instance; an
    [upsert], [remove] or [shutdown] that shuts instances down; a [shutdown]
    that has not drained the map. *)
Inductive Task :=
| Checking (b : MdnsBinding)
| Missing (b : MdnsBinding)
| Binding (b : MdnsBinding) (candidate : nat)
| Closing (instances : list nat)
| Draining.

Record ResolverSet := mkResolverSet {
  resolvers : gmap MdnsBinding nat;
  closed : bool;
  live : gset nat;
  next_instance : nat;
  tasks : list Task;
}.

Definition ResolverSet_new : ResolverSet := mkResolverSet ∅ false ∅ 0 [].

Definition with_tasks (s : ResolverSet) (t : list Task) : ResolverSet :=
  mkResolverSet (resolvers s) (closed s) (live s) (next_instance s) t.

(** [upsert]: the flag is read, then the map; when the set was open and had no
    resolver for the binding, a new one is bound, which may fail; then, under the
    write lock, it is inserted, or shut down again because the set was closed or
    another resolver was faster. *)
Inductive upsert_step : ResolverSet -> ResolverSet -> Prop :=
| upsert_check b s :
    closed s = false -> upsert_step s (with_tasks s (Checking b :: tasks s))
| upsert_found b t1 t2 s :
    tasks s = t1 ++ Checking b :: t2 -> is_Some (resolvers s !! b) ->
    upsert_step s (with_tasks s (t1 ++ t2))
| upsert_missing b t1 t2 s :
    tasks s = t1 ++ Checking b :: t2 -> resolvers s !! b = None ->
    upsert_step s (with_tasks s (t1 ++ Missing b :: t2))
| upsert_unbound b t1 t2 s :
    tasks s = t1 ++ Missing b :: t2 -> upsert_step s (with_tasks s (t1 ++ t2))
| upsert_bind b t1 t2 s :
    tasks s = t1 ++ Missing b :: t2 ->
    upsert_step s (mkResolverSet (resolvers s) (closed s) ({[next_instance s]} ∪ live s)
                     (S (next_instance s)) (t1 ++ Binding b (next_instance s) :: t2))
| upsert_lost b c t1 t2 s :
    tasks s = t1 ++ Binding b c :: t2 -> closed s = true \/ is_Some (resolvers s !! b) ->
    upsert_step s (with_tasks s (t1 ++ Closing [c] :: t2))
| upsert_insert b c t1 t2 s :
    tasks s = t1 ++ Binding b c :: t2 -> closed s = false -> resolvers s !! b = None ->
    upsert_step s (mkResolverSet (<[b := c]> (resolvers s)) (closed s) (live s) (next_instance s)
                     (t1 ++ t2)).

(** [remove]: the binding is taken out of the map under the write lock. *)
Inductive remove_step : ResolverSet -> ResolverSet -> Prop :=
| remove_take b c s :
    resolvers s !! b = Some c ->
    remove_step s (mkResolverSet (delete b (resolvers s)) (closed s) (live s) (next_instance s)
                     (Closing [c] :: tasks s)).

(** [shutdown]: the flag is set, then the map is drained under the write lock. *)
Inductive shutdown_step : ResolverSet -> ResolverSet -> Prop :=
| shutdown_close s :
    shutdown_step s (mkResolverSet (resolvers s) true (live s) (next_instance s)
                       (Draining :: tasks s))
| shutdown_drain t1 t2 s :
    tasks s = t1 ++ Draining :: t2 ->
    shutdown_step s (mkResolverSet ∅ (closed s) (live s) (next_instance s)
                       (t1 ++ Closing (map snd (map_to_list (resolvers s))) :: t2)).

(** [MdnsResolver::shutdown] of an instance, successful or not; after the last one
    the operation returns.  [upsert] and [remove] await it for the instance they displaced
    or took out, [shutdown] for all of them. *)
Inductive closing_step : ResolverSet -> ResolverSet -> Prop :=
| close_one c cs t1 t2 s :
    tasks s = t1 ++ Closing (c :: cs) :: t2 ->
    closing_step s (mkResolverSet (resolvers s) (closed s) (live s ∖ {[c]}) (next_instance s)
                      (t1 ++ Closing cs :: t2))
| close_done t1 t2 s :
    tasks s = t1 ++ Closing [] :: t2 ->
    closing_step s (with_tasks s (t1 ++ t2)).

Inductive set_step (s s' : ResolverSet) : Prop :=
| set_upsert : upsert_step s s' -> set_step s s'
| set_remove : remove_step s s' -> set_step s s'
| set_shutdown_step : shutdown_step s s' -> set_step s s'
| set_closing : closing_step s s' -> set_step s s'.

Inductive set_reachable : ResolverSet -> Prop :=
| set_initial : set_reachable ResolverSet_new
| set_next s s' : set_reachable s -> set_step s s' -> set_reachable s'.

(** ** The invariant of the set

    Every live instance has exactly one owner: an entry of the map or an
    operation that will insert it or shut it down.  A closed set whose map is not
    empty is about to be drained. *)
Definition task_instances (t : Task) : list nat :=
  match t with Binding _ c => [c] | Closing cs => cs | Checking _ | Missing _ | Draining => [] end.

Definition owned (s : ResolverSet) : list nat :=
  map snd (map_to_list (resolvers s)) ++ List.concat (map task_instances (tasks s)).

Definition set_ok (s : ResolverSet) : Prop :=
  NoDup (owned s) /\ (forall c, c ∈ live s <-> c ∈ owned s)
  /\ (forall c, c ∈ owned s -> (c < next_instance s)%nat)
  /\ (closed s = true -> Draining ∈ tasks s \/ resolvers s = ∅).

Lemma concat_middle {A B} (f : A -> list B) t1 t t2 :
  List.concat (map f (t1 ++ t :: t2)) ≡ₚ f t ++ List.concat (map f (t1 ++ t2)).
Proof.
  rewrite !map_app, !concat_app. cbn [map List.concat]. rewrite !(assoc_L (++)).
  apply Permutation_app_tail, Permutation_app_comm.
Qed.

(** A step that only moves ownership. *)
Lemma moved_ok s s' :
  owned s' ≡ₚ owned s -> live s' = live s -> next_instance s' = next_instance s ->
  (closed s' = true -> Draining ∈ tasks s' \/ resolvers s' = ∅) -> set_ok s -> set_ok s'.
Proof.
  intros Hp Hl Hn Hc (H1 & H2 & H3 & _). unfold set_ok. rewrite Hl, Hn. split_and!; [|..|done].
  - by rewrite Hp.
  - intros c. by rewrite Hp.
  - intros c. rewrite Hp. apply H3.
Qed.

(** A step that creates an instance. *)
Lemma gained_ok s s' :
  owned s' ≡ₚ next_instance s :: owned s -> live s' = {[next_instance s]} ∪ live s ->
  next_instance s' = S (next_instance s) ->
  (closed s' = true -> Draining ∈ tasks s' \/ resolvers s' = ∅) -> set_ok s -> set_ok s'.
Proof.
  intros Hp Hl Hn Hc (H1 & H2 & H3 & _). unfold set_ok. rewrite Hl, Hn. split_and!; [|..|done].
  - rewrite Hp. constructor; [|done]. intros Hin%H3. lia.
  - intros c. by rewrite Hp, elem_of_union, elem_of_singleton, elem_of_cons, H2.
  - intros c. rewrite Hp, elem_of_cons. intros [->|Hin%H3]; lia.
Qed.

(** A step that shuts an instance down. *)
Lemma released_ok s s' c :
  owned s ≡ₚ c :: owned s' -> live s' = live s ∖ {[c]} -> next_instance s' = next_instance s ->
  (closed s' = true -> Draining ∈ tasks s' \/ resolvers s' = ∅) -> set_ok s -> set_ok s'.
Proof.
  intros Hp Hl Hn Hc (H1 & H2 & H3 & _). rewrite Hp in H1. apply list.NoDup_cons in H1 as [Hout Hnd].
  unfold set_ok. rewrite Hl, Hn. split_and!; [done| | |done].
  - intros x. rewrite elem_of_difference, elem_of_singleton, H2, Hp, elem_of_cons.
    split; [by intros [[->|] ?]|]. intros Hx. split; [by right|]. by intros ->.
  - intros x Hx. apply H3. rewrite Hp. by right.
Qed.

Lemma draining_kept t1 t t2 t' :
  t <> Draining -> Draining ∈ t1 ++ t :: t2 -> Draining ∈ t1 ++ t' ++ t2.
Proof. rewrite !elem_of_app, elem_of_cons. naive_solver. Qed.

Lemma map_values_insert (m : gmap MdnsBinding nat) b c :
  m !! b = None -> map snd (map_to_list (<[b := c]> m)) ≡ₚ c :: map snd (map_to_list m).
Proof. intros Hb. by rewrite map_to_list_insert. Qed.

Lemma map_values_delete (m : gmap MdnsBinding nat) b c :
  m !! b = Some c -> map snd (map_to_list m) ≡ₚ c :: map snd (map_to_list (delete b m)).
Proof. intros Hb. by rewrite <- (map_to_list_delete m b c). Qed.

(** A task is replaced by others that own the same instances. *)
Lemma replaced_ok s t1 t t2 ts :
  tasks s = t1 ++ t :: t2 -> t <> Draining ->
  List.concat (map task_instances ts) = task_instances t ->
  set_ok s -> set_ok (with_tasks s (t1 ++ ts ++ t2)).
Proof.
  intros Ht Hd Hts Hok. pose proof Hok as (_ & _ & _ & H4).
  apply (moved_ok s); try done; unfold owned; cbn [with_tasks resolvers tasks closed].
  - rewrite Ht, concat_middle, <- Hts, !map_app, !concat_app.
    by rewrite (Permutation_app_swap_app (List.concat (map task_instances t1))).
  - intros Hcl. destruct (H4 Hcl) as [Hin|]; [left|by right]. rewrite Ht in Hin.
    by eapply draining_kept.
Qed.

Lemma upsert_step_ok s s' : upsert_step s s' -> set_ok s -> set_ok s'.
Proof.
  intros Hstep Hok. pose proof Hok as (_ & _ & _ & H4).
  destruct Hstep as [b s Hc|b t1 t2 s Ht Hb|b t1 t2 s Ht Hb|b t1 t2 s Ht|b t1 t2 s Ht
    |b c t1 t2 s Ht Hc|b c t1 t2 s Ht Hc Hb].
  - apply (moved_ok s); try done. cbn. by rewrite Hc.
  - by eapply (replaced_ok s t1 (Checking b) t2 []).
  - by eapply (replaced_ok s t1 (Checking b) t2 [Missing b]).
  - by eapply (replaced_ok s t1 (Missing b) t2 []).
  - apply (gained_ok s); try done; unfold owned; cbn [resolvers tasks closed].
    + rewrite Ht, !concat_middle. cbn [task_instances app]. by rewrite Permutation_middle.
    + intros Hcl. destruct (H4 Hcl) as [Hd|]; [left|by right]. rewrite Ht in Hd.
      by apply (draining_kept _ _ _ [Binding b (next_instance s)]) in Hd.
  - by eapply (replaced_ok s t1 (Binding b c) t2 [Closing [c]]).
  - apply (moved_ok s); try done; unfold owned; cbn [resolvers tasks closed].
    + rewrite Ht, concat_middle, map_values_insert by done. cbn [task_instances app].
      by rewrite Permutation_middle.
    + by rewrite Hc.
Qed.

Lemma closing_step_ok s s' : closing_step s s' -> set_ok s -> set_ok s'.
Proof.
  intros Hstep Hok. pose proof Hok as (_ & _ & _ & H4).
  destruct Hstep as [c cs t1 t2 s Ht|t1 t2 s Ht].
  - apply (released_ok s _ c); try done; unfold owned; cbn [resolvers tasks closed].
    + rewrite Ht, !concat_middle. cbn [task_instances]. by rewrite Permutation_middle.
    + intros Hcl. destruct (H4 Hcl) as [Hd|]; [left|by right]. rewrite Ht in Hd.
      by apply (draining_kept _ _ _ [Closing cs]) in Hd.
  - by eapply (replaced_ok s t1 (Closing []) t2 []).
Qed.

Lemma set_step_ok s s' : set_step s s' -> set_ok s -> set_ok s'.
Proof.
  intros [H|H|H|H]; [by apply upsert_step_ok| | |by apply closing_step_ok];
    intros Hok; pose proof Hok as (_ & _ & _ & H4).
  - destruct H as [b c s Hb]. apply (moved_ok s); try done; unfold owned; cbn [resolvers tasks closed].
    + rewrite (map_values_delete _ _ _ Hb). cbn [map List.concat task_instances app].
      by rewrite <- Permutation_middle.
    + intros Hcl. destruct (H4 Hcl) as [Hd|He]; [left; by right|]. by rewrite He in Hb.
  - destruct H as [s|t1 t2 s Ht]; [apply (moved_ok s); try done; intros _; left; left|].
    apply (moved_ok s); try done; unfold owned; cbn [resolvers tasks closed]; [|by right].
    by rewrite Ht, !concat_middle, map_to_list_empty.
Qed.

Lemma set_reachable_ok s : set_reachable s -> set_ok s.
Proof.
  induction 1 as [|s s' _ IH Hs]; [|by eapply set_step_ok].
  split_and!; [constructor|set_solver|set_solver|done].
Qed.

(** ** Operations that run alone

    [bind] is the outcome of [MdnsResolver::bind] and [stop] that of the shutdown of
    an instance. *)
Inductive MdnsReconcileError :=
| ReconcileBind (binding : MdnsBinding) (source : MdnsBindError)
| ReconcileRemove (binding : MdnsBinding) (source : MdnsShutdownError).

Section Sequential.
Context (bind : MdnsBinding -> option MdnsBindError) (stop : nat -> option MdnsShutdownError).

Definition upsert (s : ResolverSet) (b : MdnsBinding) : ResolverSet * Result nat MdnsBindError :=
  if closed s then (s, Err BindClosed)
  else match resolvers s !! b with
       | Some c => (s, Ok c)
       | None =>
           match bind b with
           | Some error => (s, Err error)
           | None =>
               let c := next_instance s in
               (mkResolverSet (<[b := c]> (resolvers s)) (closed s) ({[c]} ∪ live s) (S c) (tasks s),
                Ok c)
           end
       end.

Definition remove (s : ResolverSet) (b : MdnsBinding) : ResolverSet * Result bool MdnsShutdownError :=
  match resolvers s !! b with
  | None => (s, Ok false)
  | Some c =>
      (mkResolverSet (delete b (resolvers s)) (closed s) (live s ∖ {[c]}) (next_instance s) (tasks s),
       match stop c with Some error => Err error | None => Ok true end)
  end.

(** The loop of [shutdown] over the drained instances: the first error is returned
    after all of them were shut down. *)
Fixpoint stop_all (instances : list nat) (l : gset nat) (error : option MdnsShutdownError)
  : gset nat * option MdnsShutdownError :=
  match instances with
  | [] => (l, error)
  | c :: instances =>
      stop_all instances (l ∖ {[c]})
        (match error with Some error => Some error | None => stop c end)
  end.

Definition shutdown (s : ResolverSet) : ResolverSet * Result unit MdnsShutdownError :=
  let '(l, error) := stop_all (map snd (map_to_list (resolvers s))) (live s) None in
  (mkResolverSet ∅ true l (next_instance s) (tasks s),
   match error with Some error => Err error | None => Ok tt end).

(** *** [reconcile]

    [snapshot] is the map and [hash_set] a [HashSet] in the orders in which they are
    traversed. *)
Context (snapshot : ResolverSet -> list MdnsBinding).
Context (hash_set : list MdnsBinding -> list MdnsBinding).

Fixpoint retire (desired : list MdnsBinding) (s : ResolverSet) (present : list MdnsBinding)
    (errors : list MdnsReconcileError) : ResolverSet * list MdnsReconcileError :=
  match present with
  | [] => (s, errors)
  | b :: present =>
      if bool_decide (b ∈ desired) then retire desired s present errors
      else
        let '(s, r) := remove s b in
        retire desired s present
          (match r with Err source => errors ++ [ReconcileRemove b source] | Ok _ => errors end)
  end.

Fixpoint upsert_all (s : ResolverSet) (desired : list MdnsBinding)
    (errors : list MdnsReconcileError) : ResolverSet * list MdnsReconcileError :=
  match desired with
  | [] => (s, errors)
  | b :: desired =>
      let '(s, r) := upsert s b in
      upsert_all s desired
        (match r with Err source => errors ++ [ReconcileBind b source] | Ok _ => errors end)
  end.

Definition reconcile (s : ResolverSet) (bindings : list MdnsBinding)
  : ResolverSet * list MdnsReconcileError :=
  let desired := hash_set bindings in
  let '(s, errors) := retire desired s (snapshot s) [] in
  upsert_all s desired errors.
End Sequential.

(** *** [maintain]

    The task wakes up once per period.  A tick is what the caller's [snapshot]
    returns then, with the outcomes of binding and shutting down at that time. *)
Record Tick := mkTick {
  tick_bindings : Result (list MdnsBinding) bytes;
  tick_bind : MdnsBinding -> option MdnsBindError;
  tick_stop : nat -> option MdnsShutdownError;
}.

Section Maintain.
Context (snapshot : ResolverSet -> list MdnsBinding).
Context (hash_set : list MdnsBinding -> list MdnsBinding).

Definition reconcile_at (t : Tick) (s : ResolverSet) (bindings : list MdnsBinding) : ResolverSet :=
  (reconcile (tick_bind t) (tick_stop t) snapshot hash_set s bindings).1.

(** The body of the loop; [None] is the end of the task. *)
Definition maintain_tick (s : ResolverSet) (t : Tick) : option ResolverSet :=
  if closed s then None
  else match tick_bindings t with
       | Ok bindings => Some (reconcile_at t s bindings)
       | Err _ => Some s
       end.

(** The state after some ticks when nothing else changes the set. *)
Fixpoint maintain_loop (s : ResolverSet) (ticks : list Tick) : ResolverSet :=
  match ticks with
  | [] => s
  | t :: ticks => match maintain_tick s t with
                  | None => s
                  | Some s => maintain_loop s ticks
                  end
  end.

Inductive maintain_error := ZeroInterval | SnapshotFailed (source : bytes).

(** The first reconciliation; the task is only started when it returns [Ok]. *)
Definition maintain (s : ResolverSet) (period : Z) (t : Tick) : ResolverSet * Result unit maintain_error :=
  if period =? 0 then (s, Err ZeroInterval)
  else match tick_bindings t with
       | Err source => (s, Err (SnapshotFailed source))
       | Ok bindings => (reconcile_at t s bindings, Ok tt)
       end.
End Maintain.

(** ** Facts about the operations that run alone *)
Lemma next_steps s1 s2 s3 : set_step s1 s2 -> rtc set_step s2 s3 -> rtc set_step s1 s3.
Proof. apply rtc_l. Qed.

Lemma rtc_reachable s s' : rtc set_step s s' -> set_reachable s -> set_reachable s'.
Proof. induction 1; [done|]. intros Hr. apply IHrtc. by eapply set_next. Qed.

Section SequentialFacts.
Context (bind : MdnsBinding -> option MdnsBindError) (stop : nat -> option MdnsShutdownError).

(** Each operation is a sequence of steps. *)
Lemma upsert_steps s b : rtc set_step s (upsert bind s b).1.
Proof.
  unfold upsert. destruct (closed s) eqn:Hc; [done|]. destruct (resolvers s !! b) eqn:Hb; [done|].
  destruct (bind b); [done|]. cbn [fst].
  eapply next_steps; [by apply set_upsert, (upsert_check b)|].
  eapply next_steps; [by apply set_upsert, (upsert_missing b [] (tasks s))|].
  eapply next_steps; [by apply set_upsert, (upsert_bind b [] (tasks s))|].
  eapply next_steps; [|reflexivity]. apply set_upsert.
  pose proof (upsert_insert b (next_instance s) [] (tasks s)
    (mkResolverSet (resolvers s) (closed s) ({[next_instance s]} ∪ live s)
       (S (next_instance s)) (Binding b (next_instance s) :: tasks s)) eq_refl Hc Hb) as Hi.
  cbn in Hi |- *. rewrite Hc in *. exact Hi.
Qed.

Lemma remove_steps s b : rtc set_step s (remove stop s b).1.
Proof.
  unfold remove. destruct (resolvers s !! b) as [c|] eqn:Hb; [|done]. cbn [fst].
  eapply next_steps; [by eapply set_remove, remove_take|].
  eapply next_steps; [by apply set_closing, (close_one c [] [] (tasks s))|].
  eapply next_steps; [by apply set_closing, (close_done [] (tasks s))|]. reflexivity.
Qed.

Lemma stop_all_steps cs : forall s t error,
  tasks s = Closing cs :: t ->
  rtc set_step s (mkResolverSet (resolvers s) (closed s) (stop_all stop cs (live s) error).1
                    (next_instance s) t).
Proof.
  induction cs as [|c cs IH]; intros s t error Ht; cbn [stop_all].
  { eapply next_steps; [by apply set_closing, (close_done [] t)|]. reflexivity. }
  eapply next_steps; [by apply set_closing, (close_one c cs [] t)|].
  exact (IH (mkResolverSet _ _ _ _ _) t _ eq_refl).
Qed.

Lemma shutdown_steps s : rtc set_step s (shutdown stop s).1.
Proof.
  unfold shutdown. set (cs := map snd _).
  destruct (stop_all stop cs (live s) None) as [l error] eqn:Hs. cbn [fst].
  eapply next_steps; [apply set_shutdown_step, shutdown_close|].
  eapply next_steps; [by apply set_shutdown_step, (shutdown_drain [] (tasks s))|].
  change l with (l, error).1. rewrite <- Hs.
  exact (stop_all_steps cs (mkResolverSet ∅ true (live s) (next_instance s)
    (Closing cs :: tasks s)) (tasks s) None eq_refl).
Qed.

Lemma retire_steps desired present : forall s errors,
  rtc set_step s (retire stop desired s present errors).1.
Proof.
  induction present as [|b present IH]; intros s errors; cbn [retire]; [done|].
  case_bool_decide; [apply IH|]. pose proof (remove_steps s b) as Hr.
  destruct (remove stop s b) as [s' r]. etransitivity; [exact Hr|apply IH].
Qed.

Lemma upsert_all_steps desired : forall s errors,
  rtc set_step s (upsert_all bind s desired errors).1.
Proof.
  induction desired as [|b desired IH]; intros s errors; cbn [upsert_all]; [done|].
  pose proof (upsert_steps s b) as Hr.
  destruct (upsert bind s b) as [s' r]. etransitivity; [exact Hr|apply IH].
Qed.

Lemma reconcile_steps snapshot hash_set s bindings :
  rtc set_step s (reconcile bind stop snapshot hash_set s bindings).1.
Proof.
  unfold reconcile. set (desired := hash_set bindings).
  pose proof (retire_steps desired (snapshot s) s []) as Hr.
  destruct (retire stop desired s (snapshot s) []) as [s' errors].
  etransitivity; [exact Hr|apply upsert_all_steps].
Qed.

(** Two tests of equivalent propositions. *)
Ltac same_test :=
  match goal with
  | |- (if bool_decide ?P then _ else _) = (if bool_decide ?Q then _ else _) =>
      rewrite (bool_decide_ext P Q); [done|set_solver]
  end.

(** The errors of a retirement. *)
Definition retire_error (desired : list MdnsBinding) (s : ResolverSet) (b : MdnsBinding)
  : option MdnsReconcileError :=
  if bool_decide (b ∈ desired) then None
  else c ← resolvers s !! b; e ← stop c; Some (ReconcileRemove b e).

Lemma omap_ext_elem {A B} (f g : A -> option B) (l : list A) :
  (forall x, x ∈ l -> f x = g x) -> omap f l = omap g l.
Proof.
  induction l as [|x l IH]; intros Hl; [done|]. cbn [omap list_omap]. rewrite Hl by left.
  rewrite IH; [done|]. intros y Hy. apply Hl. by right.
Qed.

Lemma remove_spec s b :
  let '(s', r) := remove stop s b in
  closed s' = closed s /\ resolvers s' = delete b (resolvers s)
  /\ r = match resolvers s !! b with
         | None => Ok false
         | Some c => match stop c with Some e => Err e | None => Ok true end
         end.
Proof.
  unfold remove. destruct (resolvers s !! b) eqn:Hb; [done|]. by rewrite delete_id.
Qed.

Lemma retire_spec desired present : forall s errors,
  NoDup present ->
  let '(s', errors') := retire stop desired s present errors in
  closed s' = closed s
  /\ (forall b, resolvers s' !! b
       = if bool_decide (b ∈ present /\ b ∉ desired) then None else resolvers s !! b)
  /\ errors' = errors ++ omap (retire_error desired s) present.
Proof.
  induction present as [|x present IH]; intros s errors Hnd; cbn [retire].
  { split_and!; [done| |by rewrite app_nil_r]. intros b. rewrite bool_decide_false; [done|]. set_solver. }
  apply list.NoDup_cons in Hnd as [Hout Hnd]. cbn [omap list_omap].
  destruct (decide (x ∈ desired)) as [Hx|Hx].
  { rewrite bool_decide_true by done. specialize (IH s errors Hnd).
    destruct (retire stop desired s present errors) as [s' errors']. destruct IH as (I1 & I2 & I3).
    split; [done|]. unfold retire_error at 1. rewrite (bool_decide_true _ Hx). split; [|done].
    intros b. rewrite I2. same_test. }
  rewrite bool_decide_false by done. pose proof (remove_spec s x) as Hr.
  destruct (remove stop s x) as [s1 r]. destruct Hr as (H1 & H2 & ->).
  set (errors1 := match _ with Ok _ => errors | Err _ => _ end). specialize (IH s1 errors1 Hnd).
  destruct (retire stop desired s1 present errors1) as [s' errors']. destruct IH as (I1 & I2 & ->).
  split; [by rewrite I1|]. split.
  - intros b. rewrite I2, H2. destruct (decide (b = x)) as [->|Hne].
    + rewrite lookup_delete_eq, (bool_decide_true (x ∈ x :: present /\ x ∉ desired)) by set_solver.
      by case_bool_decide.
    + rewrite lookup_delete_ne by done. same_test.
  - assert (omap (retire_error desired s1) present = omap (retire_error desired s) present) as ->.
    { apply omap_ext_elem. intros b Hb. unfold retire_error. rewrite H2, lookup_delete_ne; [done|].
      by intros ->. }
    unfold errors1, retire_error at 2. rewrite (bool_decide_false _ Hx).
    destruct (resolvers s !! x) as [c|]; cbn [mbind option_bind]; [|done].
    destruct (stop c); cbn [mbind option_bind]; [by rewrite <- app_assoc|done].
Qed.

(** The errors of the additions. *)
Definition bind_failure (s : ResolverSet) (b : MdnsBinding) : option MdnsReconcileError :=
  match resolvers s !! b with
  | Some _ => None
  | None => e ← bind b; Some (ReconcileBind b e)
  end.

Lemma upsert_all_spec desired : forall s errors,
  NoDup desired -> closed s = false ->
  let '(s', errors') := upsert_all bind s desired errors in
  closed s' = false
  /\ (forall b, is_Some (resolvers s !! b) \/ b ∉ desired \/ bind b <> None ->
        resolvers s' !! b = resolvers s !! b)
  /\ (forall b, b ∈ desired -> resolvers s !! b = None -> bind b = None ->
        is_Some (resolvers s' !! b))
  /\ errors' = errors ++ omap (bind_failure s) desired.
Proof.
  induction desired as [|x desired IH]; intros s errors Hnd Hc; cbn [upsert_all].
  { split_and!; [done|done|set_solver|by rewrite app_nil_r]. }
  apply list.NoDup_cons in Hnd as [Hx Hnd]. unfold upsert. rewrite Hc.
  cbn [omap list_omap]. unfold bind_failure at 1. destruct (resolvers s !! x) as [c|] eqn:Hv.
  { specialize (IH s errors Hnd Hc). destruct (upsert_all bind s desired errors) as [s' errors'].
    destruct IH as (I0 & I1 & I2 & I3). split_and!; [done| | |done].
    - intros b Hb. apply I1. set_solver.
    - intros b Hb Hn Hbind. apply I2; [|done..]. set_solver. }
  destruct (bind x) as [e|] eqn:Hbind; cbn [mbind option_bind].
  { specialize (IH s (errors ++ [ReconcileBind x e]) Hnd Hc).
    destruct (upsert_all bind s desired _) as [s' errors']. destruct IH as (I0 & I1 & I2 & ->).
    split_and!; [done| | |by rewrite <- app_assoc].
    - intros b Hb. apply I1. set_solver.
    - intros b Hb Hn Hbb. apply I2; [|done..]. set_solver. }
  set (s1 := mkResolverSet _ _ _ _ _).
  assert (forall b, b <> x -> resolvers s1 !! b = resolvers s !! b) as Hne
    by (intros b Hb; by apply lookup_insert_ne).
  assert (resolvers s1 !! x = Some (next_instance s)) as Heq by apply lookup_insert_eq.
  specialize (IH s1 errors Hnd eq_refl). destruct (upsert_all bind s1 desired errors) as [s' errors'].
  destruct IH as (I0 & I1 & I2 & ->). split_and!; [done| | |].
  - intros b Hb. destruct (decide (b = x)) as [->|Hbx].
    { destruct Hb as [[? Hb]|[Hb|Hb]]; [by rewrite Hv in Hb|set_solver|done]. }
    rewrite <- (Hne b Hbx). apply I1. rewrite (Hne b Hbx). set_solver.
  - intros b Hb Hn Hbb. destruct (decide (b = x)) as [->|Hbx].
    + rewrite I1 by set_solver. by rewrite Heq.
    + apply I2; [set_solver|by rewrite Hne|done].
  - f_equal. apply omap_ext_elem. intros b Hb. unfold bind_failure. rewrite Hne; [done|]. by intros ->.
Qed.
End SequentialFacts.

(** *** Reconciliation *)
Section ReconcileFacts.
Context (snapshot : ResolverSet -> list MdnsBinding) (hash_set : list MdnsBinding -> list MdnsBinding).
Hypothesis snapshot_keys : forall s, snapshot s ≡ₚ map fst (map_to_list (resolvers s)).
Hypothesis hash_set_elems : forall l, NoDup (hash_set l) /\ forall b, b ∈ hash_set l <-> b ∈ l.

Lemma snapshot_spec s : NoDup (snapshot s) /\ forall b, b ∈ snapshot s <-> is_Some (resolvers s !! b).
Proof.
  split.
  - rewrite snapshot_keys. apply NoDup_fst_map_to_list.
  - intros b. rewrite snapshot_keys. change (map fst ?l) with (l.*1). rewrite list_elem_of_fmap. split.
    + intros ([b' c] & -> & Hb%elem_of_map_to_list). by exists c.
    + intros [c Hb]. exists (b, c). split; [done|]. by apply elem_of_map_to_list.
Qed.

(** The map after a reconciliation of an open set, and the errors. *)
Lemma reconcile_spec bind stop s bindings :
  closed s = false ->
  let '(s', errors) := reconcile bind stop snapshot hash_set s bindings in
  closed s' = false
  /\ (forall b, b ∉ bindings -> resolvers s' !! b = None)
  /\ (forall b c, b ∈ bindings -> resolvers s !! b = Some c -> resolvers s' !! b = Some c)
  /\ (forall b, b ∈ bindings -> resolvers s !! b = None ->
        (is_Some (resolvers s' !! b) <-> bind b = None))
  /\ (forall e, e ∈ errors <->
        (exists b c f, e = ReconcileRemove b f /\ b ∉ bindings /\ resolvers s !! b = Some c
           /\ stop c = Some f)
        \/ (exists b f, e = ReconcileBind b f /\ b ∈ bindings /\ resolvers s !! b = None
           /\ bind b = Some f)).
Proof.
  intros Hc. unfold reconcile. destruct (hash_set_elems bindings) as [Hnd Hel].
  destruct (snapshot_spec s) as [Hsn Hin]. revert Hnd Hel. generalize (hash_set bindings) as desired.
  intros desired Hnd Hel. pose proof (retire_spec bind stop desired (snapshot s) s [] Hsn) as Hr.
  destruct (retire stop desired s (snapshot s) []) as [s1 errors1]. destruct Hr as (R1 & R2 & ->).
  assert (forall b, b ∈ bindings -> resolvers s1 !! b = resolvers s !! b) as Hkeep.
  { intros b Hb%Hel. rewrite R2, bool_decide_false; [done|]. tauto. }
  assert (forall b, b ∉ bindings -> resolvers s1 !! b = None) as Hgone.
  { intros b Hb. rewrite <- Hel in Hb. rewrite R2. case_bool_decide as Hs; [done|].
    destruct (resolvers s !! b) eqn:E; [|done]. destruct Hs. split; [|done]. apply Hin. by rewrite E. }
  pose proof (upsert_all_spec bind stop desired s1 ([] ++ omap (retire_error stop desired s) (snapshot s))
    Hnd (eq_trans R1 Hc)) as Hu.
  destruct (upsert_all bind s1 desired _) as [s' errors']. destruct Hu as (U0 & U1 & U2 & ->).
  cbn [app]. split_and!; [done|..].
  - intros b Hb. rewrite U1; [by apply Hgone|]. rewrite Hel. tauto.
  - intros b c Hb Hv. rewrite U1; rewrite Hkeep by done; [done|]. left. by rewrite Hv.
  - intros b Hb Hv. split; [|intros Hbind; apply U2; [by apply Hel|by rewrite Hkeep|done]].
    intros Hsome. destruct (bind b) eqn:E; [|done]. rewrite U1 in Hsome by (right; right; by rewrite E).
    rewrite Hkeep, Hv in Hsome by done. by destruct Hsome.
  - intros e. rewrite elem_of_app, !list_elem_of_omap. apply Morphisms_Prop.or_iff_morphism.
    + unfold retire_error. split.
      * intros (b & Hb & He). case_bool_decide as Hd; [done|]. rewrite Hel in Hd.
        destruct (resolvers s !! b) as [c|] eqn:Hv; cbn in He; [|done].
        destruct (stop c) eqn:Hs; cbn in He; [|done]. injection He as <-. by eexists _, _, _.
      * intros (b & c & f & -> & Hb & Hv & Hs). exists b. split; [apply Hin; by rewrite Hv|].
        rewrite <- Hel in Hb. rewrite bool_decide_false by done. rewrite Hv. cbn. by rewrite Hs.
    + unfold bind_failure. split.
      * intros (b & Hb%Hel & He). rewrite Hkeep in He by done.
        destruct (resolvers s !! b) eqn:Hv; [done|]. destruct (bind b) eqn:E; cbn in He; [|done].
        injection He as <-. by eexists _, _.
      * intros (b & f & -> & Hb & Hv & E). exists b. split; [by apply Hel|].
        rewrite Hkeep, Hv, E by done. done.
Qed.

Lemma maintain_loop_steps ticks : forall s, rtc set_step s (maintain_loop snapshot hash_set s ticks).
Proof.
  induction ticks as [|t ticks IH]; intros s; cbn [maintain_loop]; [done|].
  unfold maintain_tick. destruct (closed s); [done|]. destruct (tick_bindings t); [|apply IH].
  etransitivity; [apply reconcile_steps|apply IH].
Qed.

Lemma reconcile_open t s bindings :
  closed s = false -> closed (reconcile_at snapshot hash_set t s bindings) = false.
Proof.
  intros Hc. unfold reconcile_at.
  pose proof (reconcile_spec (tick_bind t) (tick_stop t) s bindings Hc) as Hr.
  destruct (reconcile _ _ _ _ s bindings). apply Hr.
Qed.

Lemma maintain_loop_app ticks : forall s t, closed s = false ->
  let s1 := maintain_loop snapshot hash_set s ticks in
  closed s1 = false
  /\ maintain_loop snapshot hash_set s (ticks ++ [t])
     = match tick_bindings t with
       | Ok bindings => reconcile_at snapshot hash_set t s1 bindings
       | Err _ => s1
       end.
Proof.
  induction ticks as [|u ticks IH]; intros s t Hc; cbn [maintain_loop app]; unfold maintain_tick; rewrite Hc.
  - split; [done|]. by destruct (tick_bindings t).
  - destruct (tick_bindings u) as [bindings|]; [|by apply IH].
    apply IH. by apply reconcile_open.
Qed.
End ReconcileFacts.

(** [MdnsResolverSet::snapshot]: the resolvers of the map.  The instances it hands out are
    distinct and were not shut down. *)
Definition set_snapshot (s : ResolverSet) : list nat := map snd (map_to_list (resolvers s)).

Lemma snapshot_live s :
  set_reachable s -> NoDup (set_snapshot s) /\ Forall (fun c => c ∈ live s) (set_snapshot s).
Proof.
  intros (H1 & H2 & _)%set_reachable_ok. unfold owned in *. fold (set_snapshot s) in *.
  split; [by apply NoDup_app in H1 as [? _]|]. apply Forall_forall. intros c Hc.
  apply H2, elem_of_app. by left.
Qed.

(** ** Properties *)

(** C21: no mDNS resolver leaks.  However additions, removals and shutdowns of the set
    interleave, every live resolver instance has exactly one owner: its binding in
    the map or one operation in progress.  When no operation is in progress, the
    live instances are exactly those of the map, and after a shutdown there are
    none. *)
Theorem set_no_leak (s : ResolverSet) :
  set_reachable s ->
  NoDup (owned s) /\ (forall c, c ∈ live s <-> c ∈ owned s)
  /\ (tasks s = [] ->
      (forall c, c ∈ live s <-> exists b, resolvers s !! b = Some c)
      /\ (closed s = true -> live s = ∅ /\ resolvers s = ∅)).
Proof.
  intros (H1 & H2 & _ & H4)%set_reachable_ok. split; [done|]. split; [done|]. intros Ht.
  assert (forall c, c ∈ live s <-> exists b, resolvers s !! b = Some c) as Hlive.
  { intros c. rewrite H2. unfold owned. rewrite Ht. cbn [map List.concat]. rewrite app_nil_r.
    rewrite list_elem_of_In, in_map_iff. setoid_rewrite <- list_elem_of_In. split.
    - intros ([b c'] & <- & Hin%elem_of_map_to_list). by exists b.
    - intros [b Hb]. exists (b, c). split; [done|]. by apply elem_of_map_to_list. }
  split; [done|]. intros Hc. destruct (H4 Hc) as [Hd|He].
  { rewrite Ht in Hd. by apply not_elem_of_nil in Hd. }
  split; [|done]. apply set_eq. intros c. rewrite Hlive, He. set_solver.
Qed.

(** A resolver is being added while the set is shut down. *)
Definition racing_set : ResolverSet :=
  mkResolverSet ∅ true ({[0%nat]} ∪ ∅) 1
    [Draining; Binding (mkMdnsBinding (str "lo") (IpV4 1)) 0].

Lemma racing_set_reachable : set_reachable racing_set.
Proof.
  pose (b := mkMdnsBinding (str "lo") (IpV4 1)).
  pose proof (set_next _ _ set_initial (set_upsert _ _ (upsert_check b ResolverSet_new eq_refl))) as R1.
  pose proof (set_next _ _ R1 (set_upsert _ _ (upsert_missing b [] []
    (with_tasks ResolverSet_new [Checking b]) eq_refl eq_refl))) as R2.
  pose proof (set_next _ _ R2 (set_upsert _ _ (upsert_bind b [] []
    (with_tasks ResolverSet_new [Missing b]) eq_refl))) as R3.
  exact (set_next _ _ R3 (set_shutdown_step _ _ (shutdown_close _))).
Qed.

Example set_no_leak_witness : set_reachable racing_set /\ 0%nat ∈ owned racing_set.
Proof.
  split; [exact racing_set_reachable|]. apply (set_no_leak racing_set racing_set_reachable).
  cbn. set_solver.
Defined.

(** Reconciliation reaches the desired bindings.  On an open set, resolvers of
    bindings that are not desired are retired, those that are desired and present
    are kept as they are, missing ones are created when they can be bound, and the
    errors are exactly those of the retired resolvers that did not shut down and of
    the missing bindings that could not be bound.  A reconciliation is a sequence of
    the steps of the set, so it leaks no resolver. *)
Theorem reconcile_exact (bind : MdnsBinding -> option MdnsBindError)
    (stop : nat -> option MdnsShutdownError) (snapshot : ResolverSet -> list MdnsBinding)
    (hash_set : list MdnsBinding -> list MdnsBinding) (s : ResolverSet) (bindings : list MdnsBinding) :
  (forall s, snapshot s ≡ₚ map fst (map_to_list (resolvers s))) ->
  (forall l, NoDup (hash_set l) /\ forall b, b ∈ hash_set l <-> b ∈ l) ->
  closed s = false ->
  let '(s', errors) := reconcile bind stop snapshot hash_set s bindings in
  rtc set_step s s'
  /\ (forall b, b ∉ bindings -> resolvers s' !! b = None)
  /\ (forall b c, b ∈ bindings -> resolvers s !! b = Some c -> resolvers s' !! b = Some c)
  /\ (forall b, b ∈ bindings -> resolvers s !! b = None ->
        (is_Some (resolvers s' !! b) <-> bind b = None))
  /\ (forall e, e ∈ errors <->
        (exists b c f, e = ReconcileRemove b f /\ b ∉ bindings /\ resolvers s !! b = Some c
           /\ stop c = Some f)
        \/ (exists b f, e = ReconcileBind b f /\ b ∈ bindings /\ resolvers s !! b = None
           /\ bind b = Some f)).
Proof.
  intros Hsn Hset Hc. pose proof (reconcile_steps bind stop snapshot hash_set s bindings) as Hsteps.
  pose proof (reconcile_spec snapshot hash_set Hsn Hset bind stop s bindings Hc) as Hr.
  destruct (reconcile bind stop snapshot hash_set s bindings) as [s' errors]. split; [done|]. apply Hr.
Qed.

(** The map and the set traversed in some order. *)
Definition map_snapshot (s : ResolverSet) : list MdnsBinding := map fst (map_to_list (resolvers s)).

Lemma remove_dups_set (l : list MdnsBinding) :
  NoDup (remove_dups l) /\ forall b, b ∈ remove_dups l <-> b ∈ l.
Proof. split; [apply NoDup_remove_dups|]. intros b. apply elem_of_remove_dups. Qed.

Example reconcile_exact_witness :
  let b1 := mkMdnsBinding (str "eth0") (IpV4 1) in
  let b2 := mkMdnsBinding (str "eth1") (IpV4 2) in
  let s := mkResolverSet {[b1 := 0%nat]} false {[0%nat]} 1 [] in
  let s' := (reconcile (fun _ => None) (fun _ => None) map_snapshot remove_dups s [b2; b2]).1 in
  resolvers s' !! b1 = None /\ is_Some (resolvers s' !! b2).
Proof.
  intros b1 b2 s s'.
  pose proof (reconcile_exact (fun _ => None) (fun _ => None) map_snapshot remove_dups s [b2; b2]
    (fun _ => reflexivity _) remove_dups_set eq_refl) as Hr.
  unfold s' in *. destruct (reconcile _ _ map_snapshot remove_dups s [b2; b2]) as [w errors]. cbn [fst].
  destruct Hr as (_ & R1 & _ & R3 & _).
  split; [apply R1; set_solver|]. apply R3; [set_solver| |done].
  cbn [resolvers s]. by apply lookup_singleton_ne.
Defined.

(** C22: maintenance heals the set.  Whatever happened at earlier ticks (failed
    snapshots, bindings that could not be bound, resolvers that did not shut down),
    after a tick whose snapshot succeeds and whose bindings can be bound the set
    has a resolver for exactly these bindings; another tick with the same bindings
    changes nothing; every run is a sequence of the steps of the set; and a closed
    set is left alone. *)
Theorem maintain_converges (snapshot : ResolverSet -> list MdnsBinding)
    (hash_set : list MdnsBinding -> list MdnsBinding) (s : ResolverSet) (ticks : list Tick)
    (t t' : Tick) (bindings : list MdnsBinding) :
  (forall s, snapshot s ≡ₚ map fst (map_to_list (resolvers s))) ->
  (forall l, NoDup (hash_set l) /\ forall b, b ∈ hash_set l <-> b ∈ l) ->
  tick_bindings t = Ok bindings -> (forall b, b ∈ bindings -> tick_bind t b = None) ->
  tick_bindings t' = Ok bindings ->
  let s1 := maintain_loop snapshot hash_set s (ticks ++ [t]) in
  let s2 := maintain_loop snapshot hash_set s (ticks ++ [t; t']) in
  rtc set_step s s1
  /\ (closed s = true -> s1 = s)
  /\ (closed s = false ->
      (forall b, is_Some (resolvers s1 !! b) <-> b ∈ bindings) /\ resolvers s2 = resolvers s1).
Proof.
  intros Hsn Hset Ht Hb Ht' s1 s2. split; [apply maintain_loop_steps|]. split.
  { intros Hc. unfold s1. destruct ticks as [|u ticks]; cbn [app maintain_loop];
      unfold maintain_tick; by rewrite Hc. }
  intros Hc. destruct (maintain_loop_app snapshot hash_set Hsn Hset ticks s t Hc) as [Hc1 E1].
  destruct (maintain_loop_app snapshot hash_set Hsn Hset (ticks ++ [t]) s t' Hc) as [Hc2 E2].
  rewrite Ht in E1. rewrite Ht', <- app_assoc in E2. cbn [app] in E2.
  fold s1 in E1, E2, Hc2. fold s2 in E2. set (s0 := maintain_loop snapshot hash_set s ticks) in *.
  unfold reconcile_at in E1, E2.
  pose proof (reconcile_spec snapshot hash_set Hsn Hset (tick_bind t) (tick_stop t) s0 bindings Hc1) as R.
  destruct (reconcile (tick_bind t) (tick_stop t) snapshot hash_set s0 bindings) as [s1' errs].
  cbn [fst] in E1. rewrite <- E1 in R. destruct R as (_ & R1 & R2 & R3 & _).
  assert (forall b, is_Some (resolvers s1 !! b) <-> b ∈ bindings) as Hdom.
  { intros b. destruct (decide (b ∈ bindings)) as [Hin|Hout].
    - split; [done|]. intros _. destruct (resolvers s0 !! b) as [c|] eqn:Hv.
      + rewrite (R2 b c) by done. by eexists.
      + apply R3; [done..|]. by apply Hb.
    - rewrite R1 by done. split; [by intros []|done]. }
  split; [done|]. pose proof (reconcile_spec snapshot hash_set Hsn Hset (tick_bind t') (tick_stop t') s1
    bindings Hc2) as Q.
  destruct (reconcile (tick_bind t') (tick_stop t') snapshot hash_set s1 bindings) as [s2' errs'].
  cbn [fst] in E2. rewrite <- E2 in Q. destruct Q as (_ & Q1 & Q2 & _).
  apply map_eq. intros b. destruct (resolvers s1 !! b) as [c|] eqn:Hv.
  - apply Q2; [|done]. apply Hdom. by rewrite Hv.
  - apply Q1. intros Hin%Hdom. rewrite Hv in Hin. by destruct Hin.
Qed.

Example maintain_converges_witness :
  let b := mkMdnsBinding (str "eth0") (IpV4 1) in
  let fail := mkTick (Ok [b]) (fun _ => Some (BindFailed (str "eth0") (IpV4 1) [])) (fun _ => None) in
  let good := mkTick (Ok [b]) (fun _ => None) (fun _ => None) in
  is_Some (resolvers (maintain_loop map_snapshot remove_dups ResolverSet_new ([fail] ++ [good])) !! b).
Proof.
  intros b fail good.
  apply (maintain_converges map_snapshot remove_dups ResolverSet_new [fail] good good [b]
    (fun _ => reflexivity _) remove_dups_set eq_refl (fun _ _ => eq_refl) eq_refl); [done|left].
Defined.
