(* ===== verification/Resolvers.v ===== *)
(** * The resolver interface: src/resolvers/endpoint_candidates.rs and src/resolvers.rs

    [ResolveEndpointCandidates] is the interface all resolvers implement and the
    aggregate of resolvers uses.  Its contract is stated once: the candidates of a
    lookup belong to distinct primary chains, no group is empty or repeats an
    endpoint, and every endpoint is of the requested family.  The HTTP/3, HTTP and
    mDNS resolvers and the set of mDNS resolvers discharge it, and the aggregate is
    shown to keep it from the contract of its members alone. *)

From stdpp Require Import base list gmap numbers option sets.
From S2P Require Import Prelude Nom RustString DnsName DnsHeader Sigin Certificate Endpoint Records Packet Signature Wire Candidates Publish Cache Lookup H3Client HttpClient MdnsService ErrorReport Aggregates MdnsLookup.

(** ** The contract *)
Section Contract.
Context `{C : Certificates} {Source : Type} (dquic_addr : Dquic.EndpointAddr -> SocketAddr).

(** The limits are [NonZeroUsize]. *)
Definition lookup_ok (lookup : EndpointLookup) : Prop :=
  forall n, record_limit lookup = Some n -> 0 < n.

Definition group_ok (lookup : EndpointLookup) (g : EndpointCandidateGroup Source) : Prop :=
  is_primary_chain_key (chain g) = true /\ endpoints g <> [] /\ NoDup (endpoints g)
  /\ Forall (fun e => endpoint_matches_family dquic_addr e (family lookup) = true) (endpoints g).

Definition candidates_ok (lookup : EndpointLookup) (cs : EndpointCandidates Source) : Prop :=
  NoDup (map chain (groups cs)) /\ Forall (group_ok lookup) (groups cs).

(** Only the family of the lookup matters. *)
Lemma candidates_ok_family lookup lookup' cs :
  family lookup = family lookup' -> candidates_ok lookup cs -> candidates_ok lookup' cs.
Proof. intros Hf [Hc Hg]. split; [done|]. unfold group_ok in *. by rewrite <- Hf. Qed.

(** Groups whose chains and endpoints are not repeated and all of whose members
    come from candidates that keep the contract. *)
Lemma candidates_ok_members lookup gs :
  groups_wf gs -> Forall (fun g => endpoints g <> []) gs ->
  (forall k e, has gs k e -> exists cs, candidates_ok lookup cs /\ has (groups cs) k e) ->
  candidates_ok lookup (mkEndpointCandidates gs).
Proof.
  intros [Hnd Hep] Hne Hhas. split; [done|]. cbn [groups].
  assert (forall g e, g ∈ gs -> e ∈ endpoints g -> is_primary_chain_key (chain g) = true
    /\ endpoint_matches_family dquic_addr e (family lookup) = true) as Hm.
  { intros g e Hg He. destruct (Hhas (chain g) e) as (cs & [_ Hok] & g' & Hg' & Hch & He').
    - by exists g.
    - rewrite Forall_forall in Hok. destruct (Hok g' Hg') as (Hp & _ & _ & Hf). rewrite <- Hch.
      rewrite Forall_forall in Hf. split; [done|by apply Hf]. }
  apply Forall_forall. intros g Hg. rewrite !Forall_forall in Hep, Hne.
  specialize (Hep g Hg). specialize (Hne g Hg). split.
  - destruct (endpoints g) as [|e es] eqn:E; [done|]. apply (Hm g e); [done|]. rewrite E. left.
  - split; [done|]. split; [done|]. apply Forall_forall. intros e He. by apply (Hm g e).
Qed.
End Contract.

(** *** Merging keeps the contract *)
Section MergeContract.
Context `{C : Certificates} {Source : Type} `{EqDecision Source}.
Context (dquic_addr : Dquic.EndpointAddr -> SocketAddr).

Lemma merge_group_nonempty (gs : list (EndpointCandidateGroup Source)) g :
  Forall (fun g => endpoints g <> []) gs -> endpoints g <> [] ->
  Forall (fun g => endpoints g <> []) (merge_group gs g).
Proof.
  intros Hgs Hg. induction Hgs as [|x gs Hx Hgs IH]; cbn [merge_group]; [by constructor|].
  case_bool_decide; constructor; try done. cbn [absorb endpoints]. by destruct (endpoints x).
Qed.

Lemma merge_groups_nonempty (gs' gs : list (EndpointCandidateGroup Source)) :
  Forall (fun g => endpoints g <> []) gs -> Forall (fun g => endpoints g <> []) gs' ->
  Forall (fun g => endpoints g <> []) (merge_groups gs gs').
Proof.
  intros Hgs Hgs'. revert gs Hgs. unfold merge_groups.
  induction Hgs' as [|g gs' Hg _ IH]; intros gs Hgs; cbn [fold_left]; [done|].
  apply IH. by apply merge_group_nonempty.
Qed.

Lemma ok_nonempty lookup (cs : EndpointCandidates Source) :
  candidates_ok dquic_addr lookup cs -> Forall (fun g => endpoints g <> []) (groups cs).
Proof. intros [_ Hg]. eapply Forall_impl; [exact Hg|]. by intros g (_ & Hne & _). Qed.

Lemma ok_nodup lookup (cs : EndpointCandidates Source) :
  candidates_ok dquic_addr lookup cs -> Forall (fun g => NoDup (endpoints g)) (groups cs).
Proof. intros [_ Hg]. eapply Forall_impl; [exact Hg|]. by intros g (_ & _ & Hnd & _). Qed.

End MergeContract.

(** A lookup of a resolver [R]; [Env] is what the network, the clock and the
    scheduler do during it. *)
Class ResolveEndpointCandidates `{C : Certificates} (Source R Env : Type) :=
  resolve_candidates : R -> bytes -> EndpointLookup -> Env ->
                       R * may_panic (Result (EndpointCandidates Source) StdError).

Class CandidateContract `{C : Certificates} {Source R Env : Type}
    (I : ResolveEndpointCandidates Source R Env) (dquic_addr : Dquic.EndpointAddr -> SocketAddr)
    (state_ok : R -> Prop) (env_ok : Env -> Prop) : Prop := {
  contract_keeps self name lookup env :
    state_ok self -> env_ok env -> lookup_ok lookup ->
    state_ok (resolve_candidates self name lookup env).1;
  contract_sound self name lookup env cs :
    state_ok self -> env_ok env -> lookup_ok lookup ->
    (resolve_candidates self name lookup env).2 = Some (Ok cs) -> candidates_ok dquic_addr lookup cs;
}.

(** ** The HTTP/3 and HTTP resolvers

    [show] is [io::Error::other]. *)
Section Clients.
Context `{CS : CertificatesSpec} `{NS : NomSpec} `{K : Crypto} `{P : CertificateParsers} `{S : Sha256}.
Context `{H : HeaderApi} `{U : UrlApi} `{D : DhttpEndpoint} {Source : Type}.
Context (extract : bytes -> option CertificateChainKey).
Context (dquic_addr : Dquic.EndpointAddr -> SocketAddr).
Context (dns_name_ok : bytes -> bool) (source : Url -> Source).
Context (show_h3 : H3LookupError.t -> StdError) (show_http : HttpLookupError.t -> StdError).

Record H3Env := mkH3Env { h3_now : Z; h3_later : Z; h3_net : Url -> Z -> Attempt }.

#[local] Instance h3_candidates : ResolveEndpointCandidates Source H3Resolver H3Env :=
  fun self name lookup env =>
    let '(_, self, r) := lookup_candidates extract dquic_addr dns_name_ok source self name lookup
                           (h3_now env) (h3_later env) (h3_net env) in
    (self, option_map (result_map_err show_h3) r).

Record HttpEnv := mkHttpEnv {
  http_now : Z; http_later : Z; http_net : Url -> option (Result HttpResponse bytes) }.

#[local] Instance http_candidates : ResolveEndpointCandidates Source HttpResolver HttpEnv :=
  fun self name lookup env =>
    let '(_, self, r) := http_lookup_candidates extract dquic_addr dns_name_ok source self name lookup
                           (http_now env) (http_later env) (http_net env) in
    (self, option_map (result_map_err show_http) r).

(** The network delivers bytes. *)
Definition h3_env_ok (env : H3Env) : Prop :=
  forall url n r, h3_net env url n = Completed (Ok r) -> Forall (fun f => bytes_ok (frame_data f)) (body r).
Definition http_env_ok (env : HttpEnv) : Prop :=
  forall url r, http_net env url = Some (Ok r) ->
    Forall (fun c => match c with Ok d => bytes_ok d | Err _ => True end) (http_chunks r).

(** The entries of a cache keep the contract. *)
Definition cache_ok (m : list (LookupKey * CachedAnswer Source)) : Prop :=
  forall key a, map_get m key = Some a -> candidates_ok dquic_addr (key_lookup key) (candidates a).

Lemma decode_ok name lookup src headers b ans :
  bytes_ok b -> decode_lookup_response extract dquic_addr name lookup src headers b = Some (Ok ans) ->
  candidates_ok (Source := Source) dquic_addr lookup (answer_candidates ans).
Proof.
  intros Hb Hd. pose proof (decode_response_cases extract dquic_addr name lookup src headers b Hb) as Hc.
  rewrite Hd in Hc. destruct Hc as (multi & _ & _ & _ & Hnd & Hg). split; [done|].
  eapply Forall_impl; [exact Hg|]. intros g (Hp & _ & Hne & Hn & _ & Hf). split_and!; [done..|].
  eapply Forall_impl; [exact Hf|]. by intros e [? _].
Qed.

Lemma cache_insert_ok m key a :
  cache_ok m -> candidates_ok dquic_addr (key_lookup key) (candidates a) ->
  cache_ok (map_insert m key a).
Proof.
  intros Hm Ha k b. rewrite map_get_insert. case_bool_decide as Hk; [|apply Hm].
  intros [= <-]. by subst k.
Qed.

Lemma cache_remove_ok m key : cache_ok m -> cache_ok (map_remove m key).
Proof. intros Hm k b. rewrite map_get_remove. case_bool_decide; [done|]. apply Hm. Qed.

Lemma concat_bytes_ok (l : list bytes) : Forall bytes_ok l -> bytes_ok (List.concat l).
Proof. induction 1; [constructor|]. by apply bytes_ok_app. Qed.

Lemma lookup_response_bytes r headers b :
  Forall (fun f => bytes_ok (frame_data f)) (body r) ->
  lookup_response (Ok r) = Ok (headers, b) -> bytes_ok b.
Proof.
  intros Hr. unfold lookup_response. cbn [result_map_err].
  destruct (status r =? 200); [|by destruct (status r =? 404)].
  destruct (read_body_limited _ _ []) as [b'|[]] eqn:Hb; [|done..]. cbn [result_map_err].
  intros [= _ <-]. apply read_body_ok in Hb as (-> & _); [|done].
  apply concat_bytes_ok, Forall_fmap. exact Hr.
Qed.

Lemma http_fetch_bytes r headers b :
  Forall (fun c => match c with Ok d => bytes_ok d | Err _ => True end) (http_chunks r) ->
  fetch (Ok r) = Ok (headers, b) -> bytes_ok b.
Proof.
  intros Hr. rewrite fetch_lookup_response.
  destruct (lookup_response (Ok (h3_response r))) as [[h' b']|] eqn:E; [|done]. cbn [result_map_err].
  intros [= <- <-]. eapply lookup_response_bytes; [|exact E]. cbn [h3_response body].
  apply Forall_fmap. eapply Forall_impl; [exact Hr|]. intros [d|e]; cbn; [done|constructor].
Qed.

Lemma override_family lookup (seq : option CertificateSequence) :
  family (exact_override lookup seq) = family lookup.
Proof. by destruct (override_shape lookup seq) as (_ & -> & _). Qed.

Lemma get_ok (self : H3Resolver (Source := Source)) now key :
  cache_ok (positive (cache self)) ->
  cache_ok (positive (get now (cache self) key).1)
  /\ forall cs, (get now (cache self) key).2 = Some cs -> candidates_ok dquic_addr (key_lookup key) cs.
Proof.
  intros Hs. unfold get. destruct (map_get (positive (cache self)) key) as [a|] eqn:E; [|done].
  destruct (now <? expires_at a); cbn [fst snd positive].
  - split; [done|]. intros cs [= <-]. by apply Hs in E.
  - split; [by apply cache_remove_ok|done].
Qed.

Lemma h3_lookup_ok self name lookup now later net made self' r :
  cache_ok (positive (cache self)) -> h3_env_ok (mkH3Env now later net) ->
  lookup_candidates extract dquic_addr dns_name_ok source self name lookup now later net
  = (made, self', r) ->
  cache_ok (positive (cache self')) /\ forall cs, r = Some (Ok cs) -> candidates_ok dquic_addr lookup cs.
Proof.
  intros Hs Henv. unfold lookup_candidates.
  destruct (endpoint_lookup_name_and_sequence dns_name_ok name) as [[host seq]|];
    [|by intros [= <- <- <-]].
  destruct (is_own_origin self host); [by intros [= <- <- <-]|].
  pose proof (override_family lookup seq) as Hfam.
  set (requested := exact_override lookup seq) in *. set (key := LookupKey_new host requested).
  destruct (get_ok self now key Hs) as [Hs1 Hhit].
  destruct (get now (cache self) key) as [c hit]. cbn [fst snd] in *. destruct hit as [cached|].
  { intros [= <- <- <-]. split; [done|]. intros cs [= <-]. eapply candidates_ok_family; [exact Hfam|].
    by apply Hhit. }
  cbn [with_cache server_origin cache].
  destruct (lookup_url _ host requested) as [url|]; [|by intros [= <- <- <-]].
  rewrite retry_spec. cbv zeta. set (a := net url _).
  destruct (outcome a) as [[headers b]|e] eqn:Ho; [|by intros [= <- <- <-]].
  destruct (decode_lookup_response _ _ host requested _ headers b) as [[answer|]|] eqn:Hd;
    [|by intros [= <- <- <-]..].
  assert (candidates_ok dquic_addr requested (answer_candidates answer)) as Ha.
  { eapply decode_ok; [|exact Hd]. destruct a as [|[ra|]] eqn:Ea; [done| |done].
    eapply lookup_response_bytes; [|exact Ho]. by eapply Henv. }
  intros [= <- <- <-]. split.
  - cbn [with_cache cache]. unfold insert. destruct (negb _); [|done]. by apply cache_insert_ok.
  - intros cs [= <-]. by eapply candidates_ok_family.
Qed.

(** The part of the HTTP lookup after the cache. *)
Lemma http_fetch_ok self name lookup requested key later now net made self' r :
  cache_ok (http_cache self) -> http_env_ok (mkHttpEnv now later net) ->
  family requested = family lookup -> key_lookup key = requested ->
  match lookup_url (http_origin self) name requested with
  | None => ([], self, None)
  | Some url =>
      match net url with
      | None => ([url], self, Some (Err (HttpLookupError.Timeout REQUEST_TIMEOUT)))
      | Some sent =>
          match fetch sent with
          | Err error => ([url], self, Some (Err error))
          | Ok (headers, body) =>
              match decode_lookup_response extract dquic_addr name requested
                      (source (http_origin self)) headers body with
              | None => ([url], self, None)
              | Some (Err error) => ([url], self, Some (Err (http_map_semantic_error error)))
              | Some (Ok answer) =>
                  ([url],
                   if negb (answer_ttl answer =? 0)
                   then mkHttpResolver (http_origin self)
                          (map_insert (http_cache self) key
                             (mkCachedAnswer (answer_candidates answer) (later + answer_ttl answer)))
                   else self, Some (Ok (answer_candidates answer)))
              end
          end
      end
  end = (made, self', r) ->
  cache_ok (http_cache self') /\ forall cs, r = Some (Ok cs) -> candidates_ok dquic_addr lookup cs.
Proof.
  intros Hs Henv Hfam Hkey. destruct (lookup_url _ name requested) as [url|]; [|by intros [= <- <- <-]].
  destruct (net url) as [sent|] eqn:Hn; [|by intros [= <- <- <-]].
  destruct (fetch sent) as [[headers b]|e] eqn:Hf; [|by intros [= <- <- <-]].
  destruct (decode_lookup_response _ _ name requested _ headers b) as [[answer|]|] eqn:Hd;
    [|by intros [= <- <- <-]..].
  assert (candidates_ok dquic_addr requested (answer_candidates answer)) as Ha.
  { eapply decode_ok; [|exact Hd]. destruct sent as [r0|]; [|done].
    eapply http_fetch_bytes; [|exact Hf]. by eapply Henv. }
  intros [= <- <- <-]. split.
  - destruct (negb _); [|done]. cbn [http_cache]. apply cache_insert_ok; [done|]. by rewrite Hkey.
  - intros cs [= <-]. by eapply candidates_ok_family.
Qed.

Lemma http_lookup_ok self name lookup now later net made self' r :
  cache_ok (http_cache self) -> http_env_ok (mkHttpEnv now later net) ->
  http_lookup_candidates extract dquic_addr dns_name_ok source self name lookup now later net
  = (made, self', r) ->
  cache_ok (http_cache self') /\ forall cs, r = Some (Ok cs) -> candidates_ok dquic_addr lookup cs.
Proof.
  intros Hs Henv. unfold http_lookup_candidates.
  destruct (endpoint_lookup_name_and_sequence dns_name_ok name) as [[host seq]|];
    [|by intros [= <- <- <-]].
  pose proof (override_family lookup seq) as Hfam.
  set (requested := exact_override lookup seq) in *. set (key := mkLookupKey _ requested).
  destruct (map_get (http_cache self) key) as [a|] eqn:Hget.
  - destruct (now <? expires_at a).
    { intros [= <- <- <-]. split; [done|]. intros cs [= <-]. eapply candidates_ok_family; [exact Hfam|].
      by apply Hs in Hget. }
    by apply (http_fetch_ok _ _ _ _ _ _ now); [apply cache_remove_ok|..].
  - by apply (http_fetch_ok _ _ _ _ _ _ now).
Qed.

#[export] Instance h3_contract : CandidateContract h3_candidates dquic_addr
  (fun self => cache_ok (positive (cache self))) h3_env_ok.
Proof.
  split; unfold resolve_candidates, h3_candidates; intros self name lookup env;
    destruct (lookup_candidates _ _ _ _ self name lookup _ _ _) as [[made self'] r] eqn:E.
  - intros Hs He _. by eapply h3_lookup_ok.
  - intros cs Hs He _ Hr. destruct (h3_lookup_ok _ _ _ _ _ _ _ _ _ Hs He E) as [_ Ho]. apply Ho.
    destruct r as [[|]|]; cbn in Hr; [|done..]. by injection Hr as ->.
Qed.

#[export] Instance http_contract : CandidateContract http_candidates dquic_addr
  (fun self => cache_ok (http_cache self)) http_env_ok.
Proof.
  split; unfold resolve_candidates, http_candidates; intros self name lookup env;
    destruct (http_lookup_candidates _ _ _ _ self name lookup _ _ _) as [[made self'] r] eqn:E.
  - intros Hs He _. by eapply http_lookup_ok.
  - intros cs Hs He _ Hr. destruct (http_lookup_ok _ _ _ _ _ _ _ _ _ Hs He E) as [_ Ho]. apply Ho.
    destruct r as [[|]|]; cbn in Hr; [|done..]. by injection Hr as ->.
Qed.
End Clients.

(** ** The mDNS resolvers *)
Lemma wf_nil `{Certificates} {Source} : groups_wf (@nil (EndpointCandidateGroup Source)).
Proof. split; constructor. Qed.

Section Mdns.
Context `{CS : CertificatesSpec} `{F : Bitfield} (DHTTP_SUFFIX : bytes).
Context {Source : Type} `{EqDecision Source} (source_mdns : bytes -> Family -> Source).
Context (dquic_addr : Dquic.EndpointAddr -> SocketAddr) (dns_name_ok : bytes -> bool).
Context (show_mdns : mdns_error -> StdError).

#[local] Instance mdns_resolve : ResolveEndpointCandidates Source MdnsResolver Network :=
  fun self name lookup net =>
    (self, option_map (result_map_err show_mdns)
       (mdns_endpoint_candidates DHTTP_SUFFIX source_mdns dquic_addr dns_name_ok self name lookup net)).

Record SetEnv := mkSetEnv {
  set_net : MdnsResolver -> Network;
  set_reorder : list (Result (EndpointCandidates Source) mdns_error) ->
                list (Result (EndpointCandidates Source) mdns_error);
}.

#[local] Instance set_resolve : ResolveEndpointCandidates Source (list MdnsResolver) SetEnv :=
  fun self name lookup env =>
    (self, option_map (result_map_err show_mdns)
       (set_candidates DHTTP_SUFFIX source_mdns dquic_addr dns_name_ok self name lookup (set_net env)
          (set_reorder env))).

Definition set_env_ok (env : SetEnv) : Prop := forall l, set_reorder env l ≡ₚ l.

Lemma mdns_chains_nodup self name lookup net c :
  lookup_ok lookup ->
  mdns_endpoint_candidates DHTTP_SUFFIX source_mdns dquic_addr dns_name_ok self name lookup net
  = Some (Ok c) -> NoDup (map chain (groups c)).
Proof.
  intros Hlim. unfold mdns_endpoint_candidates.
  destruct (mdns_lookup_parts dns_name_ok name) as [[domain seq]|]; [|done].
  destruct (override_shape lookup seq) as (Hl & _ & _).
  destruct (query_on DHTTP_SUFFIX self net domain) as [records|]; [|done].
  rewrite candidate_groups_shape by (by rewrite Hl). cbn [mbind option_bind]. intros [= <-].
  cbn [groups]. set (tagged := map _ records). set (gs := select_group_pairs _ _).
  assert (NoDup (map fst gs)) as Hnd.
  { eapply sublist_NoDup; [apply (grouped_chains_nodup tagged)|].
    etransitivity; [apply (fmap_sublist fst), select_sublist|].
    apply (proj1 (filter_groups_spec dquic_addr (grouped_spec tagged) _)). }
  eapply sublist_NoDup; [exact Hnd|]. clear Hnd. induction gs as [|[k es] gs IH]; [constructor|].
  cbn [omap list_omap map fst]. destruct (take_limit _ _); cbn [map chain]; by constructor.
Qed.

Lemma mdns_resolver_ok self name lookup net c :
  lookup_ok lookup ->
  mdns_endpoint_candidates DHTTP_SUFFIX source_mdns dquic_addr dns_name_ok self name lookup net
  = Some (Ok c) -> candidates_ok dquic_addr lookup c.
Proof.
  intros Hlim Hc. split; [by eapply mdns_chains_nodup|].
  destruct (endpoint_candidates_ok _ _ _ _ _ _ _ _ _ Hlim Hc) as [Hg Hh].
  apply Forall_forall. intros g Hin. rewrite Forall_forall in Hg. destruct (Hg g Hin) as [Hne Hnd].
  assert (forall e, e ∈ endpoints g -> is_primary_chain_key (chain g) = true
    /\ endpoint_matches_family dquic_addr e (family lookup) = true) as Hm.
  { intros e He. destruct (Hh (chain g) e) as (domain & seq & _ & Ha & Hf & _); [by exists g|].
    destruct Ha as (_ & _ & _ & r & _ & _ & _ & -> & _). split; [apply is_primary_primary|done]. }
  split; [|split; [done|split; [done|apply Forall_forall; intros e He; by apply Hm]]].
  destruct (endpoints g) as [|e es]; [done|]. apply (Hm e). left.
Qed.

#[export] Instance mdns_contract :
  CandidateContract mdns_resolve dquic_addr (fun _ => True) (fun _ => True).
Proof.
  split; [done|]. unfold resolve_candidates, mdns_resolve. cbn [snd]. intros self name lookup net cs _ _ Hl Hr.
  destruct (mdns_endpoint_candidates _ _ _ _ self name lookup net) as [[c|]|] eqn:E; cbn in Hr;
    [|done..]. injection Hr as <-. by eapply mdns_resolver_ok.
Qed.

Lemma collect_mdns_nonempty (completed : list (Result (EndpointCandidates Source) mdns_error)) :
  forall gs last cs,
  Forall (fun g => endpoints g <> []) gs ->
  (forall c, Ok c ∈ completed -> Forall (fun g => endpoints g <> []) (groups c)) ->
  collect_mdns completed gs last = Ok cs -> Forall (fun g => endpoints g <> []) (groups cs).
Proof.
  induction completed as [|[c|e] completed IH]; intros gs last cs Hgs Hall; cbn [collect_mdns].
  - destruct gs; [done|]. by intros [= <-].
  - apply IH; [|intros c' Hc'; apply Hall; by right]. apply merge_groups_nonempty; [done|].
    apply Hall. left.
  - apply IH; [done|]. intros c' Hc'. apply Hall. by right.
Qed.

#[export] Instance set_contract :
  CandidateContract set_resolve dquic_addr (fun _ => True) set_env_ok.
Proof.
  split; [done|]. unfold resolve_candidates, set_resolve. cbn [snd]. intros self name lookup env cs _ He Hl.
  unfold set_candidates. set (asked := family_resolvers self (family lookup)).
  destruct (mapM _ asked) as [results|] eqn:Hm; cbn [mbind option_bind option_map]; [|done].
  assert (forall c, Ok c ∈ set_reorder env results -> candidates_ok dquic_addr lookup c) as Hall.
  { intros c. rewrite (He results). intros Hin. apply mapM_Some_1 in Hm.
    apply list_elem_of_lookup in Hin as [k Hk]. destruct (Forall2_lookup_r _ _ _ _ _ Hm Hk) as (r & _ & Hr).
    by eapply mdns_resolver_ok. }
  unfold mdns_candidates. fold asked. destruct asked; [done|].
  pose proof (collect_mdns_spec (set_reorder env results) [] None) as Hc.
  pose proof (collect_mdns_nonempty (set_reorder env results) [] None) as Hn.
  destruct (collect_mdns (set_reorder env results) [] None) as [[gs]|]; cbn; [|done]. intros [= <-].
  destruct Hc as (_ & Hhas & Hwf). apply candidates_ok_members.
  - apply Hwf; [apply wf_nil|]. intros c Hc. by eapply ok_nodup, Hall.
  - apply (Hn (mkEndpointCandidates gs)); [constructor| |done].
    intros c Hc. by eapply ok_nonempty, Hall.
  - intros k e Hk. apply Hhas in Hk as [(g & Hg & _)|(c & Hc & Hk)]; [by apply not_elem_of_nil in Hg|].
    exists c. split; [by apply Hall|done].
Qed.
End Mdns.

(** ** The aggregate of resolvers

    A member is a trait object: a state of some type with the implementation of the
    interface for it, and the contract this implementation keeps.  The members
    share the [World], of which each sees its own part ([via]). *)
Section Via.
Context `{C : Certificates} {Source R Env World : Type}.

Definition via (view : World -> Env) (I : ResolveEndpointCandidates Source R Env)
  : ResolveEndpointCandidates Source R World :=
  fun self name lookup world => resolve_candidates self name lookup (view world).

#[export] Instance via_contract (view : World -> Env) I dquic_addr state_ok env_ok :
  CandidateContract I dquic_addr state_ok env_ok ->
  CandidateContract (via view I) dquic_addr state_ok (fun world => env_ok (view world)).
Proof.
  intros [Hk Hs]. split.
  - intros self name lookup world. apply Hk.
  - intros self name lookup world cs. apply Hs.
Qed.
End Via.

Section Aggregate.
Context `{C : Certificates} {Source : Type} `{EqDecision Source} {World : Type}.
Context (dquic_addr : Dquic.EndpointAddr -> SocketAddr).

Record DynResolver := mkDynResolver {
  dyn_type : Type;
  dyn_resolve : ResolveEndpointCandidates Source dyn_type World;
  dyn_state_ok : dyn_type -> Prop;
  dyn_env_ok : World -> Prop;
  dyn_contract : CandidateContract dyn_resolve dquic_addr dyn_state_ok dyn_env_ok;
  dyn_state : dyn_type;
}.

(** An entry: the label of its resolver and, when it supports candidates, the
    resolver. *)
Record Entry := mkEntry { entry_label : bytes; entry_resolver : option DynResolver }.

Abbreviation Resolvers := (list Entry).

Definition Resolvers_new : Resolvers := [].
Definition push (self : Resolvers) (label : bytes) : Resolvers := self ++ [mkEntry label None].
Definition push_candidate_resolver (self : Resolvers) (label : bytes) (r : DynResolver) : Resolvers :=
  self ++ [mkEntry label (Some r)].

(** The lookup of a member. *)
Definition entry_lookup (world : World) (name : bytes) (lookup : EndpointLookup) (e : Entry)
  : Entry * may_panic (ResolverEntry Source) :=
  match entry_resolver e with
  | None => (e, Some (mkResolverEntry (entry_label e) None))
  | Some r =>
      let '(state, result) := resolve_candidates (ResolveEndpointCandidates := dyn_resolve r)
                                (dyn_state r) name lookup world in
      (mkEntry (entry_label e) (Some (mkDynResolver (dyn_type r) (dyn_resolve r)
         (dyn_state_ok r) (dyn_env_ok r) (dyn_contract r) state)),
       result ← result; Some (mkResolverEntry (entry_label e) (Some result)))
  end.

(** [Resolvers::lookup_endpoint_candidates] over its members; [reorder] is the order
    in which they complete. *)
Definition resolvers_candidates (self : Resolvers) (name : bytes) (lookup : EndpointLookup)
    (world : World)
    (reorder : list (bytes * Result (EndpointCandidates Source) StdError) ->
               list (bytes * Result (EndpointCandidates Source) StdError))
  : Resolvers * may_panic (Result (EndpointCandidates Source) (list (bytes * StdError))) :=
  let outcomes := map (entry_lookup world name lookup) self in
  (map fst outcomes,
   entries ← mapM snd outcomes;
   Some (lookup_endpoint_candidates entries (reorder (pending entries)))).

(** The state of a member and what happens to it are within its contract. *)
Definition entry_ok (world : World) (e : Entry) : Prop :=
  match entry_resolver e with
  | Some r => dyn_state_ok r (dyn_state r) /\ dyn_env_ok r world
  | None => True
  end.

Lemma entry_lookup_ok world name lookup e :
  lookup_ok lookup -> entry_ok world e ->
  entry_ok world (entry_lookup world name lookup e).1
  /\ forall re c, (entry_lookup world name lookup e).2 = Some re -> entry_candidates re = Some (Ok c) ->
       candidates_ok dquic_addr lookup c.
Proof.
  intros Hl He. unfold entry_lookup, entry_ok in *. destruct (entry_resolver e) as [r|] eqn:Hr.
  - destruct He as [He Hw].
    pose proof (contract_keeps (CandidateContract := dyn_contract r) (dyn_state r) name lookup
      world He Hw Hl) as Hk.
    pose proof (contract_sound (CandidateContract := dyn_contract r) (dyn_state r) name lookup
      world) as Hs.
    destruct (resolve_candidates (dyn_state r) name lookup world) as [state result].
    cbn [fst snd entry_resolver dyn_state_ok dyn_state dyn_env_ok] in *. split; [done|]. intros re c Hre Hc.
    destruct result as [result|]; [|done]. cbn in Hre. injection Hre as <-. cbn in Hc. injection Hc as ->.
    by apply Hs.
  - cbn [fst snd]. rewrite Hr. split; [done|]. by intros re c [= <-].
Qed.

Lemma collect_nonempty completed : forall (gs : list (EndpointCandidateGroup Source)) succeeded errors cs,
  Forall (fun g => endpoints g <> []) gs ->
  (forall l c, (l, Ok c) ∈ completed -> Forall (fun g => endpoints g <> []) (groups c)) ->
  collect completed gs succeeded errors = Ok cs -> Forall (fun g => endpoints g <> []) (groups cs).
Proof.
  induction completed as [|[l [c|e]] completed IH]; intros gs succeeded errors cs Hgs Hall; cbn [collect].
  - destruct succeeded; [|done]. by intros [= <-].
  - apply IH; [|intros l' c' Hc'; apply (Hall l'); by right]. apply merge_groups_nonempty; [done|].
    apply (Hall l). left.
  - apply IH; [done|]. intros l' c' Hc'. apply (Hall l'). by right.
Qed.

(** What the members found is combined without breaking the contract. *)
Lemma combined_ok lookup entries completed cs :
  completed ≡ₚ pending entries ->
  (forall e c, e ∈ entries -> entry_candidates e = Some (Ok c) -> candidates_ok dquic_addr lookup c) ->
  lookup_endpoint_candidates (Source := Source) entries completed = Ok cs ->
  candidates_ok dquic_addr lookup cs.
Proof.
  intros Hperm Hall. unfold lookup_endpoint_candidates.
  assert (forall l c, (l, Ok c) ∈ completed -> candidates_ok dquic_addr lookup c) as Hin.
  { intros l c. rewrite Hperm. unfold pending. intros (e & He & Hr)%list_elem_of_omap.
    destruct (entry_candidates e) as [r|] eqn:E; cbn in Hr; [|done]. injection Hr as _ ->.
    by eapply Hall. }
  pose proof (collect_spec completed [] false (unsupported entries)) as Hc.
  pose proof (collect_nonempty completed [] false (unsupported entries)) as Hn.
  destruct (collect completed [] false (unsupported entries)) as [[gs]|]; [|done]. intros [= <-].
  destruct Hc as (_ & Hhas & Hwf). apply candidates_ok_members.
  - apply Hwf; [apply wf_nil|]. intros l c Hlc. by eapply ok_nodup, Hin.
  - apply (Hn (mkEndpointCandidates gs)); [constructor| |done].
    intros l c Hlc. by eapply ok_nonempty, Hin.
  - intros k e Hk. apply Hhas in Hk as [(g & Hg & _)|(l & c & Hlc & Hk)]; [by apply not_elem_of_nil in Hg|].
    exists c. split; [by eapply Hin|done].
Qed.
Lemma resolvers_lookup_spec (self : Resolvers) name lookup world reorder :
  Forall (entry_ok world) self -> (forall l, reorder l ≡ₚ l) -> lookup_ok lookup ->
  let '(self', r) := resolvers_candidates self name lookup world reorder in
  Forall (entry_ok world) self'
  /\ map entry_label self' = map entry_label self
  /\ (forall cs, r = Some (Ok cs) -> candidates_ok dquic_addr lookup cs)
  /\ (forall errors e entry c, r = Some (Err errors) -> e ∈ self ->
        (entry_lookup world name lookup e).2 = Some entry ->
        entry_candidates entry <> Some (Ok c)).
Proof.
  intros Hok Hre Hl. unfold resolvers_candidates.
  assert (forall e, e ∈ self -> entry_ok world (entry_lookup world name lookup e).1
    /\ forall re c, (entry_lookup world name lookup e).2 = Some re ->
         entry_candidates re = Some (Ok c) -> candidates_ok dquic_addr lookup c) as Hm.
  { intros e He. rewrite Forall_forall in Hok. apply entry_lookup_ok; [done|]. by apply Hok. }
  split.
  { rewrite map_map. apply Forall_forall. intros e (e0 & -> & He)%list_elem_of_fmap. by apply Hm. }
  split.
  { rewrite !map_map. apply map_ext. intros e. unfold entry_lookup.
    destruct (entry_resolver e) as [r|]; [|done]. by destruct (resolve_candidates _ _ _ _). }
  set (outcomes := map _ self). destruct (mapM snd outcomes) as [entries|] eqn:Em; cbn [mbind option_bind];
    [|split; done].
  apply mapM_Some_1 in Em.
  assert (forall entry, entry ∈ entries <->
    exists e, e ∈ self /\ (entry_lookup world name lookup e).2 = Some entry) as Hin.
  { intros entry. unfold outcomes in Em. apply Forall2_fmap_l in Em. rewrite !list_elem_of_lookup. split.
    - intros [i Hi]. destruct (Forall2_lookup_r _ _ _ _ _ Em Hi) as (e & He & Hr). exists e.
      split; [by apply list_elem_of_lookup; exists i|done].
    - intros (e & [i Hi]%list_elem_of_lookup & Hr). destruct (Forall2_lookup_l _ _ _ _ _ Em Hi) as (y & Hy & Hr').
      exists i. cbn in Hr'. by rewrite Hr in Hr'; injection Hr' as ->. }
  split.
  - intros cs Hcs. injection Hcs as Hcs. eapply combined_ok; [apply Hre| |exact Hcs].
    intros entry c (e & He & Hr)%Hin Hc. by eapply (proj2 (Hm e He)).
  - intros errors e entry c Herr He Hr Hc. injection Herr as Herr.
    unfold lookup_endpoint_candidates in Herr.
    pose proof (collect_spec (reorder (pending entries)) [] false (unsupported entries)) as Hs.
    rewrite Herr in Hs. destruct Hs as (_ & es & _ & Hes).
    assert ((label entry, Ok c) ∈ reorder (pending entries)) as Hp.
    { rewrite Hre. unfold pending. apply list_elem_of_omap. exists entry. rewrite Hc. split; [|done].
      apply Hin. by exists e. }
    rewrite Hes in Hp. apply list_elem_of_In, in_map_iff in Hp as ([] & [=] & _).
Qed.

(** [ResolveEndpointCandidates for Resolvers]: an aggregate is a resolver. *)
Definition resolvers_error (errors : list (bytes * StdError)) : StdError :=
  io_other (display_resolvers_error errors) (first_error errors).

#[local] Instance resolvers_resolve
    (reorder : list (bytes * Result (EndpointCandidates Source) StdError) ->
               list (bytes * Result (EndpointCandidates Source) StdError))
  : ResolveEndpointCandidates Source Resolvers World :=
  fun self name lookup world =>
    let '(self, r) := resolvers_candidates self name lookup world reorder in
    (self, option_map (result_map_err resolvers_error) r).

(** The members are within their contracts in every world [W] allows. *)
Definition members_ok (W : World -> Prop) (self : Resolvers) : Prop :=
  forall world, W world -> Forall (entry_ok world) self.

Lemma entry_lookup_env world name lookup e world' :
  lookup_ok lookup -> entry_ok world e -> entry_ok world' e ->
  entry_ok world' (entry_lookup world name lookup e).1.
Proof.
  intros Hl He He'. pose proof (proj1 (entry_lookup_ok world name lookup e Hl He)) as Hk.
  unfold entry_lookup, entry_ok in *. destruct (entry_resolver e) as [r|] eqn:Hr; [|cbn; by rewrite Hr].
  destruct (resolve_candidates (dyn_state r) name lookup world) as [state result]. cbn in *.
  split; [apply Hk|apply He'].
Qed.

#[export] Instance resolvers_nested reorder (W : World -> Prop) :
  (forall l, reorder l ≡ₚ l) ->
  CandidateContract (resolvers_resolve reorder) dquic_addr (members_ok W) W.
Proof.
  intros Hre. split; unfold resolve_candidates, resolvers_resolve; intros self name lookup world.
  - intros Hm Hw Hl world' Hw'. unfold resolvers_candidates. cbn [fst]. rewrite map_map.
    apply Forall_forall. intros e (e0 & -> & He)%list_elem_of_fmap.
    apply entry_lookup_env; [done| |]; [pose proof (Hm world Hw) as Ho|pose proof (Hm world' Hw') as Ho];
      rewrite Forall_forall in Ho; by apply Ho.
  - intros cs Hm Hw Hl. pose proof (resolvers_lookup_spec self name lookup world reorder (Hm world Hw) Hre Hl) as Hs.
    destruct (resolvers_candidates self name lookup world reorder) as [self' [[c|]|]]; cbn [snd]; [|done..].
    intros [= <-]. by apply Hs.
Qed.
End Aggregate.

(** ** Properties *)

(** C11: the aggregate of resolvers keeps the contract of its members.  Whatever the
    members are (the HTTP/3, HTTP and mDNS resolvers and the set of mDNS resolvers
    implement the interface), in whatever order they complete and whichever of them
    fail, a lookup leaves every member in a state of its contract, and the
    candidates it returns belong to distinct primary chains, without empty groups
    or repeated endpoints, all of the requested family; it fails only when no
    member succeeded.  Through its own implementation of the interface the aggregate
    keeps the contract in every set of worlds its members keep theirs in. *)
Theorem resolvers_contract `{Certificates} {Source} `{EqDecision Source} {World}
    (dquic_addr : Dquic.EndpointAddr -> SocketAddr) (self : list (Entry dquic_addr)) (name : bytes)
    (lookup : EndpointLookup) (world : World)
    (reorder : list (bytes * Result (EndpointCandidates Source) StdError) ->
               list (bytes * Result (EndpointCandidates Source) StdError)) :
  Forall (entry_ok dquic_addr world) self -> (forall l, reorder l ≡ₚ l) -> lookup_ok lookup ->
  (let '(self', r) := resolvers_candidates dquic_addr self name lookup world reorder in
  Forall (entry_ok dquic_addr world) self'
  /\ map (entry_label dquic_addr) self' = map (entry_label dquic_addr) self
  /\ (forall cs, r = Some (Ok cs) -> candidates_ok dquic_addr lookup cs)
  /\ (forall errors e entry c, r = Some (Err errors) -> e ∈ self ->
        (entry_lookup dquic_addr world name lookup e).2 = Some entry ->
        entry_candidates entry <> Some (Ok c)))
  /\ forall W : World -> Prop,
       CandidateContract (resolvers_resolve dquic_addr reorder) dquic_addr (members_ok dquic_addr W) W.
Proof.
  intros Hok Hre Hl. split; [|intros W; by apply resolvers_nested].
  by apply resolvers_lookup_spec.
Qed.

(** An mDNS resolver that finds an endpoint, next to a resolver without support for
    candidates. *)
Definition sample_addr (e : Dquic.EndpointAddr) : SocketAddr :=
  match e with Dquic.Direct a => a | Dquic.Mediate _ a => a end.
Definition sample_resolve
  : ResolveEndpointCandidates (C := CertModel.certificates) unit MdnsResolver unit :=
  via (fun _ => sample_net) (mdns_resolve (F := BitfieldModel.bitfield) (str ".dhttp.net")
    (fun _ _ => tt) sample_addr (fun _ => true) (fun _ => mkStdError [] None)).

Lemma sample_contract : CandidateContract sample_resolve sample_addr (fun _ => True) (fun _ => True).
Proof.
  exact (via_contract (fun _ : unit => sample_net) _ sample_addr (fun _ => True) (fun _ => True)
    (mdns_contract (CS := CertModel.certificates_spec) _ _ _ _ _)).
Qed.

Definition sample_entries : list (Entry (World := unit) sample_addr) :=
  [mkEntry sample_addr (str "system") None;
   mkEntry sample_addr (str "mdns") (Some (mkDynResolver sample_addr MdnsResolver sample_resolve
     (fun _ => True) (fun _ => True) sample_contract (sample_resolver (IpV6 1))))].

Abbreviation sample_lookup := (resolvers_candidates sample_addr sample_entries (str "a.dhttp.net")
  lookup_all tt reverse).

Lemma sample_lookup_ok : exists cs, sample_lookup.2 = Some (Ok cs) /\ groups cs <> [].
Proof.
  assert (match sample_lookup.2 with
          | Some (Ok c) => match groups c with [] => false | _ => true end
          | _ => false
          end = true) as Ho by (vm_compute; reflexivity).
  destruct (sample_lookup.2) as [[c|]|]; [|done..]. exists c. split; [done|].
  by destruct (groups c).
Qed.

Example resolvers_contract_witness : exists cs,
  sample_lookup.2 = Some (Ok cs) /\ groups cs <> [] /\ candidates_ok sample_addr lookup_all cs.
Proof.
  destruct sample_lookup_ok as (cs & Hcs & Hne). exists cs. split; [exact Hcs|]. split; [exact Hne|].
  pose proof (resolvers_contract sample_addr sample_entries (str "a.dhttp.net") lookup_all tt reverse) as Hr.
  destruct sample_lookup as [self' r]. destruct Hr as [(_ & _ & Hr & _) _]; [|apply reverse_Permutation|done|].
  - constructor; [done|]. constructor; [done|constructor].
  - exact (Hr cs Hcs).
Defined.
