(* ===== verification/Streams.v ===== *)
(** * Streams that merge lookups: src/resolvers.rs and src/mdns.rs

    [next_unique_record] and the stream of an mDNS set wait for the first event of
    several sources: pending lookups and open streams.  Here they are functions of a
    schedule, which says for every wait which of the ready sources comes first; the
    step relations of [Aggregates] and [MdnsLookup] describe the same streams for all
    schedules at once.  Every schedule is shown to drain its sources, and its
    stream to be a run of the step relation. *)

From stdpp Require Import base list numbers option sets.
From S2P Require Import Prelude RustString Endpoint Candidates ErrorReport Aggregates MdnsLookup.

(** ** Waiting for one of several sources *)
Section Poll.
Context {Item E : Type}.

(** The pending lookups ([FuturesUnordered]) and the open streams ([SelectAll]). *)
Abbreviation Sources := (list (Result (list Item) E) * list (list Item))%type.

Definition remove_at {A} (i : nat) (l : list A) : list A := take i l ++ drop (S i) l.

(** [pending.next()]: the stream of a lookup that succeeded is opened. *)
Definition poll_pending (i : nat) (s : Sources) : option (option Item * Sources) :=
  match s.1 !! i with
  | Some (Ok items) => Some (None, (remove_at i s.1, s.2 ++ [items]))
  | Some (Err _) => Some (None, (remove_at i s.1, s.2))
  | None => None
  end.

(** [streams.next()]: a stream that has ended is dropped. *)
Definition poll_stream (i : nat) (s : Sources) : option (option Item * Sources) :=
  match s.2 !! i with
  | Some (item :: items) => Some (Some item, (s.1, <[i := items]> s.2))
  | Some [] => Some (None, (s.1, remove_at i s.2))
  | None => None
  end.

(** The next event when [choice] selects among the sources; [None] when there is
    none left.  The loop waits for the streams alone when no lookup is pending, for the
    lookups alone when no stream is open, and else for both with [select!]: in each case
    for whichever of the sources that exist comes first. *)
Definition poll (choice : nat) (s : Sources) : option (option Item * Sources) :=
  let p := length s.1 in
  let c := (choice mod (p + length s.2))%nat in
  if (c <? p)%nat then poll_pending c s else poll_stream (c - p) s.

(** All the items of the sources, in the order of the schedule; [None] is out of fuel. *)
Fixpoint merged (fuel : nat) (sched : nat -> nat) (time : nat) (s : Sources) : option (list Item) :=
  match fuel with
  | O => None
  | S fuel =>
      match poll (sched time) s with
      | None => Some []
      | Some (o, s) =>
          items ← merged fuel sched (S time) s;
          Some (match o with Some item => item :: items | None => items end)
      end
  end.

(** Every event consumes something. *)
Definition sources_weight (s : Sources) : nat :=
  (sum_list_with (fun p => match p with Ok items => length items + 2 | Err _ => 1 end) s.1
   + sum_list_with (fun items => length items + 1) s.2)%nat.

Definition merge (sched : nat -> nat) (s : Sources) : option (list Item) :=
  merged (S (sources_weight s)) sched 0 s.

(** The events of the sources, for any choice. *)
Variant source_step (s : Sources) : option Item -> Sources -> Prop :=
| source_completed p1 p2 items :
    s.1 = p1 ++ Ok items :: p2 -> source_step s None (p1 ++ p2, s.2 ++ [items])
| source_failed p1 p2 error :
    s.1 = p1 ++ Err error :: p2 -> source_step s None (p1 ++ p2, s.2)
| source_ended s1 s2 : s.2 = s1 ++ [] :: s2 -> source_step s None (s.1, s1 ++ s2)
| source_item s1 s2 item items :
    s.2 = s1 ++ (item :: items) :: s2 -> source_step s (Some item) (s.1, s1 ++ items :: s2).

Lemma poll_end choice s : poll choice s = None <-> s = ([], []).
Proof.
  split; [|by intros ->]. destruct s as [p ss]. unfold poll, poll_pending, poll_stream. cbn [fst snd].
  destruct (decide (length p + length ss = 0)%nat) as [H0|Hn].
  { intros _. by rewrite (nil_length_inv p), (nil_length_inv ss) by lia. }
  pose proof (Nat.mod_upper_bound choice _ Hn) as Hc.
  destruct (Nat.ltb_spec (choice mod (length p + length ss)) (length p)) as [Hlt|Hge].
  - apply lookup_lt_is_Some_2 in Hlt as [[items|e] ->]; done.
  - assert (choice mod (length p + length ss) - length p < length ss)%nat as Hlt by lia.
    apply lookup_lt_is_Some_2 in Hlt as [[|item items] ->]; done.
Qed.

Lemma poll_sound choice s o s' : poll choice s = Some (o, s') -> source_step s o s'.
Proof.
  unfold poll, poll_pending, poll_stream, remove_at.
  set (c := (choice mod _)%nat). clearbody c. destruct (c <? length s.1)%nat.
  - destruct (s.1 !! c) as [[items|e]|] eqn:Hl; [| |done]; intros [= <- <-].
    + apply (source_completed s (take c s.1)). by rewrite take_drop_middle.
    + apply (source_failed s (take c s.1) _ e). by rewrite take_drop_middle.
  - set (i := (c - length s.1)%nat). clearbody i.
    destruct (s.2 !! i) as [[|item items]|] eqn:Hl; [| |done]; intros [= <- <-].
    + apply source_ended. by rewrite take_drop_middle.
    + rewrite (insert_take_drop _ _ items) by (by eapply lookup_lt_Some).
      apply source_item. by rewrite take_drop_middle.
Qed.

Lemma source_step_weight s o s' : source_step s o s' -> (sources_weight s' < sources_weight s)%nat.
Proof.
  unfold sources_weight. destruct 1 as [??? Hs|??? Hs|?? Hs|???? Hs]; cbn [fst snd]; rewrite Hs;
    rewrite ?sum_list_with_app; cbn [sum_list_with length]; lia.
Qed.
End Poll.

(** ** The stream of an mDNS set: [select(first, remaining)] of [MdnsResolverSet::lookup] *)
Lemma source_select {Item} s (o : option Item) s' : source_step s o s' -> select_step s o s'.
Proof.
  destruct s as [p ss]. destruct 1 as [p1 p2 items E|p1 p2 e E|s1 s2 E|s1 s2 item items E];
    cbn [fst snd] in *; subst; constructor.
Qed.

Lemma merged_select {Item} (sched : nat -> nat) fuel : forall time s,
  (sources_weight s < fuel)%nat ->
  exists out, merged fuel sched time s = Some out /\ select_run (Item := Item) s out.
Proof.
  induction fuel as [|fuel IH]; intros time s Hw; [lia|]. cbn [merged].
  destruct (poll (sched time) s) as [[o s']|] eqn:Hp.
  - apply poll_sound in Hp. pose proof (source_step_weight _ _ _ Hp).
    destruct (IH (S time) s') as (out & -> & Hr); [lia|]. cbn [mbind option_bind].
    eexists. split; [done|]. eapply select_more; [by apply source_select|exact Hr].
  - apply poll_end in Hp as ->. exists []. split; [done|constructor].
Qed.

Lemma merge_exact {Item} (sched : nat -> nat) s :
  exists out, merge sched s = Some out /\ select_run (Item := Item) s out /\ out ≡ₚ pool s.
Proof.
  destruct (merged_select sched (S (sources_weight s)) 0 s) as (out & Hm & Hr); [lia|].
  exists out. split; [exact Hm|]. split; [exact Hr|]. by apply select_run_pool.
Qed.

(** ** [next_unique_record] and the stream [stream::unfold] makes of it *)
Section Unique.
Context {Record : Type} `{EqDecision Record}.
Implicit Types s : LookupState Record.

(** The next record and the new state, or the end of the stream, with the time. *)
Fixpoint next_unique_record (fuel : nat) (sched : nat -> nat) (time : nat) (state : LookupState Record)
  : option (option (Record * LookupState Record) * nat) :=
  match fuel with
  | O => None
  | S fuel =>
      match poll (sched time) (ls_pending state, ls_streams state) with
      | None => Some (None, S time)
      | Some (None, (pending, streams)) =>
          next_unique_record fuel sched (S time) (mkLookupState pending streams (ls_seen state))
      | Some (Some record, (pending, streams)) =>
          if bool_decide (record ∈ ls_seen state)
          then next_unique_record fuel sched (S time) (mkLookupState pending streams (ls_seen state))
          else Some (Some (record, mkLookupState pending streams (record :: ls_seen state)), S time)
      end
  end.

Fixpoint unfold_records (fuel : nat) (sched : nat -> nat) (time : nat) (state : LookupState Record)
  : option (list Record) :=
  match fuel with
  | O => None
  | S fuel =>
      next ← next_unique_record (S (weight state)) sched time state;
      match next with
      | (None, _) => Some []
      | (Some (record, state), time) =>
          records ← unfold_records fuel sched time state; Some (record :: records)
      end
  end.

Definition unique_stream (sched : nat -> nat) (state : LookupState Record) : option (list Record) :=
  unfold_records (S (weight state)) sched 0 state.

(** An event of the sources is a step of the stream. *)
Lemma source_next p ss seen o p' ss' :
  source_step (p, ss) o (p', ss') ->
  match o with
  | Some r => (r ∈ seen -> next_step (mkLookupState p ss seen) None (mkLookupState p' ss' seen))
      /\ (r ∉ seen -> next_step (mkLookupState p ss seen) (Some r) (mkLookupState p' ss' (r :: seen)))
  | None => next_step (mkLookupState p ss seen) None (mkLookupState (Record := Record) p' ss' seen)
  end.
Proof.
  inversion 1 as [p1 p2 items E|p1 p2 e E|s1 s2 E|s1 s2 item items E]; cbn [fst snd] in *; subst;
    try (by constructor). split; by constructor.
Qed.

Lemma next_unique_run sched fuel : forall time s,
  (weight s < fuel)%nat ->
  exists time', (next_unique_record fuel sched time s = Some (None, time')
                 /\ exists s', run s [] s' /\ finished s')
    \/ exists r s', next_unique_record fuel sched time s = Some (Some (r, s'), time')
         /\ (weight s' < weight s)%nat
         /\ forall out s'', run s' out s'' -> run s (r :: out) s''.
Proof.
  induction fuel as [|fuel IH]; intros time [p ss seen] Hw; [lia|].
  cbn [next_unique_record ls_pending ls_streams ls_seen].
  destruct (poll (sched time) (p, ss)) as [[o [p' ss']]|] eqn:Hp.
  2: { apply poll_end in Hp as [= -> ->]. exists (S time). left. split; [done|].
       exists (mkLookupState [] [] seen). split; [constructor|done]. }
  apply poll_sound in Hp. apply (source_next p ss seen) in Hp.
  assert (forall s1, next_step (mkLookupState p ss seen) None s1 -> exists time',
    (next_unique_record fuel sched (S time) s1 = Some (None, time')
     /\ exists s', run (mkLookupState p ss seen) [] s' /\ finished s')
    \/ exists r s', next_unique_record fuel sched (S time) s1 = Some (Some (r, s'), time')
         /\ (weight s' < weight (mkLookupState p ss seen))%nat
         /\ forall out s'', run s' out s'' -> run (mkLookupState p ss seen) (r :: out) s'') as Hskip.
  { intros s1 Hs. pose proof (step_weight _ _ _ Hs).
    destruct (IH (S time) s1) as [time' [(E & s' & Hr & Hf)|(r & s' & E & Hl & Hr)]]; [lia| |];
      exists time'; [left|right].
    - split; [done|]. exists s'. split; [by eapply run_silent|done].
    - exists r, s'. split; [done|]. split; [lia|]. intros out s'' Ho. eapply run_silent; [exact Hs|].
      by apply Hr. }
  destruct o as [r|]; [|by apply Hskip]. destruct Hp as [Hold Hnew]. case_bool_decide as Hin.
  { apply Hskip. by apply Hold. }
  exists (S time). right. exists r, (mkLookupState p' ss' (r :: seen)). specialize (Hnew Hin).
  split; [done|]. split; [by eapply step_weight|]. intros out s'' Hr. by eapply run_record.
Qed.

Lemma unfold_run sched fuel : forall time s,
  (weight s < fuel)%nat ->
  exists out s', unfold_records fuel sched time s = Some out /\ run s out s' /\ finished s'.
Proof.
  induction fuel as [|fuel IH]; intros time s Hw; [lia|]. cbn [unfold_records].
  destruct (next_unique_run sched (S (weight s)) time s) as [time' [(E & s' & Hr & Hf)|(r & s' & E & Hl & Hr)]];
    [lia| |]; rewrite E; cbn [mbind option_bind].
  - by exists [], s'.
  - destruct (IH time' s') as (out & s'' & -> & Hr' & Hf); [lia|]. cbn [mbind option_bind].
    exists (r :: out), s''. split; [done|]. split; [by apply Hr|done].
Qed.

Lemma unique_stream_run sched s :
  exists out s', unique_stream sched s = Some out /\ run s out s' /\ finished s'.
Proof. apply unfold_run. lia. Qed.

(** The stream of a lookup that succeeded gives every record of every member once. *)
Lemma unique_stream_exact sched completed s :
  first_success (Record := Record) completed [] = Ok s ->
  exists out, unique_stream sched s = Some out /\ NoDup out
    /\ forall r, r ∈ out <-> exists l records, (l, Ok records) ∈ completed /\ r ∈ records.
Proof.
  intros Hs. pose proof (first_success_spec completed []) as Hf. rewrite Hs in Hf.
  destruct Hf as [Hav Hseen]. destruct (unique_stream_run sched s) as (out & s' & Ho & Hr & Hfin).
  destruct (run_spec _ _ _ Hr) as (Ha & Hnd & _ & Hsn). exists out. split; [done|]. split; [done|].
  intros r. rewrite <- Hav, <- Ha. unfold available. destruct Hfin as [-> ->]. rewrite Hsn, Hseen.
  set_solver.
Qed.
End Unique.
