(* ===== verification/Resolve.v ===== *)
(** * Record lookups through [Resolve]: src/resolvers.rs, src/h3.rs, src/http.rs and
    src/mdns.rs

    [Resolve] is the trait through which the transport asks for the addresses of a
    host: a lookup gives a stream of records, endpoints with the source they come
    from.  Its contract is that a resolver only claims records for its own sources and
    only gives endpoints of the requested family.  The HTTP/3, HTTP and mDNS resolvers
    and the set of mDNS resolvers discharge it; the aggregate, whose members are trait
    objects, keeps it, gives every record of its members once, and fails only when all
    of them fail. *)

From stdpp Require Import base list gmap numbers option sets.
From S2P Require Import Prelude Nom RustString DnsName DnsHeader Sigin Certificate Endpoint Records Packet Signature Wire Candidates Publish Cache Lookup H3Client HttpClient MdnsService ErrorReport Aggregates MdnsLookup Resolvers Streams.

(** ** The interface *)
Abbreviation RecordOf Source := (Source * Dquic.EndpointAddr)%type.

(** [Resolve::lookup] of a resolver [R] for a host name, a service name and a family; [Env]
    is what the network, the clock and the scheduler do during the lookup.  The stream is
    the list of its items. *)
Class Resolve (Source R Env : Type) :=
  resolve_lookup : R -> bytes -> bytes -> option Family -> Env ->
                   R * may_panic (Result (list (RecordOf Source)) StdError).

(** [owns self source]: the records of [source] come from [self]. *)
Class ResolveContract {Source R Env : Type} (I : Resolve Source R Env)
    (dquic_addr : Dquic.EndpointAddr -> SocketAddr) (state_ok : R -> Prop) (env_ok : Env -> Prop)
    (owns : R -> Source -> Prop) : Prop := {
  resolve_keeps self hostname servname f env :
    state_ok self -> env_ok env ->
    state_ok (resolve_lookup self hostname servname f env).1;
  resolve_owner self hostname servname f env source :
    owns (resolve_lookup self hostname servname f env).1 source <-> owns self source;
  resolve_sound self hostname servname f env records :
    state_ok self -> env_ok env ->
    (resolve_lookup self hostname servname f env).2 = Some (Ok records) ->
    Forall (fun x => owns self x.1 /\ endpoint_matches_family dquic_addr x.2 f = true) records;
}.

(** The records of candidates that keep their contract. *)
Lemma group_records_ok `{Certificates} {Source} (dquic_addr : Dquic.EndpointAddr -> SocketAddr)
    (s : Source) lookup (cs : EndpointCandidates Source) :
  candidates_ok dquic_addr lookup cs ->
  Forall (fun x => x.1 = s /\ endpoint_matches_family dquic_addr x.2 (family lookup) = true)
    (List.concat (map (fun g => map (fun e => (s, e)) (endpoints g)) (groups cs))).
Proof.
  intros [_ Hg]. induction Hg as [|g gs (_ & _ & _ & Hf) _ IH]; [constructor|].
  cbn [map List.concat]. apply Forall_app. split; [|exact IH]. apply Forall_fmap.
  eapply Forall_impl; [exact Hf|]. by intros e He.
Qed.

(** ** The HTTP/3 and HTTP resolvers *)
Section Clients.
Context `{CS : CertificatesSpec} `{NS : NomSpec} `{K : Crypto} `{P : CertificateParsers} `{S : Sha256}.
Context `{H : HeaderApi} `{U : UrlApi} `{D : DhttpEndpoint} {Source : Type}.
Context (extract : bytes -> option CertificateChainKey).
Context (dquic_addr : Dquic.EndpointAddr -> SocketAddr).
Context (dns_name_ok : bytes -> bool) (source : Url -> Source).
Context (show_h3 : H3LookupError.t -> StdError) (show_http : HttpLookupError.t -> StdError).

#[local] Instance h3_resolve : Resolve Source H3Resolver H3Env :=
  fun self hostname _ f env =>
    let '(_, self, r) := h3_lookup extract dquic_addr dns_name_ok source self hostname f
                           (h3_now env) (h3_later env) (h3_net env) in
    (self, option_map (result_map_err show_h3) r).

#[local] Instance http_resolve : Resolve Source HttpResolver HttpEnv :=
  fun self hostname _ f env =>
    let '(_, self, r) := http_lookup extract dquic_addr dns_name_ok source self hostname f
                           (http_now env) (http_later env) (http_net env) in
    (self, option_map (result_map_err show_http) r).

Lemma lookup_keeps_origin (self : H3Resolver (Source := Source)) name lookup now later net made self' r :
  lookup_candidates extract dquic_addr dns_name_ok source self name lookup now later net
  = (made, self', r) -> server_origin self' = server_origin self.
Proof.
  unfold lookup_candidates. repeat case_match; intros; by simplify_eq.
Qed.

Lemma http_keeps_origin (self : HttpResolver (Source := Source)) name lookup now later net made self' r :
  http_lookup_candidates extract dquic_addr dns_name_ok source self name lookup now later net
  = (made, self', r) -> http_origin self' = http_origin self.
Proof.
  unfold http_lookup_candidates. cbv zeta. repeat case_match; intros; by simplify_eq.
Qed.

#[export] Instance h3_resolve_contract : ResolveContract h3_resolve dquic_addr
  (fun self => cache_ok dquic_addr (positive (cache self))) (h3_env_ok (H := H))
  (fun self s => s = source (server_origin self)).
Proof.
  split; unfold resolve_lookup, h3_resolve, h3_lookup; intros self hostname servname f env;
    (destruct (negb (is_dhttp_host _)); [done|]);
    destruct (lookup_candidates _ _ _ _ self hostname _ _ _ _) as [[made self'] r] eqn:E; cbn [fst snd].
  - intros Hs He. by eapply h3_lookup_ok.
  - intros s. by rewrite (lookup_keeps_origin _ _ _ _ _ _ _ _ _ E).
  - intros records Hs He Hr. destruct (h3_lookup_ok _ _ _ _ _ _ _ _ _ _ _ _ _ Hs He E) as [_ Ho].
    rewrite (lookup_keeps_origin _ _ _ _ _ _ _ _ _ E) in Hr.
    destruct r as [[cs|]|]; cbn in Hr; [|done..]. injection Hr as <-.
    apply (group_records_ok dquic_addr _ _ _ (Ho _ eq_refl)).
Qed.

#[export] Instance http_resolve_contract : ResolveContract http_resolve dquic_addr
  (fun self => cache_ok dquic_addr (http_cache self)) (http_env_ok (H := H))
  (fun self s => s = source (http_origin self)).
Proof.
  split; unfold resolve_lookup, http_resolve, http_lookup; intros self hostname servname f env;
    destruct (http_lookup_candidates _ _ _ _ self hostname _ _ _ _) as [[made self'] r] eqn:E; cbn [fst snd].
  - intros Hs He. by eapply http_lookup_ok.
  - intros s. by rewrite (http_keeps_origin _ _ _ _ _ _ _ _ _ E).
  - intros records Hs He Hr. destruct (http_lookup_ok _ _ _ _ _ _ _ _ _ _ _ _ _ Hs He E) as [_ Ho].
    rewrite (http_keeps_origin _ _ _ _ _ _ _ _ _ E) in Hr.
    destruct r as [[cs|]|]; cbn in Hr; [|done..]. injection Hr as <-.
    apply (group_records_ok dquic_addr _ _ _ (Ho _ eq_refl)).
Qed.
End Clients.

(** ** The mDNS resolvers *)
Section Mdns.
Context `{C : Certificates} `{F : Bitfield} (DHTTP_SUFFIX : bytes).
Context {Source : Type} `{EqDecision Source} (source_mdns : bytes -> Family -> Source).
Context (dquic_addr : Dquic.EndpointAddr -> SocketAddr) (dns_name_ok : bytes -> bool).
Context (show_mdns : mdns_error -> StdError).

Abbreviation lookup_one := (mdns_lookup DHTTP_SUFFIX source_mdns dquic_addr dns_name_ok).

#[local] Instance mdns_resolve_lookup : Resolve Source MdnsResolver Network :=
  fun self hostname _ f net =>
    (self, option_map (result_map_err show_mdns) (lookup_one self hostname f net)).

(** The network of each resolver, the order in which their lookups complete until the
    first succeeds, and the schedule of the merged stream. *)
Record StreamEnv := mkStreamEnv {
  stream_net : MdnsResolver -> Network;
  stream_reorder : list (Result (list (RecordOf Source)) mdns_error) ->
                   list (Result (list (RecordOf Source)) mdns_error);
  stream_sched : nat -> nat;
}.

Definition stream_env_ok (env : StreamEnv) : Prop := forall l, stream_reorder env l ≡ₚ l.

(** [Resolve for MdnsResolverSet] on a snapshot of the set. *)
Definition set_records (self : list MdnsResolver) (hostname : bytes) (f : option Family)
    (env : StreamEnv) : may_panic (Result (list (RecordOf Source)) mdns_error) :=
  match mdns_lookup_parts dns_name_ok hostname with
  | None => Some (Err UnsupportedMdnsName)
  | Some _ =>
      results ← mapM (fun r => lookup_one r hostname f (stream_net env r)) (family_resolvers self f);
      match first_stream (stream_reorder env results) NoMdnsResolvers with
      | Err error => Some (Err error)
      | Ok (first, pending) =>
          records ← merge (stream_sched env) (pending, [first]);
          Some (Ok records)
      end
  end.

#[local] Instance set_resolve_lookup : Resolve Source (list MdnsResolver) StreamEnv :=
  fun self hostname _ f env =>
    (self, option_map (result_map_err show_mdns) (set_records self hostname f env)).

Lemma mdns_lookup_ok self hostname f net records :
  lookup_one self hostname f net = Some (Ok records) ->
  Forall (fun x => x.1 = mdns_source source_mdns self
                   /\ endpoint_matches_family dquic_addr x.2 f = true) records.
Proof.
  unfold mdns_lookup. destruct (match f with Some _ => _ | None => _ end); [by intros [= <-]|].
  destruct (mdns_lookup_parts dns_name_ok hostname) as [[domain seq]|]; [|done].
  destruct (query_on _ self net domain) as [rs|]; [|done].
  destruct (selected_endpoint_addrs_for_sequence rs seq) as [es|]; [|done]. cbn. intros [= <-].
  apply Forall_fmap, Forall_forall. intros e [_ He]%list_elem_of_In%filter_In. done.
Qed.

#[export] Instance mdns_resolve_contract : ResolveContract mdns_resolve_lookup dquic_addr
  (fun _ => True) (fun _ => True) (fun self s => s = mdns_source source_mdns self).
Proof.
  split; [done..|]. unfold resolve_lookup, mdns_resolve_lookup. cbn [snd].
  intros self hostname _ f net records _ _ Hr.
  destruct (lookup_one self hostname f net) as [[rs|]|] eqn:E; cbn in Hr; [|done..].
  injection Hr as <-. by eapply mdns_lookup_ok.
Qed.

Lemma set_records_ok self hostname f env records :
  stream_env_ok env -> set_records self hostname f env = Some (Ok records) ->
  Forall (fun x => (exists r, r ∈ self /\ x.1 = mdns_source source_mdns r)
                   /\ endpoint_matches_family dquic_addr x.2 f = true) records.
Proof.
  intros He. unfold set_records. destruct (mdns_lookup_parts dns_name_ok hostname); [|done].
  destruct (mapM _ (family_resolvers self f)) as [results|] eqn:Em; [|done]. cbn [mbind option_bind].
  pose proof (first_stream_spec (stream_reorder env results) NoMdnsResolvers) as Hf.
  destruct (first_stream _ NoMdnsResolvers) as [[first pending]|]; [|done].
  destruct (merge_exact (stream_sched env) (pending, [first])) as (out & -> & _ & Hp).
  cbn [mbind option_bind]. intros [= <-]. apply Forall_forall. intros x Hx.
  rewrite Hp, Hf, (He results) in Hx.
  apply list_elem_of_In, in_concat in Hx as (rs & Hrs%list_elem_of_In & Hx%list_elem_of_In).
  apply list_elem_of_omap in Hrs as (res & Hres & Eres). destruct res; [|done]. injection Eres as ->.
  apply mapM_Some_1 in Em. apply list_elem_of_lookup in Hres as [i Hi].
  destruct (Forall2_lookup_r _ _ _ _ _ Em Hi) as (r & Hri & Hr). cbn beta in Hr.
  apply list_elem_of_lookup_2 in Hri. apply list_elem_of_In, filter_In in Hri as [Hri%list_elem_of_In _].
  apply mdns_lookup_ok in Hr. rewrite Forall_forall in Hr. destruct (Hr x Hx) as [Hs Hfam].
  split; [by exists r|done].
Qed.

#[export] Instance set_resolve_contract : ResolveContract set_resolve_lookup dquic_addr
  (fun _ => True) stream_env_ok
  (fun self s => exists r, r ∈ self /\ s = mdns_source source_mdns r).
Proof.
  split; [done..|]. unfold resolve_lookup, set_resolve_lookup. cbn [snd].
  intros self hostname _ f env records _ He Hr.
  destruct (set_records self hostname f env) as [[rs|]|] eqn:E; cbn in Hr; [|done..].
  injection Hr as <-. by eapply set_records_ok.
Qed.
End Mdns.

(** ** The aggregate *)

(** A resolver that sees its own part of the world. *)
Definition resolve_via {Source R Env World : Type} (view : World -> Env) (I : Resolve Source R Env)
  : Resolve Source R World :=
  fun self hostname servname f world => resolve_lookup self hostname servname f (view world).

#[export] Instance resolve_via_contract {Source R Env World : Type} (view : World -> Env)
    (I : Resolve Source R Env) dquic_addr state_ok env_ok owns :
  ResolveContract I dquic_addr state_ok env_ok owns ->
  ResolveContract (resolve_via view I) dquic_addr state_ok (fun world => env_ok (view world)) owns.
Proof.
  intros [Hk Ho Hs]. split.
  - intros self hostname servname f world. apply Hk.
  - intros self hostname servname f world. apply Ho.
  - intros self hostname servname f world records. apply Hs.
Qed.

Section Aggregate.
Context {Source : Type} `{EqDecision Source} {World : Type}.
Context (dquic_addr : Dquic.EndpointAddr -> SocketAddr).

(** [Arc<dyn Resolve>]: a state with its implementation of the interface, the contract this
    keeps, and the text of the resolver. *)
Record ArcResolver := mkArcResolver {
  arc_label : bytes;
  arc_type : Type;
  arc_resolve : Resolve Source arc_type World;
  arc_state_ok : arc_type -> Prop;
  arc_env_ok : World -> Prop;
  arc_owns : arc_type -> Source -> Prop;
  arc_contract : ResolveContract arc_resolve dquic_addr arc_state_ok arc_env_ok arc_owns;
  arc_state : arc_type;
}.

(** The lookup of a member: its new state and the outcome with its label. *)
Definition member_lookup (world : World) (hostname servname : bytes) (f : option Family)
    (r : ArcResolver)
  : ArcResolver * may_panic (bytes * Result (list (RecordOf Source)) StdError) :=
  let '(state, result) :=
    resolve_lookup (Resolve := arc_resolve r) (arc_state r) hostname servname f world in
  (mkArcResolver (arc_label r) (arc_type r) (arc_resolve r) (arc_state_ok r) (arc_env_ok r)
     (arc_owns r) (arc_contract r) state,
   result ← result; Some (arc_label r, result)).

(** [Resolvers::lookup] with its whole stream: [reorder] is the order in which the lookups
    complete until the first of them succeeds, [sched] the schedule of the stream. *)
Definition resolvers_lookup (self : list ArcResolver) (hostname servname : bytes)
    (f : option Family) (world : World)
    (reorder : list (bytes * Result (list (RecordOf Source)) StdError) ->
               list (bytes * Result (list (RecordOf Source)) StdError))
    (sched : nat -> nat)
  : list ArcResolver * may_panic (Result (list (RecordOf Source)) (list (bytes * StdError))) :=
  let outcomes := map (member_lookup world hostname servname f) self in
  (map fst outcomes,
   results ← mapM snd outcomes;
   match first_success (reorder results) [] with
   | Err errors => Some (Err errors)
   | Ok state => records ← unique_stream sched state; Some (Ok records)
   end).

(** [Display for Resolvers]. *)
Definition resolvers_display (self : list ArcResolver) : bytes :=
  display_aggregate (str "Resolvers") (map arc_label self).

Definition member_ok (world : World) (r : ArcResolver) : Prop :=
  arc_state_ok r (arc_state r) /\ arc_env_ok r world.

(** A source belongs to a member. *)
Definition source_owned (self : list ArcResolver) (s : Source) : Prop :=
  exists r, r ∈ self /\ arc_owns r (arc_state r) s.

(** What a member found. *)
Definition found (world : World) (hostname servname : bytes) (f : option Family)
    (self : list ArcResolver) (x : RecordOf Source) : Prop :=
  exists r records, r ∈ self /\ x ∈ records
    /\ (member_lookup world hostname servname f r).2 = Some (arc_label r, Ok records).

Lemma member_lookup_ok world world' hostname servname f r :
  member_ok world r ->
  let r' := (member_lookup world hostname servname f r).1 in
  arc_label r' = arc_label r
  /\ (arc_env_ok r world' -> member_ok world' r')
  /\ (forall s, arc_owns r' (arc_state r') s <-> arc_owns r (arc_state r) s)
  /\ forall records, (member_lookup world hostname servname f r).2 = Some (arc_label r, Ok records) ->
       Forall (fun x => arc_owns r (arc_state r) x.1
                        /\ endpoint_matches_family dquic_addr x.2 f = true) records.
Proof.
  intros [Hs He]. unfold member_lookup, member_ok. pose proof (arc_contract r) as HC.
  pose proof (resolve_keeps (ResolveContract := HC) (arc_state r) hostname servname f world Hs He) as Hk.
  pose proof (resolve_owner (ResolveContract := HC) (arc_state r) hostname servname f world) as Ho.
  pose proof (resolve_sound (ResolveContract := HC) (arc_state r) hostname servname f world) as Hr.
  destruct (resolve_lookup (arc_state r) hostname servname f world) as [state result].
  cbn [fst snd arc_label arc_state_ok arc_env_ok arc_owns arc_state] in *. split_and!; [done..|].
  intros records Hx. destruct result as [result|]; [|done]. cbn in Hx. injection Hx as ->. by apply Hr.
Qed.

Lemma mapM_outcomes {A B} (g : A -> option B) (l : list A) (k : list B) y :
  mapM g l = Some k -> (y ∈ k <-> exists x, x ∈ l /\ g x = Some y).
Proof.
  intros Hm%mapM_Some_1. rewrite !list_elem_of_lookup. split.
  - intros [i Hi]. destruct (Forall2_lookup_r _ _ _ _ _ Hm Hi) as (x & Hx & Hg). exists x.
    split; [by eapply list_elem_of_lookup_2|done].
  - intros (x & [i Hi]%list_elem_of_lookup & Hg).
    destruct (Forall2_lookup_l _ _ _ _ _ Hm Hi) as (z & Hz & Hg'). exists i.
    rewrite Hg in Hg'. by injection Hg' as ->.
Qed.

(** The outcomes of the members, in the order of completion. *)
Lemma outcomes_elem world hostname servname f self reorder results l res :
  (forall l, reorder l ≡ₚ l) ->
  mapM snd (map (member_lookup world hostname servname f) self) = Some results ->
  (l, res) ∈ reorder results <->
  exists r, r ∈ self /\ (member_lookup world hostname servname f r).2 = Some (l, res).
Proof.
  intros Hre Hm. rewrite (Hre results), (mapM_outcomes _ _ _ _ Hm). split.
  - intros (o & (r & -> & Hr)%list_elem_of_fmap & Ho). by exists r.
  - intros (r & Hr & Ho). exists (member_lookup world hostname servname f r).
    split; [|done]. apply list_elem_of_fmap. by exists r.
Qed.

Lemma aggregate_lookup_spec (self : list ArcResolver) hostname servname f world reorder sched :
  Forall (member_ok world) self -> (forall l, reorder l ≡ₚ l) ->
  match (resolvers_lookup self hostname servname f world reorder sched).2 with
  | Some (Ok records) => NoDup records
      /\ (forall x, x ∈ records <-> found world hostname servname f self x)
      /\ Forall (fun x => source_owned self x.1 /\ endpoint_matches_family dquic_addr x.2 f = true) records
  | Some (Err errors) =>
      (forall l e, (l, e) ∈ errors <->
         exists r, r ∈ self /\ (member_lookup world hostname servname f r).2 = Some (l, Err e))
      /\ forall r l records, r ∈ self ->
           (member_lookup world hostname servname f r).2 <> Some (l, Ok records)
  | None => exists r, r ∈ self /\ (member_lookup world hostname servname f r).2 = None
  end.
Proof.
  intros Hok Hre. unfold resolvers_lookup. cbn [snd].
  destruct (mapM snd _) as [results|] eqn:Em; cbn [mbind option_bind].
  2: { apply mapM_None_1, Exists_exists in Em as (o & (r & -> & Hr)%list_elem_of_fmap & Ho).
       exists r. split; [done|]. exact Ho. }
  pose proof (fun l res => outcomes_elem _ _ _ _ _ reorder _ l res Hre Em) as Hin.
  pose proof (first_success_spec (reorder results) []) as Hf.
  destruct (first_success (reorder results) []) as [state|errors] eqn:Es.
  - destruct (unique_stream_exact sched _ _ Es) as (out & -> & Hnd & Hel). cbn [mbind option_bind].
    assert (forall x, x ∈ out <-> found world hostname servname f self x) as Hfound.
    { intros x. rewrite Hel. setoid_rewrite Hin. unfold found. split.
      - intros (l & rs & (r & Hr & Ho) & Hx). exists r, rs. split; [done|]. split; [done|].
        rewrite Ho. f_equal. unfold member_lookup in Ho. destruct (resolve_lookup _ _ _ _ _) as [? [|]];
          cbn in Ho; [|done]. injection Ho as <- _. done.
      - intros (r & rs & Hr & Hx & Ho). exists (arc_label r), rs. split; [by exists r|done]. }
    split; [done|]. split; [done|]. apply Forall_forall. intros x (r & rs & Hr & Hx & Ho)%Hfound.
    rewrite Forall_forall in Hok.
    destruct (member_lookup_ok world world hostname servname f r (Hok r Hr)) as (_ & _ & _ & Hs).
    specialize (Hs rs Ho). rewrite Forall_forall in Hs. destruct (Hs x Hx) as [Hown Hfam].
    split; [by exists r|done].
  - destruct Hf as (es & -> & Hc). cbn [app]. split.
    + intros l e. rewrite <- Hin, Hc, list_elem_of_fmap. split; [intros He; by exists (l, e)|].
      by intros ([l' e'] & [= -> ->] & He).
    + intros r l records Hr Ho. assert ((l, Ok records) ∈ reorder results) as Hx by (apply Hin; by exists r).
      rewrite Hc in Hx. by apply list_elem_of_fmap in Hx as ([l' e'] & [=] & _).
Qed.

(** The members after a lookup, in any world they accept. *)
Lemma aggregate_keeps (self : list ArcResolver) hostname servname f world world' reorder sched :
  Forall (member_ok world) self -> Forall (member_ok world') self ->
  let self' := (resolvers_lookup self hostname servname f world reorder sched).1 in
  Forall (member_ok world') self' /\ map arc_label self' = map arc_label self.
Proof.
  intros Hok Hok'. unfold resolvers_lookup. cbn [fst]. rewrite !map_map.
  rewrite Forall_forall in Hok, Hok'. split.
  - apply Forall_forall. intros r' (r & -> & Hr)%list_elem_of_fmap.
    destruct (member_lookup_ok world world' hostname servname f r (Hok r Hr)) as (_ & Hk & _).
    apply Hk. by apply Hok'.
  - apply map_ext_in. intros r Hr%list_elem_of_In.
    by destruct (member_lookup_ok world world hostname servname f r (Hok r Hr)).
Qed.

Lemma aggregate_owned (self : list ArcResolver) hostname servname f world reorder sched s :
  source_owned (resolvers_lookup self hostname servname f world reorder sched).1 s
  <-> source_owned self s.
Proof.
  unfold resolvers_lookup, source_owned. cbn [fst]. rewrite map_map.
  assert (forall r, arc_owns (member_lookup world hostname servname f r).1
            (arc_state (member_lookup world hostname servname f r).1) s <-> arc_owns r (arc_state r) s) as Hr.
  { intros r. unfold member_lookup.
    pose proof (resolve_owner (ResolveContract := arc_contract r) (arc_state r) hostname servname f world s) as Ho.
    by destruct (resolve_lookup (arc_state r) hostname servname f world) as [state result]. }
  split.
  - intros (r' & (r & -> & Hin)%list_elem_of_fmap & Ho). exists r. split; [done|]. by apply (proj1 (Hr r)).
  - intros (r & Hin & Ho). exists (member_lookup world hostname servname f r).1.
    split; [|by apply (proj2 (Hr r))]. apply list_elem_of_fmap. by exists r.
Qed.

(** [Resolve for Resolvers]: an aggregate is a resolver. *)
#[local] Instance resolvers_resolve_lookup
    (reorder : list (bytes * Result (list (RecordOf Source)) StdError) ->
               list (bytes * Result (list (RecordOf Source)) StdError))
    (sched : nat -> nat) : Resolve Source (list ArcResolver) World :=
  fun self hostname servname f world =>
    let '(self, r) := resolvers_lookup self hostname servname f world reorder sched in
    (self, option_map (result_map_err resolvers_error) r).

(** The members are within their contracts in every world [W] allows. *)
Definition all_members_ok (W : World -> Prop) (self : list ArcResolver) : Prop :=
  forall world, W world -> Forall (member_ok world) self.

#[export] Instance aggregate_nested reorder sched (W : World -> Prop) :
  (forall l, reorder l ≡ₚ l) ->
  ResolveContract (resolvers_resolve_lookup reorder sched) dquic_addr (all_members_ok W) W source_owned.
Proof.
  intros Hre. split; unfold resolve_lookup, resolvers_resolve_lookup; intros self hostname servname f world.
  - intros Hm Hw world' Hw'.
    pose proof (aggregate_keeps self hostname servname f world world' reorder sched (Hm world Hw)
      (Hm world' Hw')) as [Hk _].
    by destruct (resolvers_lookup self hostname servname f world reorder sched).
  - intros s. pose proof (aggregate_owned self hostname servname f world reorder sched s) as Ho.
    by destruct (resolvers_lookup self hostname servname f world reorder sched).
  - intros records Hm Hw Hr.
    pose proof (aggregate_lookup_spec self hostname servname f world reorder sched (Hm world Hw) Hre) as Hs.
    destruct (resolvers_lookup self hostname servname f world reorder sched) as [self' [[rs|]|]];
      cbn in Hr; [|done..]. injection Hr as <-. cbn [snd] in Hs. apply Hs.
Qed.
End Aggregate.

(** ** Properties *)

(** C12: record lookups through the aggregate are exact and keep the contract of [Resolve].
    Whatever the members are (the HTTP/3, HTTP and mDNS resolvers and the set of mDNS
    resolvers implement the interface), in whatever order their lookups complete and
    however their streams are scheduled, the stream runs to its end and gives every record
    of every member that succeeded, each once, with a source of one of the members and
    an endpoint of the requested family; the lookup fails exactly with the errors of its
    members when all of them fail, and panics only when a member does.  The members keep
    their contracts and sources, and through its own implementation of the interface the
    aggregate keeps the contract too. *)
Theorem resolvers_lookup_exact {Source} `{EqDecision Source} {World}
    (dquic_addr : Dquic.EndpointAddr -> SocketAddr) (self : list (ArcResolver dquic_addr))
    (hostname servname : bytes) (f : option Family) (world : World)
    (reorder : list (bytes * Result (list (RecordOf Source)) StdError) ->
               list (bytes * Result (list (RecordOf Source)) StdError))
    (sched : nat -> nat) :
  Forall (member_ok dquic_addr world) self -> (forall l, reorder l ≡ₚ l) ->
  (let '(self', r) := resolvers_lookup dquic_addr self hostname servname f world reorder sched in
   Forall (member_ok dquic_addr world) self'
   /\ map (arc_label dquic_addr) self' = map (arc_label dquic_addr) self
   /\ (forall s, source_owned dquic_addr self' s <-> source_owned dquic_addr self s)
   /\ match r with
      | Some (Ok records) => NoDup records
          /\ (forall x, x ∈ records <-> found dquic_addr world hostname servname f self x)
          /\ Forall (fun x => source_owned dquic_addr self x.1
                              /\ endpoint_matches_family dquic_addr x.2 f = true) records
      | Some (Err errors) =>
          (forall l e, (l, e) ∈ errors <-> exists r, r ∈ self
             /\ (member_lookup dquic_addr world hostname servname f r).2 = Some (l, Err e))
          /\ forall r l records, r ∈ self ->
               (member_lookup dquic_addr world hostname servname f r).2 <> Some (l, Ok records)
      | None => exists r, r ∈ self /\ (member_lookup dquic_addr world hostname servname f r).2 = None
      end)
  /\ forall W : World -> Prop,
       ResolveContract (resolvers_resolve_lookup dquic_addr reorder sched) dquic_addr
         (all_members_ok dquic_addr W) W (source_owned dquic_addr).
Proof.
  intros Hok Hre. split; [|intros W; by apply aggregate_nested].
  pose proof (aggregate_keeps dquic_addr self hostname servname f world world reorder sched Hok Hok) as [Hk Hl].
  pose proof (aggregate_owned dquic_addr self hostname servname f world reorder sched) as Ho.
  pose proof (aggregate_lookup_spec dquic_addr self hostname servname f world reorder sched Hok Hre) as Hs.
  by destruct (resolvers_lookup dquic_addr self hostname servname f world reorder sched).
Qed.

(** The same mDNS resolver twice. *)
Definition stream_resolve : Resolve unit (MdnsResolver (C := CertModel.certificates)) unit :=
  resolve_via (fun _ => sample_net) (mdns_resolve_lookup (F := BitfieldModel.bitfield)
    (str ".dhttp.net") (fun _ _ => tt) sample_addr (fun _ => true) (fun _ => mkStdError [] None)).

Lemma stream_contract : ResolveContract stream_resolve sample_addr (fun _ => True) (fun _ => True)
  (fun self s => s = mdns_source (fun _ _ => tt) self).
Proof.
  exact (resolve_via_contract (fun _ : unit => sample_net) _ sample_addr (fun _ => True)
    (fun _ => True) _ (mdns_resolve_contract _ _ _ _ _)).
Qed.

Definition sample_member (label : bytes) : ArcResolver (Source := unit) (World := unit) sample_addr :=
  mkArcResolver sample_addr label _ stream_resolve (fun _ => True) (fun _ => True) _ stream_contract
    (sample_resolver (IpV6 1)).

Abbreviation sample_records := (resolvers_lookup sample_addr [sample_member (str "a"); sample_member (str "b")]
  (str "a.dhttp.net") (str "443") None tt reverse (fun n => n)).

Lemma sample_records_ok : exists records, sample_records.2 = Some (Ok records) /\ length records = 1%nat.
Proof.
  assert (match sample_records.2 with Some (Ok l) => (length l =? 1)%nat | _ => false end = true) as Ho
    by (vm_compute; reflexivity).
  destruct (sample_records.2) as [[l|]|]; [|done..]. exists l. split; [done|]. by apply Nat.eqb_eq.
Qed.

Example resolvers_lookup_exact_witness : exists records,
  sample_records.2 = Some (Ok records) /\ length records = 1%nat /\ NoDup records
  /\ forall x, x ∈ records -> endpoint_matches_family sample_addr x.2 None = true.
Proof.
  destruct sample_records_ok as (l & Hl & Hn). exists l. split; [exact Hl|]. split; [exact Hn|].
  destruct (resolvers_lookup_exact sample_addr [sample_member (str "a"); sample_member (str "b")]
    (str "a.dhttp.net") (str "443") None tt reverse (fun n => n)) as [Hr _].
  - constructor; [done|]. constructor; [done|constructor].
  - apply reverse_Permutation.
  - destruct sample_records as [self' r]. cbn [snd] in Hl. rewrite Hl in Hr.
    destruct Hr as (_ & _ & _ & Hnd & _ & Hf). split; [exact Hnd|]. rewrite Forall_forall in Hf.
    intros x Hx. apply (Hf x Hx).
Defined.
