(* ===== verification/ResolverConfig.v ===== *)
(** * Installation of resolvers: src/resolver_config.rs

    The resolvers of the configured schemes are registered once per process.  The
    global registry of [qresolve] is the list of the schemes that were added to
    it; building the HTTP resolvers can fail. *)

From stdpp Require Import base list numbers option sets.
From S2P Require Import Prelude RustString.

Module DnsScheme.
Inductive t := System | Mdns | H3 | Http.

Global Instance t_eq_dec : EqDecision t.
Proof. solve_decision. Defined.

Definition from_str (s : bytes) : Result t bytes :=
  let l := to_ascii_lowercase s in
  if bool_decide (l = str "system") then Ok System
  else if bool_decide (l = str "mdns") then Ok Mdns
  else if bool_decide (l = str "h3") then Ok H3
  else if bool_decide (l = str "http") then Ok Http
  else Err (str "unsupported DNS scheme: " ++ s).

Definition display (s : t) : bytes :=
  match s with
  | System => str "system"
  | Mdns => str "mdns"
  | H3 => str "h3"
  | Http => str "http"
  end.
End DnsScheme.

(** [Installed] and the registry; the mDNS set is a number. *)
Record Installed := mkInstalled {
  schemes : list DnsScheme.t;
  mdns : option nat;
  registry : list DnsScheme.t;
  sets : nat;
}.

Definition Installed_default : Installed := mkInstalled [] None [] 0.

Section Install.
(** Building the resolver of a scheme: parsing the origin, validating it, and
    building the client. *)
Context (build : DnsScheme.t -> Result unit bytes).

Definition install_one (s : Installed) (scheme : DnsScheme.t) : Installed * Result unit bytes :=
  if bool_decide (scheme ∈ schemes s) then (s, Ok tt)
  else
    let added := mkInstalled (schemes s ++ [scheme]) (mdns s) (registry s ++ [scheme]) (sets s) in
    match scheme with
    | DnsScheme.System => (added, Ok tt)
    | DnsScheme.H3 | DnsScheme.Http =>
        match build scheme with
        | Err e => (s, Err e)
        | Ok _ => (added, Ok tt)
        end
    | DnsScheme.Mdns =>
        (mkInstalled (schemes added) (Some (sets s)) (registry added) (S (sets s)), Ok tt)
    end.

Fixpoint install_loop (s : Installed) (requested : list DnsScheme.t)
  : Installed * Result unit bytes :=
  match requested with
  | [] => (s, Ok tt)
  | scheme :: requested =>
      match install_one s scheme with
      | (s, Err e) => (s, Err e)
      | (s, Ok _) => install_loop s requested
      end
  end.

Definition needs_system (scheme : DnsScheme.t) : bool :=
  match scheme with DnsScheme.H3 | DnsScheme.Http => true | _ => false end.

Definition install_resolvers (s : Installed) (requested : list DnsScheme.t)
  : Installed * Result (option nat) bytes :=
  let all := if existsb needs_system requested then requested ++ [DnsScheme.System] else requested in
  match install_loop s all with
  | (s, Err e) => (s, Err e)
  | (s, Ok _) => (s, Ok (if bool_decide (DnsScheme.Mdns ∈ requested) then mdns s else None))
  end.
End Install.

(** The states of a process: any sequence of installations, failed ones included. *)
Inductive installed_reachable : Installed -> Prop :=
| installed_initial : installed_reachable Installed_default
| installed_next s build requested :
    installed_reachable s -> installed_reachable (install_resolvers build s requested).1.

(** ** Facts *)
Definition installed_ok (s : Installed) : Prop :=
  NoDup (schemes s) /\ registry s = schemes s
  /\ (DnsScheme.Mdns ∈ schemes s <-> is_Some (mdns s)).

Lemma added_ok s scheme m n :
  installed_ok s -> scheme ∉ schemes s ->
  (if bool_decide (scheme = DnsScheme.Mdns) then is_Some m else m = mdns s) ->
  installed_ok (mkInstalled (schemes s ++ [scheme]) m (registry s ++ [scheme]) n).
Proof.
  intros (H1 & H2 & H3) Hin Hm. split_and!; cbn [schemes registry mdns].
  - apply NoDup_app. split; [done|]. split; [set_solver|]. apply NoDup_singleton.
  - by rewrite H2.
  - rewrite elem_of_app, list_elem_of_singleton. case_bool_decide; [naive_solver|].
    subst m. rewrite H3. naive_solver.
Qed.

Lemma install_one_spec build s scheme :
  installed_ok s ->
  let '(s', r) := install_one build s scheme in
  installed_ok s' /\ schemes s `prefix_of` schemes s'
  /\ (is_ok r = true -> scheme ∈ schemes s')
  /\ (mdns s' = mdns s \/ mdns s = None).
Proof.
  intros Hok. unfold install_one. case_bool_decide as Hin; [by split_and!; auto|].
  assert (schemes s `prefix_of` schemes s ++ [scheme]) as Hpre by (by eexists).
  assert (scheme ∈ schemes s ++ [scheme]) as Hx by (apply elem_of_app; right; left).
  destruct scheme.
  - split_and!; try done; [apply added_ok; done || reflexivity|by left].
  - split_and!; try done; [apply added_ok; done || by eexists|]. right. destruct (mdns s) eqn:E; [|done].
    destruct Hin. apply Hok. rewrite E. by eexists.
  - destruct (build DnsScheme.H3); split_and!; try done; [apply added_ok; done || reflexivity|by left..].
  - destruct (build DnsScheme.Http); split_and!; try done; [apply added_ok; done || reflexivity|by left..].
Qed.

Lemma install_loop_spec build requested : forall s,
  installed_ok s ->
  let '(s', r) := install_loop build s requested in
  installed_ok s' /\ schemes s `prefix_of` schemes s'
  /\ (is_ok r = true -> forall x, x ∈ requested -> x ∈ schemes s')
  /\ (mdns s' = mdns s \/ mdns s = None).
Proof.
  induction requested as [|x requested IH]; intros s Hok; cbn [install_loop].
  { split_and!; auto. set_solver. }
  pose proof (install_one_spec build s x Hok) as H1.
  destruct (install_one build s x) as [s1 [[]|e]]; destruct H1 as (Hok1 & Hp1 & Hx & Hm1);
    [|by split_and!].
  specialize (IH s1 Hok1). destruct (install_loop build s1 requested) as [s2 r].
  destruct IH as (Hok2 & Hp2 & Hr & Hm2). split_and!; [done|by etrans| |].
  - intros Hr' y [->|Hy]%elem_of_cons; [|by apply Hr].
    destruct Hp2 as [k ->]. apply elem_of_app. left. by apply Hx.
  - destruct Hm1 as [E|]; [rewrite E in Hm2|]; auto.
Qed.

Lemma installed_reachable_ok s : installed_reachable s -> installed_ok s.
Proof.
  induction 1 as [|s build requested _ IH].
  - split_and!; [constructor|done|]. split; [set_solver|by intros []].
  - unfold install_resolvers.
    pose proof (install_loop_spec build (if existsb needs_system requested
      then requested ++ [DnsScheme.System] else requested) s IH) as Hl.
    destruct (install_loop _ _ _) as [s' []]; apply Hl.
Qed.

Lemma install_present build requested s :
  (forall x, x ∈ requested -> x ∈ schemes s) -> install_loop build s requested = (s, Ok tt).
Proof.
  induction requested as [|x requested IH]; intros Hin; [done|]. cbn [install_loop].
  unfold install_one. rewrite bool_decide_true by (apply Hin; left). apply IH. set_solver.
Qed.

(** ** Properties *)

(** C35: every scheme is registered at most once per process.  After any sequence of
    installations, also failed ones, the registry has one resolver per installed
    scheme.  A successful installation has all the requested schemes, and the
    system resolver with any HTTP scheme; it returns the mDNS set exactly when
    mDNS was requested, always the same one; repeating it changes nothing. *)
Theorem install_once (build build' : DnsScheme.t -> Result unit bytes) (s : Installed)
    (requested : list DnsScheme.t) (s' : Installed) (set : option nat) :
  installed_reachable s -> install_resolvers build s requested = (s', Ok set) ->
  NoDup (registry s') /\ schemes s' = registry s' /\ registry s `prefix_of` registry s'
  /\ (forall x, x ∈ requested -> x ∈ registry s')
  /\ (DnsScheme.H3 ∈ requested \/ DnsScheme.Http ∈ requested -> DnsScheme.System ∈ registry s')
  /\ (is_Some set <-> DnsScheme.Mdns ∈ requested)
  /\ (forall n, mdns s = Some n -> DnsScheme.Mdns ∈ requested -> set = Some n)
  /\ install_resolvers build' s' requested = (s', Ok set).
Proof.
  intros Hok%installed_reachable_ok. unfold install_resolvers.
  set (all := if existsb needs_system requested then _ else _).
  assert (forall x, x ∈ requested -> x ∈ all) as Hall by (intros x Hx; unfold all; case_match; set_solver).
  pose proof (install_loop_spec build all s Hok) as Hl.
  destruct (install_loop build s all) as [s1 [[]|]]; [|done]. intros [= <- <-].
  destruct Hl as ((H1 & H2 & H3) & Hpre & Hin & Hm). specialize (Hin eq_refl).
  assert (registry s = schemes s) as Hreg by apply Hok. rewrite H2, Hreg.
  split; [done|]. split; [done|]. split; [done|]. split; [by intros x Hx; apply Hin, Hall|]. split.
  { intros Hs. apply Hin. unfold all. rewrite (proj2 (existsb_exists _ _)).
    - apply elem_of_app. right. left.
    - destruct Hs as [Hs|Hs]; apply list_elem_of_In in Hs; eexists; by split. }
  split.
  { case_bool_decide as Hq; [|split; [by intros []|done]]. split; [done|]. intros _.
    apply H3, Hin, Hall, Hq. }
  split.
  { intros n Hn Hq. rewrite bool_decide_true by done. destruct Hm as [->|Hm]; [done|].
    by rewrite Hm in Hn. }
  by rewrite install_present.
Qed.

Example install_once_witness :
  exists s' set, install_resolvers (fun _ => Ok tt) Installed_default [DnsScheme.H3; DnsScheme.Mdns]
                 = (s', Ok set)
    /\ DnsScheme.System ∈ registry s'
    /\ install_resolvers (fun _ => Err []) s' [DnsScheme.H3; DnsScheme.Mdns] = (s', Ok set).
Proof.
  eexists _, _. split; [reflexivity|].
  edestruct (install_once (fun _ => Ok tt) (fun _ => Err []) Installed_default
    [DnsScheme.H3; DnsScheme.Mdns]) as (_ & _ & _ & _ & Hs & _ & _ & Hr);
    [apply installed_initial|reflexivity|].
  split; [apply Hs; left; left|exact Hr].
Defined.
