(* ===== verification/Bootstrap.v ===== *)
(** * The constants fixed at build time: build.rs and src/bootstrap.rs

    The build script writes a module of three constants, which [src/bootstrap.rs]
    includes and [src/resolvers.rs] re-exports: the name service, the bootstrap URL and
    the mDNS service domain.  The environment and the file system are parameters; the
    values of the environment are byte strings that need not be UTF-8. *)

From stdpp Require Import base list numbers option sets.
From S2P Require Import Prelude RustString RustFmt.

Definition NAME_SERVICE_ENV : bytes := str "DHTTP_NAME_SERVICE".
Definition BOOTSTRAP_URL_ENV : bytes := str "DHTTP_BOOTSTRAP_URL".
Definition MDNS_SERVICE_DOMAIN_ENV : bytes := str "DHTTP_MDNS_SERVICE_DOMAIN".

Definition DEFAULT_NAME_SERVICE : bytes := str "https://ddns.genmeta.net".
Definition DEFAULT_BOOTSTRAP_URL : bytes := str "https://bootstrap.genmeta.net:20002".
Definition DEFAULT_MDNS_SERVICE_DOMAIN : bytes := str "_dhttp.local".

(** What a run of the script leaves: the file it wrote and the lines it printed, or the
    message it panicked with. *)
Inductive Build :=
| Panicked (message : bytes)
| Built (file contents : bytes) (printed : list bytes).

Section Script.
(** The environment, and whether writing a file succeeds. *)
Context (env : bytes -> option bytes) (write : bytes -> bytes -> bool).
Context (printable : Z -> bool).

Inductive VarError := NotPresent | NotUnicode (value : bytes).

(** [std::env::var]. *)
Definition var (name : bytes) : Result bytes VarError :=
  match env name with
  | None => Err NotPresent
  | Some value => if utf8_valid value then Ok value else Err (NotUnicode value)
  end.

Definition env_or_default (name default : bytes) : bytes :=
  match var name with
  | Ok value => value
  | Err _ => default
  end.

(** [PathBuf::join] of a relative file name. *)
Definition path_join (dir file : bytes) : bytes :=
  match last dir with
  | None => file
  | Some c => if c =? 47 then dir ++ file else dir ++ [47] ++ file
  end.

(** The text of the generated module. *)
Definition constant (name value : bytes) : bytes :=
  str "pub const " ++ name ++ str ": &str = " ++ debug_str printable value ++ str ";" ++ [10].

Definition bootstrap (name_service bootstrap_url mdns_service_domain : bytes) : bytes :=
  str "// @generated by build.rs; do not edit." ++ [10]
  ++ constant (str "DHTTP_NAME_SERVICE") name_service
  ++ constant (str "DHTTP_BOOTSTRAP_URL") bootstrap_url
  ++ constant (str "DHTTP_MDNS_SERVICE_DOMAIN") mdns_service_domain.

Definition main : Build :=
  match var (str "OUT_DIR") with
  | Err _ => Panicked (str "OUT_DIR is set by cargo")
  | Ok out_dir =>
      let name_service := env_or_default NAME_SERVICE_ENV DEFAULT_NAME_SERVICE in
      let bootstrap_url := env_or_default BOOTSTRAP_URL_ENV DEFAULT_BOOTSTRAP_URL in
      let mdns_service_domain := env_or_default MDNS_SERVICE_DOMAIN_ENV DEFAULT_MDNS_SERVICE_DOMAIN in
      let file := path_join out_dir (str "bootstrap.rs") in
      let text := bootstrap name_service bootstrap_url mdns_service_domain in
      if write file text
      then Built file text
             (map (fun name => str "cargo::rerun-if-env-changed=" ++ name)
                [NAME_SERVICE_ENV; BOOTSTRAP_URL_ENV; MDNS_SERVICE_DOMAIN_ENV])
      else Panicked (str "failed to write generated DHTTP DNS bootstrap constants")
  end.
End Script.

(** ** What the compiler reads

    A module of string constants: comments to the end of their line, and items. *)
Definition read_constant (l : bytes) : option (bytes * bytes * bytes) :=
  l ← strip_prefix (str "pub const ") l;
  '(name, l) ← split_once colon l;
  l ← strip_prefix (str " &str = ") l;
  '(value, l) ← read_literal l;
  l ← strip_prefix (str ";" ++ [10]) l;
  Some (name, value, l).

Fixpoint read_module (fuel : nat) (l : bytes) : option (list (bytes * bytes)) :=
  match fuel, l with
  | _, [] => Some []
  | O, _ => None
  | S fuel, _ =>
      if starts_with (str "//") l then '(_, l) ← split_once 10 l; read_module fuel l
      else '(name, value, l) ← read_constant l;
           constants ← read_module fuel l; Some ((name, value) :: constants)
  end.

(** The constants of an included module, one line at most for each. *)
Definition included (text : bytes) : option (list (bytes * bytes)) := read_module (length text) text.

(** ** Facts *)
Lemma read_constant_text printable name value rest :
  colon ∉ name -> utf8 value -> bytes_ok value ->
  read_constant (constant printable name value ++ rest) = Some (name, value, rest).
Proof.
  intros Hn Hu Hb. unfold read_constant, constant. rewrite <- !app_assoc, strip_prefix_app.
  cbn [mbind option_bind]. change (str ": &str = ") with ([colon] ++ str " &str = ").
  rewrite <- !app_assoc. cbn [app]. rewrite split_once_app by done. cbn [mbind option_bind].
  rewrite strip_prefix_app. cbn [mbind option_bind].
  rewrite debug_str_reads by done. cbn [mbind option_bind].
  change (str ";" ++ 10 :: rest) with ((str ";" ++ [10]) ++ rest). by rewrite strip_prefix_app.
Qed.

Lemma read_module_constant printable fuel name value rest :
  colon ∉ name -> utf8 value -> bytes_ok value ->
  read_module (S fuel) (constant printable name value ++ rest)
  = constants ← read_module fuel rest; Some ((name, value) :: constants).
Proof.
  intros Hn Hu Hb.
  assert (read_module (S fuel) (constant printable name value ++ rest)
    = '(name, value, l) ← read_constant (constant printable name value ++ rest);
      constants ← read_module fuel l; Some ((name, value) :: constants)) as ->
    by (unfold constant; rewrite <- app_assoc; reflexivity).
  by rewrite read_constant_text.
Qed.

Lemma bootstrap_reads printable a b c :
  Forall (fun v => utf8 v /\ bytes_ok v) [a; b; c] ->
  included (bootstrap printable a b c)
  = Some [(NAME_SERVICE_ENV, a); (BOOTSTRAP_URL_ENV, b); (MDNS_SERVICE_DOMAIN_ENV, c)].
Proof.
  intros H. rewrite !Forall_cons in H. destruct H as ([? ?] & [? ?] & [? ?] & _).
  unfold included. assert (4 <= length (bootstrap printable a b c))%nat as Hl.
  { unfold bootstrap. rewrite length_app.
    change (length (str "// @generated by build.rs; do not edit.")) with 39%nat. lia. }
  destruct (length (bootstrap printable a b c)) as [|[|[|[|fuel]]]]; [lia..|].
  set (comment := str "// @generated by build.rs; do not edit.").
  set (items := constant printable (str "DHTTP_NAME_SERVICE") a
    ++ constant printable (str "DHTTP_BOOTSTRAP_URL") b
    ++ constant printable (str "DHTTP_MDNS_SERVICE_DOMAIN") c).
  assert (read_module (S (S (S (S fuel)))) (bootstrap printable a b c)
    = '(_, l) ← split_once 10 (comment ++ 10 :: items); read_module (S (S (S fuel))) l) as -> by done.
  rewrite split_once_app by (vm_compute; set_solver). cbn [mbind option_bind]. unfold items.
  rewrite !read_module_constant by (done || (vm_compute; set_solver)).
  rewrite <- (app_nil_r (constant _ _ c)).
  rewrite read_module_constant by (done || (vm_compute; set_solver)). by destruct fuel.
Qed.

(** What a constant is to be: the variable when it is set to text, else the default. *)
Definition configured (env : bytes -> option bytes) (name default value : bytes) : Prop :=
  (forall v, env name = Some v -> utf8 v -> value = v)
  /\ ((forall v, env name = Some v -> ~ utf8 v) -> value = default).

Lemma env_or_default_configured env name default :
  configured env name default (env_or_default env name default).
Proof.
  unfold env_or_default, var, configured. destruct (env name) as [x|] eqn:E; [|by split].
  destruct (utf8_valid x) eqn:U; [rewrite utf8_valid_iff in U|]; split; try done.
  - by intros v [= <-].
  - intros H. by destruct (H x eq_refl).
  - intros v [= <-] Hv%utf8_valid_iff. congruence.
Qed.

Lemma env_or_default_text env name default :
  (forall v, env name = Some v -> bytes_ok v) -> utf8 default -> bytes_ok default ->
  utf8 (env_or_default env name default) /\ bytes_ok (env_or_default env name default).
Proof.
  intros He. unfold env_or_default, var. destruct (env name) as [x|]; [|done].
  destruct (utf8_valid x) eqn:U; [|done]. rewrite utf8_valid_iff in U. by auto.
Qed.

(** C36: with [OUT_DIR] set to text and a writable output directory, the script
    does not panic; the module it writes reads, as a module of string literals, as
    exactly three constants, each of them the value of its variable, whatever
    characters that holds, when it is set to text, and its default otherwise. *)
Theorem generated_constants env write printable out_dir :
  (forall name v, env name = Some v -> bytes_ok v) ->
  env (str "OUT_DIR") = Some out_dir -> utf8 out_dir ->
  (forall contents, write (path_join out_dir (str "bootstrap.rs")) contents = true) ->
  exists text printed name_service bootstrap_url mdns_service_domain,
    main env write printable = Built (path_join out_dir (str "bootstrap.rs")) text printed
    /\ included text = Some [(str "DHTTP_NAME_SERVICE", name_service);
                             (str "DHTTP_BOOTSTRAP_URL", bootstrap_url);
                             (str "DHTTP_MDNS_SERVICE_DOMAIN", mdns_service_domain)]
    /\ configured env NAME_SERVICE_ENV DEFAULT_NAME_SERVICE name_service
    /\ configured env BOOTSTRAP_URL_ENV DEFAULT_BOOTSTRAP_URL bootstrap_url
    /\ configured env MDNS_SERVICE_DOMAIN_ENV DEFAULT_MDNS_SERVICE_DOMAIN mdns_service_domain.
Proof.
  intros He Ho Hu Hw. unfold main.
  assert (var env (str "OUT_DIR") = Ok out_dir) as ->.
  { unfold var. rewrite Ho. by rewrite (proj2 (utf8_valid_iff out_dir) Hu). }
  rewrite Hw. do 5 eexists. split; [reflexivity|].
  split; [|split_and!; apply env_or_default_configured].
  apply bootstrap_reads. repeat (apply Forall_cons; split); [..|by apply Forall_nil];
    (apply env_or_default_text; [eauto|apply (bool_decide_unpack _); by vm_compute..]).
Qed.

(** A name service with a quote, a backslash, a new line and a character of two bytes; a
    bootstrap URL that is not text. *)
Definition sample_env (name : bytes) : option bytes :=
  if bool_decide (name = str "OUT_DIR") then Some (str "/out")
  else if bool_decide (name = NAME_SERVICE_ENV) then Some [104; 34; 92; 10; 0xC3; 0xA9; 7]
  else if bool_decide (name = BOOTSTRAP_URL_ENV) then Some [0xFF]
  else None.

Example generated_constants_witness :
  exists text printed,
    main sample_env (fun _ _ => true) (fun _ => false) = Built (str "/out/bootstrap.rs") text printed
    /\ included text = Some [(str "DHTTP_NAME_SERVICE", [104; 34; 92; 10; 0xC3; 0xA9; 7]);
                             (str "DHTTP_BOOTSTRAP_URL", DEFAULT_BOOTSTRAP_URL);
                             (str "DHTTP_MDNS_SERVICE_DOMAIN", DEFAULT_MDNS_SERVICE_DOMAIN)].
Proof.
  destruct (generated_constants sample_env (fun _ _ => true) (fun _ => false) (str "/out"))
    as (text & printed & a & b & c & Hm & Hi & [Ha _] & [_ Hb] & [_ Hc]).
  - intros name v. unfold sample_env. repeat case_match; intros [= <-]; decide_now.
  - reflexivity.
  - decide_now.
  - reflexivity.
  - exists text, printed. split; [exact Hm|]. rewrite Hi.
    rewrite (Ha [104; 34; 92; 10; 0xC3; 0xA9; 7]) by (reflexivity || decide_now).
    rewrite Hb, Hc; [reflexivity|done|]. intros v [= <-]. decide_now.
Defined.

(** ** The tests of the script *)
Module BuildTests.
Definition missing_env_uses_genmeta_production_defaults (name : bytes) : bool :=
  let env := fun _ => None in
  bool_decide (env_or_default env name DEFAULT_NAME_SERVICE = str "https://ddns.genmeta.net")
  && bool_decide (env_or_default env name DEFAULT_BOOTSTRAP_URL = str "https://bootstrap.genmeta.net:20002")
  && bool_decide (env_or_default env name DEFAULT_MDNS_SERVICE_DOMAIN = str "_dhttp.local").

Definition default_urls_use_expected_authorities : bool :=
  bool_decide (strip_prefix (str "https://") DEFAULT_NAME_SERVICE = Some (str "ddns.genmeta.net"))
  && bool_decide (strip_prefix (str "https://") DEFAULT_BOOTSTRAP_URL
                  = Some (str "bootstrap.genmeta.net:20002")).

Example build_tests_pass :
  missing_env_uses_genmeta_production_defaults (str "__DDNS_MISSING_BOOTSTRAP_1")
  && default_urls_use_expected_authorities = true.
Proof. vm_compute. reflexivity. Qed.
End BuildTests.
