(* ===== verification/TestsWire.v ===== *)
(** * The unit tests of the wire formats

    The tests of src/core/parser, evaluated on the model with the models of the crates it
    depends on.  A test is a boolean, the conjunction of its assertions; a test that
    unwraps a failure or indexes past the end of a vector is false.  Each [.._pass] runs
    the tests of one source file. *)

From stdpp Require Import base list numbers option.
From S2P Require Import Prelude Nom VarInt RustString DnsName DnsHeader Question Sigin Certificate Endpoint Records Packet Signature.

#[local] Existing Instance NomModel.nom.
#[local] Existing Instance NomModel.buf_mut.
#[local] Existing Instance BitfieldModel.bitfield.
#[local] Existing Instance CertModel.certificates.
#[local] Existing Instance CryptoModel.crypto.
#[local] Existing Instance TextModel.parsers.

(** ** Assertions *)
Declare Scope test_scope.
#[local] Open Scope test_scope.

(** [assert_eq!], [unwrap] of a result and of an option, [matches!]. *)
Notation "x == y" := (bool_decide (x = y)) (at level 70, no associativity) : test_scope.
Notation "'unwrap' p := c1 'in' c2" :=
  (match c1 with Ok p => c2 | Err _ => false end)
  (at level 10, p pattern, c1 at level 200, c2 at level 200) : test_scope.
Notation "'expect' p := c1 'in' c2" :=
  (match c1 with Some p => c2 | None => false end)
  (at level 10, p pattern, c1 at level 200, c2 at level 200) : test_scope.
Definition is_err {T E} (r : Result T E) : bool := negb (is_ok r).
Definition is_incomplete {T} (r : IResult T) : bool :=
  match r with Err (Incomplete _) => true | _ => false end.
Definition is_error {T} (r : IResult T) : bool :=
  match r with Err (Error _ _) => true | _ => false end.
Definition is_failure {T} (r : IResult T) : bool :=
  match r with Err (Failure _ _) => true | _ => false end.
(** [catch_unwind]: every outcome of a parser but running out of the model's fuel. *)
Definition returns {T} (r : IResult T) : bool :=
  match r with Err OutOfFuel => false | _ => true end.
Definition tests_pass (l : list bool) : Prop := forallb (fun b => b) l = true.

(** [&v[i..]], [&v[..n]] and [slice.windows(n).position(..)]. *)
Definition from_index (i : nat) (l : bytes) : bytes := drop i l.
Definition up_to (n : nat) (l : bytes) : bytes := take n l.
Fixpoint position_of (w l : bytes) : option Z :=
  if bool_decide (take (length w) l = w) then Some 0
  else match l with [] => None | _ :: l => i ← position_of w l; Some (i + 1) end.

Definition ipv4 (a b c d : Z) : Z := of_be [a; b; c; d].

(** ** Domain names *)
Module NameTests.
Definition LCG (state : Z) : Z := as_u 64 (as_u 64 (state * 6364136223846793005) + 1).
Definition ALPHABET : bytes := str "abcdefghijklmnopqrstuvwxyz0123456789-".

Fixpoint gen_ascii_label_bytes (len : nat) (state : Z) : bytes * Z :=
  match len with
  | O => ([], state)
  | S len =>
      let state := LCG state in
      let idx := state mod blen ALPHABET in
      let '(out, state) := gen_ascii_label_bytes len state in
      (nth (Z.to_nat idx) ALPHABET 0 :: out, state)
  end.

Fixpoint gen_labels (label_count : nat) (state : Z) : bytes * Z :=
  match label_count with
  | O => ([], state)
  | S label_count =>
      let state := LCG state in
      let len := 1 + state mod 20 in
      let '(label, state) := gen_ascii_label_bytes (Z.to_nat len) state in
      let '(out, state) := gen_labels label_count state in
      (as_u 8 len :: label ++ out, state)
  end.

Definition gen_ascii_wire_name (state : Z) : bytes * Z :=
  let state := LCG state in
  let label_count := 1 + state mod 5 in
  let '(out, state) := gen_labels (Z.to_nat label_count) state in
  (out ++ [0], state).

Definition parse_example_name : bool :=
  let name := ([0x07] ++ str "example" ++ [0x03] ++ str "com" ++ [0x00]) in
  unwrap (remain, parsed_name) := be_name name name in
  (blen remain =? 0) && (parsed_name == str "example.com").

Definition parse_badpointer_same_offset : bool :=
  let same_offset := [192; 2; 192; 2] in
  is_err (be_name same_offset same_offset).

Definition parse_badpointer_loop_between_offsets : bool :=
  let buf := [0xC0; 0x02; 0xC0; 0x00] in
  is_err (be_name buf buf).

Definition parse_badpointer_out_of_bounds : bool :=
  let buf := [0xC0; 0x10; 0x00] in
  is_err (be_name buf buf).

Definition parse_label_too_long_is_error : bool :=
  let buf := [64] ++ replicate 64 97 ++ [0] in
  is_err (be_name buf buf).

Definition parse_pointer_to_root : bool :=
  let buf := ([0x00; 0xc0; 0x00]) in
  unwrap (remain, parsed) := be_name (from_index 1 buf) buf in
  (remain == []) && (parsed == str ".").

Definition pointer_terminates_name_and_does_not_consume_trailing_bytes : bool :=
  let buf := ([0x03] ++ str "com" ++ [0x00; 0x03] ++ str "www" ++ [0xc0; 0x00; 0x00]) in
  unwrap (remain, parsed) := be_name (from_index 5 buf) buf in
  (parsed == str "www.com") && (remain == [0]).

Definition parse_chained_compression_pointers : bool :=
  let buf := ([0x03] ++ str "com" ++ [0x00; 0xc0; 0x00; 0x03] ++ str "www" ++ [0xc0; 0x05]) in
  unwrap (remain, parsed) := be_name (from_index 7 buf) buf in
  (remain == []) && (parsed == str "www.com").

Definition nested_names : bool :=
  let buf := ([0x02] ++ str "xx" ++ [0x00; 0x02] ++ str "yy" ++ [0xc0; 0x00; 0x02] ++ str "zz" ++
              [0xc0; 0x04]) in
  unwrap (remaining, parsed) := be_name buf buf in
  (blen remaining =? 10) && (parsed == str "xx") &&
  unwrap (_, parsed) := be_name (from_index 4 buf) buf in
  (parsed == str "yy.xx") &&
  unwrap (_, parsed) := be_name (from_index 7 buf) buf in
  (parsed == str "xx") &&
  unwrap (_, parsed) := be_name (from_index 9 buf) buf in
  (parsed == str "zz.yy.xx").

Definition write_name_compressed_reuses_suffix_pointer : bool :=
  let ctx := NameCompression_new in
  let first := str "www.skype.com" in
  let second := str "mail.skype.com" in
  let '(buf, ctx, _) := put_name [] first ctx in
  let second_pos := blen buf in
  let '(buf, ctx, _) := put_name buf second ctx in
  (buf == ([0x03] ++ str "www" ++ [0x05] ++ str "skype" ++ [0x03] ++ str "com" ++ [0x00; 0x04] ++
           str "mail" ++ [0xc0; 0x04])) &&
  unwrap (remain, first_parsed) := be_name buf buf in
  (first_parsed == str "www.skype.com") && (blen remain =? blen buf - second_pos) &&
  unwrap (remain, second_parsed) := be_name (from_index (Z.to_nat second_pos) buf) buf in
  (remain == []) && (second_parsed == str "mail.skype.com").

Definition write_name_compressed_prefers_longer_suffix : bool :=
  let ctx := NameCompression_new in
  let first := str "a.b.c.com" in
  let second := str "x.c.com" in
  let '(buf, ctx, _) := put_name [] first ctx in
  let '(buf, ctx, _) := put_name buf second ctx in
  buf == ([0x01; 0x61; 0x01; 0x62; 0x01; 0x63; 0x03] ++ str "com" ++ [0x00; 0x01; 0x78; 0xc0; 0x04]).

Definition write_and_parse_roundtrip : bool :=
  let raw_name := str "HP Color LaserJet Pro M478f-9f [EC3C83]._http._tcp.local" in
  let ctx := NameCompression_new in
  let '(buf, _, _) := put_name [] raw_name ctx in
  unwrap (remaining, parsed) := be_name buf buf in
  (remaining == []) && (parsed == raw_name).

Fixpoint roundtrips (n : nat) (state : Z) : bool :=
  match n with
  | O => true
  | S n =>
      let '(wire, state) := gen_ascii_wire_name state in
      unwrap (_, name) := be_name wire wire in
      let ctx := NameCompression_new in
      let '(buf, _, _) := put_name [] name ctx in
      (buf == wire) && roundtrips n state
  end.

(** The code runs 1000 rounds; the number of rounds is an argument. *)
Definition random_ascii_name_roundtrip_without_compression_pointer (rounds : nat) : bool :=
  roundtrips rounds 0x123456789abcdef0.

Example name_tests_pass :
  tests_pass [parse_example_name; parse_badpointer_same_offset;
              parse_badpointer_loop_between_offsets; parse_badpointer_out_of_bounds;
              parse_label_too_long_is_error; parse_pointer_to_root;
              pointer_terminates_name_and_does_not_consume_trailing_bytes;
              parse_chained_compression_pointers; nested_names;
              write_name_compressed_reuses_suffix_pointer;
              write_name_compressed_prefers_longer_suffix; write_and_parse_roundtrip;
              random_ascii_name_roundtrip_without_compression_pointer 20].
Proof. vm_compute. reflexivity. Qed.
End NameTests.

(** ** Headers *)
Module HeaderTests.
Definition header_is (h : Header) (i qd an ns ar : Z) : bool :=
  (id h =? i) && (questions_count h =? qd) && (answers_count h =? an)
  && (nameservers_count h =? ns) && (additional_count h =? ar).

Definition parse_example_query : bool :=
  let query := ([0x06; 0x25; 0x01; 0x00; 0x00; 0x01; 0x00; 0x00; 0x00; 0x00; 0x00; 0x00; 0x07] ++
                str "example" ++ [0x03] ++ str "com" ++ [0x00; 0x00; 0x01; 0x00; 0x01]) in
  unwrap (remain, header) := be_header query in
  (blen remain =? blen query - 12) && header_is header 1573 1 0 0 0 &&
  let flags := set_opcode (set_response_code (set_recursion_desired Flags_new true)
                 ResponseCode.NoError) Opcode.StandardQuery in
  (Flags_into (DnsHeader.flags header) =? 0x0100) && (DnsHeader.flags header == flags).

Definition parse_example_response : bool :=
  let response := ([0x06; 0x25; 0x81; 0x80; 0x00; 0x01; 0x00; 0x01; 0x00; 0x00; 0x00; 0x00; 0x07] ++
                   str "example" ++ [0x03] ++ str "com" ++
                   [0x00; 0x00; 0x01; 0x00; 0x01; 0xc0; 0x0c; 0x00; 0x01; 0x00; 0x01; 0x00; 0x00; 0x04] ++
                   [0xf8; 0x00; 0x04; 0x5d; 0xb8; 0xd8; 0x22]) in
  unwrap (remain, header) := be_header response in
  (blen remain =? blen response - 12) && header_is header 1573 1 1 0 0 &&
  let flag := set_opcode (set_response_code (set_query (set_recursion_available
                (set_recursion_desired Flags_new true) true) true)
                ResponseCode.NoError) Opcode.StandardQuery in
  (Flags_into (DnsHeader.flags header) =? 0x8180) && (DnsHeader.flags header == flag).

Definition parse_query_with_ad_set : bool :=
  let query := ([0x06; 0x25; 0x01; 0x20; 0x00; 0x01; 0x00; 0x00; 0x00; 0x00; 0x00; 0x00; 0x07] ++
                str "example" ++ [0x03] ++ str "com" ++ [0x00; 0x00; 0x01; 0x00; 0x01]) in
  unwrap (remain, header) := be_header query in
  (blen remain =? blen query - 12) && header_is header 1573 1 0 0 0 &&
  let flags := set_opcode (set_response_code (set_authenticated_data
                 (set_recursion_desired Flags_new true) true)
                 ResponseCode.NoError) Opcode.StandardQuery in
  (Flags_into (DnsHeader.flags header) =? 0x0120) && (DnsHeader.flags header == flags).

Definition parse_query_with_cd_set : bool :=
  let query := ([0x06; 0x25; 0x01; 0x10; 0x00; 0x01; 0x00; 0x00; 0x00; 0x00; 0x00; 0x00; 0x07] ++
                str "example" ++ [0x03] ++ str "com" ++ [0x00; 0x00; 0x01; 0x00; 0x01]) in
  unwrap (remain, header) := be_header query in
  (blen remain =? blen query - 12) && header_is header 1573 1 0 0 0 &&
  let flags := set_opcode (set_response_code (set_checking_disabled
                 (set_recursion_desired Flags_new true) true)
                 ResponseCode.NoError) Opcode.StandardQuery in
  (Flags_into (DnsHeader.flags header) =? 0x0110) && (DnsHeader.flags header == flags).

Definition write_example_query : bool :=
  let header := mkHeader 1573 (Flags_from 0x0100) 1 0 0 0 in
  put_header [] header == ([0x06; 0x25; 0x01; 0x00; 0x00; 0x01; 0x00; 0x00; 0x00; 0x00; 0x00; 0x00]).

Definition write_example_response : bool :=
  let header := mkHeader 1573 (Flags_from 0x8180) 1 1 0 0 in
  put_header [] header == ([0x06; 0x25; 0x81; 0x80; 0x00; 0x01; 0x00; 0x01; 0x00; 0x00; 0x00; 0x00]).

Example header_tests_pass :
  tests_pass [parse_example_query; parse_example_response; parse_query_with_ad_set;
              parse_query_with_cd_set; write_example_query; write_example_response].
Proof. vm_compute. reflexivity. Qed.
End HeaderTests.

(** ** Variable-length integers *)
Module VarIntTests.
Definition roundtrip (v : Z) : bool :=
  unwrap v := from_u64 v in
  expect buf := put_varint [] v in
  expect size := encoding_size v in
  (blen buf =? size) &&
  unwrap (remain, decoded) := be_varint buf in
  (remain == []) && (decoded == v).

Definition quic_varint_roundtrip : bool :=
  forallb roundtrip
    [0; 1; 63; 64; 16383; 16384; Z.shiftl 1 30 - 1; Z.shiftl 1 30; Z.shiftl 1 62 - 1].

Definition quic_varint_rejects_incomplete : bool :=
  unwrap v := from_u64 64 in
  expect buf := put_varint [] v in
  is_incomplete (be_varint (up_to 1 buf)).

Definition quic_varint_overflow : bool := is_err (from_u64 (VARINT_MAX + 1)).

Example varint_tests_pass :
  tests_pass [quic_varint_roundtrip; quic_varint_rejects_incomplete; quic_varint_overflow].
Proof. vm_compute. reflexivity. Qed.
End VarIntTests.

(** ** Records *)
Module RecordTests.
Definition record_prefix_for_a (name : bytes) (rdlen : Z) : bytes :=
  name ++ to_be 2 1 ++ to_be 2 1 ++ to_be 4 0 ++ to_be 2 rdlen.

Definition parse_record_incomplete_rdata_returns_incomplete : bool :=
  let name := ([0x07] ++ str "example" ++ [0x03] ++ str "com" ++ [0x00]) in
  let buf := record_prefix_for_a name 4 ++ [127; 0; 0] in
  is_incomplete (be_record buf buf).

Definition parse_record_extra_rdata_bytes_is_error : bool :=
  let name := ([0x07] ++ str "example" ++ [0x03] ++ str "com" ++ [0x00]) in
  let buf := record_prefix_for_a name 5 ++ [127; 0; 0; 1; 9] in
  is_error (be_record buf buf).

Definition srv_answer_is (r : ResourceRecord) (item : Z * Z * Z * bytes) : bool :=
  let '(p, w, po, t) := item in
  (rr_name r == str "_xmpp-server._tcp.gmail.com") && (rr_cls r == RClass.IN)
  && (rr_ttl r =? 900) &&
  match rr_data r with
  | RData.Srv s =>
      (priority s =? p) && (weight s =? w) && (port s =? po) && (target s == t)
  | _ => false
  end.

(** The items are compared with the first answers of the packet, as in the code. *)
Fixpoint srv_answers_are (rs : list ResourceRecord) (items : list (Z * Z * Z * bytes)) : bool :=
  match items, rs with
  | [], _ => true
  | item :: items, r :: rs => srv_answer_is r item && srv_answers_are rs items
  | _, [] => false
  end.

Definition parse_response : bool :=
  let response := ([0x5b; 0xd9; 0x81; 0x80; 0x00; 0x01; 0x00; 0x05; 0x00; 0x00; 0x00; 0x00; 0x0c] ++
                   str "_xmpp-server" ++ [0x04] ++ str "_tcp" ++ [0x05] ++ str "gmail" ++ [0x03] ++
                   str "com" ++
                   [0x00; 0x00; 0x21; 0x00; 0x01; 0xc0; 0x0c; 0x00; 0x21; 0x00; 0x01; 0x00; 0x00; 0x03] ++
                   [0x84; 0x00; 0x20; 0x00; 0x05; 0x00; 0x00; 0x14; 0x95; 0x0b] ++
                   str "xmpp-server" ++ [0x01; 0x6c; 0x06] ++ str "google" ++ [0x03] ++
                   str "com" ++
                   [0x00; 0xc0; 0x0c; 0x00; 0x21; 0x00; 0x01; 0x00; 0x00; 0x03; 0x84; 0x00; 0x25; 0x00] ++
                   [0x14; 0x00; 0x00; 0x14; 0x95; 0x04] ++ str "alt3" ++ [0x0b] ++
                   str "xmpp-server" ++ [0x01; 0x6c; 0x06] ++ str "google" ++ [0x03] ++
                   str "com" ++
                   [0x00; 0xc0; 0x0c; 0x00; 0x21; 0x00; 0x01; 0x00; 0x00; 0x03; 0x84; 0x00; 0x25; 0x00] ++
                   [0x14; 0x00; 0x00; 0x14; 0x95; 0x04] ++ str "alt1" ++ [0x0b] ++
                   str "xmpp-server" ++ [0x01; 0x6c; 0x06] ++ str "google" ++ [0x03] ++
                   str "com" ++
                   [0x00; 0xc0; 0x0c; 0x00; 0x21; 0x00; 0x01; 0x00; 0x00; 0x03; 0x84; 0x00; 0x25; 0x00] ++
                   [0x14; 0x00; 0x00; 0x14; 0x95; 0x04] ++ str "alt2" ++ [0x0b] ++
                   str "xmpp-server" ++ [0x01; 0x6c; 0x06] ++ str "google" ++ [0x03] ++
                   str "com" ++
                   [0x00; 0xc0; 0x0c; 0x00; 0x21; 0x00; 0x01; 0x00; 0x00; 0x03; 0x84; 0x00; 0x25; 0x00] ++
                   [0x14; 0x00; 0x00; 0x14; 0x95; 0x04] ++ str "alt4" ++ [0x0b] ++
                   str "xmpp-server" ++ [0x01; 0x6c; 0x06] ++ str "google" ++ [0x03] ++
                   str "com" ++ [0x00]) in
  unwrap (_, packet) := be_packet response in
  (id (header packet) =? 23513) && (questions_count (header packet) =? 1)
  && recursion_desired (DnsHeader.flags (header packet)) && (answers_count (header packet) =? 5)
  && (blen (questions packet) =? 1) &&
  expect q := head (questions packet) in
  (q_qtype q == QueryType.Srv) && (q_qclass q == QueryClass.IN)
  && (q_name q == str "_xmpp-server._tcp.gmail.com") && (blen (answers packet) =? 5) &&
  srv_answers_are (answers packet)
    [(5, 0, 5269, str "xmpp-server.l.google.com");
     (20, 0, 5269, str "alt3.xmpp-server.l.google.com");
     (20, 0, 5269, str "alt1.xmpp-server.l.google.com");
     (20, 0, 5269, str "alt2.xmpp-server.l.google.com");
     (20, 0, 5269, str "alt4.xmpp-server.l.google.com")].

Example record_tests_pass :
  tests_pass [parse_record_incomplete_rdata_returns_incomplete;
              parse_record_extra_rdata_bytes_is_error; parse_response].
Proof. vm_compute. reflexivity. Qed.
End RecordTests.

(** ** Messages *)
Module PacketTests.
Definition hex_value (b : Z) : option Z :=
  if (48 <=? b) && (b <=? 57) then Some (b - 48)
  else if (97 <=? b) && (b <=? 102) then Some (b - 97 + 10)
  else if (65 <=? b) && (b <=? 70) then Some (b - 65 + 10)
  else None.
Definition is_space (b : Z) : bool := existsb (Z.eqb b) [32; 10; 13; 9].

(** [high] is the digit waiting for its second half. *)
Fixpoint decode_hex (high : option Z) (s : bytes) : may_panic bytes :=
  match s with
  | [] => match high with None => Some [] | Some _ => None end
  | b :: s =>
      if is_space b then decode_hex high s
      else
        v ← hex_value b;
        match high with
        | None => decode_hex (Some (as_u 8 (Z.shiftl v 4))) s
        | Some n => out ← decode_hex None s; Some (Z.lor n v :: out)
        end
  end.

Definition question_is (p : Packet) (t : QueryType.t) (c : QueryClass.t) (n : bytes) : bool :=
  expect q := head (questions p) in
  (q_qtype q == t) && (q_qclass q == c) && (q_name q == n).

Definition parse_example_query : bool :=
  let query := ([0x06; 0x25; 0x01; 0x00; 0x00; 0x01; 0x00; 0x00; 0x00; 0x00; 0x00; 0x00; 0x07] ++
                str "example" ++ [0x03] ++ str "com" ++ [0x00; 0x00; 0x01; 0x00; 0x01]) in
  unwrap (_, packet) := be_packet query in
  (id (header packet) =? 1573) && (questions_count (header packet) =? 1)
  && question_is packet QueryType.A QueryClass.IN (str "example.com")
  && (answers_count (header packet) =? 0).

Definition parse_example_response : bool :=
  let response := ([0x06; 0x25; 0x81; 0x80; 0x00; 0x01; 0x00; 0x01; 0x00; 0x00; 0x00; 0x00; 0x07] ++
                   str "example" ++ [0x03] ++ str "com" ++
                   [0x00; 0x00; 0x01; 0x00; 0x01; 0xc0; 0x0c; 0x00; 0x01; 0x00; 0x01; 0x00; 0x00; 0x04] ++
                   [0xf8; 0x00; 0x04; 0x5d; 0xb8; 0xd8; 0x22]) in
  unwrap (_, packet) := be_packet response in
  (id (header packet) =? 1573) && (questions_count (header packet) =? 1)
  && question_is packet QueryType.A QueryClass.IN (str "example.com")
  && (answers_count (header packet) =? 1) &&
  expect a := head (answers packet) in
  (rr_name a == str "example.com") && (rr_typ a == RType.A) && (rr_cls a == RClass.IN)
  && (rr_ttl a =? 1272) &&
  match rr_data a with RData.A addr => addr =? ipv4 93 184 216 34 | _ => false end.

Definition parse_response_with_multicast_unique : bool :=
  let response := ([0x06; 0x25; 0x81; 0x80; 0x00; 0x01; 0x00; 0x01; 0x00; 0x00; 0x00; 0x00; 0x07] ++
                   str "example" ++ [0x03] ++ str "com" ++
                   [0x00; 0x00; 0x01; 0x00; 0x01; 0xc0; 0x0c; 0x00; 0x01; 0x80; 0x01; 0x00; 0x00; 0x04] ++
                   [0xf8; 0x00; 0x04; 0x5d; 0xb8; 0xd8; 0x22]) in
  unwrap (_, packet) := be_packet response in
  (blen (answers packet) =? 1) &&
  expect a := head (answers packet) in
  rr_multicast_unique a && (rr_cls a == RClass.IN).

Definition parse_additional_record_response : bool :=
  let response := ([0x4a; 0xf0; 0x81; 0x80; 0x00; 0x01; 0x00; 0x01; 0x00; 0x01; 0x00; 0x01; 0x03] ++
                   str "www" ++ [0x05] ++ str "skype" ++ [0x03] ++ str "com" ++
                   [0x00; 0x00; 0x01; 0x00; 0x01; 0xc0; 0x0c; 0x00; 0x05; 0x00; 0x01; 0x00; 0x00; 0x0e] ++
                   [0x10; 0x00; 0x1c; 0x07] ++ str "livecms" ++ [0x0e] ++ str "trafficmanager" ++
                   [0x03] ++ str "net" ++
                   [0x00; 0xc0; 0x42; 0x00; 0x02; 0x00; 0x01; 0x00; 0x01; 0xd5; 0xd3; 0x00; 0x11; 0x01] ++
                   [0x67; 0x0c] ++ str "gtld-servers" ++
                   [0xc0; 0x42; 0x01; 0x61; 0xc0; 0x55; 0x00; 0x01; 0x00; 0x01; 0x00; 0x00; 0xa3; 0x1c] ++
                   [0x00; 0x04; 0xc0; 0x05; 0x06; 0x1e]) in
  unwrap (_, packet) := be_packet response in
  (id (header packet) =? 19184) && (questions_count (header packet) =? 1)
  && question_is packet QueryType.A QueryClass.IN (str "www.skype.com")
  && (blen (answers packet) =? 1) &&
  expect a := head (answers packet) in
  (rr_name a == str "www.skype.com") && (rr_cls a == RClass.IN) && (rr_ttl a =? 3600)
  && match rr_data a with
     | RData.CName cname => cname == str "livecms.trafficmanager.net"
     | _ => false
     end
  && (blen (additional packet) =? 1) &&
  expect a := head (additional packet) in
  (rr_name a == str "a.gtld-servers.net") && (rr_cls a == RClass.IN) && (rr_ttl a =? 41756)
  && match rr_data a with RData.A addr => addr =? ipv4 192 5 6 30 | _ => false end.

Definition add_address (response : Packet) (ip : IpAddr) : Packet :=
  let '(rtype, rdata) :=
    match ip with
    | IpV4 ipv4_addr => (RType.A, RData.A ipv4_addr)
    | IpV6 ipv6_addr => (RType.AAAA, RData.AAAA ipv6_addr)
    end in
  add_answer response (str "example.com") rtype RClass.IN 300 rdata.

Definition parse_pack_packet : bool :=
  let address :=
    [IpV4 (ipv4 192 168 1 1); IpV6 0x20010db885a3000000008a2e03707334] in
  let response := fold_left add_address address Packet_default in
  let srv := mkSrv 0 0 6000 (str "example.com") in
  let response :=
    add_answer response (str "example.com") RType.Srv RClass.IN 300 (RData.Srv srv) in
  expect packet := to_bytes response in
  unwrap (_, parsed_packet) := be_packet packet in
  (id (header parsed_packet) =? id (header response))
  && (questions_count (header parsed_packet) =? questions_count (header response))
  && (blen (answers parsed_packet) =? blen (answers response))
  && (blen (nameservers parsed_packet) =? blen (nameservers response))
  && (blen (additional parsed_packet) =? blen (additional response)) &&
  expect a := head (answers parsed_packet) in
  expect b := head (answers response) in
  rr_name a == rr_name b.

Definition malformed_packet_does_not_panic : bool :=
  let packet_hex := str "0021641c0000000100000000000078787878787878787878787303636f6d0000100001" in
  expect data := decode_hex None packet_hex in
  returns (be_packet data).

Definition impossible_section_counts_are_rejected_before_parsing : bool :=
  let packet := [0; 0; 0; 0; 0xff; 0xff; 0; 0; 0; 0; 0; 0] in
  is_failure (be_packet packet).

Definition aggregate_resource_record_counts_use_the_input_bound : bool :=
  let packet := [0; 0; 0; 0; 0; 0; 0; 1; 0; 1; 0; 1] in
  is_failure (be_packet packet).

Definition packet_with_unknown_rr_type_does_not_panic : bool :=
  let packet_hex := str "8116840000010001000000000569627a6c700474657374046d69656b026e6c00000a0001c00c000a0001000000000005497f000001" in
  expect data := decode_hex None packet_hex in
  returns (be_packet data) &&
  unwrap (_, packet) := be_packet data in
  (questions_count (header packet) =? 1) && (answers_count (header packet) =? 1)
  && match answers packet with [] => true | _ => false end.

Definition packet_to_bytes_uses_name_compression_across_sections : bool :=
  let packet := Packet_default in
  let packet := add_question packet (str "www.skype.com") QueryType.A QueryClass.IN false in
  let packet := add_answer packet (str "mail.skype.com") RType.A RClass.IN 1
                  (RData.A (ipv4 1 2 3 4)) in
  expect bytes := to_bytes packet in
  expect mail_pos := position_of ([0x04] ++ str "mail") bytes in
  expect skype_pos := position_of ([0x05] ++ str "skype") bytes in
  let ptr := to_be 2 (Z.lor 0xC000 (as_u 16 skype_pos)) in
  up_to 2 (from_index (Z.to_nat (mail_pos + 5)) bytes) == ptr.

Example packet_tests_pass :
  tests_pass [parse_example_query; parse_example_response;
              parse_response_with_multicast_unique; parse_additional_record_response;
              parse_pack_packet; malformed_packet_does_not_panic;
              impossible_section_counts_are_rejected_before_parsing;
              aggregate_resource_record_counts_use_the_input_bound;
              packet_with_unknown_rr_type_does_not_panic;
              packet_to_bytes_uses_name_compression_across_sections].
Proof. vm_compute. reflexivity. Qed.
End PacketTests.

(** ** Endpoint addresses

    The tests that sign take an Ed25519 authority of the model of the crypto crates; a load
    is given by the bits of its [f32]. *)
Module EndpointTests.
Definition v4_outer : SocketAddrV4 := mkSocketAddrV4 (ipv4 203 0 113 10) 4433.
Definition LOCALHOST_V4 : Z := ipv4 127 0 0 1.

(** [CertificateSequence::try_from(n).unwrap()] *)
Definition with_seq (n : Z) (k : CertificateSequence -> bool) : bool :=
  expect s := seq_try_from n in k s.

Definition endpoint_certificate_chain_key_normalizes_missing_sequence : bool :=
  let endpoint := direct_v4 v4_outer in
  let endpoint := set_main endpoint true in
  expect key := certificate_chain_key endpoint in
  (kind_flag (chain_usage key) == str "0") && (seq_get (chain_sequence key) =? 0).

Definition endpoint_certificate_chain_key_uses_present_sequence : bool :=
  let endpoint := direct_v4 v4_outer in
  let endpoint := set_main endpoint false in
  with_seq 7 (fun s =>
  let endpoint := set_sequence endpoint s in
  expect key := certificate_chain_key endpoint in
  (kind_flag (chain_usage key) == str "1") && (seq_get (chain_sequence key) =? 7)).

(** [max] is [CertificateSequence::MAX], [2 ^ 32 - 1] in the model of the crate. *)
Definition endpoint_parser_rejects_over_range_certificate_sequence (max : Z) : bool :=
  unwrap sequence := from_u64 (max + 1) in
  let packet := put_u8 [] (Z.lor FLAG_MAIN FLAG_CLUSTERED) in
  expect packet := put_varint packet sequence in
  let packet := put_u16 packet (v4_port v4_outer) in
  let packet := packet ++ to_be 4 (v4_ip v4_outer) in
  is_err (be_endpoint_addr packet).

Definition legacy_endpoint_v4_direct_without_meta : bool :=
  let port := 5353 in
  let ip := ipv4 10 0 0 1 in
  let buf := to_be 2 port ++ to_be 4 ip in
  unwrap (remain, decoded) := be_endpoint_addr_compat buf 6 in
  (remain == []) && endpoint_eq decoded (direct_v4 (mkSocketAddrV4 ip port)).

Definition legacy_endpoint_v4_nat_without_meta : bool :=
  let outer := mkSocketAddrV4 (ipv4 10 0 0 1) 1000 in
  let agent := mkSocketAddrV4 (ipv4 10 0 0 2) 2000 in
  let buf := to_be 2 (v4_port outer) ++ to_be 4 (v4_ip outer)
             ++ to_be 2 (v4_port agent) ++ to_be 4 (v4_ip agent) in
  unwrap (remain, decoded) := be_endpoint_addr_compat buf 12 in
  (remain == []) && endpoint_eq decoded (nat_v4 outer agent).

Definition flag_bit_ops_work : bool :=
  let addr := mkSocketAddrV4 LOCALHOST_V4 5353 in
  let ep := mkEndpointAddr 0x30 None None None (V4 addr) None in
  negb (is_main ep) && negb (is_signed ep) &&
  let ep := set_main ep true in
  is_main ep && (flags ep =? 0x70) &&
  let ep := set_signed ep true in
  is_signed ep && (flags ep =? 0x71) &&
  let ep := set_main ep false in
  negb (is_main ep) && is_signed ep && (flags ep =? 0x31) &&
  let ep := set_signed ep false in
  negb (is_signed ep) && (flags ep =? 0x30).

Definition varint_roundtrip_and_len : bool :=
  let roundtrip v :=
    unwrap v := from_u64 v in
    expect buf := put_varint [] v in
    expect size := encoding_size v in
    (blen buf =? size) &&
    unwrap (remain, decoded) := be_varint buf in
    (remain == []) && (decoded == v) in
  forallb roundtrip
    [0; 1; 63; 64; 16383; 16384; Z.shiftl 1 30 - 1; Z.shiftl 1 30; Z.shiftl 1 62 - 1].

Definition varint_rejects_overflow_and_incomplete : bool :=
  is_err (from_u64 (Z.shiftl 1 62 + 1)) && is_incomplete (be_varint [0x40]).

Definition encodes (ep : EndpointAddr) : bool :=
  expect buf := put_endpoint_addr [] ep in
  expect size := encpding_size ep in
  (blen buf =? size) &&
  unwrap (remain, decoded) := be_endpoint_addr buf in
  (remain == []) && endpoint_eq decoded ep.

Definition endpoint_encode_decode_roundtrip : bool :=
  let v4_outer := mkSocketAddrV4 (ipv4 10 0 0 1) 1000 in
  let v4_agent := mkSocketAddrV4 (ipv4 10 0 0 2) 2000 in
  let v6_outer := mkSocketAddrV6 1 3000 0 0 in
  let v6_agent := mkSocketAddrV6 1 4000 0 0 in
  let with_load := set_load (direct_v4 v4_outer) (Some 0x3ed70a3d) in
  with_seq 127 (fun s127 => with_seq 128 (fun s128 => with_seq 16384 (fun s16384 =>
  forallb encodes
    [mkEndpointAddr (Z.lor FLAG_MAIN FLAG_CLUSTERED) (Some (seq_from_u8 0)) None None
       (V4 v4_outer) None;
     mkEndpointAddr (Z.lor FLAG_NAT FLAG_CLUSTERED) (Some s127) None None
       (V4 v4_outer) (Some (V4 v4_agent));
     mkEndpointAddr (Z.lor (Z.lor FLAG_FAMILY FLAG_MAIN) FLAG_CLUSTERED) (Some s128) None None
       (V6 v6_outer) None;
     mkEndpointAddr (Z.lor (Z.lor FLAG_FAMILY FLAG_NAT) FLAG_CLUSTERED) (Some s16384) None None
       (V6 v6_outer) (Some (V6 v6_agent));
     with_load]))).

Definition decodes_compat (endpoint : EndpointAddr) : bool :=
  expect buf := put_endpoint_addr [] endpoint in
  existsb (Z.eqb (blen buf)) [12; 18] &&
  unwrap (remaining, decoded) := be_endpoint_addr_compat buf (blen buf) in
  (remaining == []) && endpoint_eq decoded endpoint.

Definition compat_parser_does_not_misclassify_modern_lengths_as_legacy : bool :=
  with_seq 10 (fun s10 =>
  let direct := direct_v4 (mkSocketAddrV4 (ipv4 203 0 113 10) 4433) in
  let direct := set_main direct true in
  let direct := set_sequence direct s10 in
  let direct := set_load direct (Some 0x3f800000) in
  let nat := nat_v4 (mkSocketAddrV4 (ipv4 198 51 100 10) 4433)
               (mkSocketAddrV4 (ipv4 192 0 2 10) 4433) in
  let nat := set_main nat true in
  let nat := set_sequence nat (seq_from_u8 1) in
  let nat := set_load nat (Some 0x40000000) in
  forallb decodes_compat [direct; nat]).

Definition endpoint_signature_roundtrip_and_verify (key : LocalAuthority) : bool :=
  let spki := authority_public_key key in
  let addr := mkSocketAddrV4 (ipv4 10 0 0 1) 5353 in
  let ep := set_main (direct_v4 addr) true in
  expect (ep, result) := sign_with_authority ep key in
  is_ok result &&
  expect buf := put_endpoint_addr [] ep in
  expect size := encpding_size ep in
  (blen buf =? size) &&
  unwrap (remain, decoded) := be_endpoint_addr buf in
  (remain == []) && is_signed decoded && is_some (signature decoded) &&
  expect verified := verify_signature decoded spki in
  unwrap verified := verified in
  verified &&
  let tampered := set_main decoded false in
  expect verified := verify_signature tampered spki in
  unwrap verified := verified in
  negb verified.

Definition sign_with_authority_uses_canonical_scheme_from_public_key (authority : LocalAuthority)
  : bool :=
  let ep := direct_v4 (mkSocketAddrV4 LOCALHOST_V4 5353) in
  expect (ep, result) := sign_with_authority ep authority in
  is_ok result &&
  expect sig := signature ep in
  (scheme_from_u16 (scheme sig) == ED25519) &&
  expect verified := verify_signature ep (authority_public_key authority) in
  unwrap verified := verified in
  verified.

Definition optional_fields_flags_follow_values : bool :=
  let addr := mkSocketAddrV4 LOCALHOST_V4 5353 in
  let ep := direct_v4 addr in
  negb (is_load ep) &&
  let ep := set_load ep (Some 0x3f000000) in
  is_load ep && (load ep == Some 0x3f000000) &&
  let ep := set_load ep None in
  negb (is_load ep) && (load ep == None).

Example endpoint_tests_pass :
  tests_pass [endpoint_certificate_chain_key_normalizes_missing_sequence;
              endpoint_certificate_chain_key_uses_present_sequence;
              endpoint_parser_rejects_over_range_certificate_sequence (2 ^ 32 - 1);
              legacy_endpoint_v4_direct_without_meta; legacy_endpoint_v4_nat_without_meta;
              flag_bit_ops_work; varint_roundtrip_and_len;
              varint_rejects_overflow_and_incomplete; endpoint_encode_decode_roundtrip;
              compat_parser_does_not_misclassify_modern_lengths_as_legacy;
              endpoint_signature_roundtrip_and_verify sample_authority;
              sign_with_authority_uses_canonical_scheme_from_public_key sample_authority;
              optional_fields_flags_follow_values].
Proof. vm_compute. reflexivity. Qed.
End EndpointTests.
