(* ===== verification/TestsResolve.v ===== *)
(** * The unit tests of the resolvers and publishers

    The tests outside src/core/parser and those of its signatures, evaluated on the model
    like the tests of the wire formats.  The certificates, keys, URLs and header maps are
    those of the models of the crates. *)

From stdpp Require Import base list numbers option gmap.
From S2P Require Import Prelude Nom RustString DnsHeader Sigin Certificate Endpoint Records Packet Signature Wire Candidates Publish Lookup H3Client HttpClient MdnsService ErrorReport Aggregates MdnsLookup MdnsSet ResolverConfig Streams Resolve TestsWire.

#[local] Existing Instance NomModel.nom.
#[local] Existing Instance NomModel.buf_mut.
#[local] Existing Instance BitfieldModel.bitfield.
#[local] Existing Instance CertModel.certificates.
#[local] Existing Instance CryptoModel.crypto.
#[local] Existing Instance TextModel.parsers.
#[local] Existing Instance TextModel.digest.
#[local] Existing Instance HeaderModel.headers.

#[local] Open Scope test_scope.

(** Addresses of the tests: [IP:4433] of the documentation networks. *)
Definition socket_v4 (a b c d p : Z) : SocketAddrV4 := mkSocketAddrV4 (ipv4 a b c d) p.
Definition DOC_V6 : Z := Z.shiftl 0x20010db8 96.
Definition direct_to (a : SocketAddrV4) : Dquic.EndpointAddr := Dquic.Direct (V4 a).
Definition dquic_addr (e : Dquic.EndpointAddr) : SocketAddr :=
  match e with Dquic.Direct a => a | Dquic.Mediate _ a => a end.

(** An endpoint record with its certificate sequence, [None] when it is out of range. *)
Definition sequenced (e : EndpointAddr) (main : bool) (n : Z) : option EndpointAddr :=
  s ← seq_try_from n; Some (set_sequence (set_main e main) s).

(** ** Certificate chains *)
Module CertificateTests.
Definition chain_keys_preserve_primary_secondary_wire_flags : bool :=
  let sequence := seq_from_u8 7 in
  expect primary := primary_chain_key sequence in
  expect secondary := secondary_chain_key sequence in
  (kind_flag (chain_usage primary) == str "0") && (kind_flag (chain_usage secondary) == str "1")
  && is_primary_chain_key primary && negb (is_primary_chain_key secondary).

Example certificate_tests_pass : tests_pass [chain_keys_preserve_primary_secondary_wire_flags].
Proof. vm_compute. reflexivity. Qed.
End CertificateTests.

(** ** Signatures *)
Module SignatureTests.
(** A key of each algorithm with its public key information. *)
Definition signing_key (algorithm : SignatureAlgorithm) (s : SignatureScheme) (pk : bytes) : SigningKey :=
  mkSigningKey algorithm (fun schemes =>
    if bool_decide (s ∈ schemes) then Some (fun data => Some (pk ++ data)) else None).

Definition key_signs (key : SigningKey * bytes) : bool :=
  let '(signing_key, spki) := key in
  expect scheme := canonical_scheme_for_spki spki in
  unwrap signature := sign_with_key signing_key (str "dns packet") in
  unwrap good := verify spki scheme (str "dns packet") signature in
  unwrap bad := verify spki scheme (str "changed") signature in
  good && negb bad.

Definition signing_keys_use_the_canonical_scheme_for_their_public_key : bool :=
  forallb key_signs
    [(signing_key ED25519_ALG ED25519 [9; 9], [1; 9; 9]);
     (signing_key ECDSA ECDSA_NISTP256_SHA256 [8; 8], [3; 8; 8]);
     (signing_key ECDSA ECDSA_NISTP384_SHA384 [7; 7], [4; 7; 7])].

Definition is_digest_mismatch {T} (r : Result T SignatureFieldsError) : bool :=
  match r with Err DigestMismatch => true | _ => false end.

Definition content_digest_uses_sha256_dictionary_value : bool :=
  let value := content_digest_value (str "dns") in
  starts_with (str "sha-256=:") value && ends_with (str ":") value &&
  unwrap _ := verify_content_digest value (str "dns") in
  is_digest_mismatch (verify_content_digest value (str "changed")).

Definition signature_input_requires_alg_and_keyid : bool :=
  let input := str "dns=(" ++ quoted_content_digest ++ str ");created=1;keyid=" ++ quote
               ++ str "sha256:abc" ++ quote ++ str ";alg=" ++ quote ++ str "ed25519" ++ quote in
  unwrap parsed := parse_signature_input input in
  (parsed_keyid parsed == str "sha256:abc") && (parsed_alg parsed == str "ed25519")
  && is_err (parse_signature_input (str "dns=(" ++ quoted_content_digest ++ str ");created=1"))
  && is_err (parse_signature_input (str "dns=(" ++ quote ++ str "date" ++ quote
               ++ str ");created=1;alg=" ++ quote ++ str "ed25519" ++ quote)).

Definition alg_names_are_explicitly_mapped : bool :=
  (scheme_for_alg_name (str "ed25519") == Some ED25519)
  && (alg_name_for_scheme ECDSA_NISTP256_SHA256 == Some (str "ecdsa-p256-sha256"))
  && (scheme_for_alg_name (str "unknown") == None).

Example signature_tests_pass :
  tests_pass [signing_keys_use_the_canonical_scheme_for_their_public_key;
              content_digest_uses_sha256_dictionary_value;
              signature_input_requires_alg_and_keyid; alg_names_are_explicitly_mapped].
Proof. vm_compute. reflexivity. Qed.
End SignatureTests.

(** ** Multi-record responses *)
Module WireTests.
Definition multi_response_roundtrips : bool :=
  let response := MultiResponse_new
    [ResponseRecord_new
       (mkSignatureFields (str "sha-256=:abc:")
          (str "dns=(" ++ quoted_content_digest ++ str ");created=1;keyid=" ++ quote
           ++ str "sha256:abc" ++ quote ++ str ";alg=" ++ quote ++ str "ed25519" ++ quote)
          (str "dns=:sig:"))
       [1; 2; 3] [4; 5];
     ResponseRecord_unsigned [6; 7; 8; 9] []] in
  let encoded := encode response in
  unwrap (remain, decoded) := be_multi_response encoded in
  (remain == []) && (Wire.records decoded == Wire.records response).

Definition encode_records_matches_multi_response_encoding_for_owned_records : bool :=
  let records :=
    [ResponseRecord_unsigned [1; 2; 3] [4; 5];
     ResponseRecord_new
       (mkSignatureFields (str "sha-256=:abc:") (str "dns=(" ++ quoted_content_digest ++ str ")")
          (str "dns=:sig:"))
       [6; 7] []] in
  let response := MultiResponse_new records in
  encode_records records == Some (encode response).

Definition encode_records_matches_multi_response_encoding_for_borrowed_records : bool :=
  let response := MultiResponse_new
    [ResponseRecord_unsigned [1; 2; 3] [4; 5]; ResponseRecord_unsigned [6; 7] []] in
  encode_records (Wire.records response) == Some (encode response).

Example wire_tests_pass :
  tests_pass [multi_response_roundtrips;
              encode_records_matches_multi_response_encoding_for_owned_records;
              encode_records_matches_multi_response_encoding_for_borrowed_records].
Proof. vm_compute. reflexivity. Qed.
End WireTests.

(** ** Candidates *)
Module CandidateTests.
Definition Default_lookup : EndpointLookup := mkEndpointLookup DefaultSequences None None.

Definition endpoint_lookup_constructors_encode_valid_states : bool :=
  let one := 1 in
  let exact := seq_from_u8 2 in
  (sequences Default_lookup == DefaultSequences) && (sequences (lookup_exact exact) == Exact exact)
  && (sequences (lookup_limit one) == Limit one) && (sequences lookup_all == All)
  && (record_limit (with_record_limit lookup_all one) == Some one)
  && (family (with_family Default_lookup (Some FamilyV6)) == Some FamilyV6).

Definition direct (a : SocketAddrV4) (main : bool) (n : Z) : option EndpointAddr :=
  sequenced (direct_v4 a) main n.
Definition direct6 (a : SocketAddrV6) (main : bool) (n : Z) : option EndpointAddr :=
  sequenced (direct_v6 a) main n.

Definition primary_group (g : CertificateChainKey * list (bytes * Dquic.EndpointAddr)) (n : Z) : bool :=
  (kind_flag (chain_usage g.1) == str "0") && (seq_get (chain_sequence g.1) =? n).
Definition first_tag (g : CertificateChainKey * list (bytes * Dquic.EndpointAddr)) : option bytes :=
  head (map fst g.2).

Definition family_filter_removes_mismatched_endpoints_and_empty_groups : bool :=
  expect a := direct (socket_v4 192 0 2 10 4433) true 1 in
  expect b := direct6 (mkSocketAddrV6 (DOC_V6 + 0x10) 4433 0 0) true 1 in
  expect c := direct6 (mkSocketAddrV6 (DOC_V6 + 0x20) 4433 0 0) true 2 in
  expect gs := grouped_endpoint_candidates
    [mkTagged (str "v4") a None; mkTagged (str "v6") b None;
     mkTagged (str "v6-only-group") c None] in
  match filter_endpoint_candidate_groups dquic_addr gs (Some FamilyV4) with
  | [g] => (seq_get (chain_sequence g.1) =? 1) && (blen g.2 =? 1) && (first_tag g == Some (str "v4"))
  | _ => false
  end.

Definition grouping_preserves_input_order_between_primary_sequences : bool :=
  expect a := direct (socket_v4 192 0 2 10 4433) true 2 in
  expect b := direct (socket_v4 192 0 2 20 4433) true 1 in
  expect c := direct (socket_v4 192 0 2 11 4433) true 2 in
  expect gs := grouped_endpoint_candidates
    [mkTagged (str "wifi") a None; mkTagged (str "ethernet") b None;
     mkTagged (str "wifi-backup") c None] in
  match gs with
  | [g; g'] =>
      primary_group g 2 && (blen g.2 =? 2) && primary_group g' 1 && (blen g'.2 =? 1)
  | _ => false
  end.

Definition grouping_ignores_secondary_records : bool :=
  expect a := direct (socket_v4 192 0 2 20 4433) false 1 in
  expect b := direct (socket_v4 192 0 2 10 4433) true 2 in
  expect gs := grouped_endpoint_candidates
    [mkTagged (str "secondary") a None; mkTagged (str "primary") b None] in
  match gs with
  | [g] => primary_group g 2 && (first_tag g == Some (str "primary"))
  | _ => false
  end.

Definition sequence_query_selects_ordered_group_pairs : bool :=
  expect two := primary_chain_key (seq_from_u8 2) in
  expect one := primary_chain_key (seq_from_u8 1) in
  expect three := primary_chain_key (seq_from_u8 3) in
  let pairs := [(two, str "two"); (one, str "one"); (three, str "three")] in
  (select_group_pairs pairs (Exact (seq_from_u8 1)) == [(one, str "one")])
  && (map snd (select_group_pairs pairs (Limit 2)) == [str "two"; str "one"]).

Definition grouping_uses_fallback_chain_key_for_unmarked_endpoint : bool :=
  let endpoint := direct_v4 (socket_v4 192 0 2 60 4433) in
  expect fallback := primary_chain_key (seq_from_u8 3) in
  expect gs := grouped_endpoint_candidates [mkTagged (str "h3") endpoint (Some fallback)] in
  match gs with
  | [g] => primary_group g 3 && (first_tag g == Some (str "h3"))
  | _ => false
  end.

Example candidate_tests_pass :
  tests_pass [endpoint_lookup_constructors_encode_valid_states;
              family_filter_removes_mismatched_endpoints_and_empty_groups;
              grouping_preserves_input_order_between_primary_sequences;
              grouping_ignores_secondary_records; sequence_query_selects_ordered_group_pairs;
              grouping_uses_fallback_chain_key_for_unmarked_endpoint].
Proof. vm_compute. reflexivity. Qed.
End CandidateTests.

(** ** Selection of one group *)
Module GroupTests.
Definition direct (a : SocketAddr) (main : bool) (n : Z) : option EndpointAddr :=
  sequenced (match a with V4 a => direct_v4 a | V6 a => direct_v6 a end) main n.
Definition at_ (d : Z) (main : bool) (n : Z) : option EndpointAddr :=
  direct (V4 (socket_v4 192 0 2 d 4433)) main n.
Definition plain (d : Z) : Dquic.EndpointAddr := direct_to (socket_v4 192 0 2 d 4433).

Definition selected_endpoint_addrs_uses_first_primary_chain_key_group : bool :=
  expect secondary := at_ 20 false 0 in
  expect primary_a := at_ 10 true 2 in
  expect primary_b := at_ 11 true 2 in
  selected_endpoint_addrs [secondary; primary_a; primary_b] == Some [plain 10; plain 11].

Definition selected_endpoint_addrs_returns_empty_when_no_primary_exists : bool :=
  expect secondary_a := at_ 20 false 5 in
  expect secondary_b := at_ 21 false 5 in
  expect other_secondary := at_ 30 false 6 in
  selected_endpoint_addrs [secondary_a; secondary_b; other_secondary] == Some [].

Definition selected_endpoint_addrs_treats_missing_sequence_as_zero : bool :=
  expect first := at_ 40 true 0 in
  let first := set_clustered first false in
  expect second := at_ 41 true 0 in
  expect selected := selected_endpoint_addrs [first; second] in
  blen selected =? 2.

Definition selected_endpoint_records_uses_one_chain_key_across_sources : bool :=
  expect a := at_ 50 true 3 in
  expect b := at_ 51 true 4 in
  expect c := at_ 52 true 3 in
  selected_endpoint_records [(str "wifi", a); (str "ethernet", b); (str "wifi", c)]
  == Some [(str "wifi", plain 50); (str "wifi", plain 52)].

Definition selected_endpoint_addrs_for_sequence_filters_requested_primary_group : bool :=
  expect a := at_ 10 true 0 in
  expect b := at_ 11 true 0 in
  expect c := at_ 20 true 1 in
  expect d := at_ 30 false 1 in
  selected_endpoint_addrs_for_sequence [a; b; c; d] (Some (seq_from_u8 1)) == Some [plain 20].

Definition selected_endpoint_addrs_for_sequence_returns_empty_when_primary_sequence_missing : bool :=
  expect a := at_ 10 true 0 in
  expect b := at_ 20 false 2 in
  selected_endpoint_addrs_for_sequence [a; b] (Some (seq_from_u8 9)) == Some [].

Definition selected_endpoint_records_for_sequence_uses_fallback_chain_key_when_packet_omits_it : bool :=
  let endpoint := direct_v4 (socket_v4 192 0 2 60 4433) in
  expect fallback := primary_chain_key (seq_from_u8 1) in
  selected_endpoint_records_with_fallback_chain_keys
    [(str "wifi", endpoint, Some fallback)] (Some (seq_from_u8 1))
  == Some [(str "wifi", plain 60)].

Example group_tests_pass :
  tests_pass [selected_endpoint_addrs_uses_first_primary_chain_key_group;
              selected_endpoint_addrs_returns_empty_when_no_primary_exists;
              selected_endpoint_addrs_treats_missing_sequence_as_zero;
              selected_endpoint_records_uses_one_chain_key_across_sources;
              selected_endpoint_addrs_for_sequence_filters_requested_primary_group;
              selected_endpoint_addrs_for_sequence_returns_empty_when_primary_sequence_missing;
              selected_endpoint_records_for_sequence_uses_fallback_chain_key_when_packet_omits_it].
Proof. vm_compute. reflexivity. Qed.
End GroupTests.

(** ** Published packets *)
Module PublishTests.
(** The certificate of a test authority: its sequence, its kind and its name. *)
Definition authority_with_chain (name : bytes) (sequence kind : Z) : LocalAuthority :=
  mkLocalAuthority [[sequence; kind] ++ name] [1; 9; 9] (fun _ _ => Err SigningFailed).
Definition authority (name : bytes) : LocalAuthority := authority_with_chain name 0 0.

(** [LocalAuthority::name] and the subject key identifier of these certificates. *)
Definition name_of (a : LocalAuthority) : bytes :=
  match authority_certificates a with (_ :: _ :: name) :: _ => name | _ => [] end.
Definition chain_of_certificates (certificates : list bytes) : Result CertificateChainKey bytes :=
  match certificates with
  | (sequence :: kind :: _) :: _ =>
      Ok (CertificateChainKey_new (seq_from_u8 sequence)
            (if kind =? 0 then ClientAndServer else ClientOnly))
  | _ => Err (str "no certificate")
  end.

Definition test_endpoint : Dquic.EndpointAddr := direct_to (socket_v4 203 0 113 10 4433).
Definition CLIENT : bytes := str "client.example.com.dhttp.net".

Definition packet_for (a : LocalAuthority) (name : bytes) (eps : list Dquic.EndpointAddr) :=
  dns_packet_for_authority name_of chain_of_certificates a name eps.
Definition endpoints_for (a : LocalAuthority) (name : bytes) (eps : list Dquic.EndpointAddr) :=
  dns_endpoints_for_authority name_of chain_of_certificates a name eps.

Definition dns_packet_for_authority_encodes_chain_key_from_authority_ski : bool :=
  unwrap packet := packet_for (authority CLIENT) CLIENT [test_endpoint] in
  expect packet := packet in
  unwrap (remain, parsed) := be_packet packet in
  (remain == []) && (blen (answers parsed) =? 1) &&
  expect a := head (answers parsed) in
  (rr_name a == CLIENT) && (rr_typ a == RType.E) &&
  match rr_data a with
  | RData.E encoded =>
      negb (is_signed encoded) && is_main encoded && (seq_get (normalized_sequence encoded) =? 0)
  | _ => false
  end.

(** [show] is the text of a socket address. *)
Definition preserves_relay (show : SocketAddr -> bytes) (pair : SocketAddr * SocketAddr) : bool :=
  let '(agent, outer) := pair in
  let relay := Dquic.Mediate agent outer in
  unwrap packet := packet_for (authority CLIENT) CLIENT [relay] in
  expect packet := packet in
  unwrap (remain, parsed) := be_packet packet in
  (remain == []) && (blen (answers parsed) =? 1) &&
  expect a := head (answers parsed) in
  match rr_data a with
  | RData.E encoded =>
      is_nat encoded && (addr encoded == outer) && (agent_addr encoded == Some agent)
      && (endpoint_display show encoded == show outer ++ str "-" ++ show agent)
      && (dquic_try_from_endpoint encoded == Ok relay)
  | _ => false
  end.

Definition dns_packet_preserves_relay_outer_agent_and_nat_flag (show : SocketAddr -> bytes) : bool :=
  forallb (preserves_relay show)
    [(V4 (socket_v4 8 8 8 8 20002), V4 (socket_v4 1 1 1 1 51000));
     (V6 (mkSocketAddrV6 0x20014860486000000000000000008888 20002 0 0),
      V6 (mkSocketAddrV6 0x26064700470000000000000000001111 51000 0 0))].

Definition dns_packet_for_authority_rejects_name_mismatch : bool :=
  match packet_for (authority CLIENT) (str "other.example.com.dhttp.net") [test_endpoint] with
  | Ok _ => false
  | Err error => display_encode_error error == str "publisher authority name does not match dns name"
  end.

Definition dns_packet_for_authority_allows_empty_endpoint_set : bool :=
  unwrap packet := packet_for (authority CLIENT) CLIENT [] in
  expect packet := packet in
  unwrap (remain, parsed) := be_packet packet in
  (remain == []) && (blen (answers parsed) =? 0).

Definition dns_endpoints_for_primary_authority_stamp_sequence_metadata : bool :=
  unwrap encoded := endpoints_for (authority_with_chain CLIENT 7 0) CLIENT [test_endpoint] in
  (blen encoded =? 1) &&
  expect e := head encoded in
  is_main e && (seq_get (normalized_sequence e) =? 7).

Definition dns_endpoints_for_secondary_authority_reject_non_empty_publication : bool :=
  match endpoints_for (authority_with_chain CLIENT 7 1) CLIENT [test_endpoint] with
  | Ok _ => false
  | Err error => display_encode_error error == str "secondary authority cannot publish dns endpoints"
  end.

Definition dns_endpoints_for_secondary_authority_allows_empty_clear : bool :=
  unwrap encoded := endpoints_for (authority_with_chain CLIENT 7 1) CLIENT [] in
  blen encoded =? 0.

(** Of src/core/wire.rs: the chain of the publisher's certificate. *)
Definition publisher_chain_key_uses_current_dhttp_certificate_format : bool :=
  expect certificate := head (authority_certificates
                                (authority_with_chain (str "demo.dhttp.net") 7 0)) in
  let record := ResponseRecord_unsigned [] certificate in
  expect chain := publisher_certificate_chain_key
                    (fun cert => result_ok (chain_of_certificates [cert])) record in
  (seq_get (chain_sequence chain) =? 7) && (kind_flag (chain_usage chain) == str "0").

(** Of src/core/signature.rs: [authority] signs, [other] is another one; [now] is the time
    since the epoch. *)
Definition qtls_authority_signatures_verify_and_reject_tampering (authority other : LocalAuthority)
    (now : option Z) : bool :=
  unwrap fields := SignatureFields_sign now (str "dns packet") authority in
  expect certificate := head (authority_certificates authority) in
  unwrap good := SignatureFields_verify fields (str "dns packet") certificate in
  good
  && SignatureTests.is_digest_mismatch (SignatureFields_verify fields (str "changed") certificate) &&
  expect other_certificate := head (authority_certificates other) in
  unwrap bad := SignatureFields_verify fields (str "dns packet") other_certificate in
  negb bad.

(** Another Ed25519 authority. *)
Definition other_authority : LocalAuthority :=
  mkLocalAuthority [[1; 8; 8]] [1; 8; 8] (fun _ data => Ok ([8; 8] ++ data)).

Definition sample_show (a : SocketAddr) : bytes :=
  match a with
  | V4 a => decimal (v4_ip a) ++ str ":" ++ decimal (v4_port a)
  | V6 a => decimal (v6_ip a) ++ str ":" ++ decimal (v6_port a)
  end.

Example publish_tests_pass :
  tests_pass [dns_packet_for_authority_encodes_chain_key_from_authority_ski;
              dns_packet_preserves_relay_outer_agent_and_nat_flag sample_show;
              dns_packet_for_authority_rejects_name_mismatch;
              dns_packet_for_authority_allows_empty_endpoint_set;
              dns_endpoints_for_primary_authority_stamp_sequence_metadata;
              dns_endpoints_for_secondary_authority_reject_non_empty_publication;
              dns_endpoints_for_secondary_authority_allows_empty_clear;
              publisher_chain_key_uses_current_dhttp_certificate_format;
              qtls_authority_signatures_verify_and_reject_tampering fields_authority other_authority
                (Some 1700000000)].
Proof. vm_compute. reflexivity. Qed.
End PublishTests.

(** ** Requests and responses *)
Module RequestTests.
(** [application/x-www-form-urlencoded]. *)
Definition upper_hex_digit (d : Z) : Z := if d <? 10 then 48 + d else 55 + d.
Definition form_encode (l : bytes) : bytes :=
  flat_map (fun b =>
    if is_ascii_digit b || in_range 65 90 b || in_range 97 122 b || bool_decide (b ∈ str "*-._") then [b]
    else if b =? 32 then str "+"
    else str "%" ++ [upper_hex_digit (b / 16); upper_hex_digit (b mod 16)]) l.

(** A parsed URL; joining an absolute path and appending a query pair. *)
Record ParsedUrl := mkParsedUrl { pu_host : bytes; pu_path : bytes; pu_query : option bytes }.

#[local] Instance parsed_url : UrlApi := {|
  Url := ParsedUrl;
  url_scheme _ := str "https";
  url_host_str u := Some (pu_host u);
  url_username _ := [];
  url_password _ := None;
  url_path := pu_path;
  url_query := pu_query;
  url_fragment _ := None;
  url_join u path := Some (mkParsedUrl (pu_host u) path None);
  url_append_pair u k v :=
    mkParsedUrl (pu_host u) (pu_path u)
      (Some (match pu_query u with Some q => q ++ str "&" | None => [] end
             ++ form_encode k ++ str "=" ++ form_encode v));
|}.

Definition as_str (u : ParsedUrl) : bytes :=
  str "https://" ++ pu_host u ++ pu_path u
  ++ match pu_query u with Some q => str "?" ++ q | None => [] end.

(** [HeaderMap::insert] and [HeaderMap::append]. *)
Definition header_append (name value : bytes) (h : list (bytes * bytes)) : list (bytes * bytes) :=
  h ++ [(name, value)].
Definition header_insert (name value : bytes) (h : list (bytes * bytes)) : list (bytes * bytes) :=
  header_append name value (List.filter (fun '(k, _) => negb (bool_decide (k = name))) h).

Definition no_store_and_no_cache_override_dns_ttl_and_every_cache_control_field : bool :=
  forallb (fun directive =>
    let headers := header_insert CACHE_CONTROL (str "max-age=60") [] in
    let headers := header_append CACHE_CONTROL directive headers in
    freshness (from_secs 300) headers =? 0)
    [str "no-store"; str "NO-CACHE"; str "no-cache=" ++ quote ++ str "e-record" ++ quote].

Definition ordinary_freshness_still_uses_dns_http_and_age : bool :=
  let headers := header_insert CACHE_CONTROL (str "max-age=60") [] in
  let headers := header_insert AGE (str "10") headers in
  (freshness (from_secs 300) headers =? from_secs 50) && (freshness (from_secs 5) headers =? 0).

Definition origin_validation_blocks_recursive_and_non_origin_urls : bool :=
  match validate_server_origin (mkParsedUrl (str "dns.dhttp.net") (str "/") None) true with
  | Err DhttpOrigin => true
  | _ => false
  end
  && match validate_server_origin (mkParsedUrl (str "dns.example") (str "/api") None) true with
     | Err HasPathQueryOrFragment => true
     | _ => false
     end
  && is_ok (validate_server_origin (mkParsedUrl (str "dns.example") (str "/") None) true).

Definition bounded_reader_accepts_limit_and_rejects_limit_plus_one : bool :=
  let exact := [Ok (FrameData (str "1234"))] in
  let over := [Ok (FrameData (str "12345"))] in
  unwrap body := read_body_limited exact 4 [] in
  (body == str "1234")
  && match read_body_limited over 4 [] with Err BodyTooLarge => true | _ => false end.

(** [roots] is the number of usable roots, [build] the outcome of building the client. *)
Definition rejects_non_origin_url_before_building_client (roots : Z) (build : Result unit bytes) : bool :=
  match HttpResolver_new (Source := unit) (mkParsedUrl (str "dns.example") (str "/api") None) roots
          build with
  | Err (InvalidOrigin _) => true
  | _ => false
  end.

Definition lookup_url_encodes_exact_sequence : bool :=
  let lookup := lookup_exact (seq_from_u8 1) in
  expect url := lookup_url (mkParsedUrl (str "dns.example") (str "/") None)
                  (str "demo.dhttp.net") lookup in
  as_str url == str "https://dns.example/api/v2/lookup?host=demo.dhttp.net&sequence=1".

Definition publish_url_percent_encodes_name : bool :=
  expect url := publish_url (mkParsedUrl (str "dns.example:4433") (str "/") None)
                  (str "demo name.dhttp.net") in
  as_str url == str "https://dns.example:4433/api/v2/publish?host=demo+name.dhttp.net".

Definition invalid_lease (r : Result Z H3PublishError.t) : bool :=
  match r with Err H3PublishError.InvalidLease => true | _ => false end.
Definition lease_is (r : Result Z H3PublishError.t) (lease : Z) : bool :=
  match r with Ok l => l =? lease | Err _ => false end.

Definition requires_one_numeric_header_with_matching_clear_semantics : bool :=
  let publish_lease := publish_lease (fun _ => true) in
  let headers := [] in
  lease_is (publish_lease headers false) (from_secs 300) && lease_is (publish_lease headers true) 0
  && forallb (fun value =>
       invalid_lease (publish_lease (header_insert LEASE_HEADER value headers) false))
       [[]; str "-1"; str "+1"; str "1.5"; str "18446744073709551616"; str "30000,30000"] &&
  let headers := header_insert LEASE_HEADER (str "30000") headers in
  lease_is (publish_lease headers false) (from_secs 30) && invalid_lease (publish_lease headers true) &&
  let headers := header_append LEASE_HEADER (str "30000") headers in
  invalid_lease (publish_lease headers false) &&
  let headers := header_insert LEASE_HEADER (str "0") headers in
  lease_is (publish_lease headers true) 0 && invalid_lease (publish_lease headers false) &&
  let headers := header_insert LEASE_HEADER (str "1") headers in
  lease_is (publish_lease headers false) (from_millis 1).

(** A [DnsName] that ends in a number is an address. *)
Definition dns_name (name : bytes) : bool :=
  match last (split_on dot name) with
  | Some label => negb (is_empty_bytes label) && negb (is_number label)
  | None => false
  end.

Definition parses_name_and_optional_certificate_sequence : bool :=
  (resolvable_name dns_name (str "127.0.0.1:443") == None) &&
  expect (name, sequence) := endpoint_lookup_name_and_sequence dns_name (str "demo.dhttp.net:2") in
  (name == str "demo.dhttp.net") &&
  expect sequence := sequence in
  seq_get sequence =? 2.

Example request_tests_pass :
  tests_pass [no_store_and_no_cache_override_dns_ttl_and_every_cache_control_field;
              ordinary_freshness_still_uses_dns_http_and_age;
              origin_validation_blocks_recursive_and_non_origin_urls;
              bounded_reader_accepts_limit_and_rejects_limit_plus_one;
              rejects_non_origin_url_before_building_client 1 (Ok tt);
              lookup_url_encodes_exact_sequence;
              publish_url_percent_encodes_name;
              requires_one_numeric_header_with_matching_clear_semantics;
              parses_name_and_optional_certificate_sequence].
Proof. vm_compute. reflexivity. Qed.
End RequestTests.

(** ** Multicast DNS *)
Module MdnsTests.
Definition local_name_replaces_dhttp_suffix (DHTTP_SUFFIX : bytes) : bool :=
  local_name DHTTP_SUFFIX (str "_gensokyo.local") (str "reimu.pilot.dhttp.net")
  == str "reimu.pilot._gensokyo.local".

(** Reconciliation with the outcome of [bind], where every task stops; the map and the set of
    bindings are traversed in some order. *)
Definition reconciled (bind : MdnsBinding -> option MdnsBindError) (s : ResolverSet)
    (bindings : list MdnsBinding) : ResolverSet * list MdnsReconcileError :=
  reconcile bind (fun _ => None) map_snapshot remove_dups s bindings.
Definition no_error (errors : list MdnsReconcileError) : bool :=
  match errors with [] => true | _ => false end.
Definition instances (s : ResolverSet) : list nat := map snd (map_to_list (resolvers s)).

(** The task of [maintain] wakes up once before the shutdown and once after it. *)
Definition shutdown_stops_snapshot_maintenance (period : Z) : bool :=
  let set := ResolverSet_new in
  let tick := mkTick (Ok []) (fun _ => None) (fun _ => None) in
  let '(set, started) := maintain map_snapshot remove_dups set period tick in
  is_ok started &&
  expect set := maintain_tick map_snapshot remove_dups set tick in
  let '(set, stopped) := shutdown (fun _ => None) set in
  is_ok stopped && bool_decide (maintain_tick map_snapshot remove_dups set tick = None).

(** The outcome is the same for every [tick]: its snapshot is not consulted. *)
Definition zero_maintenance_interval_is_rejected_before_snapshot (tick : Tick) : bool :=
  match maintain map_snapshot remove_dups ResolverSet_new 0 tick with
  | (_, Err ZeroInterval) => true
  | _ => false
  end.

Definition reconciliation_preserves_live_instances_and_retires_obsolete_ones : bool :=
  let bind (_ : MdnsBinding) : option MdnsBindError := None in
  let binding := mkMdnsBinding (str "lo") (IpV4 (ipv4 127 0 0 1)) in
  let set := ResolverSet_new in
  let '(set, errors) := reconciled bind set [binding; binding] in
  no_error errors &&
  let first := instances set in
  (blen first =? 1) &&
  let '(set, errors) := reconciled bind set [binding] in
  no_error errors && bool_decide (head (instances set) = head first) &&
  let '(set, errors) := reconciled bind set [] in
  no_error errors && bool_decide (instances set = []) &&
  let '(set, errors) := reconciled bind set [binding] in
  no_error errors && negb (bool_decide (head (instances set) = head first)) &&
  let '(set, stopped) := shutdown (fun _ => None) set in
  is_ok stopped &&
  match (reconciled bind set [binding]).2 with
  | [ReconcileBind _ BindClosed] => true
  | _ => false
  end.

(** The bindings that failed because of the name of the service; [None] for another error. *)
Fixpoint invalid_names (errors : list MdnsReconcileError) : option (list MdnsBinding) :=
  match errors with
  | [] => Some []
  | ReconcileBind binding BindInvalidServiceName :: errors =>
      l ← invalid_names errors; Some (binding :: l)
  | _ => None
  end.

Definition bind_with (service : bytes) (b : MdnsBinding) : option MdnsBindError :=
  match mdns_bind service (binding_device b) (binding_ip b) (fun _ _ => Ok tt) with
  | Ok _ => None
  | Err error => Some error
  end.

Fixpoint attempts (n : nat) (set : ResolverSet) (first second : MdnsBinding) : bool :=
  match n with
  | O =>
      (blen (instances set) =? 0) && no_error (reconciled (bind_with (str "invalid")) set []).2
  | S n =>
      let '(set, errors) := reconciled (bind_with (str "invalid")) set [first; first; second] in
      (blen errors =? 2) &&
      expect failed := invalid_names errors in
      forallb (fun b => bool_decide (b ∈ failed)) [first; second]
      && forallb (fun b => bool_decide (b ∈ [first; second])) failed
      && attempts n set first second
  end.

Definition reconciliation_attempts_every_unique_binding_and_retries_failures : bool :=
  let first := mkMdnsBinding (str "test0") (IpV4 (ipv4 192 0 2 1)) in
  let second := mkMdnsBinding (str "test1") (IpV6 (DOC_V6 + 1)) in
  attempts 2 ResolverSet_new first second.

Definition binding_and_scope_are_platform_independent_values : bool :=
  let binding := mkMdnsBinding (str "en0") (IpV4 (ipv4 192 0 2 1)) in
  (binding_device binding == str "en0") && (binding_family binding == FamilyV4)
  && is_some (mdns_lookup_parts RequestTests.dns_name (str "node.dhttp.net:2"))
  && is_some (mdns_lookup_parts RequestTests.dns_name (str "printer.local"))
  && negb (is_some (mdns_lookup_parts RequestTests.dns_name (str "example.com"))).

Example mdns_tests_pass :
  tests_pass [local_name_replaces_dhttp_suffix (str ".dhttp.net");
              shutdown_stops_snapshot_maintenance 1000000;
              zero_maintenance_interval_is_rejected_before_snapshot
                (mkTick (Err (str "no snapshot")) (fun _ => None) (fun _ => None));
              reconciliation_preserves_live_instances_and_retires_obsolete_ones;
              reconciliation_attempts_every_unique_binding_and_retries_failures;
              binding_and_scope_are_platform_independent_values].
Proof. vm_compute. reflexivity. Qed.
End MdnsTests.

(** ** Aggregates and configuration *)
Module AggregateTests.
(** [TestPublisher]. *)
Definition test_publisher (label : bytes) (succeeds : bool) : Publisher :=
  mkPublisher label (fun _ eps =>
    if succeeds && (blen eps =? 1) then Ok tt else Err (io_other (str "failed") None)).

(** [reorder] is the order in which the publications complete. *)
Definition fans_out_one_snapshot_and_reports_partial_failure
    (reorder : list (bytes * Result unit StdError) -> list (bytes * Result unit StdError)) : bool :=
  let publishers := push_publisher (push_publisher Publishers_new (test_publisher (str "ok") true))
                      (test_publisher (str "bad") false) in
  unwrap report := publish_all publishers (str "demo.dhttp.net")
                     [direct_to (socket_v4 192 0 2 1 443)] reorder in
  is_partial report && (blen (successes report) =? 1) && (blen (failures report) =? 1).

(** The text of the registry is that of its members. *)
Definition repeated_installation_does_not_duplicate_sources (build : DnsScheme.t -> Result unit bytes)
  : bool :=
  let schemes := [DnsScheme.System] in
  let '(s, installed) := install_resolvers build Installed_default schemes in
  is_ok installed &&
  let before := registry s in
  let '(s, installed) := install_resolvers build s schemes in
  is_ok installed && (registry s == before).

(** [DuplicateResolver]: it answers with the same record twice, whatever is asked, so it
    promises nothing about families. *)
Definition duplicate_record : unit * Dquic.EndpointAddr := (tt, direct_to (socket_v4 192 0 2 1 443)).
Definition duplicate_lookup : Resolve unit unit unit :=
  fun self _ _ _ _ => (self, Some (Ok [duplicate_record; duplicate_record])).

Lemma duplicate_contract :
  ResolveContract duplicate_lookup dquic_addr (fun _ => False) (fun _ => True) (fun _ _ => True).
Proof. by split. Qed.

Definition duplicate_resolver : ArcResolver (Source := unit) (World := unit) dquic_addr :=
  mkArcResolver dquic_addr (str "duplicate") unit duplicate_lookup (fun _ => False) (fun _ => True)
    (fun _ _ => True) duplicate_contract tt.

Definition standard_lookup_deduplicates_source_and_endpoint_pair (sched : nat -> nat) : bool :=
  expect records := (resolvers_lookup dquic_addr [duplicate_resolver] (str "demo.dhttp.net") (str "443")
                       None tt (fun l => l) sched).2 in
  unwrap records := records in blen records =? 1.

Example aggregate_tests_pass :
  tests_pass [standard_lookup_deduplicates_source_and_endpoint_pair (fun n => n);
              fans_out_one_snapshot_and_reports_partial_failure (fun l => l);
              fans_out_one_snapshot_and_reports_partial_failure (fun l => reverse l);
              repeated_installation_does_not_duplicate_sources (fun _ => Err (str "no network"))].
Proof. vm_compute. reflexivity. Qed.
End AggregateTests.
